(* ===== verification/_CoqProject ===== *)
-Q . S2P
Prelude.v
JsNum.v
RealNum.v
FloatNum.v
DRState.v
Heading.v
Motion.v
Direction.v
Geo.v
Dedup.v
Session.v
Drift.v
Refine.v
Views.v
Shell.v
Async.v
Rounded.v
Robust.v
