(* ===== verification/Prelude.v ===== *)
(** * Verification of the SmartNav dead-reckoning module

    The program is a React application of three components:

    - [src/src/components/DRModule.jsx]: the dead-reckoning estimator.  It
      keeps React state (velocity, position, path, heading, GPS fix, flags)
      and a set of mutable refs that mirror it, and registers two sensor
      callbacks.  [handleDeviceOrientation] turns a compass sample into a
      heading (tilt compensation, low-pass filter, platform correction,
      interference flag).  [handleDeviceMotion] integrates a linear
      acceleration sample into velocity, position and path (time-step guard,
      stationary detection, bias learning, deadzone, rotation, damped
      integration).  [clearPath], [startMonitoring] and [stopMonitoring]
      are the session controls.
    - [src/src/components/PathVisualizer.jsx]: the georeferencing
      correlator.  One effect projects the path onto latitude/longitude
      around the current GPS fix; the other accumulates a trace of GPS fixes
      with suppression of points closer than 0.5 m to a stored one.
    - [App], whose text follows [DRModule] in the same source file (lines
      567-752): the shell that shows the landing page or one module, and so
      mounts and unmounts [DRModule].

    ** Layout

    - [Prelude] (this file): scopes, tactics, hint databases, lemmas on
      lists and booleans, and the reachability closure used by the state
      machines.
    - [JsNum]: JavaScript values ([jsval]), the interface to the Number type
      ([JsNumber]: literals, [+ - * / %], comparisons, [Number.isNaN],
      truthiness) and to the host's Math object ([JsMath]: cos, sin, atan2,
      exp, hypot, pow, sqrt, abs), the derived operators of the language
      ([??], [||], [typeof x === "number"]), and the [Vec2] record.
    - [RealNum]: the ideal instance of both interfaces on the real numbers,
      with the JavaScript remainder and [atan2] defined on [R], their range
      lemmas, and the tactics that decide comparisons of reals.
    - [FloatNum]: the executable instance on binary64 (primitive floats):
      the operators of the language with an exact remainder, one conforming
      Math library to evaluate examples, and [JsMathLaws], the special values
      ECMAScript fixes for every Math library, with the lemmas on the
      propagation of NaN and infinities.
    - [DRState]: the state of [DRModule] (the [useState] values and the
      [useRef] cells, lines 10-53), its setters and the initial state.
    - [Heading]: [handleDeviceOrientation] (lines 56-121), one definition
      per stage ([orientationAngles], [tiltCompensate], [lowPass],
      [platformHeading], [interference], [raiseCalibrating],
      [calibrationTimeout]).  Theorems: the guard as a type test, what the
      callback writes and what it leaves alone, the malformed-sample path,
      the range of each stage and of the published heading on reals, what
      tilt compensation does to a pitched device, and the behaviour of the
      interference pulse.
    - [Motion]: [handleDeviceMotion] (lines 124-212) and [clearPath] (lines
      263-268), again one definition per stage ([displaySensors],
      [eventTime], [rejectDelta], [countStationary], [learnBias],
      [holdStationary], [deadzoneOf], [rotateToWorld], [integrateVelocity],
      [integratePosition], [integrateSample], [acceptSample]).  Theorems:
      the callback on each of its branches (no acceleration, first sample,
      rejected time step, stationary hold, integration), the invariants it
      keeps (refs mirror the published cells, the path ends at the
      position, the path only grows), and on reals the dead zone, the
      isometry of the rotation, the decay and the bound of the damped
      velocity, the convergence of the bias, and the behaviour over
      sequences of quiet samples ([feed]).
    - [Direction]: headings up to whole turns, on reals.  The motion
      callback respects the relation ([Proper] instances for the rotation,
      the callback and [feed]), so a heading of 360 or an azimuth outside
      one turn integrates to the same trajectory; the low-pass filter does
      not: across north it publishes a heading farther from the reading
      than the stored one was.
    - [Geo]: the two effects of [PathVisualizer] ([projectEffect], lines
      51-80; [trackEffect], lines 83-109) and the guard of
      [MapBoundsHandler].  Theorems: when the projected trace is empty, the
      inverse of the projection, the separation invariant of the GPS trace
      and that it is an append-only log, and the two examples of the
      specification.
    - [Dedup]: a reference definition of the GPS trace by well-founded
      recursion ([dedupRef]) and the proof that the incremental loop of
      [trackEffect] computes it; from it, the length bound and the coverage
      of the trace.
    - [Session]: [startMonitoring], [stopMonitoring], the GPS effect with
      its callbacks and cleanup, the unmount cleanup (lines 215-334), the
      host's geolocation service as a record, and the event loop as a step
      relation [step] over [App.t] with the executable [run].  Theorems:
      the outcome of [startMonitoring] on each branch, invariants of every
      reachable state (listeners registered exactly while monitoring, at
      most one position watch and none leaked, a raised calibrating flag
      always has a timer, the GPS trace stays separated), the path as an
      append-only log between two resets, and the termination of the
      calibration timers.
    - [Drift]: the motion callback over a whole session, on reals.  When
      every raw reading is within [A] on each axis, the bias stays within
      [A], the velocity within [4 A], and the position moves by at most
      [4 A] times the time elapsed between the baselines
      ([displacement_bounded]); the bound on bias and velocity and the
      range of the heading are invariants of the event loop of [Session],
      through resets, commits, stops and restarts
      ([session_estimate_bounded]).
    - [Refine]: the abstract machine [Nav] (one owned state per component,
      one operation per input, no ref and no effect), the abstraction
      function [abs], the schedule with a commit after every event ([turn])
      and the forward simulation: every turn of the code is a step of
      [Nav], from the mount on.  Invariants proved on [Nav] are carried to
      the code by the simulation, and the states between turns are fixed
      points of the effects ([quiescent]): one pass of effects per event is
      all that React has to run.  Between two commits the two sensor
      callbacks commute: a published heading reaches the integrator only
      through the mirror effect of a commit.  [schedule] interleaves a
      list of events with their effects, and [schedule_refines] is the
      simulation over it; the internal events [Commit], [ProjectEffect] and
      [TrackEffect] are idempotent on reals, which is why a schedule that
      runs an effect React would have skipped reaches the same state.
    - [Views]: what [DRModule] (lines 336-557) and [PathVisualizer] (lines
      111-235) render, as records of the choices the markup makes
      ([render], [pvRender]).  Theorems: the status badge against the
      listeners, the GPS badge against the watch, the alternatives of the
      GPS panel, the placeholder that can never stay on screen, the
      condition of the polyline, and that a motion sample that extends the
      path changes the coordinates [MapBoundsHandler] depends on, so the
      map is refitted at every integrated sample.
    - [Shell]: the [App] component (lines 567-752): [activeModule], its
      setters, the landing page and the module view, and the mounting and
      unmounting of [DRModule] at a commit, as a step relation [shellStep]
      around the event loop of [Session].  Theorems: the instance is
      mounted exactly while its view is displayed, leaving releases the
      sensors, coming back starts afresh.
    - [Async]: [startMonitoring] as the asynchronous function it is (lines
      215-252).  A call runs up to its first [await] ([beginStart]), is
      kept as a [Suspended] continuation with the fate of the promise it
      waits for, and is resumed by a [Settles] event ([resume]); any event
      of the browser may be handled in between ([ahandle], [arun]).
      Theorems: the part of the call before the first [await] commutes
      to the right of every event a permission prompt lets through, so a
      run in which the call is suspended reaches the state of a run of
      [Session] in which the whole call happens at one point
      ([async_start_reduces]); the invariants of [Session] and the
      simulation to [Nav] therefore hold of the asynchronous program; and
      the case the reduction excludes, an unmount while the call is
      suspended, registers the two sensor listeners on a component that is
      gone and never removes them.
    - [Rounded]: the handlers on real numbers with a rounding after every
      operation ([Fl_JsNumber], [Fl_JsMath]), for any operator that
      satisfies the laws of IEEE 754 rounding the proofs use ([Rounding]:
      monotone, exact on small integers; [Accurate]: the standard model
      with unit roundoff [u] and underflow [eta]).  Theorems: the tilt
      branch still ends in [[0, 360)], the filter is monotone and the
      published heading stays in [[0, 360]] along any session; the
      time-step guard accepts every step of a millisecond or more; the
      projection example of the specification is exact; the drift that
      rounding adds to the integrated position is linear in the number of
      samples.
    - [Robust]: the handlers on binary64.  Theorems, for every Math library
      that satisfies [JsMathLaws]: a NaN time stamp, an infinite
      acceleration and an infinite azimuth are accepted and leave
      non-finite values that later samples never repair; finite inputs
      whose product overflows do the same; and the examples of the
      specification evaluated on floats.

    ** How the code is modelled

    Every handler is one Rocq function from the state and the event to the
    next state; it is written once, generic in the number interface, so the
    same definition is read on reals and run on binary64.  A [setX(v)] call
    of React is a write of the state field (the last write before a render
    wins, and the sensor callbacks never read React state, only refs); a
    [ref.current = v] is a write of the ref field.  The mirror effects of
    lines 42-53 run at a commit: [syncRefs], inside the [Commit] event of
    [Session].  A [setTimeout] is a pending-timer counter and its callback
    is the [TimerFires] event.  An early [return] is the branch that
    returns the state reached so far.  Event fields that the browser may
    leave null or undefined are [jsval]s.  In [Session] the two [await]s
    of [startMonitoring] are resolved inside the step of the click; [Async]
    models the suspended call, with the promise of each
    [requestPermission] settled by an event of its own, and proves when
    the one-step reading is sound.  A render is a function
    from the state to a view; a view keeps the conditions and the values of
    the markup and drops its static text.

    The event loop [step] lets the effects of [PathVisualizer] run at any
    step with the props of that moment; React runs them only when a
    dependency changed, so every schedule of React is a path of [step] and
    the invariants proved for all reachable states hold for it.  [turn] of
    [Refine] is the schedule in which the effects and the commit follow
    each event at once (the effects of the child [PathVisualizer] in the
    order of their declaration, then those of [DRModule]); theorems stated
    over [runTurns] hold for that schedule only, and say so.

    Theorems come in four kinds.  Structural theorems hold for every
    instance of the number interface, so they hold of the code as executed
    on IEEE doubles with any Math implementation; the stationary
    convergence and the separation of the ground-truth trace are of this
    kind, stated with the tests of the code, and the real instance reads
    the tests as the physical conditions.  Numeric theorems (ranges, decay,
    projection) are proved on the real instance [R_JsNumber]: they describe
    the computation without rounding, overflow or non-finite values, and
    say so in their statements by their types.  A quotient of reals by zero
    is zero in Rocq and an infinity or NaN in JavaScript, so the theorems
    that divide by [metersPerLonDegree] assume a reference off the poles
    ([not_polar]), where the two agree.  The theorems of [Rounded]
    hold for every arithmetic that rounds as IEEE 754 does and does not
    overflow: they say which of the numeric theorems survive rounding and
    by how much a result can move.  The theorems of [Robust] are proved on
    binary64 and concern exactly the non-finite values the other instances
    cannot express.

    ** Bounds

    [stationaryCountRef] is a JavaScript number that is only incremented by
    one and reset to zero; it is modelled as [nat], which agrees with the
    code below 2^53 increments.  Watch identifiers are [nat].  No
    definition uses fuel: every handler is a finite composition of
    arithmetic steps, the list traversals ([path.map], [prev.some]) are
    structural, [run], [runTurns], [shellRun], [arun], [feed],
    [feedCompass] and [track] recurse on their list of events (a suspended
    call holds at most two awaits, counted by [awaits] and [remaining]),
    and [dedupRef] recurses on the length of a filtered list, with its
    termination proved where it is defined.  The Math library of
    [FloatNum] evaluates polynomials of fixed degree after a range
    reduction; it is used to compute examples and nothing is claimed about
    its accuracy.

    ** Not modelled

    The bit-level definition of binary64 arithmetic: [Rounded] takes the
    monotonicity and the error bound of IEEE 754 rounding as the laws of a
    class, satisfied here by exact and by fixed-point arithmetic, and does
    not derive them for primitive floats; the accuracy of the host's Math
    functions, which ECMAScript does not fix; the rounding error of the
    velocity update and of the longitude, which depend on it.  The static
    markup, the class names and the formatting of numbers in the two
    [return]s, the Leaflet map widgets and the tile layer: they are
    presentation or library code.  The order
    in which React batches several [setX] calls of one handler.  The
    permission prompt itself: [Async] takes the answer of each promise as
    part of the click and states as a hypothesis ([modal]) which events
    the browser delivers while the prompt is open.  The SLAM
    module, [SensorCard] and the formatters are imported by the sources and
    are not part of them. *)

From Stdlib Require Import List Bool Arith Lia Relations.
Import ListNotations.

(** ** Scopes *)

Declare Scope js_scope.
Delimit Scope js_scope with js.

(** ** Hint databases

    [dr] collects the resolution hints of the development; [dr_simpl] is the
    rewrite database that normalises list and boolean bookkeeping. *)

Create HintDb dr discriminated.
Create Rewrite HintDb dr_simpl.

(** ** Tactics *)

(** Invert a hypothesis and clean up. *)
Ltac inv H := inversion H; subst; clear H.

(** Case on the scrutinee of the first [match] or [if] of the goal. *)
Ltac break_match :=
  match goal with
  | |- context [match ?x with _ => _ end] => destruct x eqn:?
  end.

(** The same in a hypothesis. *)
Ltac break_match_in H :=
  match type of H with
  | context [match ?x with _ => _ end] => destruct x eqn:?
  end.

(** Turn boolean connectives in hypotheses and goal into propositions. *)
Ltac do_bool :=
  repeat match goal with
    | H : andb _ _ = true |- _ => apply andb_true_iff in H; destruct H
    | H : andb _ _ = false |- _ => apply andb_false_iff in H
    | H : orb _ _ = true |- _ => apply orb_true_iff in H
    | H : orb _ _ = false |- _ => apply orb_false_iff in H; destruct H
    | H : negb _ = true |- _ => apply negb_true_iff in H
    | H : negb _ = false |- _ => apply negb_false_iff in H
    | |- andb _ _ = true => apply andb_true_iff; split
    | |- orb _ _ = false => apply orb_false_iff; split
    | |- negb _ = true => apply negb_true_iff
    | |- negb _ = false => apply negb_false_iff
    end.

(** Split every conjunction of the goal. *)
Ltac split_all := repeat match goal with |- _ /\ _ => split end.

(** ** Lists: appending one element

    The path and the GPS trace only ever grow by [l ++ [x]] (the spread
    [[...l, x]] of the source). *)

Section Snoc.
Context {A : Type}.
Implicit Types (l : list A) (x d : A).

Lemma length_snoc l x : length (l ++ [x]) = S (length l).
Proof. rewrite length_app; simpl; lia. Qed.

Lemma last_snoc l x d : last (l ++ [x]) d = x.
Proof. apply last_last. Qed.

Lemma snoc_not_nil l x : l ++ [x] <> [].
Proof. destruct l; discriminate. Qed.

Lemma existsb_snoc (f : A -> bool) l x :
  existsb f (l ++ [x]) = existsb f l || f x.
Proof. rewrite existsb_app; simpl; now rewrite orb_false_r. Qed.

Lemma existsb_false_iff (f : A -> bool) l :
  existsb f l = false <-> Forall (fun y => f y = false) l.
Proof.
  induction l as [|y l IH]; simpl.
  - split; auto.
  - rewrite orb_false_iff, IH. split.
    + intros [? ?]; constructor; auto.
    + intros H; inv H; auto.
Qed.

Lemma Forall_snoc (P : A -> Prop) l x :
  Forall P (l ++ [x]) <-> Forall P l /\ P x.
Proof.
  rewrite Forall_app. split; intros [H1 H2]; split; auto.
  now inv H2.
Qed.

End Snoc.

#[export] Hint Rewrite @length_snoc @last_snoc @existsb_snoc : dr_simpl.
#[export] Hint Resolve snoc_not_nil : dr.

(** ** Ordered pairs of a list

    [ForallOrdPairs]-style predicate with the earlier element first: the
    GPS trace keeps every later point away from every earlier one. *)

Inductive AllPairs {A : Type} (R : A -> A -> Prop) : list A -> Prop :=
| AllPairs_nil : AllPairs R []
| AllPairs_snoc l x :
    AllPairs R l -> Forall (fun y => R y x) l -> AllPairs R (l ++ [x]).

#[export] Hint Constructors AllPairs : dr.

(** The relation holds between the elements at any two positions, the
    earlier first. *)
Lemma AllPairs_nth {A : Type} (R : A -> A -> Prop) l :
  AllPairs R l ->
  forall i j a b, (i < j)%nat ->
    nth_error l i = Some a -> nth_error l j = Some b -> R a b.
Proof.
  induction 1 as [|l x Hl IH Hx]; intros i j a b Hij Ha Hb.
  - destruct i; discriminate.
  - assert (Hj : (j < length (l ++ [x]))%nat) by (apply nth_error_Some; congruence).
    rewrite length_snoc in Hj.
    rewrite nth_error_app1 in Ha by lia.
    destruct (Nat.eq_dec j (length l)) as [->|Hne].
    + rewrite nth_error_app2, Nat.sub_diag in Hb by lia. inv Hb.
      rewrite Forall_forall in Hx. eapply Hx, nth_error_In; eauto.
    + rewrite nth_error_app1 in Hb by lia. eauto.
Qed.

(** ** Reachability

    The event loop is a step relation on states; a state is reachable when a
    finite sequence of steps leads to it.  An invariant is proved once for
    the initial state and once for each step. *)

Section Reach.
Variable S : Type.
Variable step : S -> S -> Prop.

Definition reachable (s0 s : S) : Prop := clos_refl_trans_n1 S step s0 s.

Lemma reachable_refl s : reachable s s.
Proof. constructor. Qed.

Lemma reachable_step s0 s s' : reachable s0 s -> step s s' -> reachable s0 s'.
Proof. intros H1 H2. econstructor; eauto. Qed.

Lemma reachable_trans s0 s1 s2 :
  reachable s0 s1 -> reachable s1 s2 -> reachable s0 s2.
Proof. intros H1 H2. induction H2; eauto using reachable_step. Qed.

Lemma reachable_invariant (P : S -> Prop) s0 :
  P s0 ->
  (forall s s', P s -> step s s' -> P s') ->
  forall s, reachable s0 s -> P s.
Proof. intros H0 Hstep s Hr. induction Hr; eauto. Qed.

End Reach.

Arguments reachable {S} step s0 s.
#[export] Hint Resolve reachable_refl reachable_step : dr.
