(* ===== verification/JsNum.v ===== *)
(** * JsNum: JavaScript values and the interface to numbers

    The sources compute on JavaScript numbers (IEEE binary64) through the
    operators of the language and the functions of the host's [Math] object.
    The handlers of the development are written against the two interfaces
    of this file, so one definition serves the ideal real-number reading
    ([RealNum]) and the executable binary64 reading ([FloatNum]).

    - [jsval]: a value a browser event field may hold (a number, [null] or
      [undefined]).
    - [JsNumber]: what ECMAScript defines exactly on numbers: literals,
      [+ - * / %], unary minus, [<] and [<=], [Number.isNaN], truthiness.
    - [JsMath]: the functions the sources call on [Math].
    - the operators [??], [||] and the guard
      [typeof v === "number" && !Number.isNaN(v)] on [jsval]s.
    - [Vec2]: the [{x, y}] object literal of the sources. *)

From Stdlib Require Import QArith Bool List.
From S2P Require Import Prelude.

(** ** Values *)

Inductive jsval (num : Type) : Type :=
| JUndefined
| JNull
| JNum (n : num).

Arguments JUndefined {num}.
Arguments JNull {num}.
Arguments JNum {num} n.

(** ** The Number type *)

Class JsNumber (num : Type) : Type := {
  (** a decimal literal of the source text *)
  nlit : Q -> num;
  nadd : num -> num -> num;
  nsub : num -> num -> num;
  nmul : num -> num -> num;
  ndiv : num -> num -> num;
  (** the remainder [%]: the sign of the dividend, truncated quotient *)
  nmod : num -> num -> num;
  nneg : num -> num;
  (** [<] and [<=]: both false when an operand is NaN *)
  nlt : num -> num -> bool;
  nle : num -> num -> bool;
  nisNaN : num -> bool;
  (** ToBoolean: false on +0, -0 and NaN *)
  ntruthy : num -> bool
}.

(** ** The Math object *)

Class JsMath (num : Type) : Type := {
  mPI : num;
  mabs : num -> num;
  msqrt : num -> num;
  mcos : num -> num;
  msin : num -> num;
  mexp : num -> num;
  (** [Math.atan2(y, x)] *)
  matan2 : num -> num -> num;
  mhypot : num -> num -> num;
  mpow : num -> num -> num
}.

Arguments nlit {num _} q%_Q.

Notation "x + y" := (nadd x y) : js_scope.
Notation "x - y" := (nsub x y) : js_scope.
Notation "x * y" := (nmul x y) : js_scope.
Notation "x / y" := (ndiv x y) : js_scope.
Notation "x 'mod' y" := (nmod x y) : js_scope.
Notation "- x" := (nneg x) : js_scope.
Notation "x <? y" := (nlt x y) : js_scope.
Notation "x <=? y" := (nle x y) : js_scope.
(** [a > b] is [b < a] in ECMAScript (IsLessThan with the operands swapped). *)
Notation "x >? y" := (nlt y x) : js_scope.
Notation "x >=? y" := (nle y x) : js_scope.

(** ** Operators of the language on values *)

Section Operators.
Context {num : Type} {N : JsNumber num}.

(** [a ?? b] *)
Definition nullish (a b : jsval num) : jsval num :=
  match a with
  | JUndefined | JNull => b
  | JNum _ => a
  end.

(** [v !== undefined] *)
Definition is_defined (v : jsval num) : bool :=
  match v with
  | JUndefined => false
  | _ => true
  end.

(** [typeof v === "number" && !Number.isNaN(v)], with the number it
    guards. *)
Definition as_number (v : jsval num) : option num :=
  match v with
  | JNum n => if nisNaN n then None else Some n
  | _ => None
  end.

(** [n || d] on numbers. *)
Definition num_or (n d : num) : num := if ntruthy n then n else d.

(** [v || d] where [v] may be null or undefined and [d] is a number. *)
Definition val_or (v : jsval num) (d : num) : num :=
  match v with
  | JNum n => num_or n d
  | _ => d
  end.

End Operators.

(** ** Points *)

Module Vec2.

Record t (num : Type) : Type := mk { x : num; y : num }.

Arguments mk {num} x y.
Arguments x {num} t.
Arguments y {num} t.

(** The literal [{ x: 0, y: 0 }]. *)
Definition zero {num : Type} {N : JsNumber num} : t num := mk (nlit 0) (nlit 0).

End Vec2.

(** ** Lemmas *)

Section OperatorLemmas.
Context {num : Type} {N : JsNumber num}.

Lemma as_number_Some v n :
  as_number v = Some n <-> v = JNum n /\ nisNaN n = false.
Proof.
  destruct v as [| |m]; simpl; try (split; [discriminate|intros [? _]; discriminate]).
  destruct (nisNaN m) eqn:E; split.
  - discriminate.
  - intros [H1 H2]; inv H1; congruence.
  - intros H; inv H; auto.
  - intros [H1 _]; inv H1; auto.
Qed.

End OperatorLemmas.
