(* ===== verification/RealNum.v ===== *)
(** * RealNum: the ideal instance of the number interface

    Numbers are real numbers: no rounding, no overflow, no NaN.  The
    operators that ECMAScript defines by cases are defined here on [R] with
    the same cases: the remainder [%] ([Rrem], truncated quotient, sign of
    the dividend), [Math.atan2] ([Ratan2], by quadrant), [Math.pow]
    ([Rjs_pow], an integral exponent is a repeated product), and the
    comparisons as booleans.  [Number.isNaN] is constantly false.

    The file also holds the lemmas on these operators that the components
    share (range of the remainder and of [atan2], reflection of the boolean
    comparisons) and the tactics that unfold the interface at this instance
    and decide comparisons by linear arithmetic. *)

From Stdlib Require Import Reals Lra Psatz QArith ZArith Bool.
From S2P Require Import Prelude JsNum.

Local Open Scope R_scope.

(** ** Comparisons as booleans *)

Definition Rltb (x y : R) : bool := if Rlt_dec x y then true else false.
Definition Rleb (x y : R) : bool := if Rle_dec x y then true else false.
Definition Rnonzero (x : R) : bool := if Req_dec_T x 0 then false else true.

(** ** The remainder [x % y] *)

(** Truncation toward zero. *)
Definition Rtrunc (x : R) : Z := if Rle_dec 0 x then Zfloor x else Zceil x.

Definition Rrem (x y : R) : R := x - y * IZR (Rtrunc (x / y)).

(** ** [Math.atan2(y, x)] *)

Definition Ratan2 (y x : R) : R :=
  if Rlt_dec 0 x then atan (y / x)
  else if Rlt_dec x 0 then
    if Rle_dec 0 y then atan (y / x) + PI else atan (y / x) - PI
  else if Rlt_dec 0 y then PI / 2
  else if Rlt_dec y 0 then - PI / 2
  else 0.

(** ** [Math.pow(x, y)] *)

Definition Rjs_pow (x y : R) : R :=
  if Req_dec_T y (IZR (Zfloor y)) then powerRZ x (Zfloor y) else Rpower x y.

(** ** [Math.hypot(x, y)] *)

Definition Rhypot (x y : R) : R := sqrt (x * x + y * y).

(** ** The instances *)

#[export] Instance R_JsNumber : JsNumber R := {|
  nlit q := IZR (Qnum q) / IZR (Zpos (Qden q));
  nadd := Rplus;
  nsub := Rminus;
  nmul := Rmult;
  ndiv := Rdiv;
  nmod := Rrem;
  nneg := Ropp;
  nlt := Rltb;
  nle := Rleb;
  nisNaN := fun _ => false;
  ntruthy := Rnonzero
|}.

#[export] Instance R_JsMath : JsMath R := {|
  mPI := PI;
  mabs := Rabs;
  msqrt := sqrt;
  mcos := cos;
  msin := sin;
  mexp := exp;
  matan2 := Ratan2;
  mhypot := Rhypot;
  mpow := Rjs_pow
|}.

(** ** Tactics *)

(** Unfold the interface at the real instance, leaving terms of [R]; an
    integer literal [n] unfolds to [n / 1], which is rewritten to [n]. *)
Ltac js_real :=
  cbv [nlit nadd nsub nmul ndiv nmod nneg nlt nle nisNaN ntruthy
       mPI mabs msqrt mcos msin mexp matan2 mhypot mpow
       R_JsNumber R_JsMath Qnum Qden Vec2.zero num_or val_or] in *;
  rewrite ?Rdiv_1_r in *.

(** Decide every comparison of the goal, closing branches by [lra]. *)
Ltac real_cases :=
  unfold Rltb, Rleb, Rnonzero in *;
  repeat match goal with
    | |- context [Rlt_dec ?a ?b] => destruct (Rlt_dec a b)
    | |- context [Rle_dec ?a ?b] => destruct (Rle_dec a b)
    | |- context [Req_dec_T ?a ?b] => destruct (Req_dec_T a b)
    end;
  simpl; try lra; try discriminate; try reflexivity.

(** ** Reflection of the comparisons *)
Lemma Rltb_true x y : Rltb x y = true <-> x < y.
Proof. unfold Rltb; destruct (Rlt_dec x y); split; auto; discriminate. Qed.

Lemma Rltb_false x y : Rltb x y = false <-> y <= x.
Proof.
  unfold Rltb; destruct (Rlt_dec x y); split; auto; try lra; discriminate.
Qed.

Lemma Rleb_true x y : Rleb x y = true <-> x <= y.
Proof. unfold Rleb; destruct (Rle_dec x y); split; auto; discriminate. Qed.

Lemma Rleb_false x y : Rleb x y = false <-> y < x.
Proof.
  unfold Rleb; destruct (Rle_dec x y); split; auto; try lra; discriminate.
Qed.

Lemma Rnonzero_true x : Rnonzero x = true <-> x <> 0.
Proof. unfold Rnonzero; destruct (Req_dec_T x 0); intuition discriminate. Qed.

Lemma Rnonzero_false x : Rnonzero x = false <-> x = 0.
Proof. unfold Rnonzero; destruct (Req_dec_T x 0); intuition discriminate. Qed.

Create Rewrite HintDb js_real_db.
#[export] Hint Rewrite Rltb_true Rltb_false Rleb_true Rleb_false
  Rnonzero_true Rnonzero_false : js_real_db.

(** [n || 0] is [n] on reals: the only falsy real is zero. *)
Lemma num_or_zero_R (n : R) : num_or n (nlit 0) = n.
Proof. js_real. real_cases. Qed.

(** ** The remainder *)
Lemma Rtrunc_nonneg x : 0 <= x -> IZR (Rtrunc x) <= x < IZR (Rtrunc x) + 1.
Proof.
  intros Hx. unfold Rtrunc. destruct (Rle_dec 0 x); [|lra].
  apply Zfloor_bound.
Qed.

(** A non-negative dividend and a positive divisor: the result is in
    [[0, y)]. *)
Lemma Rrem_range x y : 0 <= x -> 0 < y -> 0 <= Rrem x y < y.
Proof.
  intros Hx Hy. unfold Rrem.
  assert (Hq : 0 <= x / y) by (apply Rmult_le_pos; [lra|left; now apply Rinv_0_lt_compat]).
  destruct (Rtrunc_nonneg _ Hq) as [H1 H2].
  assert (Hxy : x = y * (x / y)) by (field; lra).
  split; nra.
Qed.

(** The quotient is [k] when the dividend is in [[k*y, (k+1)*y)]. *)
Lemma Rrem_eq x y (k : Z) :
  0 < y -> (0 <= k)%Z -> IZR k * y <= x < (IZR k + 1) * y ->
  Rrem x y = x - y * IZR k.
Proof.
  intros Hy Hk [H1 H2]. unfold Rrem.
  assert (Hk' : 0 <= IZR k) by now apply IZR_le.
  assert (Hxy : x = y * (x / y)) by (field; lra).
  assert (Hq : IZR k <= x / y < IZR k + 1) by (split; nra).
  unfold Rtrunc. destruct (Rle_dec 0 (x / y)); [|lra].
  now rewrite (Zfloor_eq k).
Qed.

Lemma Rrem_small x y : 0 <= x < y -> Rrem x y = x.
Proof.
  intros H. rewrite (Rrem_eq x y 0); [lra|lra|lia|lra].
Qed.

Lemma Rrem_once x y : 0 < y -> y <= x < 2 * y -> Rrem x y = x - y.
Proof.
  intros Hy H. rewrite (Rrem_eq x y 1); [lra|lra|lia|lra].
Qed.

(** ** [atan2] *)
Lemma Ratan2_bound y x : - PI < Ratan2 y x <= PI.
Proof.
  pose proof PI_RGT_0 as Hpi. unfold Ratan2.
  destruct (Rlt_dec 0 x) as [Hx|Hx].
  { pose proof (atan_bound (y / x)). lra. }
  destruct (Rlt_dec x 0) as [Hx'|Hx'].
  - assert (Hix : / x < 0) by now apply Rinv_lt_0_compat.
    destruct (Rle_dec 0 y) as [Hy|Hy].
    + assert (y / x <= 0) by (unfold Rdiv; nra).
      assert (atan (y / x) <= 0).
      { destruct (Req_dec (y / x) 0) as [->|Hne]; [rewrite atan_0; lra|].
        left. rewrite <- atan_0. apply atan_increasing. lra. }
      pose proof (atan_bound (y / x)). lra.
    + assert (0 < y / x) by (unfold Rdiv; nra).
      assert (0 < atan (y / x)) by (rewrite <- atan_0; now apply atan_increasing).
      pose proof (atan_bound (y / x)). lra.
  - destruct (Rlt_dec 0 y); [lra|]. destruct (Rlt_dec y 0); lra.
Qed.

(** ** [pow] and [hypot] *)
Lemma Rjs_pow_2 x : Rjs_pow x 2 = x * x.
Proof.
  unfold Rjs_pow. rewrite (ZfloorZ 2).
  destruct (Req_dec_T 2 2); [|contradiction].
  simpl. lra.
Qed.

Lemma Rhypot_nonneg x y : 0 <= Rhypot x y.
Proof. apply sqrt_pos. Qed.

Lemma Rhypot_lt x y c : 0 < c -> (Rhypot x y < c <-> x * x + y * y < c * c).
Proof.
  intros Hc. unfold Rhypot.
  assert (Hs : 0 <= x * x + y * y) by nra.
  rewrite <- (sqrt_square c) at 1 by lra.
  split; intros H.
  - apply sqrt_lt_0_alt in H. exact H.
  - apply sqrt_lt_1_alt. split; auto.
Qed.

#[export] Hint Resolve Rhypot_nonneg : dr.
