(* ===== verification/FloatNum.v ===== *)
(** * FloatNum: the binary64 instance of the number interface

    JavaScript numbers are IEEE 754 binary64 values.  This file gives the
    instance of [JsNumber] on the primitive floats of Rocq: the arithmetic
    operators and comparisons are the primitive ones, a decimal literal is
    the correctly rounded quotient of its numerator and denominator, and the
    remainder [%] is computed exactly on the mantissas ([Frem]: sign of the
    dividend, NaN for an infinite dividend or a zero divisor).  With it the
    handlers run by [vm_compute].

    ECMAScript leaves the results of [Math.cos], [Math.sin], [Math.exp],
    [Math.atan2], [Math.hypot] and [Math.pow] to the implementation, apart
    from their values at NaN, the infinities and the zeros.  [JsMathLaws]
    states those special values, which is all the theorems on non-finite
    inputs need; [F_JsMath] is one lawful library (range reduction and
    Taylor polynomials, accurate to a few units in the last place on the
    ranges the handlers use) so that examples can be evaluated.

    [nonfinite] and [isNaN] are read on the specification side of a float
    ([Prim2SF]); the lemmas of [FloatFacts] say how the operators propagate
    them. *)

From Stdlib Require Import Floats ZArith QArith Bool List.
From Stdlib Require Uint63.
From S2P Require Import Prelude JsNum.

Local Open Scope float_scope.

(** ** Literals *)

Definition Z2F (z : Z) : float :=
  match z with
  | Z0 => zero
  | Zpos _ => of_uint63 (Uint63.of_Z z)
  | Zneg p => - of_uint63 (Uint63.of_Z (Zpos p))
  end.

Definition Flit (q : Q) : float := Z2F (Qnum q) / Z2F (Zpos (Qden q)).

(** ** The remainder

    The exact remainder of two positive finite values [m1 * 2^e1] and
    [m2 * 2^e2], as a multiple of [2^e]. *)
Definition rem_finite (m1 : positive) (e1 : Z) (m2 : positive) (e2 : Z) : Z * Z :=
  let e := Z.min e1 e2 in
  let a := (Zpos m1 * 2 ^ (e1 - e))%Z in
  let b := (Zpos m2 * 2 ^ (e2 - e))%Z in
  (Z.modulo a b, e).

Definition Frem (x y : float) : float :=
  match Prim2SF x, Prim2SF y with
  | S754_nan, _ | _, S754_nan => nan
  | S754_infinity _, _ => nan
  | _, S754_zero _ => nan
  | S754_zero _, _ => x
  | S754_finite _ _ _, S754_infinity _ => x
  | S754_finite s m1 e1, S754_finite _ m2 e2 =>
      let (r, e) := rem_finite m1 e1 m2 e2 in
      match r with
      | Zpos p => SF2Prim (binary_normalize prec emax (if s then Zneg p else Zpos p) e s)
      | _ => if s then neg_zero else zero
      end
  end.

(** [ToBoolean]: NaN and the zeros are falsy. *)
Definition Ftruthy (x : float) : bool := negb (PrimFloat.is_zero x || PrimFloat.is_nan x).

#[export] Instance F_JsNumber : JsNumber float := {|
  nlit := Flit;
  nadd := PrimFloat.add;
  nsub := PrimFloat.sub;
  nmul := PrimFloat.mul;
  ndiv := PrimFloat.div;
  nmod := Frem;
  nneg := PrimFloat.opp;
  nlt := PrimFloat.ltb;
  nle := PrimFloat.leb;
  nisNaN := PrimFloat.is_nan;
  ntruthy := Ftruthy
|}.


(** ** A Math library

    Truncation of a float to an integer; 0 for non-finite values. *)
Definition F2Z (x : float) : Z :=
  match Prim2SF x with
  | S754_finite s m e =>
      let v := match e with
               | Zneg p => Z.shiftr (Zpos m) (Zpos p)
               | _ => Z.shiftl (Zpos m) e
               end in
      if s then Z.opp v else v
  | _ => 0%Z
  end.

(** Horner evaluation of [c0 + c1 x + c2 x^2 + ...]. *)
Fixpoint horner (cs : list float) (x : float) : float :=
  match cs with
  | nil => 0
  | cons c cs => c + x * horner cs x
  end.

Definition Fpi : float := 0x1.921fb54442d18p+1.
Definition Fln2 : float := 0x1.62e42fefa39efp-1.

(** 1/n! for n = 0 .. 17. *)
Fixpoint inv_fact_from (k n : nat) (acc : float) : list float :=
  match n with
  | O => nil
  | S n => cons acc (inv_fact_from (S k) n (acc / Z2F (Z.of_nat (S k))))
  end.
Definition exp_coeffs : list float := inv_fact_from 0 18 1.

Definition round_nearest (x : float) : Z :=
  F2Z (if x <? 0 then x - 0.5 else x + 0.5).

Definition Fexp (x : float) : float :=
  if PrimFloat.is_nan x then nan
  else if x =? infinity then infinity
  else if x =? neg_infinity then 0
  else if 710 <? x then infinity
  else if x <? -746 then 0
  else
    let k := round_nearest (x / Fln2) in
    let r := x - Z2F k * Fln2 in
    Z.ldexp (horner exp_coeffs r) k.

(** sin and cos on [-pi/4, pi/4] by their Taylor polynomials in r^2. *)
Definition sin_coeffs : list float := Eval cbv in
  (fix go (l : list float) (i : nat) (sgn : bool) : list float :=
     match l with
     | cons _ (cons c rest) =>
         cons (if sgn then - c else c) (go rest (S i) (negb sgn))
     | _ => nil
     end) exp_coeffs 0%nat false.
Definition cos_coeffs : list float := Eval cbv in
  (fix go (l : list float) (i : nat) (sgn : bool) : list float :=
     match l with
     | cons c (cons _ rest) =>
         cons (if sgn then - c else c) (go rest (S i) (negb sgn))
     | _ => nil
     end) exp_coeffs 0%nat false.

Definition sin_poly (r : float) : float := r * horner sin_coeffs (r * r).
Definition cos_poly (r : float) : float := horner cos_coeffs (r * r).

Definition reduce_quadrant (x : float) : Z * float :=
  let k := round_nearest (x / (Fpi / 2)) in
  (k, x - Z2F k * (Fpi / 2)).

Definition Fsin (x : float) : float :=
  if negb (PrimFloat.is_finite x) then nan
  else if PrimFloat.is_zero x then x
  else
    let (k, r) := reduce_quadrant x in
    match Z.modulo k 4 with
    | 0%Z => sin_poly r
    | 1%Z => cos_poly r
    | 2%Z => - sin_poly r
    | _ => - cos_poly r
    end.

Definition Fcos (x : float) : float :=
  if negb (PrimFloat.is_finite x) then nan
  else
    let (k, r) := reduce_quadrant x in
    match Z.modulo k 4 with
    | 0%Z => cos_poly r
    | 1%Z => - sin_poly r
    | 2%Z => - cos_poly r
    | _ => sin_poly r
    end.

(** atan on [0, 1]: two halvings of the argument, then the Taylor series. *)
Definition atan_coeffs : list float := Eval cbv in
  (fix go (n : nat) (k : Z) (sgn : bool) : list float :=
     match n with
     | O => nil
     | S n => cons ((if sgn then -1 else 1) / Z2F k) (go n (k + 2)%Z (negb sgn))
     end) 14%nat 1%Z false.

Definition atan_half (t : float) : float := t / (1 + PrimFloat.sqrt (1 + t * t)).

Definition atan_unit (t : float) : float :=
  let u := atan_half (atan_half t) in
  4 * (u * horner atan_coeffs (u * u)).

Definition with_sign_of (y r : float) : float :=
  if PrimFloat.get_sign y then - r else r.

Definition Fatan2 (y x : float) : float :=
  if PrimFloat.is_nan y || PrimFloat.is_nan x then nan
  else
    let ay := PrimFloat.abs y in
    let ax := PrimFloat.abs x in
    let a :=
      if PrimFloat.is_infinity ay && PrimFloat.is_infinity ax then Fpi / 4
      else if PrimFloat.is_zero ay || PrimFloat.is_infinity ax then 0
      else if PrimFloat.is_zero ax || PrimFloat.is_infinity ay then Fpi / 2
      else if ay <=? ax then atan_unit (ay / ax)
      else Fpi / 2 - atan_unit (ax / ay) in
    with_sign_of y (if PrimFloat.get_sign x then Fpi - a else a).

Definition Fhypot (x y : float) : float :=
  if PrimFloat.is_infinity x || PrimFloat.is_infinity y then infinity
  else if PrimFloat.is_nan x || PrimFloat.is_nan y then nan
  else PrimFloat.sqrt (x * x + y * y).

Definition Fpow (x y : float) : float :=
  if y =? 2 then x * x
  else if PrimFloat.is_zero y then 1
  else if y =? 1 then x
  else nan.


#[export] Instance F_JsMath : JsMath float := {|
  mPI := Fpi;
  mabs := PrimFloat.abs;
  msqrt := PrimFloat.sqrt;
  mcos := Fcos;
  msin := Fsin;
  mexp := Fexp;
  matan2 := Fatan2;
  mhypot := Fhypot;
  mpow := Fpow
|}.

(** ** Non-finite values *)

Definition sf_nonfinite (f : spec_float) : bool :=
  match f with
  | S754_nan | S754_infinity _ => true
  | _ => false
  end.

Definition nonfinite (x : float) : bool := sf_nonfinite (Prim2SF x).

Definition isNaN (x : float) : Prop := Prim2SF x = S754_nan.

(** The values ECMAScript fixes for the Math functions at NaN and at the
    infinities. *)
Class JsMathLaws (M : JsMath float) : Prop := {
  mcos_nonfinite : forall x, nonfinite x = true -> isNaN (mcos x);
  msin_nonfinite : forall x, nonfinite x = true -> isNaN (msin x);
  mexp_nan : forall x, isNaN x -> isNaN (mexp x);
  matan2_nan : forall y x, isNaN y \/ isNaN x -> isNaN (matan2 y x);
  mhypot_infinite : forall x y,
    PrimFloat.is_infinity x = true \/ PrimFloat.is_infinity y = true ->
    mhypot x y = infinity;
  mabs_abs : forall x, mabs x = PrimFloat.abs x
}.

(** ** Propagation of non-finite values *)

Section FloatFacts.

Lemma is_nan_isNaN x : PrimFloat.is_nan x = true <-> isNaN x.
Proof.
  unfold isNaN, Prim2SF. split.
  - intros ->. reflexivity.
  - destruct (PrimFloat.is_nan x); [reflexivity|].
    destruct (PrimFloat.is_zero x); [discriminate|].
    destruct (PrimFloat.is_infinity x); [discriminate|].
    destruct (Z.frexp x). destruct (shr_fexp _ _ _ _ _).
    destruct (shr_m _); discriminate.
Qed.

Lemma isNaN_nonfinite x : isNaN x -> nonfinite x = true.
Proof. unfold isNaN, nonfinite. now intros ->. Qed.

Ltac sf_cases :=
  unfold nonfinite, isNaN in *;
  rewrite ?add_spec, ?sub_spec, ?mul_spec, ?div_spec, ?opp_spec, ?abs_spec in *;
  repeat match goal with
    | H : context [Prim2SF ?x] |- _ => destruct (Prim2SF x) as [[|]|[|]| |[|] ? ?]
    | |- context [Prim2SF ?x] => destruct (Prim2SF x) as [[|]|[|]| |[|] ? ?]
    end; try discriminate; try reflexivity.

Lemma add_nonfinite_l x y : nonfinite x = true -> nonfinite (x + y) = true.
Proof. sf_cases. Qed.
Lemma add_nonfinite_r x y : nonfinite y = true -> nonfinite (x + y) = true.
Proof. sf_cases. Qed.
Lemma sub_nonfinite_l x y : nonfinite x = true -> nonfinite (x - y) = true.
Proof. sf_cases. Qed.
Lemma sub_nonfinite_r x y : nonfinite y = true -> nonfinite (x - y) = true.
Proof. sf_cases. Qed.
Lemma mul_nonfinite_l x y : nonfinite x = true -> nonfinite (x * y) = true.
Proof. sf_cases. Qed.
Lemma mul_nonfinite_r x y : nonfinite y = true -> nonfinite (x * y) = true.
Proof. sf_cases. Qed.
Lemma div_nonfinite_l x y : nonfinite x = true -> nonfinite (x / y) = true.
Proof. sf_cases. Qed.
Lemma opp_nonfinite x : nonfinite x = true -> nonfinite (- x) = true.
Proof. sf_cases. Qed.

Lemma add_nan_l x y : isNaN x -> isNaN (x + y).
Proof. sf_cases. Qed.
Lemma add_nan_r x y : isNaN y -> isNaN (x + y).
Proof. sf_cases. Qed.
Lemma sub_nan_l x y : isNaN x -> isNaN (x - y).
Proof. sf_cases. Qed.
Lemma sub_nan_r x y : isNaN y -> isNaN (x - y).
Proof. sf_cases. Qed.
Lemma mul_nan_l x y : isNaN x -> isNaN (x * y).
Proof. sf_cases. Qed.
Lemma mul_nan_r x y : isNaN y -> isNaN (x * y).
Proof. sf_cases. Qed.
Lemma div_nan_l x y : isNaN x -> isNaN (x / y).
Proof. sf_cases. Qed.
Lemma div_nan_r x y : isNaN y -> isNaN (x / y).
Proof. sf_cases. Qed.

Lemma ltb_nan_l x y : isNaN x -> (x <? y) = false.
Proof. intros H. rewrite ltb_spec. unfold isNaN in H. now rewrite H. Qed.
Lemma leb_nan_l x y : isNaN x -> (x <=? y) = false.
Proof. intros H. rewrite leb_spec. unfold isNaN in H. now rewrite H. Qed.
Lemma ltb_nan_r x y : isNaN y -> (x <? y) = false.
Proof.
  intros H. rewrite ltb_spec. unfold isNaN in H. rewrite H.
  now destruct (Prim2SF x).
Qed.

Lemma Frem_nonfinite x y : nonfinite x = true -> isNaN (Frem x y).
Proof.
  unfold nonfinite, Frem. destruct (Prim2SF x); try discriminate; intros _.
  - destruct (Prim2SF y); reflexivity.
  - reflexivity.
Qed.

End FloatFacts.

(** ** The stand-in library is lawful *)
Lemma nonfinite_not_finite x : nonfinite x = true -> PrimFloat.is_finite x = false.
Proof.
  unfold nonfinite, Prim2SF, PrimFloat.is_finite.
  destruct (PrimFloat.is_nan x); [reflexivity|].
  destruct (PrimFloat.is_zero x); [discriminate|].
  destruct (PrimFloat.is_infinity x); [reflexivity|].
  destruct (Z.frexp x). destruct (shr_fexp _ _ _ _ _).
  destruct (shr_m _); discriminate.
Qed.

#[export] Instance F_JsMathLaws : JsMathLaws F_JsMath.
Proof.
  split; simpl.
  - intros x H. unfold Fcos. now rewrite (nonfinite_not_finite x H).
  - intros x H. unfold Fsin. now rewrite (nonfinite_not_finite x H).
  - intros x H. apply is_nan_isNaN in H. unfold Fexp. now rewrite H.
  - intros y x [H|H]; apply is_nan_isNaN in H; unfold Fatan2; rewrite H;
      [reflexivity|now rewrite orb_true_r].
  - intros x y [H|H]; unfold Fhypot; rewrite H; [reflexivity|now rewrite orb_true_r].
  - reflexivity.
Qed.
