(* ===== verification/DRState.v ===== *)
(** * DRState: the state of the dead-reckoning component

    [DRModule] (src/src/components/DRModule.jsx, lines 10-53) keeps its
    state in React [useState] cells and in [useRef] cells.  The sensor
    callbacks are created once ([useCallback] with no dependency), so they
    never see a fresh React state: they read and write the refs, and they
    call the React setters to publish values.  Four effects copy the
    published velocity, position, path and heading back into their refs
    after a render.

    [State] holds every cell under its source name.  Three fields are the
    host's, not the component's: [pendingTimers] counts the [setTimeout]
    callbacks that have not fired yet, and [motionListener] and
    [orientationListener] say whether the callbacks are registered on
    [window].

    A React setter [setX v] is the write of field [X] (a later write of the
    same cell before the next render replaces it, as React's queue does for
    plain values); a ref assignment is the write of the ref field
    ([set_xRef]). *)

From Stdlib Require Import List String QArith.
From S2P Require Import Prelude JsNum.
Import ListNotations.

(** ** Objects of the sources *)

(** [{ x, y, z }] of [event.accelerationIncludingGravity] (line 127). *)
Module Vec3.
Record t (A : Type) : Type := mk { x : A; y : A; z : A }.
Arguments mk {A} x y z.
Arguments x {A} t.
Arguments y {A} t.
Arguments z {A} t.
End Vec3.

(** [{ alpha, beta, gamma }] of [event.rotationRate] (lines 133-138). *)
Module Rot3.
Record t (A : Type) : Type := mk { alpha : A; beta : A; gamma : A }.
Arguments mk {A} alpha beta gamma.
Arguments alpha {A} t.
Arguments beta {A} t.
Arguments gamma {A} t.
End Rot3.

(** The object stored by [setGpsLocation] (lines 291-296). *)
Module GpsFix.
Record t (num : Type) : Type := mk {
  latitude : num;
  longitude : num;
  accuracy : num;
  timestamp : num
}.
Arguments mk {num} latitude longitude accuracy timestamp.
Arguments latitude {num} t.
Arguments longitude {num} t.
Arguments accuracy {num} t.
Arguments timestamp {num} t.
End GpsFix.

(** [{ lastValue: null, alpha: 0.2 }] of [compassFilterRef] (line 39). *)
Module CompassFilter.
Record t (num : Type) : Type := mk { lastValue : option num; alpha : num }.
Arguments mk {num} lastValue alpha.
Arguments lastValue {num} t.
Arguments alpha {num} t.
End CompassFilter.

(** ** The state *)

Record State (num : Type) : Type := mkState {
  accelerometerData : option (Vec3.t (jsval num));
  gyroscopeData : option (Rot3.t num);
  velocity : Vec2.t num;
  position : Vec2.t num;
  path : list (Vec2.t num);
  heading : num;
  gpsLocation : option (GpsFix.t num);
  gpsError : option string;
  watchIdRef : option nat;
  isMonitoring : bool;
  error : option string;
  isCalibrating : bool;
  velRef : Vec2.t num;
  posRef : Vec2.t num;
  pathRef : list (Vec2.t num);
  headingRef : num;
  lastTimestampRef : option num;
  stationaryCountRef : nat;
  accelBiasRef : Vec2.t num;
  compassFilterRef : CompassFilter.t num;
  pendingTimers : nat;
  motionListener : bool;
  orientationListener : bool
}.

Arguments mkState {num}.
Arguments accelerometerData {num} s.
Arguments gyroscopeData {num} s.
Arguments velocity {num} s.
Arguments position {num} s.
Arguments path {num} s.
Arguments heading {num} s.
Arguments gpsLocation {num} s.
Arguments gpsError {num} s.
Arguments watchIdRef {num} s.
Arguments isMonitoring {num} s.
Arguments error {num} s.
Arguments isCalibrating {num} s.
Arguments velRef {num} s.
Arguments posRef {num} s.
Arguments pathRef {num} s.
Arguments headingRef {num} s.
Arguments lastTimestampRef {num} s.
Arguments stationaryCountRef {num} s.
Arguments accelBiasRef {num} s.
Arguments compassFilterRef {num} s.
Arguments pendingTimers {num} s.
Arguments motionListener {num} s.
Arguments orientationListener {num} s.

(** ** Setters

    One per cell: the React setters under their source names, the ref
    assignments as [set_<ref>]. *)

Section Setters.
Context {num : Type}.

Definition setAccelerometerData (v : option (Vec3.t (jsval num))) (s : State num) : State num :=
  mkState
    v (gyroscopeData s) (velocity s) (position s) (path s) (heading s)
    (gpsLocation s) (gpsError s) (watchIdRef s) (isMonitoring s)
    (error s) (isCalibrating s) (velRef s) (posRef s) (pathRef s)
    (headingRef s) (lastTimestampRef s) (stationaryCountRef s)
    (accelBiasRef s) (compassFilterRef s) (pendingTimers s)
    (motionListener s) (orientationListener s).

Definition setGyroscopeData (v : option (Rot3.t num)) (s : State num) : State num :=
  mkState
    (accelerometerData s) v (velocity s) (position s) (path s)
    (heading s) (gpsLocation s) (gpsError s) (watchIdRef s)
    (isMonitoring s) (error s) (isCalibrating s) (velRef s) (posRef s)
    (pathRef s) (headingRef s) (lastTimestampRef s)
    (stationaryCountRef s) (accelBiasRef s) (compassFilterRef s)
    (pendingTimers s) (motionListener s) (orientationListener s).

Definition setVelocity (v : Vec2.t num) (s : State num) : State num :=
  mkState
    (accelerometerData s) (gyroscopeData s) v (position s) (path s)
    (heading s) (gpsLocation s) (gpsError s) (watchIdRef s)
    (isMonitoring s) (error s) (isCalibrating s) (velRef s) (posRef s)
    (pathRef s) (headingRef s) (lastTimestampRef s)
    (stationaryCountRef s) (accelBiasRef s) (compassFilterRef s)
    (pendingTimers s) (motionListener s) (orientationListener s).

Definition setPosition (v : Vec2.t num) (s : State num) : State num :=
  mkState
    (accelerometerData s) (gyroscopeData s) (velocity s) v (path s)
    (heading s) (gpsLocation s) (gpsError s) (watchIdRef s)
    (isMonitoring s) (error s) (isCalibrating s) (velRef s) (posRef s)
    (pathRef s) (headingRef s) (lastTimestampRef s)
    (stationaryCountRef s) (accelBiasRef s) (compassFilterRef s)
    (pendingTimers s) (motionListener s) (orientationListener s).

Definition setPath (v : list (Vec2.t num)) (s : State num) : State num :=
  mkState
    (accelerometerData s) (gyroscopeData s) (velocity s) (position s) v
    (heading s) (gpsLocation s) (gpsError s) (watchIdRef s)
    (isMonitoring s) (error s) (isCalibrating s) (velRef s) (posRef s)
    (pathRef s) (headingRef s) (lastTimestampRef s)
    (stationaryCountRef s) (accelBiasRef s) (compassFilterRef s)
    (pendingTimers s) (motionListener s) (orientationListener s).

Definition setHeading (v : num) (s : State num) : State num :=
  mkState
    (accelerometerData s) (gyroscopeData s) (velocity s) (position s)
    (path s) v (gpsLocation s) (gpsError s) (watchIdRef s)
    (isMonitoring s) (error s) (isCalibrating s) (velRef s) (posRef s)
    (pathRef s) (headingRef s) (lastTimestampRef s)
    (stationaryCountRef s) (accelBiasRef s) (compassFilterRef s)
    (pendingTimers s) (motionListener s) (orientationListener s).

Definition setGpsLocation (v : option (GpsFix.t num)) (s : State num) : State num :=
  mkState
    (accelerometerData s) (gyroscopeData s) (velocity s) (position s)
    (path s) (heading s) v (gpsError s) (watchIdRef s) (isMonitoring s)
    (error s) (isCalibrating s) (velRef s) (posRef s) (pathRef s)
    (headingRef s) (lastTimestampRef s) (stationaryCountRef s)
    (accelBiasRef s) (compassFilterRef s) (pendingTimers s)
    (motionListener s) (orientationListener s).

Definition setGpsError (v : option string) (s : State num) : State num :=
  mkState
    (accelerometerData s) (gyroscopeData s) (velocity s) (position s)
    (path s) (heading s) (gpsLocation s) v (watchIdRef s)
    (isMonitoring s) (error s) (isCalibrating s) (velRef s) (posRef s)
    (pathRef s) (headingRef s) (lastTimestampRef s)
    (stationaryCountRef s) (accelBiasRef s) (compassFilterRef s)
    (pendingTimers s) (motionListener s) (orientationListener s).

Definition set_watchIdRef (v : option nat) (s : State num) : State num :=
  mkState
    (accelerometerData s) (gyroscopeData s) (velocity s) (position s)
    (path s) (heading s) (gpsLocation s) (gpsError s) v (isMonitoring s)
    (error s) (isCalibrating s) (velRef s) (posRef s) (pathRef s)
    (headingRef s) (lastTimestampRef s) (stationaryCountRef s)
    (accelBiasRef s) (compassFilterRef s) (pendingTimers s)
    (motionListener s) (orientationListener s).

Definition setIsMonitoring (v : bool) (s : State num) : State num :=
  mkState
    (accelerometerData s) (gyroscopeData s) (velocity s) (position s)
    (path s) (heading s) (gpsLocation s) (gpsError s) (watchIdRef s) v
    (error s) (isCalibrating s) (velRef s) (posRef s) (pathRef s)
    (headingRef s) (lastTimestampRef s) (stationaryCountRef s)
    (accelBiasRef s) (compassFilterRef s) (pendingTimers s)
    (motionListener s) (orientationListener s).

Definition setError (v : option string) (s : State num) : State num :=
  mkState
    (accelerometerData s) (gyroscopeData s) (velocity s) (position s)
    (path s) (heading s) (gpsLocation s) (gpsError s) (watchIdRef s)
    (isMonitoring s) v (isCalibrating s) (velRef s) (posRef s)
    (pathRef s) (headingRef s) (lastTimestampRef s)
    (stationaryCountRef s) (accelBiasRef s) (compassFilterRef s)
    (pendingTimers s) (motionListener s) (orientationListener s).

Definition setIsCalibrating (v : bool) (s : State num) : State num :=
  mkState
    (accelerometerData s) (gyroscopeData s) (velocity s) (position s)
    (path s) (heading s) (gpsLocation s) (gpsError s) (watchIdRef s)
    (isMonitoring s) (error s) v (velRef s) (posRef s) (pathRef s)
    (headingRef s) (lastTimestampRef s) (stationaryCountRef s)
    (accelBiasRef s) (compassFilterRef s) (pendingTimers s)
    (motionListener s) (orientationListener s).

Definition set_velRef (v : Vec2.t num) (s : State num) : State num :=
  mkState
    (accelerometerData s) (gyroscopeData s) (velocity s) (position s)
    (path s) (heading s) (gpsLocation s) (gpsError s) (watchIdRef s)
    (isMonitoring s) (error s) (isCalibrating s) v (posRef s)
    (pathRef s) (headingRef s) (lastTimestampRef s)
    (stationaryCountRef s) (accelBiasRef s) (compassFilterRef s)
    (pendingTimers s) (motionListener s) (orientationListener s).

Definition set_posRef (v : Vec2.t num) (s : State num) : State num :=
  mkState
    (accelerometerData s) (gyroscopeData s) (velocity s) (position s)
    (path s) (heading s) (gpsLocation s) (gpsError s) (watchIdRef s)
    (isMonitoring s) (error s) (isCalibrating s) (velRef s) v
    (pathRef s) (headingRef s) (lastTimestampRef s)
    (stationaryCountRef s) (accelBiasRef s) (compassFilterRef s)
    (pendingTimers s) (motionListener s) (orientationListener s).

Definition set_pathRef (v : list (Vec2.t num)) (s : State num) : State num :=
  mkState
    (accelerometerData s) (gyroscopeData s) (velocity s) (position s)
    (path s) (heading s) (gpsLocation s) (gpsError s) (watchIdRef s)
    (isMonitoring s) (error s) (isCalibrating s) (velRef s) (posRef s) v
    (headingRef s) (lastTimestampRef s) (stationaryCountRef s)
    (accelBiasRef s) (compassFilterRef s) (pendingTimers s)
    (motionListener s) (orientationListener s).

Definition set_headingRef (v : num) (s : State num) : State num :=
  mkState
    (accelerometerData s) (gyroscopeData s) (velocity s) (position s)
    (path s) (heading s) (gpsLocation s) (gpsError s) (watchIdRef s)
    (isMonitoring s) (error s) (isCalibrating s) (velRef s) (posRef s)
    (pathRef s) v (lastTimestampRef s) (stationaryCountRef s)
    (accelBiasRef s) (compassFilterRef s) (pendingTimers s)
    (motionListener s) (orientationListener s).

Definition set_lastTimestampRef (v : option num) (s : State num) : State num :=
  mkState
    (accelerometerData s) (gyroscopeData s) (velocity s) (position s)
    (path s) (heading s) (gpsLocation s) (gpsError s) (watchIdRef s)
    (isMonitoring s) (error s) (isCalibrating s) (velRef s) (posRef s)
    (pathRef s) (headingRef s) v (stationaryCountRef s) (accelBiasRef s)
    (compassFilterRef s) (pendingTimers s) (motionListener s)
    (orientationListener s).

Definition set_stationaryCountRef (v : nat) (s : State num) : State num :=
  mkState
    (accelerometerData s) (gyroscopeData s) (velocity s) (position s)
    (path s) (heading s) (gpsLocation s) (gpsError s) (watchIdRef s)
    (isMonitoring s) (error s) (isCalibrating s) (velRef s) (posRef s)
    (pathRef s) (headingRef s) (lastTimestampRef s) v (accelBiasRef s)
    (compassFilterRef s) (pendingTimers s) (motionListener s)
    (orientationListener s).

Definition set_accelBiasRef (v : Vec2.t num) (s : State num) : State num :=
  mkState
    (accelerometerData s) (gyroscopeData s) (velocity s) (position s)
    (path s) (heading s) (gpsLocation s) (gpsError s) (watchIdRef s)
    (isMonitoring s) (error s) (isCalibrating s) (velRef s) (posRef s)
    (pathRef s) (headingRef s) (lastTimestampRef s)
    (stationaryCountRef s) v (compassFilterRef s) (pendingTimers s)
    (motionListener s) (orientationListener s).

Definition set_compassFilterRef (v : CompassFilter.t num) (s : State num) : State num :=
  mkState
    (accelerometerData s) (gyroscopeData s) (velocity s) (position s)
    (path s) (heading s) (gpsLocation s) (gpsError s) (watchIdRef s)
    (isMonitoring s) (error s) (isCalibrating s) (velRef s) (posRef s)
    (pathRef s) (headingRef s) (lastTimestampRef s)
    (stationaryCountRef s) (accelBiasRef s) v (pendingTimers s)
    (motionListener s) (orientationListener s).

Definition set_pendingTimers (v : nat) (s : State num) : State num :=
  mkState
    (accelerometerData s) (gyroscopeData s) (velocity s) (position s)
    (path s) (heading s) (gpsLocation s) (gpsError s) (watchIdRef s)
    (isMonitoring s) (error s) (isCalibrating s) (velRef s) (posRef s)
    (pathRef s) (headingRef s) (lastTimestampRef s)
    (stationaryCountRef s) (accelBiasRef s) (compassFilterRef s) v
    (motionListener s) (orientationListener s).

Definition set_motionListener (v : bool) (s : State num) : State num :=
  mkState
    (accelerometerData s) (gyroscopeData s) (velocity s) (position s)
    (path s) (heading s) (gpsLocation s) (gpsError s) (watchIdRef s)
    (isMonitoring s) (error s) (isCalibrating s) (velRef s) (posRef s)
    (pathRef s) (headingRef s) (lastTimestampRef s)
    (stationaryCountRef s) (accelBiasRef s) (compassFilterRef s)
    (pendingTimers s) v (orientationListener s).

Definition set_orientationListener (v : bool) (s : State num) : State num :=
  mkState
    (accelerometerData s) (gyroscopeData s) (velocity s) (position s)
    (path s) (heading s) (gpsLocation s) (gpsError s) (watchIdRef s)
    (isMonitoring s) (error s) (isCalibrating s) (velRef s) (posRef s)
    (pathRef s) (headingRef s) (lastTimestampRef s)
    (stationaryCountRef s) (accelBiasRef s) (compassFilterRef s)
    (pendingTimers s) (motionListener s) v.

End Setters.

(** ** Initial state and the mirror effects *)

Section Initial.
Context {num : Type} {N : JsNumber num}.

(** The initial values of lines 12-39: the refs start from the initial
    React state. *)
Definition initialState : State num := {|
  accelerometerData := None;
  gyroscopeData := None;
  velocity := Vec2.zero;
  position := Vec2.zero;
  path := [Vec2.zero];
  heading := nlit 0;
  gpsLocation := None;
  gpsError := None;
  watchIdRef := None;
  isMonitoring := false;
  error := None;
  isCalibrating := false;
  velRef := Vec2.zero;
  posRef := Vec2.zero;
  pathRef := [Vec2.zero];
  headingRef := nlit 0;
  lastTimestampRef := None;
  stationaryCountRef := 0;
  accelBiasRef := Vec2.zero;
  compassFilterRef := CompassFilter.mk None (nlit 0.2);
  pendingTimers := 0;
  motionListener := false;
  orientationListener := false
|}.

(** The four effects of lines 42-53, run after a render: each ref takes the
    value of the state it mirrors. *)
Definition syncRefs (s : State num) : State num :=
  set_headingRef (heading s)
    (set_pathRef (path s)
      (set_posRef (position s)
        (set_velRef (velocity s) s))).

(** The refs agree with the React state they mirror. *)
Definition refs_mirror (s : State num) : Prop :=
  velRef s = velocity s /\ posRef s = position s /\
  pathRef s = path s /\ headingRef s = heading s.

(** The part of the state that only the motion pipeline owns agrees between
    ref and React state (the handlers write both together). *)
Definition motion_mirror (s : State num) : Prop :=
  velRef s = velocity s /\ posRef s = position s /\ pathRef s = path s.

End Initial.

(** ** Lemmas *)

Section StateLemmas.
Context {num : Type} {N : JsNumber num}.

Lemma syncRefs_mirror (s : State num) : refs_mirror (syncRefs s).
Proof. repeat split. Qed.

Lemma syncRefs_fixpoint (s : State num) : refs_mirror s -> syncRefs s = s.
Proof.
  intros (Hv & Hp & Hl & Hh). destruct s; simpl in *; subst.
  reflexivity.
Qed.

Lemma refs_mirror_initial : refs_mirror (@initialState num N).
Proof. repeat split. Qed.

End StateLemmas.

#[export] Hint Resolve syncRefs_mirror refs_mirror_initial : dr.
