(* ===== verification/Heading.v ===== *)
(** * Heading: the compass callback

    [handleDeviceOrientation] (src/src/components/DRModule.jsx, lines
    56-121) receives a [deviceorientation] event and publishes a heading.
    The steps of the callback are separate definitions, composed in the
    order of the source:

    - the guard on the three angles (lines 57-68);
    - [tiltCompensate] (lines 69-89);
    - [lowPass], the exponential filter kept in [compassFilterRef] (lines
      91-101);
    - [platformHeading], the iOS / screen-rotation correction (lines
      103-109);
    - [interference], the advisory comparison with [headingRef] that raises
      [isCalibrating] and arms a 2 s timer (lines 111-117), and
      [calibrationTimeout], the timer's callback (line 116);
    - [setHeading] (line 119).

    The callback reads [headingRef] and never writes it: the ref changes
    only when a render runs the mirror effect ([DRState.syncRefs]). *)

From Stdlib Require Import List Bool QArith Reals Lra Psatz.
From S2P Require Import Prelude JsNum RealNum DRState.
Import ListNotations.

(** ** The event and the window *)

(** The fields of a [DeviceOrientationEvent] the callback reads.
    [webkitCompassHeading] is [undefined] outside iOS Safari. *)
Module OrientationEvent.
Record t (num : Type) : Type := mk {
  alpha : jsval num;
  beta : jsval num;
  gamma : jsval num;
  webkitCompassHeading : jsval num
}.
Arguments mk {num} alpha beta gamma webkitCompassHeading.
Arguments alpha {num} t.
Arguments beta {num} t.
Arguments gamma {num} t.
Arguments webkitCompassHeading {num} t.
End OrientationEvent.

(** What the callback reads of [window]: [screenOrientation] is
    [window.screen.orientation.angle] when [window.screen] and
    [window.screen.orientation] are both present (line 106), [None]
    otherwise. *)
Record Window (num : Type) : Type := mkWindow {
  screenOrientation : option (jsval num)
}.
Arguments mkWindow {num} screenOrientation.
Arguments screenOrientation {num} w.

Section Heading.
Context {num : Type} {N : JsNumber num} {M : JsMath num}.
Local Open Scope js_scope.

(** Lines 69-89: above 5 degrees of pitch or roll the azimuth is recomputed
    from the rotated field components and brought into one turn; below, the
    raw azimuth is kept as it is. *)
Definition tiltCompensate (alpha beta gamma : num) : num :=
  if (mabs beta >? nlit 5) || (mabs gamma >? nlit 5) then
    let betaRad := beta * (mPI / nlit 180) in
    let gammaRad := gamma * (mPI / nlit 180) in
    let cosB := mcos betaRad in
    let sinB := msin betaRad in
    let cosG := mcos gammaRad in
    let sinG := msin gammaRad in
    let compensatedHeading :=
      matan2
        (sinG * cosB * mcos ((alpha * mPI) / nlit 180) +
         sinB * msin ((alpha * mPI) / nlit 180))
        (cosG * mcos ((alpha * mPI) / nlit 180))
      * (nlit 180 / mPI) in
    (compensatedHeading + nlit 360) mod nlit 360
  else alpha.

(** Lines 91-101: the first reading initialises the filter; later readings
    are smoothed with the stored coefficient.  The result is the new filter
    and the filtered heading. *)
Definition lowPass (f : CompassFilter.t num) (compensatedHeading : num)
  : CompassFilter.t num * num :=
  match CompassFilter.lastValue f with
  | None =>
      (CompassFilter.mk (Some compensatedHeading) (CompassFilter.alpha f),
       compensatedHeading)
  | Some lastValue =>
      let alpha := CompassFilter.alpha f in
      let filtered := alpha * compensatedHeading + (nlit 1 - alpha) * lastValue in
      (CompassFilter.mk (Some filtered) alpha, filtered)
  end.

(** Lines 103-109: on iOS the heading is mirrored; otherwise the screen
    rotation is added when the window exposes it. *)
Definition platformHeading (w : Window num) (event : OrientationEvent.t num)
  (compensatedHeading : num) : num :=
  if is_defined (OrientationEvent.webkitCompassHeading event) then
    nlit 360 - compensatedHeading
  else
    match screenOrientation w with
    | Some angle =>
        let screenOrientation := val_or angle (nlit 0) in
        (compensatedHeading + screenOrientation) mod nlit 360
    | None => compensatedHeading
    end.

(** Lines 112-114: the jump test against the heading of the last render. *)
Definition variationThreshold : num := nlit 20.

Definition interference (previousHeading compensatedHeading : num) : bool :=
  mabs (compensatedHeading - previousHeading) >? variationThreshold.

(** Lines 115-116: raise the flag and arm the timer. *)
Definition raiseCalibrating (s : State num) : State num :=
  set_pendingTimers (S (pendingTimers s)) (setIsCalibrating true s).

(** Line 116, the callback of [setTimeout]: one pending timer fires and
    clears the flag. *)
Definition calibrationTimeout (s : State num) : State num :=
  set_pendingTimers (pred (pendingTimers s)) (setIsCalibrating false s).

(** Lines 57-68: the azimuth falls back to the compass heading when
    [event.alpha] is null or undefined, and the three angles must be numbers
    other than NaN. *)
Definition orientationAngles (event : OrientationEvent.t num)
  : option (num * num * num) :=
  let alpha :=
    nullish (OrientationEvent.alpha event)
            (OrientationEvent.webkitCompassHeading event) in
  match as_number alpha,
        as_number (OrientationEvent.beta event),
        as_number (OrientationEvent.gamma event) with
  | Some alpha, Some beta, Some gamma => Some (alpha, beta, gamma)
  | _, _, _ => None
  end.

(** Lines 56-121. *)
Definition handleDeviceOrientation (w : Window num)
  (event : OrientationEvent.t num) (s : State num) : State num :=
  match orientationAngles event with
  | Some (alpha, beta, gamma) =>
      let compensatedHeading := tiltCompensate alpha beta gamma in
      let (filter, compensatedHeading) :=
        lowPass (compassFilterRef s) compensatedHeading in
      let s := set_compassFilterRef filter s in
      let compensatedHeading := platformHeading w event compensatedHeading in
      let previousHeading := headingRef s in
      let s :=
        if interference previousHeading compensatedHeading
        then raiseCalibrating s else s in
      setHeading compensatedHeading s
  | None => s
  end.

(** The heading the callback publishes for three valid angles. *)
Definition publishedHeading (w : Window num) (event : OrientationEvent.t num)
  (f : CompassFilter.t num) (alpha beta gamma : num) : num :=
  platformHeading w event (snd (lowPass f (tiltCompensate alpha beta gamma))).

End Heading.

(** ** Specification vocabulary (real instance) *)

Local Open Scope R_scope.

(** One turn: the range the heading is meant to stay in. *)
Definition in_turn (h : R) : Prop := 0 <= h < 360.

(** The tilt branch of [tiltCompensate] is taken. *)
Definition tilted (beta gamma : R) : Prop := 5 < Rabs beta \/ 5 < Rabs gamma.

(** The azimuth that enters the filter is in one turn: either it is
    recomputed by the tilt branch, or the raw azimuth already is. *)
Definition azimuth_ok (alpha beta gamma : R) : Prop :=
  tilted beta gamma \/ in_turn alpha.

(** The filter holds a coefficient in [[0, 1]] and a value in one turn. *)
Definition filter_ok (f : CompassFilter.t R) : Prop :=
  0 <= CompassFilter.alpha f <= 1 /\
  match CompassFilter.lastValue f with
  | Some v => in_turn v
  | None => True
  end.

(** The rotation the window reports, as the callback reads it. *)
Definition screenAngle (w : Window R) : R :=
  match screenOrientation w with
  | Some angle => val_or angle (nlit 0)
  | None => 0
  end.

(** ** Concrete inputs for the examples *)

(** A level phone on Android pointing east, no screen rotation. *)
Definition ev_east : OrientationEvent.t R :=
  OrientationEvent.mk (JNum 90) (JNum 0) (JNum 0) JUndefined.

(** A phone pitched by 30 degrees. *)
Definition ev_pitched : OrientationEvent.t R :=
  OrientationEvent.mk (JNum 90) (JNum 30) (JNum 0) JUndefined.

(** A level iPhone pointing north: [alpha] is 0 and the compass heading is
    present. *)
Definition ev_ios_north : OrientationEvent.t R :=
  OrientationEvent.mk (JNum 0) (JNum 0) (JNum 0) (JNum 0).

(** An event with no pitch reading. *)
Definition ev_no_beta : OrientationEvent.t R :=
  OrientationEvent.mk (JNum 90) JNull (JNum 0) JUndefined.

(** A raw azimuth of 35 degrees, level. *)
Definition ev_35 : OrientationEvent.t R :=
  OrientationEvent.mk (JNum 35) (JNum 0) (JNum 0) JUndefined.

(** A raw azimuth of 400 degrees, level: outside what the sensor
    specification allows, accepted by the guard. *)
Definition ev_400 : OrientationEvent.t R :=
  OrientationEvent.mk (JNum 400) (JNum 0) (JNum 0) JUndefined.

Definition w_plain : Window R := mkWindow None.
Definition w_portrait : Window R := mkWindow (Some (JNum 0)).

(** A state whose last rendered heading and filter value are 10 degrees. *)
Definition s_heading_10 : State R :=
  set_compassFilterRef (CompassFilter.mk (Some 10) 0.2)
    (set_headingRef 10 (setHeading 10 initialState)).

(** A state whose last rendered heading is 10 degrees and whose filter has
    not seen a reading yet. *)
Definition s_ref_10 : State R := set_headingRef 10 (setHeading 10 initialState).

(** ** Structural theorems: any instance of the number interface *)

Section HeadingFacts.
Context {num : Type} {N : JsNumber num} {M : JsMath num}.
Implicit Types (s : State num) (w : Window num) (e : OrientationEvent.t num).

(** The callback on three valid angles, as one equation. *)
Lemma handleDeviceOrientation_valid w e s a b g :
  orientationAngles e = Some (a, b, g) ->
  handleDeviceOrientation w e s =
    let f := compassFilterRef s in
    let h := publishedHeading w e f a b g in
    let s1 := set_compassFilterRef (fst (lowPass f (tiltCompensate a b g))) s in
    setHeading h (if interference (headingRef s) h then raiseCalibrating s1 else s1).
Proof.
  intros H. unfold handleDeviceOrientation, publishedHeading. rewrite H.
  destruct (lowPass _ _) as [f' c]. reflexivity.
Qed.

Lemma handleDeviceOrientation_invalid w e s :
  orientationAngles e = None -> handleDeviceOrientation w e s = s.
Proof. intros H. unfold handleDeviceOrientation. now rewrite H. Qed.


Section Valid.
Variables (w : Window num) (e : OrientationEvent.t num) (s : State num).
Variables a b g : num.
Hypothesis He : orientationAngles e = Some (a, b, g).
Let h := publishedHeading w e (compassFilterRef s) a b g.

Lemma orientation_heading : heading (handleDeviceOrientation w e s) = h.
Proof.
  rewrite (handleDeviceOrientation_valid _ _ _ _ _ _ He). cbv zeta.
  now destruct (interference _ _).
Qed.

Lemma orientation_filter :
  compassFilterRef (handleDeviceOrientation w e s) =
  fst (lowPass (compassFilterRef s) (tiltCompensate a b g)).
Proof.
  rewrite (handleDeviceOrientation_valid _ _ _ _ _ _ He). cbv zeta.
  now destruct (interference _ _).
Qed.

Lemma orientation_flag :
  isCalibrating (handleDeviceOrientation w e s) =
  (interference (headingRef s) h || isCalibrating s)%bool.
Proof.
  rewrite (handleDeviceOrientation_valid _ _ _ _ _ _ He). cbv zeta.
  now destruct (interference _ _).
Qed.

Lemma orientation_timers :
  pendingTimers (handleDeviceOrientation w e s) =
  if interference (headingRef s) h then S (pendingTimers s) else pendingTimers s.
Proof.
  rewrite (handleDeviceOrientation_valid _ _ _ _ _ _ He). cbv zeta.
  now destruct (interference _ _).
Qed.

End Valid.

(** A sample is dropped when its azimuth (the compass heading when
    [alpha] is null or undefined), its pitch or its roll is not a number or
    is NaN: the callback returns the state it was given. *)
Theorem orientation_drops_malformed w e s :
  as_number (nullish (OrientationEvent.alpha e)
                     (OrientationEvent.webkitCompassHeading e)) = None \/
  as_number (OrientationEvent.beta e) = None \/
  as_number (OrientationEvent.gamma e) = None ->
  handleDeviceOrientation w e s = s.
Proof.
  intros H. apply handleDeviceOrientation_invalid. unfold orientationAngles.
  destruct H as [-> | [-> | ->]]; repeat break_match; reflexivity.
Qed.

(** The compass callback writes only the filter, the published
    heading, the calibrating flag and the timer count: it leaves
    [headingRef] (which only a render updates) and every cell of the motion
    pipeline as they were. *)
Theorem orientation_frame w e s :
  let s' := handleDeviceOrientation w e s in
  headingRef s' = headingRef s /\
  velocity s' = velocity s /\ position s' = position s /\ path s' = path s /\
  velRef s' = velRef s /\ posRef s' = posRef s /\ pathRef s' = pathRef s /\
  lastTimestampRef s' = lastTimestampRef s /\
  stationaryCountRef s' = stationaryCountRef s /\
  accelBiasRef s' = accelBiasRef s.
Proof.
  cbv zeta. destruct (orientationAngles e) as [[[a b] g]|] eqn:E.
  - rewrite (handleDeviceOrientation_valid _ _ _ _ _ _ E). cbv zeta.
    destruct (interference _ _); repeat split.
  - rewrite handleDeviceOrientation_invalid by assumption. repeat split.
Qed.

(** On three valid angles the callback publishes the filtered,
    platform-corrected heading and stores the filter; the interference test
    is advisory: it raises the flag and arms one timer when the published
    heading is more than the threshold away from [headingRef], and changes
    neither the heading nor the filter. *)
Theorem orientation_publishes w e s a b g :
  orientationAngles e = Some (a, b, g) ->
  let s' := handleDeviceOrientation w e s in
  let h := publishedHeading w e (compassFilterRef s) a b g in
  heading s' = h /\
  compassFilterRef s' = fst (lowPass (compassFilterRef s) (tiltCompensate a b g)) /\
  isCalibrating s' = (interference (headingRef s) h || isCalibrating s)%bool /\
  pendingTimers s' =
    (if interference (headingRef s) h then S (pendingTimers s) else pendingTimers s).
Proof.
  intros E. cbv zeta.
  auto using orientation_heading, orientation_filter, orientation_flag,
    orientation_timers.
Qed.

(** The first reading initialises the filter with the compensated heading
    itself: no smoothing is applied to it. *)
Lemma lowPass_first (f : CompassFilter.t num) c :
  CompassFilter.lastValue f = None ->
  lowPass f c = (CompassFilter.mk (Some c) (CompassFilter.alpha f), c).
Proof. intros H. unfold lowPass. now rewrite H. Qed.

(** The timers are not cancelled: when two jumps arm two timers,
    the first one to fire clears the flag while the second is still
    pending. *)
Theorem calibrating_cleared_by_earlier_timer s :
  let s' := calibrationTimeout (raiseCalibrating (raiseCalibrating s)) in
  isCalibrating s' = false /\ pendingTimers s' = S (pendingTimers s).
Proof. split; reflexivity. Qed.

End HeadingFacts.

(** ** Numeric theorems: the real instance *)

Section HeadingReal.
Implicit Types (s : State R) (w : Window R) (e : OrientationEvent.t R)
  (f : CompassFilter.t R).

Lemma rad2deg_bound t : - PI < t <= PI -> -180 < t * (180 / PI) <= 180.
Proof.
  intros [H1 H2]. pose proof PI_RGT_0 as Hpi.
  assert (Hk : 0 < 180 / PI) by (apply Rdiv_lt_0_compat; lra).
  assert (Hpk : PI * (180 / PI) = 180) by (field; lra).
  split; nra.
Qed.

Lemma convex_bounds a x y lo hi :
  0 <= a <= 1 -> lo <= x < hi -> lo <= y < hi ->
  lo <= a * x + (1 - a) * y < hi.
Proof.
  intros Ha Hx Hy. split; [nra|].
  destruct (Rle_lt_dec a (1/2)).
  - assert ((1 - a) * (hi - y) > 0) by (apply Rmult_gt_0_compat; lra).
    assert (a * (hi - x) >= 0) by nra. nra.
  - assert (a * (hi - x) > 0) by (apply Rmult_gt_0_compat; lra).
    assert ((1 - a) * (hi - y) >= 0) by nra. nra.
Qed.

(** *** Tilt compensation *)
Lemma tiltCompensate_tilted a b g :
  tilted b g ->
  tiltCompensate a b g =
  Rrem (Ratan2 (sin (g * (PI / 180)) * cos (b * (PI / 180)) * cos (a * PI / 180) +
                sin (b * (PI / 180)) * sin (a * PI / 180))
               (cos (g * (PI / 180)) * cos (a * PI / 180)) * (180 / PI) + 360) 360.
Proof.
  intros Ht. unfold tiltCompensate, tilted in *. js_real.
  destruct (Rltb 5 (Rabs b)) eqn:E1; destruct (Rltb 5 (Rabs g)) eqn:E2;
    simpl; try reflexivity.
  apply Rltb_false in E1, E2. lra.
Qed.

Lemma tiltCompensate_level a b g : ~ tilted b g -> tiltCompensate a b g = a.
Proof.
  intros Ht. unfold tiltCompensate, tilted in *. js_real.
  destruct (Rltb 5 (Rabs b)) eqn:E1; destruct (Rltb 5 (Rabs g)) eqn:E2;
    simpl; try reflexivity;
    try apply Rltb_true in E1; try apply Rltb_true in E2; tauto.
Qed.

Lemma tiltCompensate_tilted_in_turn a b g :
  tilted b g -> in_turn (tiltCompensate a b g).
Proof.
  intros Ht. rewrite tiltCompensate_tilted by assumption.
  apply Rrem_range; [|lra].
  match goal with
  | |- 0 <= ?t * _ + _ => pose proof (rad2deg_bound t (Ratan2_bound _ _))
  end.
  lra.
Qed.

Lemma tilted_dec b g : {tilted b g} + {~ tilted b g}.
Proof.
  unfold tilted. destruct (Rlt_dec 5 (Rabs b)); [now left; left|].
  destruct (Rlt_dec 5 (Rabs g)); [now left; right|right; tauto].
Qed.

Lemma tiltCompensate_ok a b g : azimuth_ok a b g -> in_turn (tiltCompensate a b g).
Proof.
  intros [Ht|Ha]; [now apply tiltCompensate_tilted_in_turn|].
  destruct (tilted_dec b g); [now apply tiltCompensate_tilted_in_turn|].
  now rewrite tiltCompensate_level.
Qed.

(** Tilt compensation: when pitch or roll exceeds 5 degrees the
    recomputed azimuth lies in [[0, 360)] whatever the three angles are;
    otherwise the raw azimuth is returned unchanged. *)
Theorem tiltCompensate_range a b g :
  (tilted b g -> in_turn (tiltCompensate a b g)) /\
  (~ tilted b g -> tiltCompensate a b g = a).
Proof.
  split; [apply tiltCompensate_tilted_in_turn|apply tiltCompensate_level].
Qed.

(** *** The filter *)
Lemma lowPass_next f c v :
  CompassFilter.lastValue f = Some v ->
  let r := CompassFilter.alpha f * c + (1 - CompassFilter.alpha f) * v in
  lowPass f c = (CompassFilter.mk (Some r) (CompassFilter.alpha f), r).
Proof. intros H. unfold lowPass. rewrite H. js_real. reflexivity. Qed.

(** With a coefficient in [[0, 1]] the filtered heading lies
    between the stored value and the new reading. *)
Theorem lowPass_between f c v :
  0 <= CompassFilter.alpha f <= 1 ->
  CompassFilter.lastValue f = Some v ->
  Rmin v c <= snd (lowPass f c) <= Rmax v c.
Proof.
  intros Ha Hv. rewrite (lowPass_next _ _ _ Hv). cbv zeta. simpl.
  unfold Rmin, Rmax. destruct (Rle_dec v c); split; nra.
Qed.

Lemma lowPass_preserves_turn f c :
  filter_ok f -> in_turn c ->
  filter_ok (fst (lowPass f c)) /\ in_turn (snd (lowPass f c)).
Proof.
  intros [Ha Hv] Hc. unfold filter_ok, in_turn in *.
  destruct (CompassFilter.lastValue f) as [v|] eqn:E.
  - rewrite (lowPass_next _ _ _ E). cbv zeta. simpl.
    pose proof (convex_bounds _ c v 0 360 Ha Hc Hv). repeat split; lra.
  - rewrite (lowPass_first _ _ E). simpl. repeat split; lra.
Qed.

(** *** The platform correction *)
Lemma platformHeading_ios w e c :
  is_defined (OrientationEvent.webkitCompassHeading e) = true ->
  platformHeading w e c = 360 - c.
Proof. intros H. unfold platformHeading. rewrite H. js_real. reflexivity. Qed.

Lemma platformHeading_other w e c :
  is_defined (OrientationEvent.webkitCompassHeading e) = false ->
  platformHeading w e c =
    match screenOrientation w with
    | Some _ => Rrem (c + screenAngle w) 360
    | None => c
    end.
Proof.
  intros H. unfold platformHeading, screenAngle. rewrite H.
  destruct (screenOrientation w); js_real; reflexivity.
Qed.

Lemma platformHeading_range w e c :
  0 <= screenAngle w -> in_turn c ->
  0 <= platformHeading w e c <= 360 /\
  (is_defined (OrientationEvent.webkitCompassHeading e) = false ->
   platformHeading w e c < 360) /\
  (is_defined (OrientationEvent.webkitCompassHeading e) = true ->
   0 < platformHeading w e c).
Proof.
  intros Hw Hc. unfold in_turn in *.
  destruct (is_defined (OrientationEvent.webkitCompassHeading e)) eqn:E.
  - rewrite platformHeading_ios by assumption.
    repeat split; try lra; discriminate.
  - rewrite platformHeading_other by assumption.
    assert (H : 0 <= match screenOrientation w with
                     | Some _ => Rrem (c + screenAngle w) 360
                     | None => c end < 360).
    { destruct (screenOrientation w); [apply Rrem_range; lra|lra]. }
    repeat split; try lra; discriminate.
Qed.

(** *** The callback *)

(** Claim C4. Heading bound: if the filter holds a value in one turn, the
    azimuth entering it is in one turn (tilt branch, or a raw azimuth in
    [[0, 360)]) and the screen rotation is not negative, then after the
    callback the filter still holds a value in one turn and the published
    heading is in [[0, 360]]; it is below 360 off iOS and above 0 on iOS. *)
Theorem orientation_heading_bounded w e s a b g :
  filter_ok (compassFilterRef s) ->
  orientationAngles e = Some (a, b, g) ->
  azimuth_ok a b g ->
  0 <= screenAngle w ->
  let s' := handleDeviceOrientation w e s in
  filter_ok (compassFilterRef s') /\
  0 <= heading s' <= 360 /\
  (is_defined (OrientationEvent.webkitCompassHeading e) = false -> heading s' < 360) /\
  (is_defined (OrientationEvent.webkitCompassHeading e) = true -> 0 < heading s').
Proof.
  intros Hf He Ha Hw. cbv zeta.
  rewrite (orientation_heading w e s a b g He), (orientation_filter w e s a b g He).
  destruct (lowPass_preserves_turn _ _ Hf (tiltCompensate_ok _ _ _ Ha)) as [Hf' Hc].
  split; [exact Hf'|]. apply platformHeading_range; assumption.
Qed.

(** The bound 360 is reached: a level iPhone pointing north
    publishes a heading of exactly 360, outside [[0, 360)]. *)
Theorem heading_360_on_ios :
  heading (handleDeviceOrientation w_plain ev_ios_north initialState) = 360 /\
  ~ in_turn (heading (handleDeviceOrientation w_plain ev_ios_north initialState)).
Proof.
  assert (E : orientationAngles ev_ios_north = Some (0, 0, 0)) by reflexivity.
  rewrite (orientation_heading w_plain _ initialState _ _ _ E).
  unfold publishedHeading. rewrite platformHeading_ios by reflexivity.
  rewrite tiltCompensate_level, lowPass_first by
    (try reflexivity; unfold tilted; rewrite Rabs_R0; lra).
  simpl. unfold in_turn. split; lra.
Qed.

(** A raw azimuth outside one turn is published as it is when the
    phone is level and no platform correction applies: the callback does not
    normalise it. *)
Theorem raw_azimuth_not_normalised w e s a b g :
  orientationAngles e = Some (a, b, g) ->
  ~ tilted b g ->
  CompassFilter.lastValue (compassFilterRef s) = None ->
  is_defined (OrientationEvent.webkitCompassHeading e) = false ->
  screenOrientation w = None ->
  heading (handleDeviceOrientation w e s) = a.
Proof.
  intros He Ht Hf Hi Hw.
  rewrite (orientation_heading w e s a b g He).
  unfold publishedHeading.
  rewrite platformHeading_other, Hw, tiltCompensate_level, lowPass_first by assumption.
  reflexivity.
Qed.

(** *** The interference test *)
Lemma interference_R prev c : interference prev c = true <-> 20 < Rabs (c - prev).
Proof. unfold interference, variationThreshold. js_real. apply Rltb_true. Qed.

(** Claim C39. With the coefficient 0.2 and a filter in step with the rendered
    heading [p], the flag is raised exactly when the raw reading is more
    than 100 degrees away from [p]: the test sees the smoothed jump, a fifth
    of the raw one. *)
Theorem interference_needs_large_jump f p raw :
  CompassFilter.lastValue f = Some p ->
  CompassFilter.alpha f = 0.2 ->
  (interference p (snd (lowPass f raw)) = true <-> 100 < Rabs (raw - p)).
Proof.
  intros Hv Ha. rewrite interference_R, (lowPass_next f raw p Hv); cbv zeta; simpl.
  rewrite Ha. replace (0.2 * raw + (1 - 0.2) * p - p) with (0.2 * (raw - p)) by lra.
  rewrite Rabs_mult, (Rabs_pos_eq 0.2) by lra. lra.
Qed.

(** Calibration pulse: with a rendered heading of 10 and an empty
    filter, a reading of 35 is published and raises the flag with one timer;
    when the timer fires the flag is cleared and no timer is left. *)
Theorem calibration_pulse :
  let s1 := handleDeviceOrientation w_plain ev_35 s_ref_10 in
  let s2 := calibrationTimeout s1 in
  heading s1 = 35 /\ isCalibrating s1 = true /\ pendingTimers s1 = 1%nat /\
  isCalibrating s2 = false /\ pendingTimers s2 = 0%nat /\ heading s2 = 35.
Proof.
  cbv zeta.
  assert (E : orientationAngles ev_35 = Some (35, 0, 0)) by reflexivity.
  pose proof (orientation_heading w_plain _ s_ref_10 _ _ _ E) as Hh.
  pose proof (orientation_flag w_plain _ s_ref_10 _ _ _ E) as Hc.
  pose proof (orientation_timers w_plain _ s_ref_10 _ _ _ E) as Ht.
  assert (Hp : publishedHeading w_plain ev_35 (compassFilterRef s_ref_10) 35 0 0 = 35).
  { unfold publishedHeading.
    rewrite platformHeading_other, tiltCompensate_level, lowPass_first by
      (try reflexivity; unfold tilted; rewrite Rabs_R0; lra).
    reflexivity. }
  rewrite Hp in *.
  assert (Hi : interference (headingRef s_ref_10) 35 = true).
  { apply interference_R. simpl. rewrite Rabs_pos_eq; lra. }
  rewrite Hi in *. simpl in Hc, Ht.
  unfold calibrationTimeout. simpl. rewrite Ht. repeat split; assumption.
Qed.

(** The same 25 degree jump of the raw azimuth, once the filter
    holds 10, is smoothed to a heading of 15 and does not raise the flag. *)
Theorem smoothed_jump_not_flagged :
  let s1 := handleDeviceOrientation w_plain ev_35 s_heading_10 in
  heading s1 = 15 /\ isCalibrating s1 = false /\ pendingTimers s1 = 0%nat.
Proof.
  cbv zeta.
  assert (E : orientationAngles ev_35 = Some (35, 0, 0)) by reflexivity.
  pose proof (orientation_heading w_plain _ s_heading_10 _ _ _ E) as Hh.
  pose proof (orientation_flag w_plain _ s_heading_10 _ _ _ E) as Hc.
  pose proof (orientation_timers w_plain _ s_heading_10 _ _ _ E) as Ht.
  assert (Hp : publishedHeading w_plain ev_35 (compassFilterRef s_heading_10) 35 0 0 = 15).
  { unfold publishedHeading.
    rewrite platformHeading_other, tiltCompensate_level by
      (try reflexivity; unfold tilted; rewrite Rabs_R0; lra).
    rewrite (lowPass_next _ _ 10) by reflexivity. simpl. lra. }
  rewrite Hp in *.
  assert (Hi : interference (headingRef s_heading_10) 15 = false).
  { destruct (interference _ _) eqn:Ei; [|reflexivity].
    apply interference_R in Ei. simpl in Ei. rewrite Rabs_pos_eq in Ei; lra. }
  rewrite Hi in *. repeat split; assumption.
Qed.

(** *** The tilt branch away from the cardinal directions *)
Lemma sin_acute x : 0 < x < PI / 2 -> 0 < sin x < 1.
Proof.
  intros [H0 H1]. pose proof PI_RGT_0.
  assert (Hs : 0 < sin x) by (apply sin_gt_0; lra).
  assert (Hc : 0 < cos x) by (apply cos_gt_0; lra).
  pose proof (sin2_cos2 x) as E. unfold Rsqr in E. split; nra.
Qed.

Lemma atan_scaled_tan k x :
  0 < k < 1 -> 0 < x < PI / 2 -> 0 < atan (k * tan x) < x.
Proof.
  intros Hk Hx. assert (Ht : 0 < tan x) by (apply tan_gt_0; lra).
  split.
  - rewrite <- atan_0. apply atan_increasing. nra.
  - rewrite <- (atan_tan x) at 2 by lra. apply atan_increasing. nra.
Qed.

(** The angle of the tilt branch for a pitched device with no roll, in
    degrees: strictly inside the first quadrant below the azimuth. *)
Lemma pitched_angle_bounds a b :
  0 < a < 90 -> 0 < b < 90 ->
  0 < atan (sin (b * (PI / 180)) * tan (a * PI / 180)) * (180 / PI) < a.
Proof.
  intros Ha Hb. pose proof PI_RGT_0 as Hpi.
  assert (HA : 0 < a * PI / 180 < PI / 2) by (split; nra).
  assert (HB : 0 < b * (PI / 180) < PI / 2) by (split; nra).
  destruct (atan_scaled_tan _ _ (sin_acute _ HB) HA) as [H0 H1].
  assert (Hk : 0 < 180 / PI) by (apply Rdiv_lt_0_compat; lra).
  assert (a * PI / 180 * (180 / PI) = a) by (field; lra).
  split; nra.
Qed.

(** The tilt branch in closed form for a pitched device with no roll. *)
Lemma tiltCompensate_pitched a b :
  0 < a < 90 -> 5 < b < 90 ->
  tiltCompensate a b 0 =
  atan (sin (b * (PI / 180)) * tan (a * PI / 180)) * (180 / PI).
Proof.
  intros Ha Hb. pose proof PI_RGT_0 as Hpi.
  assert (HA : 0 < a * PI / 180 < PI / 2) by (split; nra).
  rewrite tiltCompensate_tilted by (left; rewrite Rabs_pos_eq; lra).
  replace (0 * (PI / 180)) with 0 by lra. rewrite sin_0, cos_0.
  assert (Hc : 0 < cos (a * PI / 180)) by (apply cos_gt_0; lra).
  unfold Ratan2. destruct (Rlt_dec 0 (1 * cos (a * PI / 180))) as [_|Hn]; [|lra].
  replace ((0 * cos (b * (PI / 180)) * cos (a * PI / 180) +
            sin (b * (PI / 180)) * sin (a * PI / 180)) / (1 * cos (a * PI / 180)))
    with (sin (b * (PI / 180)) * tan (a * PI / 180)) by (unfold tan; field; lra).
  pose proof (pitched_angle_bounds a b Ha ltac:(lra)).
  rewrite Rrem_once; lra.
Qed.

(** Claim C32. The tilt branch does not keep the heading.  A level device
    pointing into the first quadrant reports its azimuth; the same device
    pitched by more than 5 and less than 90 degrees, with no roll, reports
    a heading strictly between north and its azimuth: the tangent of the
    reported heading is the tangent of the azimuth scaled by the sine of
    the pitch. *)
Theorem pitch_shrinks_heading a b :
  0 < a < 90 -> 5 < b < 90 ->
  tiltCompensate a 0 0 = a /\
  tiltCompensate a b 0 =
    atan (sin (b * (PI / 180)) * tan (a * PI / 180)) * (180 / PI) /\
  0 < tiltCompensate a b 0 < a.
Proof.
  intros Ha Hb. split; [|split].
  - apply tiltCompensate_level. unfold tilted. rewrite Rabs_R0; lra.
  - now apply tiltCompensate_pitched.
  - rewrite tiltCompensate_pitched by assumption.
    apply pitched_angle_bounds; lra.
Qed.
Lemma atan_half_bound : 0 < atan (/ 2) < PI / 6.
Proof.
  pose proof Machin_2_3 as H23. pose proof Machin_2_3_7 as H237.
  assert (H7 : atan (/ 7) < atan (/ 3)) by (apply atan_increasing; lra).
  assert (H0 : 0 < atan (/ 2)) by (rewrite <- atan_0; apply atan_increasing; lra).
  lra.
Qed.

Lemma tiltCompensate_45_30 :
  tiltCompensate 45 30 0 = atan (/ 2) * (180 / PI).
Proof.
  pose proof PI_RGT_0 as Hpi. pose proof atan_half_bound as [Ha1 Ha2].
  rewrite tiltCompensate_tilted by (left; rewrite Rabs_pos_eq; lra).
  replace (0 * (PI / 180)) with 0 by lra.
  replace (30 * (PI / 180)) with (PI / 6) by lra.
  replace (45 * PI / 180) with (PI / 4) by lra.
  rewrite sin_0, cos_0, sin_PI6, sin_cos_PI4.
  assert (Hc : 0 < cos (PI / 4)).
  { rewrite cos_PI4. apply Rdiv_lt_0_compat; [lra|]. apply sqrt_lt_R0. lra. }
  unfold Ratan2. destruct (Rlt_dec 0 (1 * cos (PI / 4))) as [_|Hn]; [|lra].
  replace ((0 * cos (PI / 6) * cos (PI / 4) + 1 / 2 * cos (PI / 4)) / (1 * cos (PI / 4)))
    with (/ 2) by (field; lra).
  assert (Hk : 0 < 180 / PI) by (apply Rdiv_lt_0_compat; lra).
  assert (Hd : atan (/ 2) * (180 / PI) < 30).
  { replace 30 with (PI / 6 * (180 / PI)) by (field; lra). nra. }
  rewrite Rrem_once; nra.
Qed.

(** The tilt branch does not keep the heading: a level device with
    an azimuth of 45 degrees reports 45, the same device pitched by 30
    degrees reports less than 30. *)
Theorem tilt_compensation_distorts :
  tiltCompensate 45 5 0 = 45 /\ 0 < tiltCompensate 45 30 0 < 30.
Proof.
  split.
  - apply tiltCompensate_level. unfold tilted. rewrite Rabs_R0, Rabs_pos_eq; lra.
  - pose proof PI_RGT_0 as Hpi. pose proof atan_half_bound as [Ha1 Ha2].
    rewrite tiltCompensate_45_30.
    assert (Hk : 0 < 180 / PI) by (apply Rdiv_lt_0_compat; lra).
    split; [nra|]. replace 30 with (PI / 6 * (180 / PI)) by (field; lra). nra.
Qed.

End HeadingReal.

(** ** Witnesses: the theorems at concrete inputs *)

Section HeadingWitnesses.

Lemma level_not_tilted : ~ tilted 0 0.
Proof. unfold tilted. rewrite Rabs_R0. lra. Qed.

Lemma orientation_drops_malformed_witness :
  handleDeviceOrientation w_plain ev_no_beta initialState = initialState.
Proof. apply orientation_drops_malformed. right; left. reflexivity. Defined.

Lemma orientation_publishes_witness :
  heading (handleDeviceOrientation w_plain ev_east initialState) =
  publishedHeading w_plain ev_east (compassFilterRef initialState) 90 0 0.
Proof.
  exact (proj1 (orientation_publishes w_plain ev_east initialState 90 0 0 eq_refl)).
Defined.

Lemma lowPass_between_witness :
  Rmin 10 35 <= snd (lowPass (CompassFilter.mk (Some 10) 0.2) 35) <= Rmax 10 35.
Proof.
  apply lowPass_between; [simpl; lra|reflexivity].
Defined.

Lemma orientation_heading_bounded_witness :
  0 <= heading (handleDeviceOrientation w_portrait ev_east initialState) <= 360.
Proof.
  refine (proj1 (proj2
    (orientation_heading_bounded w_portrait ev_east initialState 90 0 0 _ eq_refl _ _))).
  - split; [simpl; js_real; lra|exact I].
  - right. unfold in_turn. lra.
  - unfold screenAngle, w_portrait. simpl. rewrite num_or_zero_R. lra.
Defined.

Lemma raw_azimuth_not_normalised_witness :
  heading (handleDeviceOrientation w_plain ev_400 initialState) = 400.
Proof.
  apply (raw_azimuth_not_normalised w_plain ev_400 initialState 400 0 0);
    try reflexivity.
  exact level_not_tilted.
Defined.

Lemma pitch_shrinks_heading_witness : 0 < tiltCompensate 45 30 0 < 45.
Proof.
  exact (proj2 (proj2 (pitch_shrinks_heading 45 30 ltac:(lra) ltac:(lra)))).
Defined.

Lemma interference_needs_large_jump_witness :
  interference 10 (snd (lowPass (CompassFilter.mk (Some 10) 0.2) 35)) = true <->
  100 < Rabs (35 - 10).
Proof.
  apply interference_needs_large_jump; reflexivity.
Defined.

End HeadingWitnesses.
