(* ===== verification/Motion.v ===== *)
(** * Motion: the acceleration callback and the reset

    [handleDeviceMotion] (src/src/components/DRModule.jsx, lines 124-212)
    receives a [devicemotion] event.  It publishes the raw readings for
    display, then integrates the linear acceleration:

    - [displaySensors] (lines 125-139);
    - the early return when the event has no linear acceleration (lines
      142-143);
    - [eventTime] (lines 145-146) and the first-sample seeding of
      [lastTimestampRef] (lines 147-150);
    - [deltaTimeOf] and [rejectDelta], the time-step guard (lines 152-153):
      a rejected sample returns before [lastTimestampRef] is written;
    - [countStationary] (lines 160-168) and the stationary branch with
      [learnBias] (lines 170-176);
    - [deadzoneOf] (lines 183-185), [rotateToWorld] (lines 188-190),
      [integrateVelocity] (lines 193-197), [integratePosition] (lines
      200-201), and the publication of velocity, position and path (lines
      203-211).

    [clearPath] (lines 263-268) is the reset: it writes React state and the
    timestamp ref, and no other ref.

    The theorems of the first part hold for every instance of the number
    interface; those of the second part are proved on the real instance. *)

From Stdlib Require Import List Bool Arith Lia QArith Reals Lra Psatz.
From S2P Require Import Prelude JsNum RealNum DRState.
Import ListNotations.

(** ** The event *)

(** The fields of a [DeviceMotionEvent] the callback reads.  The three
    objects may be null; their components may be null too. *)
Module MotionEvent.
Record t (num : Type) : Type := mk {
  accelerationIncludingGravity : option (Vec3.t (jsval num));
  rotationRate : option (Rot3.t (jsval num));
  acceleration : option (Vec3.t (jsval num));
  timeStamp : jsval num
}.
Arguments mk {num} accelerationIncludingGravity rotationRate acceleration timeStamp.
Arguments accelerationIncludingGravity {num} t.
Arguments rotationRate {num} t.
Arguments acceleration {num} t.
Arguments timeStamp {num} t.
End MotionEvent.

Section Motion.
Context {num : Type} {N : JsNumber num} {M : JsMath num}.
Local Open Scope js_scope.

(** Lines 125-139: the raw accelerometer reading is published as it is; the
    rotation rate is converted with missing components read as 0. *)
Definition displaySensors (event : MotionEvent.t num) (s : State num) : State num :=
  let s :=
    match MotionEvent.accelerationIncludingGravity event with
    | Some g => setAccelerometerData (Some g) s
    | None => s
    end in
  match MotionEvent.rotationRate event with
  | Some r =>
      setGyroscopeData
        (Some (Rot3.mk
          (val_or (Rot3.alpha r) (nlit 0) * (nlit 180 / mPI))
          (val_or (Rot3.beta r) (nlit 0) * (nlit 180 / mPI))
          (val_or (Rot3.gamma r) (nlit 0) * (nlit 180 / mPI)))) s
  | None => s
  end.

(** Lines 145-146: [event.timeStamp] when it is a number, the clock
    otherwise. *)
Definition eventTime (performanceNow : num) (event : MotionEvent.t num) : num :=
  match MotionEvent.timeStamp event with
  | JNum t => t
  | _ => performanceNow
  end.

(** Line 152. *)
Definition deltaTimeOf (now lastTimestamp : num) : num :=
  (now - lastTimestamp) / nlit 1000.0.

(** Line 153: the condition of the early return. *)
Definition rejectDelta (deltaTime : num) : bool :=
  (deltaTime <=? nlit 0) || (deltaTime <? nlit 0.001).

(** Lines 161-162. *)
Definition stationaryThreshold : num := nlit 0.12.
Definition stationarySamplesRequired : nat := 6.

(** Lines 164-168: one more quiet sample, or none. *)
Definition countStationary (count : nat) (accMag2D : num) : nat :=
  if accMag2D <? stationaryThreshold then S count else 0.

(** Lines 171-172: the bias moves a fifth of the way to the raw reading. *)
Definition learnBias (bias : Vec2.t num) (axRaw ayRaw : num) : Vec2.t num :=
  Vec2.mk (Vec2.x bias * nlit 0.8 + axRaw * nlit 0.2)
          (Vec2.y bias * nlit 0.8 + ayRaw * nlit 0.2).

(** Lines 183-185. *)
Definition deadzone : num := nlit 0.05.

Definition deadzoneOf (unbiased : num) : num :=
  if mabs unbiased >? deadzone then unbiased else nlit 0.

(** Lines 188-190: rotation of the device-frame acceleration by the
    rendered heading; a heading of 0 or NaN reads as 0. *)
Definition rotateToWorld (heading ax ay : num) : Vec2.t num :=
  let headingRad := num_or heading (nlit 0) * (mPI / nlit 180) in
  Vec2.mk (ax * mcos headingRad + ay * msin headingRad)
          (- ax * msin headingRad + ay * mcos headingRad).

(** Lines 193-197. *)
Definition damping : num := nlit 1.0.

Definition integrateVelocity (vel worldA : Vec2.t num) (deltaTime : num)
  : Vec2.t num :=
  Vec2.mk
    ((Vec2.x vel + Vec2.x worldA * deltaTime) * mexp (- damping * deltaTime))
    ((Vec2.y vel + Vec2.y worldA * deltaTime) * mexp (- damping * deltaTime)).

(** Lines 200-201: the position advances with the new velocity. *)
Definition integratePosition (pos newVel : Vec2.t num) (deltaTime : num)
  : Vec2.t num :=
  Vec2.mk (Vec2.x pos + Vec2.x newVel * deltaTime)
          (Vec2.y pos + Vec2.y newVel * deltaTime).

(** The world-frame acceleration of a raw reading: bias correction (lines
    179-180), deadzone, rotation. *)
Definition worldAcceleration (bias : Vec2.t num) (heading axRaw ayRaw : num)
  : Vec2.t num :=
  let axUnbiased := axRaw - Vec2.x bias in
  let ayUnbiased := ayRaw - Vec2.y bias in
  rotateToWorld heading (deadzoneOf axUnbiased) (deadzoneOf ayUnbiased).

(** Lines 170-176: the stationary branch. *)
Definition holdStationary (axRaw ayRaw : num) (s : State num) : State num :=
  let s := set_accelBiasRef (learnBias (accelBiasRef s) axRaw ayRaw) s in
  let s := set_velRef Vec2.zero s in
  setVelocity (velRef s) s.

(** Lines 178-211: the integrating branch. *)
Definition integrateSample (axRaw ayRaw deltaTime : num) (s : State num)
  : State num :=
  let worldA := worldAcceleration (accelBiasRef s) (headingRef s) axRaw ayRaw in
  let newVel := integrateVelocity (velRef s) worldA deltaTime in
  let newPos := integratePosition (posRef s) newVel deltaTime in
  let s := set_velRef newVel s in
  let s := set_posRef newPos s in
  let s := setVelocity (velRef s) s in
  let s := setPosition (posRef s) s in
  let newPath := pathRef s ++ [newPos] in
  let s := set_pathRef newPath s in
  setPath newPath s.

(** Lines 156-157: a missing, zero or NaN component reads as 0. *)
Definition rawX (acc : Vec3.t (jsval num)) : num := val_or (Vec3.x acc) (nlit 0).
Definition rawY (acc : Vec3.t (jsval num)) : num := val_or (Vec3.y acc) (nlit 0).

(** Lines 154-211: an accepted sample. *)
Definition acceptSample (now deltaTime : num) (acc : Vec3.t (jsval num))
  (s : State num) : State num :=
  let s := set_lastTimestampRef (Some now) s in
  let axRaw := rawX acc in
  let ayRaw := rawY acc in
  let accMag2D := mhypot axRaw ayRaw in
  let s := set_stationaryCountRef
             (countStationary (stationaryCountRef s) accMag2D) s in
  if (stationarySamplesRequired <=? stationaryCountRef s)%nat then
    holdStationary axRaw ayRaw s
  else
    integrateSample axRaw ayRaw deltaTime s.

(** Lines 124-212. *)
Definition handleDeviceMotion (performanceNow : num)
  (event : MotionEvent.t num) (s : State num) : State num :=
  let s := displaySensors event s in
  match MotionEvent.acceleration event with
  | None => s
  | Some acc =>
      let now := eventTime performanceNow event in
      match lastTimestampRef s with
      | None => set_lastTimestampRef (Some now) s
      | Some lastTimestamp =>
          let deltaTime := deltaTimeOf now lastTimestamp in
          if rejectDelta deltaTime then s
          else acceptSample now deltaTime acc s
      end
  end.

(** Lines 263-268. *)
Definition clearPath (s : State num) : State num :=
  let s := setVelocity Vec2.zero s in
  let s := setPosition Vec2.zero s in
  let s := setPath [Vec2.zero] s in
  set_lastTimestampRef None s.

(** ** Specification vocabulary *)

(** The cells of the dead-reckoning estimate, refs and published values. *)
Definition estimate (s : State num) :=
  (velRef s, posRef s, pathRef s, velocity s, position s, path s).

(** The calibration cells: they survive a reset. *)
Definition calibration (s : State num) := (accelBiasRef s, stationaryCountRef s).

(** The cells of the compass pipeline. *)
Definition compass (s : State num) :=
  (heading s, headingRef s, compassFilterRef s, isCalibrating s, pendingTimers s).

(** The counter an accepted sample leaves. *)
Definition nextCount (s : State num) (acc : Vec3.t (jsval num)) : nat :=
  countStationary (stationaryCountRef s) (mhypot (rawX acc) (rawY acc)).

(** The last point of the path is the current position. *)
Definition path_tracks_position (s : State num) : Prop :=
  last (pathRef s) Vec2.zero = posRef s.

(** Feeding a sequence of samples, each with the clock value of its
    arrival. *)
Fixpoint feed (samples : list (num * MotionEvent.t num)) (s : State num)
  : State num :=
  match samples with
  | [] => s
  | (performanceNow, event) :: rest =>
      feed rest (handleDeviceMotion performanceNow event s)
  end.

(** A reading the stationary test counts: its raw horizontal magnitude is
    below the threshold (lines 159-165). *)
Definition still (acc : Vec3.t (jsval num)) : Prop :=
  (mhypot (rawX acc) (rawY acc) <? stationaryThreshold) = true.

(** A sequence of samples, each counted by the stationary test and each
    let through by the time-step guard after the previous one, the first
    after [last]. *)
Fixpoint accepted_still (last : num) (samples : list (num * MotionEvent.t num))
  : Prop :=
  match samples with
  | [] => True
  | (pn, e) :: rest =>
      (exists acc, MotionEvent.acceleration e = Some acc /\ still acc) /\
      rejectDelta (deltaTimeOf (eventTime pn e) last) = false /\
      accepted_still (eventTime pn e) rest
  end.

End Motion.


(** ** Specification vocabulary (real instance) *)

Section MotionSpecReal.
Local Open Scope R_scope.

(** The squared length of a vector. *)
Definition speed2 (v : Vec2.t R) : R := Vec2.x v * Vec2.x v + Vec2.y v * Vec2.y v.

(** Both velocity components are within [B]. *)
Definition speed_bounded (B : R) (s : State R) : Prop :=
  Rabs (Vec2.x (velRef s)) <= B /\ Rabs (Vec2.y (velRef s)) <= B.

(** Both bias-corrected components of a reading are inside the deadzone. *)
Definition within_deadzone (bias : Vec2.t R) (acc : Vec3.t (jsval R)) : Prop :=
  Rabs (rawX acc - Vec2.x bias) <= 0.05 /\ Rabs (rawY acc - Vec2.y bias) <= 0.05.

(** The raw horizontal magnitude is below the stationary threshold
    (0.12 squared is 0.0144). *)
Definition quiet (acc : Vec3.t (jsval R)) : Prop :=
  rawX acc * rawX acc + rawY acc * rawY acc < 0.0144.

(** A sequence of samples, each quiet and at least 1 ms after the previous
    one, the first at least 1 ms after [last]. *)
Fixpoint accepted_quiet (last : R) (samples : list (R * MotionEvent.t R)) : Prop :=
  match samples with
  | [] => True
  | (pn, e) :: rest =>
      (exists acc, MotionEvent.acceleration e = Some acc /\ quiet acc) /\
      1 <= eventTime pn e - last /\
      accepted_quiet (eventTime pn e) rest
  end.

(** *** Concrete inputs for the examples *)

(** A quiet reading (0.01, 0.02) stamped [t]. *)
Definition acc_quiet : Vec3.t (jsval R) := Vec3.mk (JNum 0.01) (JNum 0.02) JNull.
Definition ev_quiet (t : R) : MotionEvent.t R :=
  MotionEvent.mk None None (Some acc_quiet) (JNum t).

(** A push of 1 m/s2 along the device's x axis stamped [t]. *)
Definition acc_push : Vec3.t (jsval R) := Vec3.mk (JNum 1) (JNum 0) JNull.
Definition ev_push (t : R) : MotionEvent.t R :=
  MotionEvent.mk None None (Some acc_push) (JNum t).

(** A session whose baseline is at 1000 ms. *)
Definition s_running : State R := set_lastTimestampRef (Some 1000) initialState.

(** The same with five quiet samples already counted. *)
Definition s_still5 : State R := set_stationaryCountRef 5 s_running.

(** Six quiet samples, 16 ms apart. *)
Definition six_quiet : list (R * MotionEvent.t R) :=
  [(0, ev_quiet 1016); (0, ev_quiet 1032); (0, ev_quiet 1048);
   (0, ev_quiet 1064); (0, ev_quiet 1080); (0, ev_quiet 1096)].

End MotionSpecReal.

(** ** Structural theorems: any instance of the number interface *)

Section MotionFacts.
Context {num : Type} {N : JsNumber num} {M : JsMath num}.
Implicit Types (s : State num) (e : MotionEvent.t num) (pn now dt : num)
  (acc : Vec3.t (jsval num)).

(** *** The display step touches only the display cells *)
Lemma displaySensors_frame e s :
  let s' := displaySensors e s in
  estimate s' = estimate s /\ calibration s' = calibration s /\
  compass s' = compass s /\ lastTimestampRef s' = lastTimestampRef s.
Proof.
  unfold displaySensors.
  destruct (MotionEvent.accelerationIncludingGravity e);
    destruct (MotionEvent.rotationRate e); repeat split.
Qed.

Ltac display_frame := unfold displaySensors; repeat break_match; reflexivity.

Lemma displaySensors_lastTimestampRef e s :
  lastTimestampRef (displaySensors e s) = lastTimestampRef s.
Proof. display_frame. Qed.

Lemma displaySensors_velRef e s : velRef (displaySensors e s) = velRef s.
Proof. display_frame. Qed.

Lemma displaySensors_posRef e s : posRef (displaySensors e s) = posRef s.
Proof. display_frame. Qed.

Lemma displaySensors_pathRef e s : pathRef (displaySensors e s) = pathRef s.
Proof. display_frame. Qed.

Lemma displaySensors_headingRef e s : headingRef (displaySensors e s) = headingRef s.
Proof. display_frame. Qed.

Lemma displaySensors_accelBiasRef e s :
  accelBiasRef (displaySensors e s) = accelBiasRef s.
Proof. display_frame. Qed.

Lemma displaySensors_velocity e s : velocity (displaySensors e s) = velocity s.
Proof. display_frame. Qed.

Lemma displaySensors_position e s : position (displaySensors e s) = position s.
Proof. display_frame. Qed.

Lemma displaySensors_path e s : path (displaySensors e s) = path s.
Proof. display_frame. Qed.

Lemma displaySensors_stationaryCountRef e s :
  stationaryCountRef (displaySensors e s) = stationaryCountRef s.
Proof. display_frame. Qed.

(** The counter an accepted sample leaves does not depend on the display
    step. *)
Lemma nextCount_display e s acc : nextCount (displaySensors e s) acc = nextCount s acc.
Proof. unfold nextCount. now rewrite displaySensors_stationaryCountRef. Qed.

End MotionFacts.

#[export] Hint Rewrite @displaySensors_lastTimestampRef @displaySensors_velRef
  @displaySensors_posRef @displaySensors_pathRef @displaySensors_headingRef
  @displaySensors_accelBiasRef @displaySensors_stationaryCountRef
  @displaySensors_velocity @displaySensors_position @displaySensors_path
  @nextCount_display : dr_simpl.

Section MotionSteps.
Context {num : Type} {N : JsNumber num} {M : JsMath num}.
Implicit Types (s : State num) (e : MotionEvent.t num) (pn now dt : num)
  (acc : Vec3.t (jsval num)).

(** *** The callback, branch by branch *)
Lemma handleDeviceMotion_no_acceleration pn e s :
  MotionEvent.acceleration e = None ->
  handleDeviceMotion pn e s = displaySensors e s.
Proof. intros H. unfold handleDeviceMotion. now rewrite H. Qed.

Lemma handleDeviceMotion_first pn e s acc :
  MotionEvent.acceleration e = Some acc ->
  lastTimestampRef s = None ->
  handleDeviceMotion pn e s =
  set_lastTimestampRef (Some (eventTime pn e)) (displaySensors e s).
Proof.
  intros H1 H2. unfold handleDeviceMotion.
  now rewrite H1, displaySensors_lastTimestampRef, H2.
Qed.

Lemma handleDeviceMotion_rejected pn e s acc last :
  MotionEvent.acceleration e = Some acc ->
  lastTimestampRef s = Some last ->
  rejectDelta (deltaTimeOf (eventTime pn e) last) = true ->
  handleDeviceMotion pn e s = displaySensors e s.
Proof.
  intros H1 H2 H3. unfold handleDeviceMotion.
  now rewrite H1, displaySensors_lastTimestampRef, H2, H3.
Qed.

Lemma handleDeviceMotion_accepted pn e s acc last :
  MotionEvent.acceleration e = Some acc ->
  lastTimestampRef s = Some last ->
  rejectDelta (deltaTimeOf (eventTime pn e) last) = false ->
  handleDeviceMotion pn e s =
  acceptSample (eventTime pn e) (deltaTimeOf (eventTime pn e) last) acc
               (displaySensors e s).
Proof.
  intros H1 H2 H3. unfold handleDeviceMotion.
  now rewrite H1, displaySensors_lastTimestampRef, H2, H3.
Qed.

(** *** An accepted sample *)
Lemma acceptSample_eq now dt acc s :
  acceptSample now dt acc s =
  let s1 := set_stationaryCountRef (nextCount s acc)
              (set_lastTimestampRef (Some now) s) in
  if (stationarySamplesRequired <=? nextCount s acc)%nat
  then holdStationary (rawX acc) (rawY acc) s1
  else integrateSample (rawX acc) (rawY acc) dt s1.
Proof. reflexivity. Qed.

Lemma acceptSample_stationary now dt acc s :
  (stationarySamplesRequired <=? nextCount s acc)%nat = true ->
  let s' := acceptSample now dt acc s in
  velRef s' = Vec2.zero /\ velocity s' = Vec2.zero /\
  posRef s' = posRef s /\ position s' = position s /\
  pathRef s' = pathRef s /\ path s' = path s /\
  accelBiasRef s' = learnBias (accelBiasRef s) (rawX acc) (rawY acc) /\
  stationaryCountRef s' = nextCount s acc /\
  lastTimestampRef s' = Some now /\ compass s' = compass s.
Proof.
  intros H. rewrite acceptSample_eq. cbv zeta. rewrite H. repeat split.
Qed.

Lemma acceptSample_integrated now dt acc s :
  (stationarySamplesRequired <=? nextCount s acc)%nat = false ->
  let s' := acceptSample now dt acc s in
  let newVel :=
    integrateVelocity (velRef s)
      (worldAcceleration (accelBiasRef s) (headingRef s) (rawX acc) (rawY acc)) dt in
  let newPos := integratePosition (posRef s) newVel dt in
  velRef s' = newVel /\ velocity s' = newVel /\
  posRef s' = newPos /\ position s' = newPos /\
  pathRef s' = pathRef s ++ [newPos] /\ path s' = pathRef s ++ [newPos] /\
  accelBiasRef s' = accelBiasRef s /\
  stationaryCountRef s' = nextCount s acc /\
  lastTimestampRef s' = Some now /\ compass s' = compass s.
Proof.
  intros H. rewrite acceptSample_eq. cbv zeta. rewrite H. repeat split.
Qed.

(** *** Case analysis on the callback

    The five ways through [handleDeviceMotion], as an elimination rule. *)
Lemma handleDeviceMotion_cases pn e s (P : State num -> Prop) :
  (MotionEvent.acceleration e = None -> P (displaySensors e s)) ->
  (forall acc, MotionEvent.acceleration e = Some acc ->
     lastTimestampRef s = None ->
     P (set_lastTimestampRef (Some (eventTime pn e)) (displaySensors e s))) ->
  (forall acc last, MotionEvent.acceleration e = Some acc ->
     lastTimestampRef s = Some last ->
     rejectDelta (deltaTimeOf (eventTime pn e) last) = true ->
     P (displaySensors e s)) ->
  (forall acc last, MotionEvent.acceleration e = Some acc ->
     lastTimestampRef s = Some last ->
     rejectDelta (deltaTimeOf (eventTime pn e) last) = false ->
     P (acceptSample (eventTime pn e) (deltaTimeOf (eventTime pn e) last) acc
                     (displaySensors e s))) ->
  P (handleDeviceMotion pn e s).
Proof.
  intros H1 H2 H3 H4.
  destruct (MotionEvent.acceleration e) as [acc|] eqn:Ea.
  2:{ rewrite handleDeviceMotion_no_acceleration; auto. }
  destruct (lastTimestampRef s) as [last|] eqn:El.
  2:{ rewrite (handleDeviceMotion_first _ _ _ acc); eauto. }
  destruct (rejectDelta (deltaTimeOf (eventTime pn e) last)) eqn:Er.
  - rewrite (handleDeviceMotion_rejected _ _ _ acc last); eauto.
  - rewrite (handleDeviceMotion_accepted _ _ _ acc last); eauto.
Qed.

Lemma acceptSample_cases now dt acc s (P : State num -> Prop) :
  ((stationarySamplesRequired <=? nextCount s acc)%nat = true ->
   P (acceptSample now dt acc s)) ->
  ((stationarySamplesRequired <=? nextCount s acc)%nat = false ->
   P (acceptSample now dt acc s)) ->
  P (acceptSample now dt acc s).
Proof. destruct (stationarySamplesRequired <=? nextCount s acc)%nat; auto. Qed.

(** Unfold the callback and split on every branch it takes. *)
Ltac motion_branches :=
  unfold handleDeviceMotion, acceptSample, holdStationary, integrateSample,
    displaySensors;
  cbv zeta; repeat break_match.

(** Whatever the event, the acceleration callback leaves the
    compass pipeline alone: published heading, [headingRef], filter,
    calibrating flag and timers are unchanged. *)
Theorem motion_frame pn e s : compass (handleDeviceMotion pn e s) = compass s.
Proof. motion_branches; reflexivity. Qed.

(** The path is append-only: whatever the event, the callback
    keeps every stored point in place and appends at most one. *)
Theorem motion_path_grows pn e s :
  exists l, pathRef (handleDeviceMotion pn e s) = pathRef s ++ l /\
            (length l <= 1)%nat.
Proof.
  motion_branches; cbn;
    solve [ exists []; rewrite app_nil_r; split; [reflexivity|simpl; lia]
          | eexists [_]; split; [reflexivity|simpl; lia] ].
Qed.

(** The callback publishes what it stores: if velocity, position
    and path agree between refs and React state before the event, they
    agree after it. *)
Theorem motion_keeps_mirror pn e s :
  motion_mirror s -> motion_mirror (handleDeviceMotion pn e s).
Proof.
  unfold motion_mirror. intros (Hv & Hp & Hl).
  motion_branches; cbn; repeat split; assumption || reflexivity.
Qed.

(** The last point of the path is the position: the callback
    preserves this, since it appends exactly the position it stores. *)
Theorem motion_path_tracks_position pn e s :
  path_tracks_position s -> path_tracks_position (handleDeviceMotion pn e s).
Proof.
  unfold path_tracks_position. intros H.
  motion_branches; cbn; assumption || apply last_snoc.
Qed.

(** The first sample after the baseline was cleared only seeds the
    baseline: the estimate and the calibration are unchanged. *)
Theorem motion_first_sample pn e s acc :
  MotionEvent.acceleration e = Some acc ->
  lastTimestampRef s = None ->
  let s' := handleDeviceMotion pn e s in
  lastTimestampRef s' = Some (eventTime pn e) /\
  estimate s' = estimate s /\ calibration s' = calibration s.
Proof.
  intros Ha Hl. cbv zeta. rewrite (handleDeviceMotion_first _ _ _ _ Ha Hl).
  destruct (displaySensors_frame e s) as (He & Hc & _).
  repeat split; assumption.
Qed.

(** A sample rejected by the time-step guard changes nothing but
    the display cells; in particular the baseline [lastTimestampRef] keeps
    its old value. *)
Theorem motion_rejected pn e s acc last :
  MotionEvent.acceleration e = Some acc ->
  lastTimestampRef s = Some last ->
  rejectDelta (deltaTimeOf (eventTime pn e) last) = true ->
  let s' := handleDeviceMotion pn e s in
  lastTimestampRef s' = Some last /\
  estimate s' = estimate s /\ calibration s' = calibration s.
Proof.
  intros Ha Hl Hr. cbv zeta. rewrite (handleDeviceMotion_rejected _ _ _ _ _ Ha Hl Hr).
  destruct (displaySensors_frame e s) as (He & Hc & _ & Ht).
  rewrite Ht. repeat split; assumption.
Qed.

(** Claim C2. Stationary hold: an accepted sample that brings the count of
    consecutive quiet samples to six or more sets the velocity to exactly
    zero, leaves position and path as they were, moves the bias toward the
    raw reading and advances the baseline. *)
Theorem motion_stationary_step pn e s acc last :
  MotionEvent.acceleration e = Some acc ->
  lastTimestampRef s = Some last ->
  rejectDelta (deltaTimeOf (eventTime pn e) last) = false ->
  (stationarySamplesRequired <= nextCount s acc)%nat ->
  let s' := handleDeviceMotion pn e s in
  velRef s' = Vec2.zero /\ velocity s' = Vec2.zero /\
  posRef s' = posRef s /\ position s' = position s /\
  pathRef s' = pathRef s /\ path s' = path s /\
  accelBiasRef s' = learnBias (accelBiasRef s) (rawX acc) (rawY acc) /\
  stationaryCountRef s' = nextCount s acc /\
  lastTimestampRef s' = Some (eventTime pn e).
Proof.
  intros Ha Hl Hr Hn. cbv zeta.
  rewrite (handleDeviceMotion_accepted _ _ _ _ _ Ha Hl Hr).
  apply Nat.leb_le in Hn. rewrite <- (nextCount_display e) in Hn.
  destruct (acceptSample_stationary (eventTime pn e)
    (deltaTimeOf (eventTime pn e) last) acc _ Hn)
    as (-> & -> & -> & -> & -> & -> & -> & -> & -> & _).
  autorewrite with dr_simpl. repeat split.
Qed.

(** Claim C1. Integration step: an accepted sample below the stationary
    count advances the estimate by one semi-implicit Euler step.  The world
    acceleration is computed from the stored bias and the rendered heading
    [headingRef]; the velocity is damped; the position advances with the new
    velocity; the new position is appended to the path; refs and published
    values agree; the bias is untouched. *)
Theorem motion_integration_step pn e s acc last :
  MotionEvent.acceleration e = Some acc ->
  lastTimestampRef s = Some last ->
  rejectDelta (deltaTimeOf (eventTime pn e) last) = false ->
  (nextCount s acc < stationarySamplesRequired)%nat ->
  let s' := handleDeviceMotion pn e s in
  let dt := deltaTimeOf (eventTime pn e) last in
  let newVel :=
    integrateVelocity (velRef s)
      (worldAcceleration (accelBiasRef s) (headingRef s) (rawX acc) (rawY acc)) dt in
  let newPos := integratePosition (posRef s) newVel dt in
  velRef s' = newVel /\ velocity s' = newVel /\
  posRef s' = newPos /\ position s' = newPos /\
  pathRef s' = pathRef s ++ [newPos] /\ path s' = pathRef s ++ [newPos] /\
  accelBiasRef s' = accelBiasRef s /\
  stationaryCountRef s' = nextCount s acc /\
  lastTimestampRef s' = Some (eventTime pn e).
Proof.
  intros Ha Hl Hr Hn. cbv zeta.
  rewrite (handleDeviceMotion_accepted _ _ _ _ _ Ha Hl Hr).
  apply Nat.leb_gt in Hn. rewrite <- (nextCount_display e) in Hn.
  destruct (acceptSample_integrated (eventTime pn e)
    (deltaTimeOf (eventTime pn e) last) acc _ Hn)
    as (-> & -> & -> & -> & -> & -> & -> & -> & -> & _).
  autorewrite with dr_simpl. repeat split.
Qed.

(** The reset publishes a zero velocity, a zero position and a
    path of the single origin, and clears the baseline.  It keeps the bias
    and the stationary count, and it writes none of [velRef], [posRef],
    [pathRef]: those follow at the next render. *)
Theorem clearPath_resets s :
  let s' := clearPath s in
  velocity s' = Vec2.zero /\ position s' = Vec2.zero /\
  path s' = [Vec2.zero] /\ lastTimestampRef s' = None /\
  calibration s' = calibration s /\
  velRef s' = velRef s /\ posRef s' = posRef s /\ pathRef s' = pathRef s /\
  compass s' = compass s.
Proof. repeat split. Qed.

(** *** Sequences of still samples *)
Lemma nextCount_still s acc : still acc -> nextCount s acc = S (stationaryCountRef s).
Proof. intros H. unfold nextCount, countStationary. now rewrite H. Qed.

Lemma still_step pn e s acc last :
  MotionEvent.acceleration e = Some acc -> still acc ->
  lastTimestampRef s = Some last ->
  rejectDelta (deltaTimeOf (eventTime pn e) last) = false ->
  let s' := handleDeviceMotion pn e s in
  lastTimestampRef s' = Some (eventTime pn e) /\
  stationaryCountRef s' = S (stationaryCountRef s) /\
  ((5 <= stationaryCountRef s)%nat ->
   velRef s' = Vec2.zero /\ velocity s' = Vec2.zero /\
   posRef s' = posRef s /\ position s' = position s /\
   pathRef s' = pathRef s /\ path s' = path s).
Proof.
  intros Ha Hq Hl Ht. cbv zeta.
  rewrite (handleDeviceMotion_accepted _ _ _ _ _ Ha Hl Ht).
  pose proof (nextCount_still s acc Hq) as Hk.
  apply acceptSample_cases; intros Hn.
  - destruct (acceptSample_stationary (eventTime pn e)
      (deltaTimeOf (eventTime pn e) last) acc _ Hn)
      as (-> & -> & -> & -> & -> & -> & _ & -> & -> & _).
    autorewrite with dr_simpl. rewrite Hk. repeat split.
  - destruct (acceptSample_integrated (eventTime pn e)
      (deltaTimeOf (eventTime pn e) last) acc _ Hn)
      as (_ & _ & _ & _ & _ & _ & _ & -> & -> & _).
    autorewrite with dr_simpl in *. rewrite Hk in *.
    split; [reflexivity|split; [reflexivity|intros Hfive]].
    apply Nat.leb_gt in Hn. unfold stationarySamplesRequired in Hn. lia.
Qed.

(** Claim C7. Stationary convergence, for every instance of the number interface
    (binary64 included): after any sequence of samples that the stationary
    test counts and the time-step guard lets through, once the count of
    consecutive such samples is six or more the velocity is exactly zero,
    in the ref and as published. *)
Theorem quiet_samples_stop samples : forall s last,
  lastTimestampRef s = Some last ->
  accepted_still last samples ->
  samples <> [] ->
  (6 <= stationaryCountRef s + length samples)%nat ->
  velRef (feed samples s) = Vec2.zero /\
  velocity (feed samples s) = Vec2.zero /\
  stationaryCountRef (feed samples s) = (stationaryCountRef s + length samples)%nat.
Proof.
  induction samples as [|[pn e] rest IH]; intros s last Hl Hq Hne Hc;
    [contradiction|].
  destruct Hq as ((acc & Ha & Hq) & Ht & Hrest).
  destruct (still_step pn e s acc last Ha Hq Hl Ht) as (Hl' & Hk & Hz).
  cbn [feed length] in *. destruct rest as [|p rest'].
  - cbn [feed length] in *. destruct Hz as (-> & -> & _); [lia|].
    rewrite Hk. repeat split. lia.
  - destruct (IH _ _ Hl' Hrest) as (-> & -> & ->);
      [discriminate|rewrite Hk; simpl in *; lia|].
    rewrite Hk. repeat split. simpl. lia.
Qed.

(** Once five consecutive still samples have been counted, further
    accepted still samples change neither the position nor the path. *)
Theorem stationary_holds_position samples : forall s last,
  lastTimestampRef s = Some last ->
  accepted_still last samples ->
  (5 <= stationaryCountRef s)%nat ->
  posRef (feed samples s) = posRef s /\
  position (feed samples s) = position s /\
  pathRef (feed samples s) = pathRef s /\
  path (feed samples s) = path s.
Proof.
  induction samples as [|[pn e] rest IH]; intros s last Hl Hq Hc;
    [repeat split|].
  destruct Hq as ((acc & Ha & Hq) & Ht & Hrest).
  destruct (still_step pn e s acc last Ha Hq Hl Ht) as (Hl' & Hk & Hz).
  destruct (Hz Hc) as (_ & _ & Hp & Hp' & Hpa & Hpa').
  cbn [feed]. destruct (IH _ _ Hl' Hrest) as (-> & -> & -> & ->); [lia|].
  repeat split; assumption.
Qed.

End MotionSteps.

(** ** Numeric theorems: the real instance *)

Section MotionReal.
Local Open Scope R_scope.
Implicit Types (s : State R) (e : MotionEvent.t R) (acc : Vec3.t (jsval R)).

Lemma rejectDelta_R now last :
  rejectDelta (deltaTimeOf now last) = true <-> now - last < 1.
Proof.
  unfold rejectDelta, deltaTimeOf. js_real.
  rewrite orb_true_iff, Rleb_true, Rltb_true. lra.
Qed.

Lemma rejectDelta_false_R now last :
  rejectDelta (deltaTimeOf now last) = false <-> 1 <= now - last.
Proof.
  rewrite <- not_true_iff_false, rejectDelta_R. lra.
Qed.

Lemma deltaTimeOf_R now last : deltaTimeOf now last = (now - last) / 1000.
Proof. unfold deltaTimeOf. js_real. lra. Qed.

Lemma deadzoneOf_inside u : Rabs u <= 0.05 -> deadzoneOf u = 0.
Proof.
  intros H. unfold deadzoneOf, deadzone. js_real.
  destruct (Rltb _ _) eqn:E; [apply Rltb_true in E; lra|lra].
Qed.

Lemma deadzoneOf_outside u : 0.05 < Rabs u -> deadzoneOf u = u.
Proof.
  intros H. unfold deadzoneOf, deadzone. js_real.
  destruct (Rltb _ _) eqn:E; [reflexivity|apply Rltb_false in E; lra].
Qed.

Lemma deadzoneOf_abs_le u : Rabs (deadzoneOf u) <= Rabs u.
Proof.
  destruct (Rle_lt_dec (Rabs u) 0.05).
  - rewrite deadzoneOf_inside by assumption. rewrite Rabs_R0. apply Rabs_pos.
  - rewrite deadzoneOf_outside by assumption. lra.
Qed.

Lemma rotateToWorld_R h ax ay :
  rotateToWorld h ax ay =
  Vec2.mk (ax * cos (h * (PI / 180)) + ay * sin (h * (PI / 180)))
          (- ax * sin (h * (PI / 180)) + ay * cos (h * (PI / 180))).
Proof.
  unfold rotateToWorld. rewrite num_or_zero_R. js_real. reflexivity.
Qed.

Lemma rotateToWorld_norm h ax ay :
  let w := rotateToWorld h ax ay in
  Vec2.x w * Vec2.x w + Vec2.y w * Vec2.y w = ax * ax + ay * ay.
Proof.
  cbv zeta. rewrite rotateToWorld_R. simpl.
  pose proof (sin2_cos2 (h * (PI / 180))) as H. unfold Rsqr in H. nra.
Qed.

Lemma integrateVelocity_R v a dt :
  integrateVelocity v a dt =
  Vec2.mk ((Vec2.x v + Vec2.x a * dt) * exp (- dt))
          ((Vec2.y v + Vec2.y a * dt) * exp (- dt)).
Proof.
  unfold integrateVelocity, damping. js_real.
  replace (- (10 / 10) * dt) with (- dt) by lra. reflexivity.
Qed.

Lemma exp_neg_lt_1 dt : 0 < dt -> 0 < exp (- dt) < 1.
Proof.
  intros H. split; [apply exp_pos|].
  rewrite <- exp_0. apply exp_increasing. lra.
Qed.

Lemma damped_bound v a dt B :
  0 <= dt -> Rabs v <= B -> Rabs a <= B ->
  Rabs ((v + a * dt) * exp (- dt)) <= B.
Proof.
  intros Hdt Hv Ha.
  assert (HB : 0 <= B) by (pose proof (Rabs_pos v); lra).
  rewrite Rabs_mult, (Rabs_pos_eq (exp _)) by (left; apply exp_pos).
  assert (H1 : Rabs (v + a * dt) <= B * (1 + dt)).
  { eapply Rle_trans; [apply Rabs_triang|].
    rewrite Rabs_mult, (Rabs_pos_eq dt) by assumption. nra. }
  assert (H2 : (1 + dt) * exp (- dt) <= 1).
  { assert (1 + dt <= exp dt).
    { destruct (Req_dec dt 0) as [->|Hne]; [rewrite exp_0; lra|].
      left. now apply exp_ineq1. }
    pose proof (exp_pos (- dt)).
    assert (exp dt * exp (- dt) = 1) by (rewrite <- exp_plus; replace (dt + - dt) with 0 by lra; apply exp_0).
    nra. }
  pose proof (exp_pos (- dt)). pose proof (Rabs_pos (v + a * dt)). nra.
Qed.

Lemma worldAcceleration_R bias h axRaw ayRaw :
  worldAcceleration bias h axRaw ayRaw =
  rotateToWorld h (deadzoneOf (axRaw - Vec2.x bias)) (deadzoneOf (ayRaw - Vec2.y bias)).
Proof. reflexivity. Qed.

Lemma Rabs_trig_le a b t : Rabs (a * cos t + b * sin t) <= Rabs a + Rabs b.
Proof.
  eapply Rle_trans; [apply Rabs_triang|]. rewrite !Rabs_mult.
  assert (Rabs (cos t) <= 1) by (apply Rabs_le; pose proof (COS_bound t); lra).
  assert (Rabs (sin t) <= 1) by (apply Rabs_le; pose proof (SIN_bound t); lra).
  pose proof (Rabs_pos a). pose proof (Rabs_pos b). nra.
Qed.

Lemma worldAcceleration_bound bias h axRaw ayRaw :
  let w := worldAcceleration bias h axRaw ayRaw in
  let m := Rabs (axRaw - Vec2.x bias) + Rabs (ayRaw - Vec2.y bias) in
  Rabs (Vec2.x w) <= m /\ Rabs (Vec2.y w) <= m.
Proof.
  cbv zeta. rewrite worldAcceleration_R, rotateToWorld_R. simpl.
  pose proof (deadzoneOf_abs_le (axRaw - Vec2.x bias)).
  pose proof (deadzoneOf_abs_le (ayRaw - Vec2.y bias)).
  split.
  - eapply Rle_trans; [apply Rabs_trig_le|lra].
  - replace (- deadzoneOf (axRaw - Vec2.x bias) * sin (h * (PI / 180)) +
             deadzoneOf (ayRaw - Vec2.y bias) * cos (h * (PI / 180)))
      with (deadzoneOf (ayRaw - Vec2.y bias) * cos (h * (PI / 180)) +
            (- deadzoneOf (axRaw - Vec2.x bias)) * sin (h * (PI / 180))) by lra.
    eapply Rle_trans; [apply Rabs_trig_le|]. rewrite Rabs_Ropp. lra.
Qed.

Lemma worldAcceleration_zero bias h acc :
  within_deadzone bias acc ->
  worldAcceleration bias h (rawX acc) (rawY acc) = Vec2.mk 0 0.
Proof.
  intros [Hx Hy]. rewrite worldAcceleration_R, rotateToWorld_R.
  rewrite !deadzoneOf_inside by assumption. f_equal; lra.
Qed.

(** Claim C3. A sample that arrives less than one millisecond after the
    baseline (a repeated or out-of-order time stamp included) changes
    neither the estimate nor the calibration, and the baseline itself stays
    where it was: the return of line 153 comes before the assignment of
    line 154. *)
Theorem stale_timestamp_ignored pn e s acc last :
  MotionEvent.acceleration e = Some acc ->
  lastTimestampRef s = Some last ->
  eventTime pn e - last < 1 ->
  let s' := handleDeviceMotion pn e s in
  estimate s' = estimate s /\ calibration s' = calibration s /\
  lastTimestampRef s' = Some last.
Proof.
  intros Ha Hl Ht. cbv zeta. apply rejectDelta_R in Ht.
  rewrite (handleDeviceMotion_rejected _ _ _ _ _ Ha Hl Ht).
  destruct (displaySensors_frame e s) as (He & Hc & _ & Hts).
  rewrite Hts. auto.
Qed.

(** The dead zone of lines 183-185: a bias-corrected component of
    0.05 or less in magnitude becomes zero, a larger one passes unchanged,
    and applying the dead zone twice is the same as applying it once. *)
Theorem deadzone_suppresses u :
  (Rabs u <= 0.05 -> deadzoneOf u = 0) /\
  (0.05 < Rabs u -> deadzoneOf u = u) /\
  deadzoneOf (deadzoneOf u) = deadzoneOf u.
Proof.
  split; [apply deadzoneOf_inside|]. split; [apply deadzoneOf_outside|].
  destruct (Rle_lt_dec (Rabs u) 0.05).
  - rewrite (deadzoneOf_inside u) by assumption.
    apply deadzoneOf_inside. rewrite Rabs_R0. lra.
  - now rewrite !(deadzoneOf_outside u).
Qed.

(** The rotation into the world frame preserves the magnitude:
    the squared norm of the world acceleration is that of the dead-zoned
    device acceleration, whatever the heading. *)
Theorem rotation_preserves_magnitude bias h axRaw ayRaw :
  speed2 (worldAcceleration bias h axRaw ayRaw) =
  deadzoneOf (axRaw - Vec2.x bias) * deadzoneOf (axRaw - Vec2.x bias) +
  deadzoneOf (ayRaw - Vec2.y bias) * deadzoneOf (ayRaw - Vec2.y bias).
Proof. rewrite worldAcceleration_R. apply rotateToWorld_norm. Qed.

(** Claim C34. Coasting: an accepted sample whose bias-corrected acceleration
    is inside the dead zone, while the device is not declared stationary,
    multiplies the velocity by exp(-dt); the speed does not grow, and
    strictly decreases when the device was moving. *)
Theorem coasting_velocity_decays pn e s acc last :
  MotionEvent.acceleration e = Some acc ->
  lastTimestampRef s = Some last ->
  1 <= eventTime pn e - last ->
  (nextCount s acc < stationarySamplesRequired)%nat ->
  within_deadzone (accelBiasRef s) acc ->
  let s' := handleDeviceMotion pn e s in
  let dt := (eventTime pn e - last) / 1000 in
  velRef s' = Vec2.mk (Vec2.x (velRef s) * exp (- dt)) (Vec2.y (velRef s) * exp (- dt)) /\
  speed2 (velRef s') <= speed2 (velRef s) /\
  (0 < speed2 (velRef s) -> speed2 (velRef s') < speed2 (velRef s)).
Proof.
  intros Ha Hl Ht Hn Hz. cbv zeta. apply rejectDelta_false_R in Ht as Hr.
  rewrite (handleDeviceMotion_accepted _ _ _ _ _ Ha Hl Hr).
  apply Nat.leb_gt in Hn. rewrite <- (nextCount_display e) in Hn.
  destruct (acceptSample_integrated (eventTime pn e)
    (deltaTimeOf (eventTime pn e) last) acc _ Hn) as (-> & _).
  autorewrite with dr_simpl.
  rewrite worldAcceleration_zero, integrateVelocity_R, deltaTimeOf_R by assumption.
  set (dt := (eventTime pn e - last) / 1000).
  assert (Hdt : 0 < dt) by (unfold dt; lra).
  destruct (exp_neg_lt_1 dt Hdt) as [E0 E1]. simpl.
  replace (Vec2.x (velRef s) + 0 * dt) with (Vec2.x (velRef s)) by lra.
  replace (Vec2.y (velRef s) + 0 * dt) with (Vec2.y (velRef s)) by lra.
  split; [reflexivity|]. unfold speed2; simpl.
  set (vx := Vec2.x (velRef s)). set (vy := Vec2.y (velRef s)).
  assert (Hk2 : exp (- dt) * exp (- dt) < 1) by nra.
  assert (Hk0 : 0 < exp (- dt) * exp (- dt)) by nra.
  split; [|intros Hpos]; nra.
Qed.

Lemma quiet_iff acc :
  nlt (mhypot (rawX acc) (rawY acc)) stationaryThreshold = true <-> quiet acc.
Proof.
  unfold stationaryThreshold, quiet. js_real. rewrite Rltb_true.
  replace (12 / 100) with 0.12 by lra. replace 0.0144 with (0.12 * 0.12) by lra.
  apply Rhypot_lt. lra.
Qed.

Lemma nextCount_quiet (s : State R) acc :
  quiet acc -> nextCount s acc = S (stationaryCountRef s).
Proof.
  intros Hq. apply quiet_iff in Hq. unfold nextCount, countStationary.
  now rewrite Hq.
Qed.

Lemma nextCount_loud (s : State R) acc :
  ~ quiet acc -> nextCount s acc = 0%nat.
Proof.
  intros Hq. unfold nextCount, countStationary.
  destruct (nlt _ _) eqn:E; [|reflexivity]. apply quiet_iff in E. contradiction.
Qed.

(** The damped integrator is bounded: when each velocity component
    is at most [B] in magnitude and the bias-corrected raw acceleration of
    the event is at most [B] in absolute sum, each velocity component is
    still at most [B] after the callback, whatever the time step. *)
Theorem speed_stays_bounded pn e s B :
  speed_bounded B s ->
  (forall acc, MotionEvent.acceleration e = Some acc ->
     Rabs (rawX acc - Vec2.x (accelBiasRef s)) +
     Rabs (rawY acc - Vec2.y (accelBiasRef s)) <= B) ->
  speed_bounded B (handleDeviceMotion pn e s).
Proof.
  intros [Hx Hy] Hacc.
  assert (HB : 0 <= B) by (pose proof (Rabs_pos (Vec2.x (velRef s))); lra).
  apply handleDeviceMotion_cases; intros;
    try (unfold speed_bounded; cbn; autorewrite with dr_simpl; now split).
  apply acceptSample_cases; intros Hn.
  - destruct (acceptSample_stationary (eventTime pn e)
      (deltaTimeOf (eventTime pn e) last) acc _ Hn) as (Hz & _).
    unfold speed_bounded. rewrite Hz. simpl. js_real.
    rewrite Rabs_R0. now split.
  - destruct (acceptSample_integrated (eventTime pn e)
      (deltaTimeOf (eventTime pn e) last) acc _ Hn) as (Hz & _).
    unfold speed_bounded. rewrite Hz. autorewrite with dr_simpl.
    rewrite integrateVelocity_R, deltaTimeOf_R.
    apply rejectDelta_false_R in H1.
    destruct (worldAcceleration_bound (accelBiasRef s) (headingRef s)
      (rawX acc) (rawY acc)) as [Wx Wy].
    specialize (Hacc acc H). cbn [Vec2.x Vec2.y].
    split; apply damped_bound; lra.
Qed.

Lemma learnBias_R bias rx ry :
  learnBias bias rx ry =
  Vec2.mk (Vec2.x bias * 0.8 + rx * 0.2) (Vec2.y bias * 0.8 + ry * 0.2).
Proof. unfold learnBias. js_real. f_equal; lra. Qed.

(** Bias learning: after [n] stationary updates with the same raw
    reading the distance of the bias to that reading has been multiplied by
    0.8 to the power [n] on each axis. *)
Theorem bias_converges bias rx ry (n : nat) :
  let b := Nat.iter n (fun b => learnBias b rx ry) bias in
  Vec2.x b - rx = 0.8 ^ n * (Vec2.x bias - rx) /\
  Vec2.y b - ry = 0.8 ^ n * (Vec2.y bias - ry).
Proof.
  cbv zeta. induction n as [|n [IHx IHy]].
  - simpl. split; lra.
  - rewrite Nat.iter_succ, learnBias_R. cbn [Vec2.x Vec2.y pow]. split; nra.
Qed.

(** *** Sequences of quiet samples *)

(** On reals the two tests read as the physical conditions: a magnitude
    below 0.12 m/s2 and a time step of one millisecond or more. *)
Lemma accepted_quiet_still samples : forall last,
  accepted_quiet last samples -> accepted_still last samples.
Proof.
  induction samples as [|[pn e] rest IH]; intros last H; [exact I|].
  destruct H as ((acc & Ha & Hq) & Ht & Hrest). cbn.
  split; [exists acc; split; [assumption|now apply quiet_iff]|].
  split; [now apply rejectDelta_false_R|now apply IH].
Qed.

End MotionReal.

(** ** Witnesses: the theorems at concrete inputs *)

Section MotionWitnesses.
Local Open Scope R_scope.

Lemma raw_R (x y : R) (z : jsval R) :
  rawX (Vec3.mk (JNum x) (JNum y) z) = x /\ rawY (Vec3.mk (JNum x) (JNum y) z) = y.
Proof. unfold rawX, rawY. cbn [Vec3.x Vec3.y val_or]. now rewrite !num_or_zero_R. Qed.

Lemma acc_quiet_quiet : quiet acc_quiet.
Proof.
  unfold quiet, acc_quiet. destruct (raw_R 0.01 0.02 JNull) as [-> ->]. lra.
Qed.

Lemma acc_push_loud : ~ quiet acc_push.
Proof.
  unfold quiet, acc_push. destruct (raw_R 1 0 JNull) as [-> ->]. lra.
Qed.

Ltac event_time :=
  cbv [eventTime ev_quiet ev_push MotionEvent.timeStamp]; lra.

Lemma accept_16 : rejectDelta (deltaTimeOf (eventTime 0 (ev_quiet 1016)) 1000) = false.
Proof. apply rejectDelta_false_R. event_time. Qed.

Lemma motion_keeps_mirror_witness :
  motion_mirror (handleDeviceMotion 0 (ev_push 1016) s_running).
Proof. apply motion_keeps_mirror. repeat split. Defined.

Lemma motion_path_tracks_position_witness :
  path_tracks_position (handleDeviceMotion 0 (ev_push 1016) s_running).
Proof. apply motion_path_tracks_position. reflexivity. Defined.

Lemma motion_first_sample_witness :
  lastTimestampRef (handleDeviceMotion 0 (ev_push 1000) initialState) = Some 1000.
Proof.
  exact (proj1 (motion_first_sample 0 (ev_push 1000) initialState acc_push
                  eq_refl eq_refl)).
Defined.

Lemma motion_rejected_witness :
  lastTimestampRef (handleDeviceMotion 0 (ev_push 1000.5) s_running) = Some 1000.
Proof.
  refine (proj1 (motion_rejected 0 (ev_push 1000.5) s_running acc_push 1000
                   eq_refl eq_refl _)).
  apply rejectDelta_R. event_time.
Defined.

Lemma motion_stationary_step_witness :
  velocity (handleDeviceMotion 0 (ev_quiet 1016) s_still5) = Vec2.zero.
Proof.
  refine (proj1 (proj2 (motion_stationary_step 0 (ev_quiet 1016) s_still5
                          acc_quiet 1000 eq_refl eq_refl accept_16 _))).
  rewrite (nextCount_quiet _ _ acc_quiet_quiet). simpl.
  unfold stationarySamplesRequired. lia.
Defined.

Lemma motion_integration_step_witness :
  lastTimestampRef (handleDeviceMotion 0 (ev_push 1016) s_running) = Some 1016.
Proof.
  refine (proj2 (proj2 (proj2 (proj2 (proj2 (proj2 (proj2 (proj2
    (motion_integration_step 0 (ev_push 1016) s_running acc_push 1000
       eq_refl eq_refl _ _))))))))).
  - apply rejectDelta_false_R. event_time.
  - rewrite (nextCount_loud _ _ acc_push_loud). unfold stationarySamplesRequired. lia.
Defined.

Lemma stale_timestamp_ignored_witness :
  estimate (handleDeviceMotion 0 (ev_push 990) s_running) = estimate s_running.
Proof.
  refine (proj1 (stale_timestamp_ignored 0 (ev_push 990) s_running acc_push 1000
                   eq_refl eq_refl _)).
  event_time.
Defined.

Lemma coasting_velocity_decays_witness :
  speed2 (velRef (handleDeviceMotion 0 (ev_quiet 1016) s_running)) <=
  speed2 (velRef s_running).
Proof.
  refine (proj1 (proj2 (coasting_velocity_decays 0 (ev_quiet 1016) s_running
                          acc_quiet 1000 eq_refl eq_refl _ _ _))).
  - event_time.
  - rewrite (nextCount_quiet _ _ acc_quiet_quiet). simpl.
    unfold stationarySamplesRequired. lia.
  - unfold within_deadzone, acc_quiet. destruct (raw_R 0.01 0.02 JNull) as [-> ->].
    simpl. js_real. split; rewrite Rabs_pos_eq; lra.
Defined.

Lemma speed_stays_bounded_witness :
  speed_bounded 1 (handleDeviceMotion 0 (ev_push 1016) s_running).
Proof.
  apply speed_stays_bounded.
  - unfold speed_bounded. simpl. js_real. rewrite Rabs_R0. lra.
  - intros acc H. inversion H; subst acc. unfold acc_push.
    destruct (raw_R 1 0 JNull) as [-> ->]. simpl. js_real.
    rewrite !Rminus_0_r, Rabs_R0, Rabs_pos_eq; lra.
Defined.

Lemma six_quiet_accepted : accepted_quiet 1000 six_quiet.
Proof.
  unfold six_quiet. simpl.
  repeat split; try event_time; exists acc_quiet; split;
    reflexivity || apply acc_quiet_quiet.
Qed.

Lemma quiet_samples_stop_witness : velocity (feed six_quiet s_running) = Vec2.zero.
Proof.
  refine (proj1 (proj2 (quiet_samples_stop six_quiet s_running 1000 eq_refl
                          (accepted_quiet_still _ _ six_quiet_accepted) _ _))).
  - discriminate.
  - simpl. lia.
Defined.

Lemma stationary_holds_position_witness :
  position (feed six_quiet s_still5) = position s_still5.
Proof.
  refine (proj1 (proj2 (stationary_holds_position six_quiet s_still5 1000 eq_refl
                          (accepted_quiet_still _ _ six_quiet_accepted) _))).
  simpl. lia.
Defined.

End MotionWitnesses.
