(* ===== verification/Direction.v ===== *)
(** * Direction: headings up to whole turns

    A heading is an angle: 0 and 360 degrees are the same direction.  The
    code stores headings as plain numbers, and two of its stages can leave
    the interval [0, 360): the platform correction publishes 360 for a
    filtered 0 (line 105) and a level device passes the raw azimuth on as it
    is (line 69).  This file states what that costs.

    [same_direction] relates two headings that differ by whole turns, and
    [same_course] two states that agree up to the direction of their
    headings.  The motion callback respects the relation: the rotation of
    lines 188-190 only takes the sine and the cosine of the heading, so the
    integrated trajectory does not depend on the representative.  The
    low-pass filter of lines 91-101 does not: it averages the numbers, and
    near north the average of two neighbouring directions points south. *)

From Stdlib Require Import List Bool ZArith QArith Reals Lra Lia Morphisms Setoid.
From S2P Require Import Prelude JsNum RealNum DRState Heading Motion.
Import ListNotations.

Local Open Scope R_scope.

(** ** Specification vocabulary *)

(** Two headings that differ by a whole number of turns. *)
Definition same_direction (h1 h2 : R) : Prop :=
  exists k : Z, h1 = h2 + 360 * IZR k.

(** The state without its two heading cells. *)
Definition course (s : State R) : State R := setHeading 0 (set_headingRef 0 s).

(** Two states that agree on every cell except the headings, which point in
    the same direction. *)
Definition same_course (s1 s2 : State R) : Prop :=
  same_direction (heading s1) (heading s2) /\
  same_direction (headingRef s1) (headingRef s2) /\
  course s1 = course s2.

(** The angular distance of two headings, in degrees: the distance of their
    difference to the nearest whole turn. *)
Definition apart_by (d h1 h2 : R) : Prop :=
  exists k : Z, Rabs (h1 - h2 - 360 * IZR k) = d /\ d <= 180.

(** *** Concrete inputs for the examples *)

(** A level device that reads 1 degree east of north. *)
Definition ev_north_east : OrientationEvent.t R :=
  OrientationEvent.mk (JNum 1) (JNum 0) (JNum 0) JUndefined.

(** A session that has been reading 359 degrees, 1 degree west of north. *)
Definition s_north_west : State R :=
  set_compassFilterRef (CompassFilter.mk (Some 359) 0.2)
    (set_headingRef 359 (setHeading 359 initialState)).

(** ** Headings up to whole turns *)

#[export] Instance same_direction_equiv : Equivalence same_direction.
Proof.
  split.
  - intros h. exists 0%Z. lra.
  - intros h1 h2 [k ->]. exists (- k)%Z. rewrite opp_IZR. lra.
  - intros h1 h2 h3 [k ->] [j ->]. exists (j + k)%Z. rewrite plus_IZR. lra.
Qed.

Lemma turn_radians h k :
  (h + 360 * IZR k) * (PI / 180) = h * (PI / 180) + 2 * IZR k * PI.
Proof. field. Qed.

Lemma IZR_pos_nat p : IZR (Z.pos p) = INR (Pos.to_nat p).
Proof. now rewrite INR_IZR_INZ, positive_nat_Z. Qed.

Lemma cos_turns x (k : Z) : cos (x + 2 * IZR k * PI) = cos x.
Proof.
  destruct k as [|p|p].
  - f_equal. simpl. lra.
  - rewrite (IZR_pos_nat p). apply cos_period.
  - rewrite <- (cos_period (x + 2 * IZR (Z.neg p) * PI) (Pos.to_nat p)).
    f_equal. rewrite <- (IZR_pos_nat p).
    change (Z.neg p) with (- Z.pos p)%Z. rewrite opp_IZR. lra.
Qed.

Lemma sin_turns x (k : Z) : sin (x + 2 * IZR k * PI) = sin x.
Proof.
  destruct k as [|p|p].
  - f_equal. simpl. lra.
  - rewrite (IZR_pos_nat p). apply sin_period.
  - rewrite <- (sin_period (x + 2 * IZR (Z.neg p) * PI) (Pos.to_nat p)).
    f_equal. rewrite <- (IZR_pos_nat p).
    change (Z.neg p) with (- Z.pos p)%Z. rewrite opp_IZR. lra.
Qed.

(** The rotation sees the direction only. *)
#[export] Instance rotateToWorld_proper :
  Proper (same_direction ==> eq ==> eq ==> eq) (rotateToWorld (num:=R)).
Proof.
  intros h1 h2 [k ->] ax ? <- ay ? <-. rewrite !rotateToWorld_R.
  now rewrite turn_radians, cos_turns, sin_turns.
Qed.

#[export] Instance worldAcceleration_proper :
  Proper (eq ==> same_direction ==> eq ==> eq ==> eq) (worldAcceleration (num:=R)).
Proof.
  intros b ? <- h1 h2 Hh ax ? <- ay ? <-. rewrite !worldAcceleration_R.
  now rewrite Hh.
Qed.

(** ** States up to the direction of their headings *)

#[export] Instance same_course_equiv : Equivalence same_course.
Proof.
  split.
  - intros s. split; [|split]; reflexivity.
  - intros s1 s2 (H1 & H2 & H3). split; [|split]; now symmetry.
  - intros s1 s2 s3 (H1 & H2 & H3) (K1 & K2 & K3).
    split; [|split]; etransitivity; eassumption.
Qed.

Lemma worldAcceleration_direction b h1 h2 ax ay :
  same_direction h1 h2 ->
  worldAcceleration (num:=R) b h1 ax ay = worldAcceleration b h2 ax ay.
Proof. intros H. now rewrite H. Qed.

(** Evaluate the callback without opening its arithmetic. *)
Ltac motion_step :=
  cbn -[worldAcceleration integrateVelocity integratePosition learnBias
        countStationary rejectDelta deltaTimeOf eventTime Nat.leb].

(** The motion callback respects the relation: it reads the heading only
    through the rotation. *)
#[export] Instance handleDeviceMotion_proper :
  Proper (eq ==> eq ==> same_course ==> same_course) (handleDeviceMotion (num:=R)).
Proof.
  intros pn ? <- e ? <- s1 s2 (Hh & Hr & Hc).
  destruct s1, s2. unfold course in Hc. cbn in Hc, Hh, Hr.
  inversion Hc; subst; clear Hc.
  unfold same_course, course, handleDeviceMotion, displaySensors.
  destruct (MotionEvent.accelerationIncludingGravity e), (MotionEvent.rotationRate e),
    (MotionEvent.acceleration e) as [acc|]; motion_step; auto;
    destruct lastTimestampRef0 as [last|]; motion_step; auto;
    destruct (rejectDelta _); motion_step; auto;
    unfold acceptSample, holdStationary, integrateSample; motion_step;
    destruct (_ <=? _)%nat; motion_step; auto;
    rewrite (worldAcceleration_direction _ _ _ _ _ Hr); auto.
Qed.

(** So does any sequence of samples. *)
#[export] Instance feed_proper :
  Proper (eq ==> same_course ==> same_course) (feed (num:=R)).
Proof.
  intros samples ? <-. induction samples as [|[pn e] rest IH]; intros s1 s2 H.
  - exact H.
  - cbn [feed]. apply IH. now rewrite H.
Qed.

(** Related states hold the same estimate. *)
Lemma same_course_estimate s1 s2 :
  same_course s1 s2 -> estimate s1 = estimate s2.
Proof.
  intros (_ & _ & Hc). destruct s1, s2. unfold course in Hc. cbn in Hc.
  inversion Hc; subst. reflexivity.
Qed.

Lemma same_course_headingRef h1 h2 s :
  same_direction h1 h2 -> same_course (set_headingRef h1 s) (set_headingRef h2 s).
Proof. intros H. split; [|split]; [reflexivity|exact H|reflexivity]. Qed.

(** Claim C37. The trajectory does not depend on the representative of the
    heading: two states that agree up to whole turns of their headings stay
    so after any sequence of motion samples, and hold the same velocity,
    position and path, in refs and as published.  A heading of 360 in
    place of 0, or a raw azimuth outside one turn, integrates to the same
    path. *)
Theorem trajectory_up_to_turns samples s1 s2 :
  same_course s1 s2 ->
  same_course (feed samples s1) (feed samples s2) /\
  estimate (feed samples s1) = estimate (feed samples s2).
Proof.
  intros H. assert (H' : same_course (feed samples s1) (feed samples s2))
    by now rewrite H.
  split; [exact H'|now apply same_course_estimate].
Qed.

(** ** The filter across north *)
Lemma north_east_angles : orientationAngles ev_north_east = Some (1, 0, 0).
Proof. reflexivity. Qed.

Lemma level_0 : ~ tilted 0 0.
Proof. unfold tilted. rewrite Rabs_R0. lra. Qed.

Lemma north_east_published :
  publishedHeading w_plain ev_north_east (compassFilterRef s_north_west) 1 0 0
  = 287.4.
Proof.
  unfold publishedHeading.
  rewrite platformHeading_other, tiltCompensate_level by (reflexivity || apply level_0).
  rewrite (lowPass_next _ _ 359) by reflexivity. cbn. lra.
Qed.

Lemma Rabs_of x d : 0 <= d -> x = d \/ x = - d -> Rabs x = d.
Proof. intros Hd [-> | ->]; [|rewrite Rabs_Ropp]; now apply Rabs_pos_eq. Qed.

(** The low-pass filter averages numbers, not directions: a
    session that has been reading 359 degrees and receives a reading of 1
    degree, two degrees away, publishes 287.4 degrees, 71.6 degrees away
    from where the device points, and raises the calibrating flag as if
    there were magnetic interference. *)
Theorem lowPass_crosses_north :
  let s' := handleDeviceOrientation w_plain ev_north_east s_north_west in
  apart_by 2 1 359 /\
  heading s' = 287.4 /\ apart_by 71.6 (heading s') 359 /\
  isCalibrating s' = true.
Proof.
  intros s'. unfold s'.
  rewrite (orientation_heading _ _ _ _ _ _ north_east_angles),
          (orientation_flag _ _ _ _ _ _ north_east_angles), north_east_published.
  split_all.
  - exists (-1)%Z. split; [apply Rabs_of|]; lra.
  - reflexivity.
  - exists 0%Z. split; [apply Rabs_of|]; lra.
  - apply orb_true_iff. left. apply interference_R.
    change (headingRef s_north_west) with 359.
    rewrite (Rabs_of _ 71.6); lra.
Qed.

(** The filtered heading of a level device on a platform without
    correction, for a filter that holds a value. *)
Lemma level_published w e f c L :
  is_defined (OrientationEvent.webkitCompassHeading e) = false ->
  screenOrientation w = None ->
  f = CompassFilter.mk (Some L) 0.2 ->
  publishedHeading w e f c 0 0 = 0.2 * c + 0.8 * L.
Proof.
  intros Hw Hs ->. unfold publishedHeading.
  rewrite platformHeading_other, Hs, tiltCompensate_level by (assumption || apply level_0).
  rewrite (lowPass_next _ _ L) by reflexivity. cbn. lra.
Qed.

(** Claim C38. The low-pass filter averages numbers, not directions.  When the stored
    heading [L] and a level reading [c] are more than 200 degrees apart as
    numbers, so less than 160 degrees apart as directions, across north,
    the callback publishes their weighted mean, which is farther from the
    reading, as a direction, than the stored heading was; and it raises
    the calibrating flag as if there were magnetic interference. *)
Theorem lowPass_leaves_short_arc w e s c L :
  orientationAngles e = Some (c, 0, 0) ->
  is_defined (OrientationEvent.webkitCompassHeading e) = false ->
  screenOrientation w = None ->
  compassFilterRef s = CompassFilter.mk (Some L) 0.2 ->
  headingRef s = L ->
  0 <= c -> L < 360 -> 200 < L - c ->
  let s' := handleDeviceOrientation w e s in
  heading s' = 0.2 * c + 0.8 * L /\
  (exists d0 d1, apart_by d0 L c /\ apart_by d1 (heading s') c /\ d0 < d1) /\
  isCalibrating s' = true.
Proof.
  intros He Hw Hs Hf Hh Hc HL Hd s'. unfold s'.
  rewrite (orientation_heading _ _ _ _ _ _ He), (orientation_flag _ _ _ _ _ _ He),
          (level_published w e _ c L Hw Hs Hf), Hh.
  split; [reflexivity|split].
  - exists (360 - (L - c)). destruct (Rle_dec (0.8 * (L - c)) 180) as [Hle|Hgt].
    + exists (0.8 * (L - c)). split_all; try lra.
      * exists 1%Z. split; [apply Rabs_of|]; lra.
      * exists 0%Z. split; [apply Rabs_of|]; lra.
    + exists (360 - 0.8 * (L - c)). split_all; try lra.
      * exists 1%Z. split; [apply Rabs_of|]; lra.
      * exists 1%Z. split; [apply Rabs_of|]; lra.
  - apply orb_true_iff. left. apply interference_R.
    rewrite (Rabs_of _ (0.2 * (L - c))); lra.
Qed.

(** ** Witnesses *)
Lemma lowPass_leaves_short_arc_witness :
  isCalibrating (handleDeviceOrientation w_plain ev_north_east s_north_west) = true.
Proof.
  refine (proj2 (proj2 (lowPass_leaves_short_arc w_plain ev_north_east
            s_north_west 1 359 eq_refl eq_refl eq_refl eq_refl eq_refl _ _ _)));
    lra.
Defined.

Lemma trajectory_up_to_turns_witness :
  estimate (feed six_quiet (set_headingRef 360 s_running)) =
  estimate (feed six_quiet (set_headingRef 0 s_running)).
Proof.
  refine (proj2 (trajectory_up_to_turns six_quiet _ _
            (same_course_headingRef 360 0 s_running _))).
  exists 1%Z. lra.
Defined.
