(* ===== verification/Geo.v ===== *)
(** * Geo: the georeferencing correlator

    [PathVisualizer] (src/src/components/PathVisualizer.jsx) receives the
    dead-reckoning path and the current GPS fix as props and keeps four
    state cells (lines 45-48).  Two effects maintain them:

    - [projectEffect] (lines 51-80) converts the path, in metres, into
      latitude/longitude pairs around the fix it is given, with the
      flat-Earth scale factors [metersPerLatDegree] and
      [metersPerLonDegree]; with no fix or fewer than two points the trace
      is empty.  The first non-empty trace also fixes [initialCenter].
    - [trackEffect] (lines 83-109) appends the fix to [gpsPathCoords] unless
      [isDuplicate] finds a stored point closer than 0.5 m ([distance]
      measures with the stored point's latitude), and recentres the map.

    [MapBoundsHandler] (lines 23-35) asks the map to fit both traces when
    there is at least one point ([fitBoundsRequest]).

    A coordinate pair [[lat, lon]] of the source is a Rocq pair. *)

From Stdlib Require Import List Bool Arith Lia QArith Reals Lra Psatz.
From S2P Require Import Prelude JsNum RealNum DRState.
Import ListNotations.

(** ** State and props *)

(** [[latitude, longitude]]. *)
Definition LatLng (num : Type) : Type := (num * num)%type.

(** The [useState] cells of lines 45-48. *)
Module PV.
Record State (num : Type) : Type := mk {
  drPathCoords : list (LatLng num);
  gpsPathCoords : list (LatLng num);
  mapCenter : LatLng num;
  initialCenter : option (LatLng num)
}.
Arguments mk {num} drPathCoords gpsPathCoords mapCenter initialCenter.
Arguments drPathCoords {num} s.
Arguments gpsPathCoords {num} s.
Arguments mapCenter {num} s.
Arguments initialCenter {num} s.
End PV.

Section Geo.
Context {num : Type} {N : JsNumber num} {M : JsMath num}.
Local Open Scope js_scope.

(** Lines 45-48. *)
Definition pvInitial : PV.State num :=
  PV.mk [] [] (nlit 0, nlit 0) None.

(** Line 64. *)
Definition metersPerLatDegree : num := nlit 111320.

(** Line 65. *)
Definition metersPerLonDegree (originLat : num) : num :=
  nlit 111320 * mcos ((originLat * mPI) / nlit 180).

(** Lines 67-71: one point of the path. *)
Definition projectPoint (originLat originLon : num) (p : Vec2.t num) : LatLng num :=
  let lat := originLat + Vec2.y p / metersPerLatDegree in
  let lon := originLon + Vec2.x p / metersPerLonDegree originLat in
  (lat, lon).

(** Lines 52-71: the trace for a path and a fix. *)
Definition projectPath (path : list (Vec2.t num))
  (gpsLocation : option (GpsFix.t num)) : list (LatLng num) :=
  match gpsLocation with
  | None => []
  | Some g =>
      if (length path <? 2)%nat then []
      else map (projectPoint (GpsFix.latitude g) (GpsFix.longitude g)) path
  end.

(** Lines 51-80. *)
Definition projectEffect (path : list (Vec2.t num))
  (gpsLocation : option (GpsFix.t num)) (st : PV.State num) : PV.State num :=
  let coords := projectPath path gpsLocation in
  let st := PV.mk coords (PV.gpsPathCoords st) (PV.mapCenter st)
                  (PV.initialCenter st) in
  match gpsLocation with
  | None => st
  | Some _ =>
      if (length path <? 2)%nat then st
      else
        match PV.initialCenter st, coords with
        | None, c0 :: _ =>
            PV.mk (PV.drPathCoords st) (PV.gpsPathCoords st) c0 (Some c0)
        | _, _ => st
        end
  end.

(** Lines 91-99: the flat-Earth distance in metres between a stored point and
    the new one, scaled with the stored point's latitude. *)
Definition distance (point newPoint : LatLng num) : num :=
  msqrt
    (mpow ((fst point - fst newPoint) * nlit 111320) (nlit 2) +
     mpow ((snd point - snd newPoint) * nlit 111320 *
           mcos ((fst point * mPI) / nlit 180)) (nlit 2)).

(** Lines 90-101. *)
Definition isDuplicate (prev : list (LatLng num)) (newPoint : LatLng num) : bool :=
  existsb (fun point => distance point newPoint <? nlit 0.5) prev.

(** Lines 88-105: the updater passed to [setGpsPathCoords]. *)
Definition ingestGroundTruth (newPoint : LatLng num) (prev : list (LatLng num))
  : list (LatLng num) :=
  if isDuplicate prev newPoint then prev else prev ++ [newPoint].

(** Lines 83-109. *)
Definition trackEffect (gpsLocation : option (GpsFix.t num)) (st : PV.State num)
  : PV.State num :=
  match gpsLocation with
  | None => st
  | Some g =>
      let newPoint := (GpsFix.latitude g, GpsFix.longitude g) in
      PV.mk (PV.drPathCoords st)
            (ingestGroundTruth newPoint (PV.gpsPathCoords st))
            newPoint
            (PV.initialCenter st)
  end.

(** Lines 26-32: the points the map is asked to fit, when there are any. *)
Definition fitBoundsRequest (drPathCoords gpsPathCoords : list (LatLng num))
  : option (list (LatLng num)) :=
  let allCoords := drPathCoords ++ gpsPathCoords in
  if (0 <? length allCoords)%nat then Some allCoords else None.

(** ** Specification vocabulary *)

(** Feeding a sequence of fixes to the tracker. *)
Definition ingestAll (fixes : list (LatLng num)) (prev : list (LatLng num))
  : list (LatLng num) :=
  fold_left (fun acc p => ingestGroundTruth p acc) fixes prev.

(** The test of line 100 is false for the pair: the later point was not
    taken for a duplicate of the earlier one. *)
Definition far_enough (point newPoint : LatLng num) : Prop :=
  (distance point newPoint <? nlit 0.5) = false.

End Geo.

(** ** Specification vocabulary (real instance) *)

Section GeoSpecReal.
Local Open Scope R_scope.

(** The squared flat-Earth distance, in square metres. *)
Definition distance2 (point newPoint : LatLng R) : R :=
  ((fst point - fst newPoint) * 111320) * ((fst point - fst newPoint) * 111320) +
  ((snd point - snd newPoint) * 111320 * cos (fst point * PI / 180)) *
  ((snd point - snd newPoint) * 111320 * cos (fst point * PI / 180)).

(** An earlier point keeps a later one at 0.5 m or more. *)
Definition apart (point newPoint : LatLng R) : Prop :=
  0.25 <= distance2 point newPoint.

(** The inverse of [projectPoint]: metres from coordinates. *)
Definition unprojectPoint (originLat originLon : R) (c : LatLng R) : Vec2.t R :=
  Vec2.mk ((snd c - originLon) * (111320 * cos (originLat * PI / 180)))
          ((fst c - originLat) * 111320).

(** The latitude is not a pole: the longitude scale is not zero. *)
Definition not_polar (lat : R) : Prop := cos (lat * PI / 180) <> 0.

(** *** Concrete inputs for the examples *)

Definition fix_origin : GpsFix.t R := GpsFix.mk 0 0 5 0.
Definition fix_moved : GpsFix.t R := GpsFix.mk 10 20 5 1000.

(** Two points of a path: the origin and 111320 m to the north. *)
Definition path_north : list (Vec2.t R) := [Vec2.mk 0 0; Vec2.mk 0 111320].

(** Fixes 0.4 m and 1 m north of the origin. *)
Definition p_origin : LatLng R := (0, 0).
Definition p_near : LatLng R := (0.4 / 111320, 0).
Definition p_far : LatLng R := (1 / 111320, 0).

End GeoSpecReal.

(** ** The projection and the tracker on any number instance *)

Section GeoFacts.
Context {num : Type} {N : JsNumber num} {M : JsMath num}.

Lemma ingestGroundTruth_cases (p : LatLng num) prev :
  (isDuplicate prev p = true /\ ingestGroundTruth p prev = prev) \/
  (isDuplicate prev p = false /\ ingestGroundTruth p prev = prev ++ [p]).
Proof. unfold ingestGroundTruth. destruct (isDuplicate prev p); auto. Qed.

Lemma ingestAll_snoc fixes (p : LatLng num) prev :
  ingestAll (fixes ++ [p]) prev = ingestGroundTruth p (ingestAll fixes prev).
Proof. unfold ingestAll. now rewrite fold_left_app. Qed.

(** With an anchor and two points or more, the trace has one coordinate pair
    per path point, in the order of the path. *)
Lemma projection_pointwise (path : list (Vec2.t num)) g i :
  (2 <= length path)%nat ->
  nth_error (projectPath path (Some g)) i =
  option_map (projectPoint (GpsFix.latitude g) (GpsFix.longitude g))
             (nth_error path i).
Proof.
  intros Hl. unfold projectPath.
  destruct (Nat.ltb_spec (length path) 2); [lia|]. apply nth_error_map.
Qed.

(** The projected trace is empty exactly when there is no anchor
    fix or the path has fewer than two points (lines 52-55); in every other
    case it is not empty. *)
Theorem projection_empty_iff (path : list (Vec2.t num)) g :
  projectPath path g = [] <-> g = None \/ (length path < 2)%nat.
Proof.
  unfold projectPath. destruct g as [g|]; [|intuition].
  destruct (Nat.ltb_spec (length path) 2) as [Hl|Hl]; [intuition|].
  split; [|intros [?|?]; [discriminate|lia]].
  destruct path; simpl in *; [lia|discriminate].
Qed.

(** The ground-truth trace is an append-only log: feeding any
    sequence of fixes keeps the stored points as a prefix, in their order,
    and only adds points that were fed. *)
Theorem trace_append_only fixes (prev : list (LatLng num)) :
  exists suffix, ingestAll fixes prev = prev ++ suffix /\ incl suffix fixes.
Proof.
  induction fixes as [|p fixes IH] using rev_ind.
  - exists []. split; [now rewrite app_nil_r|easy].
  - destruct IH as (suf & E & Hi). rewrite ingestAll_snoc, E.
    destruct (ingestGroundTruth_cases p (prev ++ suf)) as [[_ ->]|[_ ->]].
    + exists suf. split; auto. now apply incl_appl.
    + exists (suf ++ [p]). split; [now rewrite app_assoc|].
      apply incl_app; [now apply incl_appl|apply incl_appr; now apply incl_refl].
Qed.

(** Once [initialCenter] is set, neither effect changes it, and the
    projection effect no longer moves the map centre (line 76). *)
Theorem initialCenter_fixed path g (st : PV.State num) c :
  PV.initialCenter st = Some c ->
  PV.initialCenter (projectEffect path g st) = Some c /\
  PV.mapCenter (projectEffect path g st) = PV.mapCenter st /\
  PV.initialCenter (trackEffect g st) = Some c.
Proof.
  intros H. unfold projectEffect, trackEffect; simpl. rewrite H.
  destruct g; simpl; auto. destruct (_ <? _)%nat; simpl; auto.
Qed.

(** *** Separation of the ground-truth trace *)
Lemma isDuplicate_far (prev : list (LatLng num)) p :
  isDuplicate prev p = false <-> Forall (fun q => far_enough q p) prev.
Proof. unfold isDuplicate. now rewrite existsb_false_iff. Qed.

Lemma ingest_far (p : LatLng num) l :
  AllPairs far_enough l -> AllPairs far_enough (ingestGroundTruth p l).
Proof.
  intros H. destruct (ingestGroundTruth_cases p l) as [[_ ->]|[Hd ->]]; auto.
  constructor; auto. now apply isDuplicate_far.
Qed.

Lemma ingestAll_far fixes : AllPairs far_enough (ingestAll fixes []).
Proof.
  induction fixes using rev_ind; [constructor|].
  rewrite ingestAll_snoc. now apply ingest_far.
Qed.

(** Claim C13. In the ground-truth trace built from any sequence of fixes, for every
    instance of the number interface (binary64 included), the test of line
    100 is false for each ordered pair of stored points: no stored point
    was within 0.5 m of one stored before it, as the code measures it. *)
Theorem gps_trace_separated fixes i j a b :
  (i < j)%nat ->
  nth_error (ingestAll fixes []) i = Some a ->
  nth_error (ingestAll fixes []) j = Some b ->
  nlt (distance a b) (nlit 0.5) = false.
Proof.
  intros Hij Ha Hb.
  exact (AllPairs_nth far_enough _ (ingestAll_far fixes) i j a b Hij Ha Hb).
Qed.

End GeoFacts.

(** ** The projection and the tracker on real numbers *)

Section GeoReal.
Local Open Scope R_scope.

Lemma distance_R (p q : LatLng R) : distance p q = sqrt (distance2 p q).
Proof. unfold distance, distance2. js_real. now rewrite !Rjs_pow_2. Qed.

Lemma distance2_nonneg p q : 0 <= distance2 p q.
Proof. unfold distance2. apply Rplus_le_le_0_compat; apply Rle_0_sqr. Qed.

Lemma distance2_self p : distance2 p p = 0.
Proof. unfold distance2. ring. Qed.

(** The test of line 100, on squares. *)
Lemma distance_lt_R (p q : LatLng R) :
  nlt (distance p q) (nlit 0.5) = true <-> distance2 p q < 0.25.
Proof.
  rewrite distance_R. js_real. rewrite Rltb_true.
  pose proof (distance2_nonneg p q) as Hn.
  replace (5 / 10) with (sqrt 0.25).
  2:{ replace 0.25 with (0.5 * 0.5) by lra. rewrite sqrt_square; lra. }
  split; intros H.
  - apply sqrt_lt_0_alt in H. exact H.
  - apply sqrt_lt_1_alt. lra.
Qed.

Lemma distance_ge_R (p q : LatLng R) :
  nlt (distance p q) (nlit 0.5) = false <-> apart p q.
Proof.
  unfold apart. rewrite <- Bool.not_true_iff_false, distance_lt_R. lra.
Qed.

Lemma isDuplicate_false (prev : list (LatLng R)) p :
  isDuplicate prev p = false <-> Forall (fun q => apart q p) prev.
Proof.
  unfold isDuplicate. rewrite existsb_false_iff.
  split; intros H; eapply Forall_impl; try exact H;
    intros q Hq; now apply distance_ge_R.
Qed.

Lemma isDuplicate_self (prev : list (LatLng R)) p :
  isDuplicate (prev ++ [p]) p = true.
Proof.
  unfold isDuplicate. rewrite existsb_snoc.
  assert (nlt (distance p p) (nlit 0.5) = true) as ->.
  { apply distance_lt_R. rewrite distance2_self. lra. }
  apply orb_true_r.
Qed.

(** A fix at 0.5 m or more from every stored point is appended. *)
Lemma ingest_new_R (p : LatLng R) prev :
  Forall (fun q => apart q p) prev -> ingestGroundTruth p prev = prev ++ [p].
Proof.
  intros H. apply isDuplicate_false in H. unfold ingestGroundTruth. now rewrite H.
Qed.

(** A fix closer than 0.5 m to some stored point is dropped. *)
Lemma ingest_dup_R (p : LatLng R) prev :
  Exists (fun q => distance2 q p < 0.25) prev -> ingestGroundTruth p prev = prev.
Proof.
  intros H. destruct (ingestGroundTruth_cases p prev) as [[_ E]|[Hd _]]; auto.
  apply isDuplicate_false in Hd. rewrite Forall_forall in Hd.
  apply Exists_exists in H as (q & Hin & Hq). specialize (Hd q Hin).
  unfold apart in Hd. lra.
Qed.

Lemma ingest_separated (p : LatLng R) l :
  AllPairs apart l -> AllPairs apart (ingestGroundTruth p l).
Proof.
  intros H. destruct (ingestGroundTruth_cases p l) as [[_ ->]|[Hd ->]]; auto.
  constructor; auto. now apply isDuplicate_false.
Qed.

Lemma ingestAll_separated fixes : AllPairs apart (ingestAll fixes []).
Proof.
  induction fixes using rev_ind; [constructor|].
  rewrite ingestAll_snoc. now apply ingest_separated.
Qed.

Lemma cos_deg_0 : cos (0 * PI / 180) = 1.
Proof. replace (0 * PI / 180) with 0 by lra. apply cos_0. Qed.

Lemma not_polar_0 : not_polar 0.
Proof. unfold not_polar. rewrite cos_deg_0. lra. Qed.

Lemma ingest_origin_near : ingestAll [p_origin; p_near] [] = [p_origin].
Proof.
  unfold ingestAll; simpl fold_left.
  rewrite (ingest_new_R p_origin []) by constructor.
  apply ingest_dup_R. constructor.
  unfold distance2, p_origin, p_near; simpl. rewrite cos_deg_0. lra.
Qed.

Lemma ingest_origin_far : ingestAll [p_origin; p_far] [] = [p_origin; p_far].
Proof.
  unfold ingestAll; simpl fold_left.
  rewrite (ingest_new_R p_origin []) by constructor.
  apply (ingest_new_R p_far [p_origin]). repeat constructor.
  unfold apart, distance2, p_origin, p_far; simpl. rewrite cos_deg_0. lra.
Qed.

(** On reals the test is the distance: stored points are 0.5 m or more
    apart, in the flat-Earth metric centred on the earlier point. *)
Theorem gps_trace_apart fixes i j a b :
  (i < j)%nat ->
  nth_error (ingestAll fixes []) i = Some a ->
  nth_error (ingestAll fixes []) j = Some b ->
  apart a b.
Proof.
  intros Hij Ha Hb.
  exact (AllPairs_nth apart _ (ingestAll_separated fixes) i j a b Hij Ha Hb).
Qed.

(** Delivering the same fix twice stores it at most once. *)
Theorem ingest_idempotent (p : LatLng R) l :
  ingestGroundTruth p (ingestGroundTruth p l) = ingestGroundTruth p l.
Proof.
  destruct (ingestGroundTruth_cases p l) as [[Hd E]|[Hd E]]; rewrite E.
  - exact E.
  - unfold ingestGroundTruth. now rewrite isDuplicate_self.
Qed.

(** Claim C14. Away from the poles the projection is invertible: converting
    the coordinates back to metres around the same anchor gives the path
    point. *)
Theorem projection_round_trip lat0 lon0 (p : Vec2.t R) :
  not_polar lat0 ->
  unprojectPoint lat0 lon0 (projectPoint lat0 lon0 p) = p.
Proof.
  unfold not_polar, unprojectPoint, projectPoint, metersPerLatDegree,
    metersPerLonDegree. intros Hc. destruct p as [x y]. js_real. simpl.
  f_equal; field; auto.
Qed.

(** With the anchor at latitude 0, longitude 0, the path point
    111320 m to the north is projected to latitude 1, longitude 0. *)
Theorem projection_north_example :
  projectPath path_north (Some fix_origin) = [(0, 0); (1, 0)].
Proof.
  unfold projectPath, path_north, fix_origin, projectPoint,
    metersPerLatDegree, metersPerLonDegree. simpl. js_real. simpl.
  rewrite cos_deg_0. repeat f_equal; field.
Qed.

(** A fix 0.4 m from the stored one is dropped; a fix 1 m from it
    is stored. *)
Theorem dedup_example :
  ingestAll [p_origin; p_near] [] = [p_origin] /\
  ingestAll [p_origin; p_far] [] = [p_origin; p_far].
Proof. split; [apply ingest_origin_near|apply ingest_origin_far]. Qed.

(** The anchor of the projection is the fix the component is given
    at that render, the latest one: a path that starts at the origin is
    drawn starting at that fix, so the whole trace moves with every new
    fix. *)
Theorem projection_anchor_follows_fix (path : list (Vec2.t R)) g p0 rest :
  path = Vec2.mk 0 0 :: p0 :: rest ->
  not_polar (GpsFix.latitude g) ->
  hd_error (projectPath path (Some g)) =
  Some (GpsFix.latitude g, GpsFix.longitude g).
Proof.
  intros -> Hc. unfold projectPath; simpl.
  unfold projectPoint, metersPerLatDegree, metersPerLonDegree.
  js_real. simpl. do 2 f_equal; field; auto.
Qed.

End GeoReal.

(** ** Witnesses *)

Section GeoWitnesses.
Local Open Scope R_scope.

Lemma initialCenter_fixed_witness :
  PV.initialCenter (projectEffect path_north (Some fix_origin)
                      (PV.mk [] [] (0, 0) (Some (1, 2)))) = Some (1, 2) /\
  PV.mapCenter (projectEffect path_north (Some fix_origin)
                  (PV.mk [] [] (0, 0) (Some (1, 2)))) = (0, 0) /\
  PV.initialCenter (trackEffect (Some fix_origin)
                      (PV.mk [] [] (0, 0) (Some (1, 2)))) = Some (1, 2).
Proof.
  exact (initialCenter_fixed path_north (Some fix_origin)
           (PV.mk [] [] (0, 0) (Some (1, 2))) (1, 2) eq_refl).
Defined.

Lemma gps_trace_separated_witness :
  nlt (distance p_origin p_far) (nlit 0.5) = false.
Proof.
  apply (gps_trace_separated [p_origin; p_far] 0 1); [lia| |];
    rewrite ingest_origin_far; reflexivity.
Defined.

Lemma projection_round_trip_witness :
  unprojectPoint 0 0 (projectPoint 0 0 (Vec2.mk 3 4)) = Vec2.mk 3 4.
Proof. exact (projection_round_trip 0 0 (Vec2.mk 3 4) not_polar_0). Defined.

Lemma projection_anchor_follows_fix_witness :
  hd_error (projectPath path_north (Some fix_origin)) = Some (0, 0).
Proof.
  exact (projection_anchor_follows_fix path_north fix_origin
           (Vec2.mk 0 111320) [] eq_refl not_polar_0).
Defined.

End GeoWitnesses.
