(* ===== verification/Dedup.v ===== *)
(** * Dedup: a reference definition of the ground-truth trace

    [trackEffect] of [PathVisualizer] (src/src/components/PathVisualizer.jsx,
    lines 83-109) builds the GPS trace one fix at a time: each fix is compared
    with every stored point ([prev.some], lines 90-101) and appended when none
    is closer than 0.5 m.  [Geo.ingestAll] is that loop.

    This file gives the trace a second, declarative definition, [dedupRef]:
    keep the first fix, delete from the rest every fix near it, and repeat on
    what is left.  The recursion is on a filtered list, not on a subterm, so
    it is defined by well-founded recursion on the length of the list.  The
    theorems show that the incremental loop computes exactly [dedupRef], for
    every instance of the number interface, and derive from the reference
    definition what the loop keeps and what it drops. *)

From Equations Require Import Equations.
From Stdlib Require Import List Bool Arith Lia QArith.
From S2P Require Import Prelude JsNum DRState Geo.
Import ListNotations.

(** ** The reference definition *)

Section Reference.
Context {A : Type} (near : A -> A -> bool).

(** [near p q]: the stored point [p] suppresses the later point [q]. *)
Definition suppressed (prev : list A) (q : A) : bool :=
  existsb (fun p => near p q) prev.

(** Greedy thinning: the head is kept and removes its neighbourhood. *)
Equations? dedupRef (l : list A) : list A by wf (length l) lt :=
dedupRef [] := [];
dedupRef (p :: rest) := p :: dedupRef (filter (fun q => negb (near p q)) rest).
Proof.
  eapply Nat.le_lt_trans; [apply filter_length_le|auto with arith].
Qed.

(** One step of the incremental loop, for any notion of nearness. *)
Definition ingestStep (p : A) (prev : list A) : list A :=
  if suppressed prev p then prev else prev ++ [p].

End Reference.

Section Nearby.
Context {num : Type} {N : JsNumber num} {M : JsMath num}.

(** Line 100: [distance < 0.5], with the stored point first. *)
Definition nearby (point newPoint : LatLng num) : bool :=
  (distance point newPoint <? nlit 0.5)%js.

End Nearby.

(** ** The loop computes the reference *)

Section ReferenceFacts.
Context {A : Type} (near : A -> A -> bool).

Lemma suppressed_snoc prev p q :
  suppressed near (prev ++ [p]) q = suppressed near prev q || near p q.
Proof. unfold suppressed. now rewrite existsb_snoc. Qed.

(** Filtering by the stored points and then by one more is filtering by
    all of them. *)
Lemma filter_suppressed_snoc prev p l :
  filter (fun q => negb (suppressed near (prev ++ [p]) q)) l =
  filter (fun q => negb (near p q))
         (filter (fun q => negb (suppressed near prev q)) l).
Proof.
  induction l as [|q l IH]; simpl; auto.
  rewrite suppressed_snoc. destruct (suppressed near prev q); simpl; auto.
  destruct (near p q); simpl; now rewrite IH.
Qed.

(** The loop started from any stored trace: the fixes the trace suppresses
    are dropped, the others are thinned by the reference definition. *)
Lemma fold_ingest_dedupRef fixes : forall prev,
  fold_left (fun acc p => ingestStep near p acc) fixes prev =
  prev ++ dedupRef near (filter (fun q => negb (suppressed near prev q)) fixes).
Proof.
  induction fixes as [|q fixes IH]; intros prev; simpl.
  - simp dedupRef. now rewrite app_nil_r.
  - unfold ingestStep at 2. destruct (suppressed near prev q) eqn:E; simpl.
    + apply IH.
    + rewrite IH, filter_suppressed_snoc. simp dedupRef.
      now rewrite <- app_assoc.
Qed.

Lemma filter_nothing_suppressed (l : list A) :
  filter (fun q => negb (suppressed near [] q)) l = l.
Proof. induction l as [|q l IH]; simpl in *; [|rewrite IH]; reflexivity. Qed.

(** The reference keeps a sublist of what it is given, head first. *)
Lemma dedupRef_incl l : incl (dedupRef near l) l.
Proof.
  funelim (dedupRef near l); simp dedupRef; [easy|].
  intros x [<-|Hx]; [now left|right].
  match goal with IH : incl _ _ |- _ => apply IH, filter_In in Hx end.
  tauto.
Qed.

Lemma dedupRef_length l : (length (dedupRef near l) <= length l)%nat.
Proof.
  funelim (dedupRef near l); simp dedupRef; simpl; [lia|].
  match goal with IH : (_ <= _)%nat |- _ => revert IH end.
  pose proof (filter_length_le (fun q => negb (near p q)) rest). lia.
Qed.

(** Every element that was given is kept or has a kept point near it. *)
Lemma dedupRef_covers l x :
  In x l -> In x (dedupRef near l) \/ suppressed near (dedupRef near l) x = true.
Proof.
  funelim (dedupRef near l); simp dedupRef; [easy|].
  intros [<-|Hx]; [left; now left|].
  unfold suppressed; simpl. destruct (near p x) eqn:E; [now right|].
  match goal with IH : forall _, _ -> _ |- _ =>
    destruct (IH x) as [?|?]; [apply filter_In; now rewrite E| |] end.
  - left; now right.
  - right; assumption.
Qed.

End ReferenceFacts.

Section Equivalence.
Context {num : Type} {N : JsNumber num} {M : JsMath num}.

Lemma ingestGroundTruth_step (p : LatLng num) prev :
  ingestGroundTruth p prev = ingestStep nearby p prev.
Proof. reflexivity. Qed.

(** Claim C17. Feeding a sequence of fixes to the tracker of lines 83-109,
    one at a time, computes the reference thinning of the sequence: from the
    empty trace the first fix is kept and every later fix near a kept one is
    dropped; from a stored trace the stored points stay and the fixes none of
    them suppresses are thinned and appended.  This holds for every number
    instance. *)
Theorem ingestAll_dedupRef (fixes prev : list (LatLng num)) :
  ingestAll fixes [] = dedupRef nearby fixes /\
  ingestAll fixes prev =
  prev ++ dedupRef nearby (filter (fun q => negb (isDuplicate prev q)) fixes).
Proof.
  split; [|exact (fold_ingest_dedupRef nearby fixes prev)].
  rewrite <- (filter_nothing_suppressed nearby fixes) at 2.
  exact (fold_ingest_dedupRef nearby fixes []).
Qed.

(** The tracker terminates with a trace no longer than the
    sequence of fixes it was fed, and every fix fed is either stored or
    suppressed by a stored point. *)
Theorem trace_bounded_and_covering (fixes : list (LatLng num)) :
  (length (ingestAll fixes []) <= length fixes)%nat /\
  forall p, In p fixes ->
    In p (ingestAll fixes []) \/ isDuplicate (ingestAll fixes []) p = true.
Proof.
  assert (E : ingestAll fixes [] = dedupRef nearby fixes).
  { rewrite <- (filter_nothing_suppressed nearby fixes) at 2.
    exact (fold_ingest_dedupRef nearby fixes []). }
  rewrite E. split; [apply dedupRef_length|].
  intros p Hp. now apply dedupRef_covers.
Qed.

End Equivalence.
