(* ===== verification/Session.v ===== *)
(** * Session: the monitoring session and the event loop

    The controls of [DRModule] (src/src/components/DRModule.jsx) and the
    host they talk to:

    - [startMonitoring] (lines 215-252) clears the error, drops the
      timestamp baseline and asks for the two sensor permissions; when both
      are granted it registers the two listeners and sets [isMonitoring],
      otherwise it publishes an error.  A permission request that rejects is
      caught and published as an error too.  Here the call is one step,
      with its two [await]s resolved inside it; [Async] models the call
      suspended at each [await] and reduces it to this one.
    - [stopMonitoring] (lines 255-260) removes the listeners.
    - The GPS effect (lines 282-334) depends on [isMonitoring]: at the commit
      that follows a change React runs the previous cleanup
      ([gpsEffectCleanup]) and then the body ([gpsEffectBody]), which starts
      a position watch when monitoring.  [successCallback] and
      [errorCallback] publish fixes and error messages.
    - The unmount cleanup (lines 271-279).

    The host is a record: whether [navigator.geolocation] exists, the
    position watches that are registered and the next identifier
    [watchPosition] returns.  An [App] is the component state, the host, the
    value of [isMonitoring] the last commit rendered (the value the GPS
    effect last ran with, and the one that decides which handler the toggle
    button of line 368 is bound to), the state of [PathVisualizer] and
    whether the component is mounted.

    The event loop is [step]: each event of the browser (a sensor sample, a
    timer, a click, a GPS callback, a commit of React, an effect of
    [PathVisualizer]) is enabled in some states and changes the state by
    running its handler.  [run] executes a list of events. *)

From Stdlib Require Import List Bool Arith Lia QArith String Reals Lra.
From S2P Require Import Prelude JsNum RealNum DRState Heading Motion Geo.
Import ListNotations.

(** ** The host *)

(** [DeviceMotionEvent.requestPermission], as [startMonitoring] sees it: not a
    function (line 222), a promise that resolves to a string, or one that
    rejects with an error. *)
Inductive PermissionAPI : Type :=
| NoRequestPermission
| Resolves (answer : string)
| Rejects (message : string).

(** [navigator.geolocation]: present or not, the registered watches, the
    identifier the next [watchPosition] returns. *)
Record Host : Type := mkHost {
  geolocation : bool;
  watches : list nat;
  nextWatchId : nat
}.

(** [navigator.geolocation.watchPosition]: registers a watch and returns its
    identifier. *)
Definition watchPosition (h : Host) : nat * Host :=
  (nextWatchId h, mkHost (geolocation h) (nextWatchId h :: watches h) (S (nextWatchId h))).

(** [navigator.geolocation.clearWatch]. *)
Definition clearWatch (id : nat) (h : Host) : Host :=
  mkHost (geolocation h) (filter (fun w => negb (Nat.eqb w id)) (watches h)) (nextWatchId h).

(** The argument of [successCallback]: the fields it reads. *)
Module GeoPosition.
Record t (num : Type) : Type := mk {
  coords_latitude : num;
  coords_longitude : num;
  coords_accuracy : num;
  timestamp : num
}.
Arguments mk {num} coords_latitude coords_longitude coords_accuracy timestamp.
Arguments coords_latitude {num} t.
Arguments coords_longitude {num} t.
Arguments coords_accuracy {num} t.
Arguments timestamp {num} t.
End GeoPosition.

(** The constants of [GeolocationPositionError]. *)
Definition PERMISSION_DENIED : nat := 1.
Definition POSITION_UNAVAILABLE : nat := 2.
Definition TIMEOUT : nat := 3.

(** ** The session *)

Module App.
Record t (num : Type) : Type := mk {
  dr : State num;
  host : Host;
  committedMonitoring : bool;
  pv : PV.State num;
  mounted : bool
}.
Arguments mk {num} dr host committedMonitoring pv mounted.
Arguments dr {num} t.
Arguments host {num} t.
Arguments committedMonitoring {num} t.
Arguments pv {num} t.
Arguments mounted {num} t.
End App.

Section Session.
Context {num : Type} {N : JsNumber num} {M : JsMath num}.

(** *** Start and stop *)

(** Lines 222-229 and 231-239: one permission, [None] when the request
    rejects. *)
Definition permissionGranted (api : PermissionAPI) : option bool :=
  match api with
  | NoRequestPermission => Some true
  | Resolves answer => Some (String.eqb answer "granted")
  | Rejects _ => None
  end.

(** Lines 218-251: the [try] block with its [catch]. *)
Definition requestAndListen (motionApi orientationApi : PermissionAPI)
  (s : State num) : State num :=
  match motionApi with
  | Rejects message =>
      setError (Some ("Error starting sensor monitoring: " ++ message)%string) s
  | _ =>
    match orientationApi with
    | Rejects message =>
        setError (Some ("Error starting sensor monitoring: " ++ message)%string) s
    | _ =>
      match permissionGranted motionApi, permissionGranted orientationApi with
      | Some true, Some true =>
          setIsMonitoring true
            (set_orientationListener true
              (set_motionListener true s))
      | _, _ =>
          setError (Some "Permission to access one or more sensors was denied."%string) s
      end
    end
  end.

(** Lines 215-252. *)
Definition startMonitoring (motionApi orientationApi : PermissionAPI)
  (s : State num) : State num :=
  let s := setError None s in
  let s := set_lastTimestampRef None s in
  requestAndListen motionApi orientationApi s.

(** Lines 255-260. *)
Definition stopMonitoring (s : State num) : State num :=
  let s := set_motionListener false s in
  let s := set_orientationListener false s in
  let s := setIsMonitoring false s in
  set_lastTimestampRef None s.

(** Line 368: the button runs the handler the last render bound to it,
    [stopMonitoring] when that render saw the session monitoring,
    [startMonitoring] otherwise. *)
Definition toggleMonitoring (rendered : bool)
  (motionApi orientationApi : PermissionAPI) (s : State num) : State num :=
  if rendered then stopMonitoring s
  else startMonitoring motionApi orientationApi s.

(** *** The GPS watch *)

(** Lines 290-298. *)
Definition successCallback (position : GeoPosition.t num) (s : State num) : State num :=
  let s := setGpsLocation
    (Some (GpsFix.mk (GeoPosition.coords_latitude position)
                     (GeoPosition.coords_longitude position)
                     (GeoPosition.coords_accuracy position)
                     (GeoPosition.timestamp position))) s in
  setGpsError None s.

(** Lines 301-314. *)
Definition gpsErrorMessage (code : nat) : string :=
  ("GPS error: " ++
   (if Nat.eqb code PERMISSION_DENIED then "User denied GPS access"
    else if Nat.eqb code POSITION_UNAVAILABLE then "Location unavailable"
    else if Nat.eqb code TIMEOUT then "Request timeout"
    else "Unknown error"))%string.

(** Lines 300-316. *)
Definition errorCallback (code : nat) (s : State num) : State num :=
  setGpsError (Some (gpsErrorMessage code)) s.

(** Lines 328-333: the cleanup the effect returns. *)
Definition gpsEffectCleanup (sh : State num * Host) : State num * Host :=
  let (s, h) := sh in
  match watchIdRef s with
  | Some id => (set_watchIdRef None s, clearWatch id h)
  | None => (s, h)
  end.

(** Lines 283-326: the body of the effect. *)
Definition gpsEffectBody (sh : State num * Host) : State num * Host :=
  let (s, h) := sh in
  if isMonitoring s && geolocation h then
    let (id, h) := watchPosition h in
    (set_watchIdRef (Some id) s, h)
  else if negb (isMonitoring s) then
    match watchIdRef s with
    | Some id => (set_watchIdRef None s, clearWatch id h)
    | None => (s, h)
    end
  else (s, h).

(** Lines 282-334, when [isMonitoring] has changed since the last run: the
    cleanup of the last run, then the body. *)
Definition gpsEffect (sh : State num * Host) : State num * Host :=
  gpsEffectBody (gpsEffectCleanup sh).

(** Lines 271-279: the cleanup at unmount. *)
Definition unmountCleanup (sh : State num * Host) : State num * Host :=
  let (s, h) := sh in
  let s := set_motionListener false s in
  let s := set_orientationListener false s in
  match watchIdRef s with
  | Some id => (s, clearWatch id h)
  | None => (s, h)
  end.

(** *** Commits *)

(** A commit of React: the mirror effects (lines 42-53), and the GPS effect
    when its dependency changed. *)
Definition commit (a : App.t num) : App.t num :=
  let s := syncRefs (App.dr a) in
  let (s, h) :=
    if Bool.eqb (isMonitoring s) (App.committedMonitoring a)
    then (s, App.host a)
    else gpsEffect (s, App.host a) in
  App.mk s h (isMonitoring s) (App.pv a) (App.mounted a).

(** The component is removed: both cleanups run, in the order of the
    effects. *)
Definition unmount (a : App.t num) : App.t num :=
  let (s, h) := gpsEffectCleanup (unmountCleanup (App.dr a, App.host a)) in
  App.mk s h (App.committedMonitoring a) (App.pv a) false.

(** The first commit: every effect runs once. *)
Definition mount (h : Host) : App.t num :=
  let (s, h) := gpsEffectBody (syncRefs initialState, h) in
  App.mk s h (isMonitoring s) pvInitial true.

(** *** Events *)

Inductive Event : Type :=
| DeviceOrientation (w : Window num) (e : OrientationEvent.t num)
| DeviceMotion (performanceNow : num) (e : MotionEvent.t num)
| TimerFires
| ClickToggle (motionApi orientationApi : PermissionAPI)
| ClickReset
| Commit
| GpsSuccess (id : nat) (position : GeoPosition.t num)
| GpsFailure (id : nat) (code : nat)
| ProjectEffect
| TrackEffect
| Unmount.

(** An event is delivered only to a registered listener, a pending timer, a
    registered watch, a mounted component. *)
Definition enabled (a : App.t num) (ev : Event) : bool :=
  match ev with
  | DeviceOrientation _ _ => orientationListener (App.dr a)
  | DeviceMotion _ _ => motionListener (App.dr a)
  | TimerFires => (0 <? pendingTimers (App.dr a))%nat
  | GpsSuccess id _ | GpsFailure id _ => existsb (Nat.eqb id) (watches (App.host a))
  | ClickToggle _ _ | ClickReset | Commit | ProjectEffect | TrackEffect
  | Unmount => App.mounted a
  end.

Definition withDr (f : State num -> State num) (a : App.t num) : App.t num :=
  App.mk (f (App.dr a)) (App.host a) (App.committedMonitoring a) (App.pv a)
         (App.mounted a).

Definition withPv (f : PV.State num -> PV.State num) (a : App.t num) : App.t num :=
  App.mk (App.dr a) (App.host a) (App.committedMonitoring a) (f (App.pv a))
         (App.mounted a).

(** The handler of an event. *)
Definition handle (ev : Event) (a : App.t num) : App.t num :=
  match ev with
  | DeviceOrientation w e => withDr (handleDeviceOrientation w e) a
  | DeviceMotion now e => withDr (handleDeviceMotion now e) a
  | TimerFires => withDr calibrationTimeout a
  | ClickToggle m o =>
      withDr (toggleMonitoring (App.committedMonitoring a) m o) a
  | ClickReset => withDr clearPath a
  | Commit => commit a
  | GpsSuccess _ position => withDr (successCallback position) a
  | GpsFailure _ code => withDr (errorCallback code) a
  | ProjectEffect =>
      withPv (projectEffect (path (App.dr a)) (gpsLocation (App.dr a))) a
  | TrackEffect => withPv (trackEffect (gpsLocation (App.dr a))) a
  | Unmount => unmount a
  end.

(** The event loop. *)
Inductive step : App.t num -> App.t num -> Prop :=
| step_event a ev : enabled a ev = true -> step a (handle ev a).

(** Running a list of events; [None] when one of them is not enabled. *)
Fixpoint run (evs : list Event) (a : App.t num) : option (App.t num) :=
  match evs with
  | [] => Some a
  | ev :: evs => if enabled a ev then run evs (handle ev a) else None
  end.

End Session.

(** ** Specification vocabulary *)

Section SessionSpec.
Context {num : Type} {N : JsNumber num} {M : JsMath num}.

(** The cells the controls and the GPS effect own. *)
Definition controls (s : State num) :=
  (motionListener s, orientationListener s, isMonitoring s, watchIdRef s).

(** A position watch is held. *)
Definition watching (s : State num) : bool :=
  match watchIdRef s with Some _ => true | None => false end.

(** The permission is given: the API needs no request, or the request
    resolves to the string [granted]. *)
Definition grants (api : PermissionAPI) : bool :=
  match api with
  | NoRequestPermission => true
  | Resolves answer => String.eqb answer "granted"
  | Rejects _ => false
  end.

(** Both listeners are registered or neither; a registered listener means
    the session is monitoring, and while the component is mounted the two
    agree. *)
Definition listeners_ok (a : App.t num) : Prop :=
  motionListener (App.dr a) = orientationListener (App.dr a) /\
  (motionListener (App.dr a) = true -> isMonitoring (App.dr a) = true) /\
  (App.mounted a = true -> motionListener (App.dr a) = isMonitoring (App.dr a)).

(** The host holds exactly the watch [watchIdRef] names, and there is one
    exactly when the last commit saw the session monitoring, with a
    geolocation service, on a mounted component. *)
Definition watch_ok (a : App.t num) : Prop :=
  watches (App.host a) =
    match watchIdRef (App.dr a) with Some id => [id] | None => [] end /\
  watching (App.dr a) =
    (App.committedMonitoring a && geolocation (App.host a) && App.mounted a).

(** A raised calibrating flag has a timer that will clear it. *)
Definition flag_ok (a : App.t num) : Prop :=
  isCalibrating (App.dr a) = true -> (0 < pendingTimers (App.dr a))%nat.

Definition path_ok (a : App.t num) : Prop :=
  path (App.dr a) <> [] /\ pathRef (App.dr a) <> [].


(** The invariant of the event loop. *)
Definition session_ok (a : App.t num) : Prop :=
  listeners_ok a /\ watch_ok a /\ flag_ok a /\ path_ok a.

(** The ref the integrator appends to holds the published path. *)
Definition path_mirrored (a : App.t num) : Prop :=
  pathRef (App.dr a) = path (App.dr a).

(** The event is not a click on the reset button. *)
Definition not_reset (ev : Event (num := num)) : Prop := ev <> ClickReset.

End SessionSpec.

(** *** Concrete inputs for the examples *)

Section SessionInputs.
Local Open Scope R_scope.

(** A browser with a geolocation service and no watch. *)
Definition host0 : Host := mkHost true [] 0.

(** A click on the start button where no permission has to be requested. *)
Definition click_start : Event (num:=R) :=
  ClickToggle NoRequestPermission NoRequestPermission.

(** The session after the click and the commit that follows. *)
Definition app_on : App.t R := handle Commit (handle click_start (mount host0)).

(** Then a first compass reading of 35 degrees. *)
Definition app_flagged : App.t R := handle (DeviceOrientation w_plain ev_35) app_on.

(** Two GPS callbacks 1 m apart, each followed by the tracking effect. *)
Definition pos_origin : GeoPosition.t R := GeoPosition.mk 0 0 5 0.
Definition pos_far : GeoPosition.t R := GeoPosition.mk (1 / 111320) 0 5 1000.
Definition gps_events : list (Event (num:=R)) :=
  [GpsSuccess 0 pos_origin; TrackEffect; GpsSuccess 0 pos_far; TrackEffect].
Definition app_tracked : App.t R :=
  fold_left (fun a ev => handle ev a) gps_events app_on.

End SessionInputs.

(** ** The invariant of the event loop *)

Section SessionFacts.
Context {num : Type} {N : JsNumber num} {M : JsMath num}.
Implicit Types (s : State num) (a : App.t num) (h : Host).

Ltac handler_cases :=
  unfold handleDeviceMotion, acceptSample, holdStationary, integrateSample,
    displaySensors, handleDeviceOrientation, raiseCalibrating,
    calibrationTimeout, clearPath;
  cbv zeta; repeat break_match.

Lemma motion_controls pn e s : controls (handleDeviceMotion pn e s) = controls s.
Proof. handler_cases; reflexivity. Qed.

Lemma orientation_controls w e s : controls (handleDeviceOrientation w e s) = controls s.
Proof. handler_cases; reflexivity. Qed.

Lemma clearWatch_single id h : watches h = [id] -> watches (clearWatch id h) = [].
Proof. intros H. unfold clearWatch; simpl. rewrite H; simpl. now rewrite Nat.eqb_refl. Qed.

Lemma clearWatch_none id h : watches h = [] -> watches (clearWatch id h) = [].
Proof. intros H. unfold clearWatch; simpl. now rewrite H. Qed.

Lemma motion_flag pn e s :
  isCalibrating (handleDeviceMotion pn e s) = isCalibrating s /\
  pendingTimers (handleDeviceMotion pn e s) = pendingTimers s.
Proof. handler_cases; split; reflexivity. Qed.

Lemma motion_path_nonempty pn e s :
  path s <> [] -> pathRef s <> [] ->
  path (handleDeviceMotion pn e s) <> [] /\
  pathRef (handleDeviceMotion pn e s) <> [].
Proof. handler_cases; cbn; auto using snoc_not_nil. Qed.

Lemma orientation_paths w e s :
  path (handleDeviceOrientation w e s) = path s /\
  pathRef (handleDeviceOrientation w e s) = pathRef s.
Proof. handler_cases; split; reflexivity. Qed.

Lemma orientation_flag_ok w e s :
  (isCalibrating s = true -> (0 < pendingTimers s)%nat) ->
  isCalibrating (handleDeviceOrientation w e s) = true ->
  (0 < pendingTimers (handleDeviceOrientation w e s))%nat.
Proof. handler_cases; cbn; auto with arith. Qed.

(** A handler that leaves the controls alone keeps the session invariant
    when it keeps the flag and the path invariants. *)
Lemma session_ok_withDr (f : State num -> State num) a :
  controls (f (App.dr a)) = controls (App.dr a) ->
  (isCalibrating (f (App.dr a)) = true -> (0 < pendingTimers (f (App.dr a)))%nat) ->
  path (f (App.dr a)) <> [] -> pathRef (f (App.dr a)) <> [] ->
  session_ok a -> session_ok (withDr f a).
Proof.
  intros Hc Hf Hp Hr (Hl & Hw & _ & _).
  unfold controls in Hc. inv Hc.
  unfold session_ok, listeners_ok, watch_ok, watching, flag_ok, path_ok in *;
    simpl. repeat match goal with H : _ = _ |- _ => rewrite H end.
  intuition.
Qed.

Ltac unfold_ok :=
  unfold session_ok, listeners_ok, watch_ok, watching, flag_ok, path_ok in *.

Lemma toggle_ok rendered m o a :
  App.mounted a = true -> session_ok a ->
  session_ok (withDr (toggleMonitoring rendered m o) a).
Proof.
  intros Hm (Hl & Hw & Hf & Hp). unfold_ok.
  unfold toggleMonitoring, startMonitoring, stopMonitoring, requestAndListen,
    permissionGranted. simpl.
  destruct Hl as (Hl1 & Hl2 & Hl3). specialize (Hl3 Hm).
  destruct rendered; simpl; [intuition|].
  destruct m, o; simpl; repeat (break_match; simpl); intuition.
Qed.

Lemma gpsEffect_ok s h :
  watches h = match watchIdRef s with Some id => [id] | None => [] end ->
  let (s', h') := gpsEffect (s, h) in
  controls s' = (motionListener s, orientationListener s, isMonitoring s, watchIdRef s') /\
  watches h' = match watchIdRef s' with Some id => [id] | None => [] end /\
  watching s' = (isMonitoring s && geolocation h') /\
  isCalibrating s' = isCalibrating s /\ pendingTimers s' = pendingTimers s /\
  path s' = path s /\ pathRef s' = pathRef s.
Proof.
  intros Hw. unfold gpsEffect, gpsEffectCleanup, gpsEffectBody, watchPosition,
    controls, watching.
  destruct (watchIdRef s) as [id|] eqn:Ew; simpl;
    destruct (isMonitoring s) eqn:Em; simpl;
    destruct (geolocation h) eqn:Eg; simpl;
    rewrite ?Ew, ?Eg, ?Hw; simpl; rewrite ?Nat.eqb_refl, ?Em; simpl; intuition.
Qed.

Lemma commit_ok a :
  App.mounted a = true -> session_ok a -> session_ok (commit a).
Proof.
  intros Hm (Hl & (Hw1 & Hw2) & Hf & Hp & Hr). unfold commit.
  destruct (Bool.eqb _ _) eqn:E.
  - apply eqb_prop in E. unfold_ok; simpl in *. rewrite <- E in *. intuition.
  - pose proof (gpsEffect_ok (syncRefs (App.dr a)) (App.host a) Hw1) as G.
    destruct (gpsEffect _) as [s' h']. destruct G as (Gc & Gw & Gg & G1 & G2 & G3 & G4).
    unfold controls in Gc. inv Gc. unfold_ok; simpl in *.
    rewrite Hm, andb_true_r.
    repeat match goal with H : _ = _ |- _ => rewrite H end. intuition.
Qed.

Lemma unmount_ok a : session_ok a -> session_ok (unmount a).
Proof.
  destruct a as [s h c v m]. intros (Hl & (Hw1 & Hw2) & Hf & Hp).
  unfold unmount, unmountCleanup, gpsEffectCleanup. unfold_ok. simpl in *.
  destruct (watchIdRef s) as [id|] eqn:Ew;
    repeat (simpl; rewrite ?Ew, ?Hw1, ?Nat.eqb_refl, ?andb_false_r);
    intuition discriminate.
Qed.

Lemma mount_ok h : watches h = [] -> session_ok (mount (num:=num) h).
Proof.
  intros Hw. unfold mount, gpsEffectBody; simpl. unfold_ok; simpl.
  rewrite Hw. intuition discriminate.
Qed.

Lemma handle_ok ev a : enabled a ev = true -> session_ok a -> session_ok (handle ev a).
Proof.
  intros He Hok. pose proof Hok as (Hl & Hw & Hf & Hp & Hr).
  destruct ev; simpl in *.
  - destruct (orientation_paths w e (App.dr a)) as [E1 E2].
    apply session_ok_withDr; rewrite ?E1, ?E2;
      auto using orientation_controls, orientation_flag_ok.
  - destruct (motion_flag performanceNow e (App.dr a)) as [E1 E2].
    destruct (motion_path_nonempty performanceNow e (App.dr a)); auto.
    apply session_ok_withDr; rewrite ?E1, ?E2; auto using motion_controls.
  - apply session_ok_withDr; simpl; auto; discriminate.
  - now apply toggle_ok.
  - apply session_ok_withDr; simpl; auto; discriminate.
  - now apply commit_ok.
  - apply session_ok_withDr; simpl; auto.
  - apply session_ok_withDr; simpl; auto.
  - exact Hok.
  - exact Hok.
  - now apply unmount_ok.
Qed.

Lemma session_ok_reachable h a :
  watches h = [] -> reachable step (mount h) a -> session_ok a.
Proof.
  intros Hw. apply reachable_invariant; [now apply mount_ok|].
  intros s s' Hok Hs. destruct Hs. now apply handle_ok.
Qed.

Lemma run_snoc evs ev a :
  run (evs ++ [ev]) a =
  match run evs a with
  | Some a' => if enabled a' ev then Some (handle ev a') else None
  | None => None
  end.
Proof.
  revert a. induction evs as [|e evs IH]; intros a; simpl.
  - now destruct (enabled a ev).
  - destruct (enabled a e); auto.
Qed.

Lemma run_app evs1 evs2 : forall a,
  run (evs1 ++ evs2) a =
  match run evs1 a with Some a' => run evs2 a' | None => None end.
Proof.
  induction evs1 as [|e evs1 IH]; intros a; cbn [run app]; [reflexivity|].
  destruct (enabled a e); [apply IH|reflexivity].
Qed.

Lemma run_reachable evs : forall a a', run evs a = Some a' -> reachable step a a'.
Proof.
  induction evs as [|ev evs IH]; simpl; intros a a' H.
  - inv H. apply reachable_refl.
  - destruct (enabled a ev) eqn:E; [|discriminate].
    eapply reachable_trans; [|eapply IH; eauto].
    eapply reachable_step; [apply reachable_refl|now constructor].
Qed.

Lemma reachable_run a a' : reachable step a a' -> exists evs, run evs a = Some a'.
Proof.
  induction 1 as [|a1 a2 Hs _ (evs & IH)].
  - now exists [].
  - destruct Hs as [a1 ev He]. exists (evs ++ [ev]).
    now rewrite run_snoc, IH, He.
Qed.

Lemma commit_pv a : App.pv (commit a) = App.pv a.
Proof.
  unfold commit. destruct (Bool.eqb _ _); [reflexivity|].
  now destruct (gpsEffect _).
Qed.

Lemma unmount_pv a : App.pv (unmount a) = App.pv a.
Proof. unfold unmount. now destruct (gpsEffectCleanup _). Qed.


(** Claim C10. In every state the event loop reaches, the two sensor
    listeners are registered together, a sensor event is delivered only
    while the session is monitoring, and while the component is mounted
    sensor events are delivered exactly when it is monitoring. *)
Theorem sensors_only_while_monitoring h a pn e w e' :
  watches h = [] -> reachable step (mount h) a ->
  enabled a (DeviceMotion pn e) = enabled a (DeviceOrientation w e') /\
  (enabled a (DeviceMotion pn e) = true -> isMonitoring (App.dr a) = true) /\
  (App.mounted a = true -> enabled a (DeviceMotion pn e) = isMonitoring (App.dr a)).
Proof. intros Hw Hr. exact (proj1 (session_ok_reachable h a Hw Hr)). Qed.

(** Claim C9. In every state the event loop reaches, the host holds exactly
    the position watch that [watchIdRef] names, at most one, and it holds
    one exactly when the last commit saw the session monitoring on a mounted
    component with a geolocation service: no watch is leaked by start, stop
    or unmount. *)
Theorem at_most_one_gps_watch h a :
  watches h = [] -> reachable step (mount h) a ->
  watches (App.host a) =
    match watchIdRef (App.dr a) with Some id => [id] | None => [] end /\
  watching (App.dr a) =
    (App.committedMonitoring a && geolocation (App.host a) && App.mounted a).
Proof. intros Hw Hr. exact (proj1 (proj2 (session_ok_reachable h a Hw Hr))). Qed.

(** Claim C33. In every state the event loop reaches, a raised calibrating
    flag has a pending timer, and that timer clears the flag when it
    fires: the flag never stays raised for ever. *)
Theorem calibrating_flag_has_timer h a :
  watches h = [] -> reachable step (mount h) a ->
  isCalibrating (App.dr a) = true ->
  enabled a TimerFires = true /\
  isCalibrating (App.dr (handle TimerFires a)) = false.
Proof.
  intros Hw Hr Hc. destruct (session_ok_reachable h a Hw Hr) as (_ & _ & Hf & _).
  split; [|reflexivity]. simpl. apply Nat.ltb_lt. auto.
Qed.

(** In every state the event loop reaches, the path and its
    mirror hold at least one point. *)
Theorem path_never_empty h a :
  watches h = [] -> reachable step (mount h) a ->
  path (App.dr a) <> [] /\ pathRef (App.dr a) <> [].
Proof. intros Hw Hr. exact (proj2 (proj2 (proj2 (session_ok_reachable h a Hw Hr)))). Qed.

(** The executable event loop [run] and the step relation agree:
    a state is reachable exactly when some list of events runs to it. *)
Theorem run_is_reachability a a' :
  (exists evs, run evs a = Some a') <-> reachable step a a'.
Proof.
  split; [intros (evs & H); eauto using run_reachable|apply reachable_run].
Qed.

Lemma unmount_off a :
  motionListener (App.dr (unmount a)) = false /\ App.mounted (unmount a) = false.
Proof.
  destruct a as [s h c v m]. unfold unmount, unmountCleanup, gpsEffectCleanup.
  simpl. destruct (watchIdRef s) eqn:E; repeat (simpl; rewrite ?E); auto.
Qed.

(** After the component is unmounted only timers that were
    already pending can still run: no sensor event, GPS callback, click or
    commit is delivered. *)
Theorem unmount_silences h a ev :
  watches h = [] -> reachable step (mount h) a ->
  enabled (handle Unmount a) ev = true -> ev = TimerFires.
Proof.
  intros Hw Hr. pose proof (unmount_ok a (session_ok_reachable h a Hw Hr)) as Hok.
  destruct Hok as ((Hl1 & _ & _) & (Hw1 & Hw2) & _).
  destruct (unmount_off a) as (Hml & Hm).
  unfold watching in Hw2. rewrite Hm, andb_false_r in Hw2.
  destruct (watchIdRef (App.dr (unmount a))); [discriminate|].
  destruct ev; simpl; rewrite ?Hm, ?Hw1, <- ?Hl1, ?Hml; simpl; congruence.
Qed.

(** Claim C35. [startMonitoring] on every branch: it always drops the
    timestamp baseline; when both permissions are given it registers both
    listeners, sets [isMonitoring] and leaves no error; when one is refused
    or its request fails it registers nothing, leaves the controls as they
    were and publishes an error. *)
Theorem start_outcome m o s :
  let s' := startMonitoring m o s in
  lastTimestampRef s' = None /\
  (if grants m && grants o
   then isMonitoring s' = true /\ motionListener s' = true /\
        orientationListener s' = true /\ error s' = None
   else controls s' = controls s /\ error s' <> None).
Proof.
  unfold startMonitoring, requestAndListen, permissionGranted, grants.
  destruct m as [|am|?], o as [|ao|?]; simpl;
    try destruct (String.eqb am _); try destruct (String.eqb ao _); simpl;
    repeat split; discriminate.
Qed.

(** Stopping and starting again keeps the estimate (velocity,
    position, path) and the calibration, and drops the timestamp baseline:
    the first sample after the restart only seeds the baseline, so the pause
    is never integrated. *)
Theorem restart_seeds_baseline m o pn e s acc :
  MotionEvent.acceleration e = Some acc ->
  let s1 := startMonitoring m o (stopMonitoring s) in
  estimate s1 = estimate s /\ calibration s1 = calibration s /\
  estimate (handleDeviceMotion pn e s1) = estimate s /\
  lastTimestampRef (handleDeviceMotion pn e s1) = Some (eventTime pn e).
Proof.
  intros Ha. cbv zeta.
  assert (H1 : estimate (startMonitoring m o (stopMonitoring s)) = estimate s /\
               calibration (startMonitoring m o (stopMonitoring s)) = calibration s /\
               lastTimestampRef (startMonitoring m o (stopMonitoring s)) = None).
  { unfold startMonitoring, requestAndListen, permissionGranted, stopMonitoring.
    destruct m, o; simpl; repeat (break_match; simpl); repeat split. }
  destruct H1 as (He & Hc & Hl).
  rewrite (handleDeviceMotion_first _ _ _ _ Ha Hl).
  destruct (displaySensors_frame e (startMonitoring m o (stopMonitoring s))) as (He' & _).
  repeat split; auto. now rewrite <- He, <- He'.
Qed.

(** The GPS effect writes [watchIdRef] and nothing else of the component. *)
Lemma gpsEffect_dr s h :
  exists id, fst (gpsEffect (s, h)) = set_watchIdRef id s.
Proof.
  unfold gpsEffect, gpsEffectCleanup, gpsEffectBody.
  destruct s; simpl. destruct watchIdRef; simpl;
    destruct isMonitoring, (geolocation h); simpl; eexists; reflexivity.
Qed.

Lemma commit_dr a :
  exists id, App.dr (commit a) = set_watchIdRef id (syncRefs (App.dr a)).
Proof.
  unfold commit. destruct (Bool.eqb _ _).
  - exists (watchIdRef (App.dr a)). simpl. now destruct (App.dr a).
  - destruct (gpsEffect_dr (syncRefs (App.dr a)) (App.host a)) as (id & E).
    exists id. destruct (gpsEffect _); simpl in *. exact E.
Qed.

(** *** The path as a log *)
Lemma motion_appends pn e s :
  pathRef s = path s ->
  exists l, path (handleDeviceMotion pn e s) = path s ++ l /\
    pathRef (handleDeviceMotion pn e s) = path (handleDeviceMotion pn e s) /\
    (List.length l <= 1)%nat.
Proof.
  intros Hm. apply handleDeviceMotion_cases; intros;
    try solve [exists []; cbn; autorewrite with dr_simpl; rewrite app_nil_r; auto].
  apply acceptSample_cases; intros Hn.
  - destruct (acceptSample_stationary (eventTime pn e)
      (deltaTimeOf (eventTime pn e) last) acc _ Hn)
      as (_ & _ & _ & _ & -> & -> & _).
    exists []. autorewrite with dr_simpl. rewrite app_nil_r. auto.
  - destruct (acceptSample_integrated (eventTime pn e)
      (deltaTimeOf (eventTime pn e) last) acc _ Hn)
      as (_ & _ & _ & _ & -> & -> & _).
    eexists [_]. autorewrite with dr_simpl. rewrite Hm. auto.
Qed.

Lemma handle_appends ev a :
  not_reset ev -> path_mirrored a ->
  exists l, path (App.dr (handle ev a)) = path (App.dr a) ++ l /\
    path_mirrored (handle ev a) /\ (List.length l <= 1)%nat.
Proof.
  unfold path_mirrored, not_reset. intros Hev Hm.
  assert (Hsame : forall a', path (App.dr a') = path (App.dr a) ->
            pathRef (App.dr a') = pathRef (App.dr a) ->
            exists l, path (App.dr a') = path (App.dr a) ++ l /\
              pathRef (App.dr a') = path (App.dr a') /\ (List.length l <= 1)%nat).
  { intros a' H1 H2. exists []. rewrite app_nil_r, H1, H2. auto. }
  destruct ev; cbn [handle]; try contradiction; try (apply Hsame; reflexivity).
  - apply Hsame; cbn [App.dr withDr];
      now destruct (orientation_paths w e (App.dr a)) as (? & ?).
  - exact (motion_appends performanceNow e (App.dr a) Hm).
  - apply Hsame; cbn [App.dr withDr];
      unfold toggleMonitoring, startMonitoring, stopMonitoring, requestAndListen;
      repeat break_match; reflexivity.
  - destruct (commit_dr a) as (id & E). apply Hsame; rewrite E;
      destruct (App.dr a); cbn in *; auto.
  - apply Hsame; unfold unmount, gpsEffectCleanup, unmountCleanup;
      destruct a as [s h c pv m]; destruct s; cbn; destruct watchIdRef; reflexivity.
Qed.

(** Claim C12. Between two resets the path is an append-only log, for every instance
    of the number interface: along any run of the event loop with no click
    on the reset button, from a state whose ref holds the published path,
    the published path keeps every point in place, gains at most one point
    per event, and is mirrored by the ref again. *)
Theorem path_append_only evs : forall a a',
  run evs a = Some a' -> Forall not_reset evs -> path_mirrored a ->
  exists suffix, path (App.dr a') = path (App.dr a) ++ suffix /\
    path_mirrored a' /\ (List.length suffix <= List.length evs)%nat.
Proof.
  induction evs as [|ev evs IH]; intros a a' Hrun Hev Hm; cbn in Hrun.
  - inv Hrun. exists []. rewrite app_nil_r. auto.
  - destruct (enabled a ev); [|discriminate]. inversion Hev as [|? ? He Hevs]; subst.
    destruct (handle_appends ev a He Hm) as (l1 & E1 & Hm1 & Hl1).
    destruct (IH _ _ Hrun Hevs Hm1) as (l2 & E2 & Hm2 & Hl2).
    exists (l1 ++ l2). rewrite E2, E1, app_assoc, length_app.
    repeat split; auto. cbn [List.length]. lia.
Qed.


(** When the session is not monitoring the GPS effect does what
    its cleanup does and nothing more: the cleanup has already cleared the
    watch, so the second branch of the body (lines 323-326) finds none. *)
Theorem gps_effect_second_branch_dead s h :
  isMonitoring s = false -> gpsEffect (s, h) = gpsEffectCleanup (s, h).
Proof.
  intros Hm. unfold gpsEffect, gpsEffectCleanup, gpsEffectBody.
  destruct (watchIdRef s) eqn:E; simpl; rewrite Hm; simpl; rewrite ?E; reflexivity.
Qed.

(** Claim C36. The reset button writes the published cells only; the refs
    the integrator reads keep the old estimate until the next commit, after
    which velocity, position and path are at the origin in both. *)
Theorem reset_takes_effect_at_commit a :
  let a1 := handle ClickReset a in
  let a2 := handle Commit a1 in
  posRef (App.dr a1) = posRef (App.dr a) /\
  velRef (App.dr a1) = velRef (App.dr a) /\
  pathRef (App.dr a1) = pathRef (App.dr a) /\
  estimate (App.dr a2) =
    (Vec2.zero, Vec2.zero, [Vec2.zero], Vec2.zero, Vec2.zero, [Vec2.zero]) /\
  lastTimestampRef (App.dr a2) = None.
Proof.
  cbv zeta. simpl. destruct (commit_dr (withDr clearPath a)) as (id & ->).
  repeat split.
Qed.

(** A GPS error publishes a message and keeps the last fix; a
    later fix is published with the four fields of the position and clears
    the message. *)
Theorem gps_error_keeps_fix p code s :
  gpsLocation (errorCallback code s) = gpsLocation s /\
  gpsError (errorCallback code s) <> None /\
  gpsError (successCallback p (errorCallback code s)) = None /\
  gpsLocation (successCallback p s) =
    Some (GpsFix.mk (GeoPosition.coords_latitude p) (GeoPosition.coords_longitude p)
                    (GeoPosition.coords_accuracy p) (GeoPosition.timestamp p)).
Proof. repeat split; discriminate. Qed.





End SessionFacts.

(** ** The session on real numbers *)

Section SessionReal.
Local Open Scope R_scope.

Lemma handle_gps_trace ev (a : App.t R) :
  AllPairs apart (PV.gpsPathCoords (App.pv a)) ->
  AllPairs apart (PV.gpsPathCoords (App.pv (handle ev a))).
Proof.
  intros H. destruct ev; simpl; rewrite ?commit_pv, ?unmount_pv; auto.
  - unfold projectEffect. repeat (break_match; simpl); auto.
  - unfold trackEffect. break_match; simpl; auto using ingest_separated.
Qed.

(** In every state the event loop reaches, the ground-truth trace
    shown on the map keeps every stored point at 0.5 m or more from every
    point stored before it. *)
Theorem session_gps_trace_separated h a i j p q :
  reachable step (mount h) a ->
  (i < j)%nat ->
  nth_error (PV.gpsPathCoords (App.pv a)) i = Some p ->
  nth_error (PV.gpsPathCoords (App.pv a)) j = Some q ->
  nlt (distance p q) (nlit 0.5) = false.
Proof.
  intros Hr Hij Hp Hq. apply distance_ge_R.
  refine (AllPairs_nth apart _ _ i j p q Hij Hp Hq).
  clear Hp Hq. revert a Hr. apply reachable_invariant.
  - unfold mount. destruct (gpsEffectBody _). constructor.
  - intros s s' Hs Hst. destruct Hst. now apply handle_gps_trace.
Qed.

Lemma reach_on : reachable step (mount host0) app_on.
Proof. apply (run_reachable [click_start; Commit]). vm_compute. reflexivity. Qed.

Lemma reach_flagged : reachable step (mount host0) app_flagged.
Proof.
  eapply reachable_step; [apply reach_on|]. constructor. vm_compute. reflexivity.
Qed.

Lemma first_reading_flags (s : State R) :
  CompassFilter.lastValue (compassFilterRef s) = None -> headingRef s = 0 ->
  isCalibrating (handleDeviceOrientation w_plain ev_35 s) = true.
Proof.
  intros Hf Hh.
  assert (E : orientationAngles ev_35 = Some (35, 0, 0)) by reflexivity.
  rewrite (orientation_flag w_plain _ _ _ _ _ E).
  assert (Hp : publishedHeading w_plain ev_35 (compassFilterRef s) 35 0 0 = 35).
  { unfold publishedHeading.
    rewrite platformHeading_other, tiltCompensate_level, lowPass_first by
      (try reflexivity; try assumption; unfold tilted; rewrite Rabs_R0; lra).
    reflexivity. }
  rewrite Hp, Hh. apply orb_true_iff. left. apply interference_R.
  rewrite Rabs_pos_eq; lra.
Qed.

Lemma flagged_isCalibrating : isCalibrating (App.dr app_flagged) = true.
Proof.
  apply first_reading_flags; [reflexivity|].
  transitivity (0 / 1); [reflexivity|lra].
Qed.

End SessionReal.

(** ** Witnesses *)

Section SessionWitnesses.
Local Open Scope R_scope.

Lemma host0_fresh : watches host0 = [].
Proof. reflexivity. Qed.

Lemma reach_tracked : reachable step (mount host0) app_tracked.
Proof.
  eapply reachable_trans; [apply reach_on|].
  apply (run_reachable gps_events). vm_compute. reflexivity.
Qed.

Lemma tracked_trace : PV.gpsPathCoords (App.pv app_tracked) = [p_origin; p_far].
Proof.
  transitivity (ingestAll [p_origin; p_far] (PV.gpsPathCoords (App.pv app_on)));
    [reflexivity|apply ingest_origin_far].
Qed.

Lemma first_reading_timer (s : State R) :
  CompassFilter.lastValue (compassFilterRef s) = None -> headingRef s = 0 ->
  pendingTimers (handleDeviceOrientation w_plain ev_35 s) = S (pendingTimers s).
Proof.
  intros Hf Hh.
  assert (E : orientationAngles ev_35 = Some (35, 0, 0)) by reflexivity.
  rewrite (orientation_timers w_plain _ _ _ _ _ E).
  assert (Hp : publishedHeading w_plain ev_35 (compassFilterRef s) 35 0 0 = 35).
  { unfold publishedHeading.
    rewrite platformHeading_other, tiltCompensate_level, lowPass_first by
      (try reflexivity; try assumption; unfold tilted; rewrite Rabs_R0; lra).
    reflexivity. }
  rewrite Hp, Hh.
  assert (interference 0 35 = true) as ->; [|reflexivity].
  apply interference_R. rewrite Rabs_pos_eq; lra.
Qed.

Lemma unmount_timers (a : App.t R) :
  pendingTimers (App.dr (unmount a)) = pendingTimers (App.dr a).
Proof.
  destruct a as [s h c v m]. unfold unmount, unmountCleanup, gpsEffectCleanup.
  simpl. destruct (watchIdRef s) eqn:E; repeat (simpl; rewrite ?E); reflexivity.
Qed.

Lemma unmounted_timer : enabled (handle Unmount app_flagged) TimerFires = true.
Proof.
  change (enabled (handle Unmount app_flagged) TimerFires)
    with (0 <? pendingTimers (App.dr (unmount app_flagged)))%nat.
  rewrite unmount_timers.
  change (App.dr app_flagged)
    with (handleDeviceOrientation w_plain ev_35 (App.dr app_on)).
  rewrite first_reading_timer; [reflexivity|reflexivity|].
  transitivity (0 / 1); [reflexivity|lra].
Qed.

Lemma unmount_silences_witness : TimerFires (num:=R) = TimerFires.
Proof.
  exact (unmount_silences host0 app_flagged TimerFires host0_fresh reach_flagged
           unmounted_timer).
Defined.

Lemma sensors_only_while_monitoring_witness :
  enabled app_on (DeviceMotion 0 (ev_quiet 0)) =
    enabled app_on (DeviceOrientation w_plain ev_east) /\
  (enabled app_on (DeviceMotion 0 (ev_quiet 0)) = true ->
   isMonitoring (App.dr app_on) = true) /\
  (App.mounted app_on = true ->
   enabled app_on (DeviceMotion 0 (ev_quiet 0)) = isMonitoring (App.dr app_on)).
Proof.
  exact (sensors_only_while_monitoring host0 app_on 0 (ev_quiet 0) w_plain ev_east
           host0_fresh reach_on).
Defined.

Lemma at_most_one_gps_watch_witness :
  watches (App.host app_on) =
    match watchIdRef (App.dr app_on) with Some id => [id] | None => [] end /\
  watching (App.dr app_on) =
    (App.committedMonitoring app_on && geolocation (App.host app_on) &&
     App.mounted app_on).
Proof. exact (at_most_one_gps_watch host0 app_on host0_fresh reach_on). Defined.

Lemma calibrating_flag_has_timer_witness :
  enabled app_flagged TimerFires = true /\
  isCalibrating (App.dr (handle TimerFires app_flagged)) = false.
Proof.
  exact (calibrating_flag_has_timer host0 app_flagged host0_fresh reach_flagged
           flagged_isCalibrating).
Defined.

Lemma path_never_empty_witness :
  path (App.dr app_tracked) <> [] /\ pathRef (App.dr app_tracked) <> [].
Proof. exact (path_never_empty host0 app_tracked host0_fresh reach_tracked). Defined.

Lemma session_gps_trace_separated_witness :
  nlt (distance p_origin p_far) (nlit 0.5) = false.
Proof.
  apply (session_gps_trace_separated host0 app_tracked 0 1 p_origin p_far
           reach_tracked); [lia| |]; rewrite tracked_trace; reflexivity.
Defined.

Lemma restart_seeds_baseline_witness :
  let s1 := startMonitoring NoRequestPermission NoRequestPermission
              (stopMonitoring s_running) in
  estimate s1 = estimate s_running /\ calibration s1 = calibration s_running /\
  estimate (handleDeviceMotion 0 (ev_quiet 2000) s1) = estimate s_running /\
  lastTimestampRef (handleDeviceMotion 0 (ev_quiet 2000) s1) =
    Some (eventTime 0 (ev_quiet 2000)).
Proof.
  exact (restart_seeds_baseline NoRequestPermission NoRequestPermission 0
           (ev_quiet 2000) s_running acc_quiet eq_refl).
Defined.

Lemma gps_effect_second_branch_dead_witness :
  gpsEffect (initialState (num:=R), host0) = gpsEffectCleanup (initialState, host0).
Proof. exact (gps_effect_second_branch_dead initialState host0 eq_refl). Defined.


Lemma path_append_only_witness :
  exists suffix,
    path (App.dr app_on) = path (App.dr (mount host0)) ++ suffix /\
    path_mirrored app_on /\
    (List.length suffix <= List.length [click_start; Commit])%nat.
Proof.
  apply (path_append_only [click_start; Commit] (mount host0) app_on).
  - vm_compute. reflexivity.
  - repeat (apply Forall_cons; [discriminate|]). apply Forall_nil.
  - reflexivity.
Defined.

End SessionWitnesses.
