(* ===== verification/Drift.v ===== *)
(** * Drift: the ranges the estimate stays in

    [handleDeviceMotion] (src/src/components/DRModule.jsx, lines 124-212)
    over a whole session, on reals.  The stationary branch pulls the bias
    toward the raw reading (lines 171-172), the damping pulls the velocity
    toward zero (lines 193-197), and the position advances by the velocity
    times the time step (lines 200-201).  When every raw reading is at most
    [A] in magnitude on each axis, these three facts compose into bounds
    that hold along every sequence of samples, whatever their time stamps:
    the bias stays within [A], each velocity component within [4 A], and
    the position moves by at most [4 A] times the time elapsed between the
    baselines.

    The second part carries the bound on bias and velocity, and the range
    of the heading ([Heading]), to the event loop of [Session]: they are
    invariants of every state the session reaches from the mount, through
    compass events, timers, clicks on the two buttons, GPS callbacks and
    commits, as long as the motion events carry readings within [A] and the
    compass events azimuths in one turn.  The reset writes the published
    velocity and the commit copies velocity and heading to their refs, so
    the invariants bound the published cells and the refs. *)

From Stdlib Require Import List Bool Arith Lia QArith Reals Lra Psatz.
From S2P Require Import Prelude JsNum RealNum DRState Heading Motion Geo Session.
Import ListNotations.
Local Open Scope R_scope.

(** ** Specification vocabulary *)

(** Both raw components of the reading of an event are within [A]. *)
Definition reading_within (A : R) (e : MotionEvent.t R) : Prop :=
  forall acc, MotionEvent.acceleration e = Some acc ->
    Rabs (rawX acc) <= A /\ Rabs (rawY acc) <= A.

Definition readings_within (A : R) (samples : list (R * MotionEvent.t R)) : Prop :=
  Forall (fun pe => reading_within A (snd pe)) samples.

(** The learned bias is within [A] and the velocity within [4 A] on each
    axis. *)
Definition calibrated (A : R) (s : State R) : Prop :=
  (Rabs (Vec2.x (accelBiasRef s)) <= A /\ Rabs (Vec2.y (accelBiasRef s)) <= A) /\
  speed_bounded (4 * A) s.

(** The position [s'] holds is within [d] of the position [s] holds, on
    each axis. *)
Definition moved_within (d : R) (s s' : State R) : Prop :=
  Rabs (Vec2.x (posRef s') - Vec2.x (posRef s)) <= d /\
  Rabs (Vec2.y (posRef s') - Vec2.y (posRef s)) <= d.

(** The cells the bound is about: the bias, and the velocity in the ref
    and as published. *)
Definition kinematics (s : State R) := (accelBiasRef s, velRef s, velocity s).

(** The invariant of the event loop: [calibrated], and the published
    velocity within [4 A] too. *)
Definition steady (A : R) (a : App.t R) : Prop :=
  calibrated A (App.dr a) /\
  Rabs (Vec2.x (velocity (App.dr a))) <= 4 * A /\
  Rabs (Vec2.y (velocity (App.dr a))) <= 4 * A.

(** The cells of the heading: published, mirrored, and the filter. *)
Definition bearing (s : State R) := (heading s, headingRef s, compassFilterRef s).

(** The filter is in order and the heading is in [[0, 360]], as published
    and in the ref the integrator reads. *)
Definition heading_steady (a : App.t R) : Prop :=
  filter_ok (compassFilterRef (App.dr a)) /\
  0 <= heading (App.dr a) <= 360 /\ 0 <= headingRef (App.dr a) <= 360.

(** A compass event whose azimuth enters the filter in one turn, from a
    window that reports no negative rotation. *)
Definition compass_within (w : Window R) (e : OrientationEvent.t R) : Prop :=
  0 <= screenAngle w /\
  forall a b g, orientationAngles e = Some (a, b, g) -> azimuth_ok a b g.

(** A motion event carries a reading within [A], a compass event an azimuth
    in one turn; the other events are not constrained. *)
Definition event_within (A : R) (ev : Event (num := R)) : Prop :=
  match ev with
  | DeviceMotion _ e => reading_within A e
  | DeviceOrientation w e => compass_within w e
  | _ => True
  end.

(** *** Concrete inputs for the examples *)

(** Two pushes of 1 m/s2, 16 ms apart. *)
Definition two_pushes : list (R * MotionEvent.t R) :=
  [(0, ev_push 1016); (0, ev_push 1032)].

(** ** One sample *)

Section DriftFacts.
Implicit Types (s : State R) (e : MotionEvent.t R).

Lemma convex_within A b r : Rabs b <= A -> Rabs r <= A -> Rabs (b * 0.8 + r * 0.2) <= A.
Proof.
  intros Hb Hr. apply Rabs_le.
  pose proof (Rle_abs b). pose proof (Rle_abs (- b)) as Hb'.
  pose proof (Rle_abs r). pose proof (Rle_abs (- r)) as Hr'.
  rewrite Rabs_Ropp in Hb', Hr'. lra.
Qed.

Lemma Rabs_minus_le a b A : Rabs a <= A -> Rabs b <= A -> Rabs (a - b) <= 2 * A.
Proof.
  intros Ha Hb. unfold Rminus.
  eapply Rle_trans; [apply Rabs_triang|]. rewrite Rabs_Ropp. lra.
Qed.

(** The bias stays within the readings. *)
Lemma bias_stays_within A pn e s :
  reading_within A e ->
  Rabs (Vec2.x (accelBiasRef s)) <= A /\ Rabs (Vec2.y (accelBiasRef s)) <= A ->
  Rabs (Vec2.x (accelBiasRef (handleDeviceMotion pn e s))) <= A /\
  Rabs (Vec2.y (accelBiasRef (handleDeviceMotion pn e s))) <= A.
Proof.
  intros Hr [Hx Hy].
  apply handleDeviceMotion_cases; intros;
    try (cbn; autorewrite with dr_simpl; now split).
  destruct (Hr acc H) as [Hrx Hry].
  apply acceptSample_cases; intros Hn.
  - destruct (acceptSample_stationary (eventTime pn e)
      (deltaTimeOf (eventTime pn e) last) acc _ Hn)
      as (_ & _ & _ & _ & _ & _ & -> & _).
    autorewrite with dr_simpl. rewrite learnBias_R. cbn [Vec2.x Vec2.y].
    split; now apply convex_within.
  - destruct (acceptSample_integrated (eventTime pn e)
      (deltaTimeOf (eventTime pn e) last) acc _ Hn)
      as (_ & _ & _ & _ & _ & _ & -> & _).
    autorewrite with dr_simpl. now split.
Qed.

Lemma calibrated_step A pn e s :
  reading_within A e -> calibrated A s -> calibrated A (handleDeviceMotion pn e s).
Proof.
  intros Hr [Hb Hv]. split; [now apply bias_stays_within|].
  apply speed_stays_bounded; [exact Hv|]. intros acc Ha.
  destruct (Hr acc Ha) as [Hrx Hry]. destruct Hb as [Hbx Hby].
  pose proof (Rabs_minus_le _ _ A Hrx Hbx). pose proof (Rabs_minus_le _ _ A Hry Hby).
  lra.
Qed.

(** The baseline only moves forward, and the position moves by at most
    [4 A] times the advance of the baseline. *)
Lemma position_step A pn e s t0 :
  lastTimestampRef s = Some t0 -> reading_within A e -> calibrated A s ->
  exists t1, lastTimestampRef (handleDeviceMotion pn e s) = Some t1 /\ t0 <= t1 /\
    moved_within (4 * A * ((t1 - t0) / 1000)) s (handleDeviceMotion pn e s).
Proof.
  intros Hl Hr Hc. pose proof (calibrated_step A pn e s Hr Hc) as [_ [Hvx Hvy]].
  assert (HA : 0 <= A) by (destruct Hc as [[Hb _] _]; pose proof (Rabs_pos (Vec2.x (accelBiasRef s))); lra).
  assert (Hsame : forall s', lastTimestampRef s' = Some t0 -> posRef s' = posRef s ->
            exists t1, lastTimestampRef s' = Some t1 /\ t0 <= t1 /\
              moved_within (4 * A * ((t1 - t0) / 1000)) s s').
  { intros s' H1 H2. exists t0. split; [exact H1|split; [lra|]].
    unfold moved_within. rewrite H2, !Rminus_diag, Rabs_R0. lra. }
  revert Hvx Hvy. apply handleDeviceMotion_cases; intros.
  - apply Hsame; autorewrite with dr_simpl; auto.
  - congruence.
  - apply Hsame; autorewrite with dr_simpl; auto.
  - assert (last = t0) by congruence. subst last.
    apply rejectDelta_false_R in H1. exists (eventTime pn e).
    revert Hvx Hvy. apply acceptSample_cases; intros Hn Hvx Hvy.
    + destruct (acceptSample_stationary (eventTime pn e)
        (deltaTimeOf (eventTime pn e) t0) acc _ Hn)
        as (_ & _ & Hp & _ & _ & _ & _ & _ & Hl' & _).
      split; [exact Hl'|split; [lra|]]. unfold moved_within.
      rewrite Hp. autorewrite with dr_simpl. rewrite !Rminus_diag, Rabs_R0. nra.
    + destruct (acceptSample_integrated (eventTime pn e)
        (deltaTimeOf (eventTime pn e) t0) acc _ Hn)
        as (Hv & _ & Hp & _ & _ & _ & _ & _ & Hl' & _).
      split; [exact Hl'|split; [lra|]]. unfold moved_within.
      rewrite Hp. rewrite Hv in Hvx, Hvy. autorewrite with dr_simpl in *.
      unfold integratePosition. rewrite deltaTimeOf_R in *. js_real. cbn [Vec2.x Vec2.y].
      set (v := integrateVelocity _ _ _) in *.
      assert (Hdt : 0 <= (eventTime pn e - t0) / 1000) by lra.
      split.
      * replace (Vec2.x (posRef s) + Vec2.x v * ((eventTime pn e - t0) / 1000) - Vec2.x (posRef s))
          with (Vec2.x v * ((eventTime pn e - t0) / 1000)) by ring.
        rewrite Rabs_mult, (Rabs_pos_eq _ Hdt). nra.
      * replace (Vec2.y (posRef s) + Vec2.y v * ((eventTime pn e - t0) / 1000) - Vec2.y (posRef s))
          with (Vec2.y v * ((eventTime pn e - t0) / 1000)) by ring.
        rewrite Rabs_mult, (Rabs_pos_eq _ Hdt). nra.
Qed.

Lemma moved_within_trans d1 d2 s1 s2 s3 :
  moved_within d1 s1 s2 -> moved_within d2 s2 s3 -> moved_within (d1 + d2) s1 s3.
Proof.
  intros [Hx Hy] [Hx' Hy']. unfold moved_within.
  replace (Vec2.x (posRef s3) - Vec2.x (posRef s1))
    with ((Vec2.x (posRef s3) - Vec2.x (posRef s2)) + (Vec2.x (posRef s2) - Vec2.x (posRef s1))) by ring.
  replace (Vec2.y (posRef s3) - Vec2.y (posRef s1))
    with ((Vec2.y (posRef s3) - Vec2.y (posRef s2)) + (Vec2.y (posRef s2) - Vec2.y (posRef s1))) by ring.
  split; (eapply Rle_trans; [apply Rabs_triang|lra]).
Qed.

(** ** A session *)

(** Claim C8. Bounded drift: when every raw reading is within [A] on each axis, then
    along any sequence of samples, whatever their time stamps, the bias
    stays within [A] and the velocity within [4 A] on each axis, the
    baseline only moves forward, and the position moves by at most [4 A]
    times the time between the first and the last baseline: the estimate
    never travels faster than [4 A]. *)
Theorem displacement_bounded A samples : forall s t0,
  lastTimestampRef s = Some t0 -> calibrated A s -> readings_within A samples ->
  exists t1, lastTimestampRef (feed samples s) = Some t1 /\ t0 <= t1 /\
    calibrated A (feed samples s) /\
    moved_within (4 * A * ((t1 - t0) / 1000)) s (feed samples s).
Proof.
  induction samples as [|[pn e] rest IH]; intros s t0 Hl Hc Hr.
  - exists t0. cbn. split; [exact Hl|split; [lra|split; [exact Hc|]]].
    unfold moved_within. rewrite !Rminus_diag, Rabs_R0.
    destruct Hc as [[Hb _] _]. pose proof (Rabs_pos (Vec2.x (accelBiasRef s))). lra.
  - inversion Hr as [|? ? He Hrest]; subst. cbn [snd feed] in *.
    destruct (position_step A pn e s t0 Hl He Hc) as (t1 & Hl1 & Ht1 & Hm1).
    destruct (IH _ t1 Hl1 (calibrated_step A pn e s He Hc) Hrest)
      as (t2 & Hl2 & Ht2 & Hc2 & Hm2).
    exists t2. split; [exact Hl2|split; [lra|split; [exact Hc2|]]].
    replace (4 * A * ((t2 - t0) / 1000))
      with (4 * A * ((t1 - t0) / 1000) + 4 * A * ((t2 - t1) / 1000)) by lra.
    eapply moved_within_trans; eassumption.
Qed.

End DriftFacts.

(** ** The event loop *)

Section DriftSession.
Implicit Types (s : State R) (a : App.t R).

Lemma steady_kinematics A a a' :
  kinematics (App.dr a') = kinematics (App.dr a) -> steady A a -> steady A a'.
Proof.
  unfold kinematics, steady, calibrated, speed_bounded.
  intros H. inv H. now repeat match goal with H : _ = _ |- _ => rewrite H end.
Qed.

(** The callback publishes the velocity it stores, or leaves the published
    one alone. *)
Lemma motion_publishes pn e s :
  velocity (handleDeviceMotion pn e s) = velocity s \/
  velocity (handleDeviceMotion pn e s) = velRef (handleDeviceMotion pn e s).
Proof.
  apply handleDeviceMotion_cases; intros;
    try (left; cbn; now autorewrite with dr_simpl).
  right. apply acceptSample_cases; intros Hn.
  - destruct (acceptSample_stationary (eventTime pn e)
      (deltaTimeOf (eventTime pn e) last) acc _ Hn) as (-> & -> & _).
    reflexivity.
  - destruct (acceptSample_integrated (eventTime pn e)
      (deltaTimeOf (eventTime pn e) last) acc _ Hn) as (-> & -> & _).
    reflexivity.
Qed.

Lemma steady_motion A pn e a :
  reading_within A e -> steady A a -> steady A (withDr (handleDeviceMotion pn e) a).
Proof.
  intros Hr (Hc & Hx & Hy).
  pose proof (calibrated_step A pn e (App.dr a) Hr Hc) as Hc'.
  split; [exact Hc'|]. cbn [App.dr withDr].
  destruct (motion_publishes pn e (App.dr a)) as [->| ->]; [now split|].
  exact (proj2 Hc').
Qed.

Lemma steady_reset A a : steady A a -> steady A (withDr clearPath a).
Proof.
  intros (Hc & Hx & Hy). unfold steady, calibrated, speed_bounded in *.
  cbn. js_real. rewrite Rabs_R0.
  assert (0 <= A) by (pose proof (Rabs_pos (Vec2.x (accelBiasRef (App.dr a)))); lra).
  repeat split; try tauto; lra.
Qed.

Lemma steady_commit A a : steady A a -> steady A (commit a).
Proof.
  intros (((Hbx & Hby) & _) & Hx & Hy).
  destruct (commit_dr a) as (id & E).
  unfold steady, calibrated, speed_bounded. rewrite E.
  destruct (App.dr a); cbn in *. tauto.
Qed.

Lemma steady_handle A ev a : event_within A ev -> steady A a -> steady A (handle ev a).
Proof.
  intros Hev H. destruct ev; cbn [handle event_within] in *;
    try (now apply steady_motion); try (now apply steady_reset);
    try (now apply steady_commit);
    apply (steady_kinematics A a); auto; unfold kinematics;
    cbn [App.dr withDr withPv]; try reflexivity.
  - now destruct (orientation_frame w e (App.dr a))
      as (_ & -> & _ & _ & -> & _ & _ & _ & _ & ->).
  - unfold toggleMonitoring, startMonitoring, stopMonitoring, requestAndListen.
    repeat break_match; reflexivity.
  - unfold unmount, gpsEffectCleanup, unmountCleanup.
    destruct a as [s h c pv m]. destruct s; cbn.
    destruct watchIdRef; reflexivity.
Qed.

(** *** The heading *)
Lemma heading_steady_bearing a a' :
  bearing (App.dr a') = bearing (App.dr a) -> heading_steady a -> heading_steady a'.
Proof.
  unfold bearing, heading_steady. intros H. inv H.
  now repeat match goal with H : _ = _ |- _ => rewrite H end.
Qed.

Lemma heading_steady_orientation w e a :
  compass_within w e -> heading_steady a ->
  heading_steady (withDr (handleDeviceOrientation w e) a).
Proof.
  intros [Hw Ha] (Hf & Hh & Hr). unfold heading_steady. cbn [App.dr withDr].
  destruct (orientation_frame w e (App.dr a)) as (-> & _).
  destruct (orientationAngles e) as [[[al b] g]|] eqn:E.
  - rewrite (orientation_heading w e _ al b g E), (orientation_filter w e _ al b g E).
    destruct (lowPass_preserves_turn _ _ Hf (tiltCompensate_ok _ _ _ (Ha _ _ _ eq_refl)))
      as [Hf' Hc].
    split; [exact Hf'|]. split; [|exact Hr].
    now apply platformHeading_range.
  - rewrite handleDeviceOrientation_invalid by assumption. auto.
Qed.

Lemma heading_steady_commit a : heading_steady a -> heading_steady (commit a).
Proof.
  intros (Hf & Hh & _). destruct (commit_dr a) as (id & E).
  unfold heading_steady. rewrite E. destruct (App.dr a); cbn in *. tauto.
Qed.

Lemma heading_steady_handle A ev a :
  event_within A ev -> heading_steady a -> heading_steady (handle ev a).
Proof.
  intros Hev H. destruct ev; cbn [handle event_within] in *;
    try (now apply heading_steady_orientation);
    try (now apply heading_steady_commit);
    apply (heading_steady_bearing a); auto; unfold bearing;
    cbn [App.dr withDr withPv]; try reflexivity.
  - pose proof (motion_frame performanceNow e (App.dr a)) as E.
    unfold compass in E. now inv E.
  - unfold toggleMonitoring, startMonitoring, stopMonitoring, requestAndListen.
    repeat break_match; reflexivity.
  - unfold unmount, gpsEffectCleanup, unmountCleanup.
    destruct a as [s h c pv m]. destruct s; cbn.
    destruct watchIdRef; reflexivity.
Qed.

Lemma heading_steady_mount h : heading_steady (mount h).
Proof.
  unfold mount, gpsEffectBody, heading_steady, filter_ok.
  cbn. js_real. destruct (geolocation h); cbn; lra.
Qed.

(** *** The session *)
Lemma steady_mount A h : 0 <= A -> steady A (mount h).
Proof.
  intros HA. unfold mount, gpsEffectBody, steady, calibrated, speed_bounded.
  cbn. js_real. rewrite Rabs_R0. destruct (geolocation h); cbn; lra.
Qed.

(** Claim C11. The ranges are invariants of the session: in every state the event
    loop reaches from the mount by events whose motion readings are within
    [A] on each axis and whose compass azimuths are in one turn, the
    learned bias is within [A] and the velocity, in the ref and as
    published, within [4 A]; the filter holds a value in one turn, and the
    heading, as published and in the ref the integrator reads, is in
    [[0, 360]]; through every reset, commit, stop and restart. *)
Theorem session_estimate_bounded A evs : forall h a,
  0 <= A -> Forall (event_within A) evs ->
  run evs (mount h) = Some a -> steady A a /\ heading_steady a.
Proof.
  intros h a HA Hev.
  generalize (conj (steady_mount A h HA) (heading_steady_mount h)).
  generalize (mount (num := R) h).
  induction Hev as [|ev evs Hev _ IH]; intros a0 H0 Hrun; cbn in Hrun.
  - now inv Hrun.
  - destruct (enabled a0 ev); [|discriminate]. destruct H0 as [Hs Hh].
    apply (IH (handle ev a0)); [split|exact Hrun].
    + now apply steady_handle.
    + now apply (heading_steady_handle A).
Qed.

End DriftSession.

(** ** Witnesses *)

Section DriftWitnesses.

Lemma running_calibrated : calibrated 1 s_running.
Proof.
  unfold calibrated, speed_bounded. simpl. js_real. rewrite Rabs_R0. lra.
Qed.

Lemma push_within t : reading_within 1 (ev_push t).
Proof.
  intros acc H. inversion H; subst acc. unfold acc_push.
  destruct (raw_R 1 0 JNull) as [-> ->]. rewrite Rabs_R0, Rabs_pos_eq; lra.
Qed.

Lemma displacement_bounded_witness :
  exists t1, lastTimestampRef (feed two_pushes s_running) = Some t1 /\ 1000 <= t1 /\
    calibrated 1 (feed two_pushes s_running) /\
    moved_within (4 * 1 * ((t1 - 1000) / 1000)) s_running (feed two_pushes s_running).
Proof.
  apply (displacement_bounded 1 two_pushes s_running 1000 eq_refl running_calibrated).
  repeat (apply Forall_cons; [apply push_within|]). apply Forall_nil.
Defined.

Lemma east_within : compass_within w_portrait ev_east.
Proof.
  split.
  - unfold screenAngle, w_portrait. simpl. rewrite num_or_zero_R. lra.
  - intros a b g H. inv H. right. unfold in_turn. lra.
Qed.

Lemma pushed_run :
  run [click_start; Commit; DeviceMotion 0 (ev_push 1016)] (mount host0) =
  Some (handle (DeviceMotion 0 (ev_push 1016)) app_on).
Proof. vm_compute. reflexivity. Qed.

Lemma pushed_listens :
  enabled (handle (DeviceMotion 0 (ev_push 1016)) app_on)
          (DeviceOrientation w_portrait ev_east) = true.
Proof. vm_compute. reflexivity. Qed.

Lemma session_estimate_bounded_witness :
  let a := handle (DeviceOrientation w_portrait ev_east)
             (handle (DeviceMotion 0 (ev_push 1016)) app_on) in
  steady 1 a /\ heading_steady a.
Proof.
  apply (session_estimate_bounded 1
           ([click_start; Commit; DeviceMotion 0 (ev_push 1016)] ++
            [DeviceOrientation w_portrait ev_east]) host0); [lra| |].
  - repeat (apply Forall_cons;
            [first [exact I|apply push_within|exact east_within]|]).
    apply Forall_nil.
  - rewrite run_app, pushed_run. cbn [run]. now rewrite pushed_listens.
Defined.

End DriftWitnesses.
