(* ===== verification/Refine.v ===== *)
(** * Refine: the estimator as one owned state, and the refinement

    [DRModule] spreads the estimator over React state, the refs that mirror
    it and the state of [PathVisualizer], and keeps them together with
    effects that run at a commit.  The design the code implements is
    simpler: one state per component, changed by one operation per input.

    Module [Nav] is that design: [Nav.t] holds a heading state, a motion
    state, the path, the anchor fix with the two traces, the calibrating
    signal with its deadlines, and the session flags; [Nav.step] is one
    operation per input, written with the same stage functions as the code
    ([tiltCompensate], [lowPass], [integrateVelocity], [projectPath],
    [ingestGroundTruth], ...) but with no ref, no mirror and no effect.

    The refinement is stated for the schedule in which React commits after
    every event, before the next event is delivered ([turn]: the handler,
    the effects of [PathVisualizer] whose dependencies the handler changed,
    in the order they are declared, and then the commit of [DRModule]).
    [abs] reads the abstract state off the application state; [settled] is
    the invariant of the states between turns.  The theorems show that
    every turn is a path of the event loop, that it keeps [settled], that
    [abs] commutes with it (the code run with prompt commits is the machine
    [Nav]), and that the state a turn ends in is a fixed point of the
    effects ([quiescent]).  Without prompt commits the code and the machine
    differ: between two commits the two sensor callbacks commute, so the
    integrator cannot see a heading the compass callback has published.
    [schedule] lays a list of events out with their effects after each, so
    that a client with more events than the machine has inputs ([Async])
    can use the simulation; the internal events are idempotent. *)

From Stdlib Require Import List Bool Arith Lia QArith String Reals Lra.
From S2P Require Import Prelude JsNum RealNum DRState Heading Motion Geo Session.
Import ListNotations.

(** ** The abstract machine *)

Module Nav.

(** The heading estimator: the published heading and the filter. *)
Record HeadingState (num : Type) : Type := mkHeading {
  filteredHeading : num;
  lastRawValue : option num;
  filterCoefficient : num
}.
Arguments mkHeading {num} filteredHeading lastRawValue filterCoefficient.
Arguments filteredHeading {num} h.
Arguments lastRawValue {num} h.
Arguments filterCoefficient {num} h.

(** The motion integrator. *)
Record MotionState (num : Type) : Type := mkMotion {
  velocity : Vec2.t num;
  position : Vec2.t num;
  accelerationBias : Vec2.t num;
  stationarySampleCount : nat;
  lastSampleTimestamp : option num
}.
Arguments mkMotion {num} velocity position accelerationBias
  stationarySampleCount lastSampleTimestamp.
Arguments velocity {num} m.
Arguments position {num} m.
Arguments accelerationBias {num} m.
Arguments stationarySampleCount {num} m.
Arguments lastSampleTimestamp {num} m.

(** The whole estimator. *)
Record t (num : Type) : Type := mk {
  headingState : HeadingState num;
  motionState : MotionState num;
  path : list (Vec2.t num);
  anchor : option (GpsFix.t num);
  projectedTrace : list (LatLng num);
  groundTruthTrace : list (LatLng num);
  calibrating : bool;
  deadlines : nat;
  subscribed : bool;
  receiver : bool;
  sessionError : option string;
  fixError : option string
}.
Arguments mk {num}.
Arguments headingState {num} t.
Arguments motionState {num} t.
Arguments path {num} t.
Arguments anchor {num} t.
Arguments projectedTrace {num} t.
Arguments groundTruthTrace {num} t.
Arguments calibrating {num} t.
Arguments deadlines {num} t.
Arguments subscribed {num} t.
Arguments receiver {num} t.
Arguments sessionError {num} t.
Arguments fixError {num} t.

(** The inputs of the machine. *)
Inductive Input (num : Type) : Type :=
| Orientation (w : Window num) (e : OrientationEvent.t num)
| Motion (performanceNow : num) (e : MotionEvent.t num)
| Expire
| Toggle (motionApi orientationApi : PermissionAPI)
| Reset
| Fix (position : GeoPosition.t num)
| FixError (code : nat).
Arguments Orientation {num} w e.
Arguments Motion {num} performanceNow e.
Arguments Expire {num}.
Arguments Toggle {num} motionApi orientationApi.
Arguments Reset {num}.
Arguments Fix {num} position.
Arguments FixError {num} code.

Section Ops.
Context {num : Type} {N : JsNumber num} {M : JsMath num}.
Implicit Types (n : t num) (m : MotionState num) (h : HeadingState num).

(** A fresh estimator on a host with or without a position receiver. *)
Definition initial (receiver : bool) : t num :=
  mk (mkHeading (nlit 0) None (nlit 0.2))
     (mkMotion Vec2.zero Vec2.zero Vec2.zero 0 None)
     [Vec2.zero] None [] [] false 0 false receiver None None.

Definition with_heading h (jump : bool) n : t num :=
  mk h (motionState n) (path n) (anchor n) (projectedTrace n)
     (groundTruthTrace n) (if jump then true else calibrating n)
     (if jump then S (deadlines n) else deadlines n)
     (subscribed n) (receiver n) (sessionError n) (fixError n).

Definition with_motion m (path' : list (Vec2.t num)) n : t num :=
  mk (headingState n) m path' (anchor n) (projectPath path' (anchor n))
     (groundTruthTrace n) (calibrating n) (deadlines n)
     (subscribed n) (receiver n) (sessionError n) (fixError n).

Definition with_session (on : bool) (err : option string) n : t num :=
  let m := motionState n in
  mk (headingState n)
     (mkMotion (velocity m) (position m) (accelerationBias m)
               (stationarySampleCount m) None)
     (path n) (anchor n) (projectedTrace n) (groundTruthTrace n)
     (calibrating n) (deadlines n) on (receiver n) err (fixError n).

(** An orientation sample: a malformed one is dropped; otherwise the
    azimuth is compensated, filtered and corrected, and a jump of the
    result against the heading held raises the calibrating signal. *)
Definition updateHeading (w : Window num) (e : OrientationEvent.t num) n : t num :=
  match orientationAngles e with
  | None => n
  | Some (alpha, beta, gamma) =>
      let h := headingState n in
      let (f, filtered) :=
        lowPass (CompassFilter.mk (lastRawValue h) (filterCoefficient h))
                (tiltCompensate alpha beta gamma) in
      let new := platformHeading w e filtered in
      with_heading
        (mkHeading new (CompassFilter.lastValue f) (CompassFilter.alpha f))
        (interference (filteredHeading h) new) n
  end.

(** An accepted motion sample: the stationary hold or the integration.  The
    second component is the point to append to the path. *)
Definition advance (heading : num) (acc : Vec3.t (jsval num)) (now dt : num) m
  : MotionState num * option (Vec2.t num) :=
  let count :=
    countStationary (stationarySampleCount m) (mhypot (rawX acc) (rawY acc)) in
  if (stationarySamplesRequired <=? count)%nat then
    (mkMotion Vec2.zero (position m)
              (learnBias (accelerationBias m) (rawX acc) (rawY acc))
              count (Some now), None)
  else
    let v := integrateVelocity (velocity m)
               (worldAcceleration (accelerationBias m) heading
                                  (rawX acc) (rawY acc)) dt in
    let p := integratePosition (position m) v dt in
    (mkMotion v p (accelerationBias m) count (Some now), Some p).

(** A motion sample: nothing without an acceleration, the baseline on the
    first sample, nothing on a rejected time step. *)
Definition updateMotionState (heading performanceNow : num)
  (e : MotionEvent.t num) m : MotionState num * option (Vec2.t num) :=
  match MotionEvent.acceleration e with
  | None => (m, None)
  | Some acc =>
      let now := eventTime performanceNow e in
      match lastSampleTimestamp m with
      | None =>
          (mkMotion (velocity m) (position m) (accelerationBias m)
                    (stationarySampleCount m) (Some now), None)
      | Some last =>
          let dt := deltaTimeOf now last in
          if rejectDelta dt then (m, None) else advance heading acc now dt m
      end
  end.

Definition updateMotion (performanceNow : num) (e : MotionEvent.t num) n : t num :=
  let (m, p) :=
    updateMotionState (filteredHeading (headingState n)) performanceNow e
                      (motionState n) in
  with_motion m (match p with Some p => path n ++ [p] | None => path n end) n.

(** The reset: velocity, position and path; not the calibration. *)
Definition reset n : t num :=
  let m := motionState n in
  with_motion (mkMotion Vec2.zero Vec2.zero (accelerationBias m)
                        (stationarySampleCount m) None)
              [Vec2.zero] n.

(** A deadline of the calibrating signal passes. *)
Definition expire n : t num :=
  mk (headingState n) (motionState n) (path n) (anchor n) (projectedTrace n)
     (groundTruthTrace n) false (pred (deadlines n))
     (subscribed n) (receiver n) (sessionError n) (fixError n).

(** The answer of the two permission requests: an error message, or none. *)
Definition requestOutcome (motionApi orientationApi : PermissionAPI)
  : option string :=
  match motionApi, orientationApi with
  | Rejects message, _ | _, Rejects message =>
      Some ("Error starting sensor monitoring: " ++ message)%string
  | _, _ =>
      if grants motionApi && grants orientationApi then None
      else Some "Permission to access one or more sensors was denied."%string
  end.

(** Start or stop: both clear the time baseline. *)
Definition toggle (motionApi orientationApi : PermissionAPI) n : t num :=
  if subscribed n then with_session false (sessionError n) n
  else
    match requestOutcome motionApi orientationApi with
    | None => with_session true None n
    | Some message => with_session false (Some message) n
    end.

(** A fix: it becomes the anchor, enters the ground-truth trace unless a
    stored point suppresses it, and the path is projected again. *)
Definition fixArrives (position : GeoPosition.t num) n : t num :=
  let g := GpsFix.mk (GeoPosition.coords_latitude position)
                       (GeoPosition.coords_longitude position)
                       (GeoPosition.coords_accuracy position)
                       (GeoPosition.timestamp position) in
  mk (headingState n) (motionState n) (path n) (Some g)
     (projectPath (path n) (Some g))
     (ingestGroundTruth (GpsFix.latitude g, GpsFix.longitude g)
                        (groundTruthTrace n))
     (calibrating n) (deadlines n) (subscribed n) (receiver n)
     (sessionError n) None.

Definition fixFails (code : nat) n : t num :=
  mk (headingState n) (motionState n) (path n) (anchor n) (projectedTrace n)
     (groundTruthTrace n) (calibrating n) (deadlines n) (subscribed n)
     (receiver n) (sessionError n) (Some (gpsErrorMessage code)).

(** Which inputs the machine accepts. *)
Definition accepts n (i : Input num) : bool :=
  match i with
  | Orientation _ _ | Motion _ _ => subscribed n
  | Expire => (0 <? deadlines n)%nat
  | Toggle _ _ | Reset => true
  | Fix _ | FixError _ => subscribed n && receiver n
  end.

Definition step (i : Input num) n : t num :=
  match i with
  | Orientation w e => updateHeading w e n
  | Motion performanceNow e => updateMotion performanceNow e n
  | Expire => expire n
  | Toggle motionApi orientationApi => toggle motionApi orientationApi n
  | Reset => reset n
  | Fix position => fixArrives position n
  | FixError code => fixFails code n
  end.

Fixpoint run (inputs : list (Input num)) n : option (t num) :=
  match inputs with
  | [] => Some n
  | i :: rest => if accepts n i then run rest (step i n) else None
  end.

End Ops.
End Nav.

(** ** The abstraction and the schedule *)

Section Abstraction.
Context {num : Type} {N : JsNumber num} {M : JsMath num}.

(** The abstract state of a component state, the state of [PathVisualizer]
    and the host's receiver. *)
Definition absOf (s : State num) (pv : PV.State num) (receiver : bool)
  : Nav.t num :=
  Nav.mk
    (Nav.mkHeading (heading s) (CompassFilter.lastValue (compassFilterRef s))
                   (CompassFilter.alpha (compassFilterRef s)))
    (Nav.mkMotion (velRef s) (posRef s) (accelBiasRef s)
                  (stationaryCountRef s) (lastTimestampRef s))
    (pathRef s) (gpsLocation s) (PV.drPathCoords pv) (PV.gpsPathCoords pv)
    (isCalibrating s) (pendingTimers s) (isMonitoring s) receiver
    (error s) (gpsError s).

Definition abs (a : App.t num) : Nav.t num :=
  absOf (App.dr a) (App.pv a) (geolocation (App.host a)).

(** The input an event of the browser is, when it is one. *)
Definition absEvent (ev : Event) : option (Nav.Input num) :=
  match ev with
  | DeviceOrientation w e => Some (Nav.Orientation w e)
  | DeviceMotion performanceNow e => Some (Nav.Motion performanceNow e)
  | TimerFires => Some Nav.Expire
  | ClickToggle motionApi orientationApi =>
      Some (Nav.Toggle motionApi orientationApi)
  | ClickReset => Some Nav.Reset
  | GpsSuccess _ position => Some (Nav.Fix position)
  | GpsFailure _ code => Some (Nav.FixError code)
  | Commit | ProjectEffect | TrackEffect | Unmount => None
  end.

(** What React runs after the handler of an event: the effects of
    [PathVisualizer] whose dependencies the handler may have changed
    ([path] for a motion sample and a reset, line 80; [gpsLocation] for a
    fix, lines 80 and 109), in the order of their declaration, and then the
    effects of [DRModule]: the effects of a child run before those of its
    parent. *)
Definition effectsAfter (ev : Event (num:=num)) : list (Event (num:=num)) :=
  match ev with
  | GpsSuccess _ _ => [ProjectEffect; TrackEffect; Commit]
  | DeviceMotion _ _ | ClickReset => [ProjectEffect; Commit]
  | _ => [Commit]
  end.

(** The handler a browser event runs on the component state; [rendered] is
    the value of [isMonitoring] the last render saw. *)
Definition handlerOf (rendered : bool) (ev : Event) : State num -> State num :=
  match ev with
  | DeviceOrientation w e => handleDeviceOrientation w e
  | DeviceMotion performanceNow e => handleDeviceMotion performanceNow e
  | TimerFires => calibrationTimeout
  | ClickToggle motionApi orientationApi =>
      toggleMonitoring rendered motionApi orientationApi
  | ClickReset => clearPath
  | GpsSuccess _ position => successCallback position
  | GpsFailure _ code => errorCallback code
  | Commit | ProjectEffect | TrackEffect | Unmount => fun s => s
  end.

(** What the effects of a turn make of the state of [PathVisualizer], given
    the component state the handler left. *)
Definition pvAfter (ev : Event (num:=num)) (s : State num)
  (pv : PV.State num) : PV.State num :=
  match ev with
  | GpsSuccess _ _ =>
      trackEffect (gpsLocation s) (projectEffect (path s) (gpsLocation s) pv)
  | DeviceMotion _ _ | ClickReset => projectEffect (path s) (gpsLocation s) pv
  | _ => pv
  end.

(** One turn of the event loop with a prompt commit. *)
Definition turn (ev : Event) (a : App.t num) : App.t num :=
  fold_left (fun a e => handle e a) (effectsAfter ev) (handle ev a).

(** The events of a sequence of turns, as the event loop sees them. *)
Definition schedule (evs : list Event) : list Event :=
  flat_map (fun ev => ev :: effectsAfter ev) evs.

(** Running a list of events with a prompt commit after each. *)
Fixpoint runTurns (evs : list Event) (a : App.t num) : option (App.t num) :=
  match evs with
  | [] => Some a
  | ev :: rest => if enabled a ev then runTurns rest (turn ev a) else None
  end.

(** The states between turns: mounted, every ref mirrors its state, the GPS
    effect has seen the current [isMonitoring], the projected trace is the
    projection of the current path, and the invariant of the event loop
    holds. *)
Definition settled (a : App.t num) : Prop :=
  App.mounted a = true /\
  refs_mirror (App.dr a) /\
  App.committedMonitoring a = isMonitoring (App.dr a) /\
  PV.drPathCoords (App.pv a) =
    projectPath (path (App.dr a)) (gpsLocation (App.dr a)) /\
  session_ok a.

(** Nothing is left to run: the render that follows would find the
    dependencies of the GPS effect unchanged and the mirrors exact, and a
    further pass of the projection effect, which lists among its
    dependencies the [initialCenter] it writes itself (line 80), would
    write the values the state of [PathVisualizer] already holds. *)
Definition quiescent (a : App.t num) : Prop :=
  handle Commit a = a /\ handle ProjectEffect a = a.

(** ** Specification vocabulary *)

(** What the machine keeps true: the path is never empty and ends at the
    position, the projected trace is the projection of the path around the
    anchor, and a raised calibrating signal has a deadline. *)
Definition nav_ok (n : Nav.t num) : Prop :=
  Nav.path n <> [] /\
  last (Nav.path n) Vec2.zero = Nav.position (Nav.motionState n) /\
  Nav.projectedTrace n = projectPath (Nav.path n) (Nav.anchor n) /\
  (Nav.calibrating n = true -> (0 < Nav.deadlines n)%nat).

End Abstraction.

(** ** Refinement *)

Section RefineFacts.
Context {num : Type} {N : JsNumber num} {M : JsMath num}.
Implicit Types (s : State num) (a : App.t num) (pv : PV.State num) (g : bool).

(** *** The turn, component by component *)
Lemma handle_external ev a i :
  absEvent ev = Some i ->
  handle ev a = withDr (handlerOf (App.committedMonitoring a) ev) a.
Proof. destruct ev; simpl; intros H; try discriminate; reflexivity. Qed.

Lemma commit_host a : geolocation (App.host (commit a)) = geolocation (App.host a).
Proof.
  unfold commit. destruct (Bool.eqb _ _); [reflexivity|].
  unfold gpsEffect, gpsEffectCleanup, gpsEffectBody. destruct (App.dr a); simpl.
  destruct watchIdRef; simpl; destruct isMonitoring; simpl;
    destruct (geolocation (App.host a)) eqn:E; simpl; auto.
Qed.

Lemma commit_committed a :
  App.committedMonitoring (commit a) = isMonitoring (App.dr (commit a)) /\
  App.mounted (commit a) = App.mounted a.
Proof.
  unfold commit. destruct (Bool.eqb _ _); [split; reflexivity|].
  destruct (gpsEffect _); split; reflexivity.
Qed.

Lemma projectEffect_coords p gl pv :
  PV.drPathCoords (projectEffect p gl pv) = projectPath p gl /\
  PV.gpsPathCoords (projectEffect p gl pv) = PV.gpsPathCoords pv.
Proof.
  unfold projectEffect. destruct gl; simpl; auto.
  destruct (_ <? _)%nat; simpl; auto.
  destruct (PV.initialCenter pv); simpl; auto.
  destruct (map _ _); simpl; auto.
Qed.

Lemma withPv_proj (f : PV.State num -> PV.State num) a :
  App.dr (withPv f a) = App.dr a /\ App.pv (withPv f a) = f (App.pv a) /\
  App.host (withPv f a) = App.host a /\
  App.committedMonitoring (withPv f a) = App.committedMonitoring a /\
  App.mounted (withPv f a) = App.mounted a.
Proof. repeat split. Qed.

Lemma withDr_proj (f : State num -> State num) a :
  App.dr (withDr f a) = f (App.dr a) /\ App.pv (withDr f a) = App.pv a /\
  App.host (withDr f a) = App.host a /\
  App.committedMonitoring (withDr f a) = App.committedMonitoring a /\
  App.mounted (withDr f a) = App.mounted a.
Proof. repeat split. Qed.

Lemma commit_proj a :
  exists id,
    App.dr (commit a) = set_watchIdRef id (syncRefs (App.dr a)) /\
    App.pv (commit a) = App.pv a /\
    geolocation (App.host (commit a)) = geolocation (App.host a) /\
    App.committedMonitoring (commit a) = isMonitoring (syncRefs (App.dr a)) /\
    App.mounted (commit a) = App.mounted a.
Proof.
  destruct (commit_dr a) as (id & Ed). exists id.
  destruct (commit_committed a) as [Ec Em]. rewrite Ec, Ed.
  auto using commit_pv, commit_host.
Qed.

Lemma trackEffect_coords gl pv :
  PV.drPathCoords (trackEffect gl pv) = PV.drPathCoords pv /\
  PV.gpsPathCoords (trackEffect gl pv) =
    match gl with
    | Some g =>
        ingestGroundTruth (GpsFix.latitude g, GpsFix.longitude g)
                          (PV.gpsPathCoords pv)
    | None => PV.gpsPathCoords pv
    end.
Proof. destruct gl; split; reflexivity. Qed.

Lemma turn_eq ev a i :
  absEvent ev = Some i ->
  let s' := handlerOf (App.committedMonitoring a) ev (App.dr a) in
  exists id,
    App.dr (turn ev a) = set_watchIdRef id (syncRefs s') /\
    App.pv (turn ev a) = pvAfter ev s' (App.pv a) /\
    geolocation (App.host (turn ev a)) = geolocation (App.host a) /\
    App.committedMonitoring (turn ev a) = isMonitoring (App.dr (turn ev a)) /\
    App.mounted (turn ev a) = App.mounted a.
Proof.
  intros Hi s'. unfold turn. rewrite (handle_external ev a i Hi). fold s'.
  destruct ev; try discriminate;
    cbv beta iota delta [effectsAfter fold_left pvAfter];
    change (handle Commit ?x) with (commit x);
    try change (handle TrackEffect ?x)
      with (withPv (trackEffect (gpsLocation (App.dr x))) x);
    try change (handle ProjectEffect ?x)
      with (withPv (projectEffect (path (App.dr x)) (gpsLocation (App.dr x))) x).
  all: match goal with
       | |- context [commit ?x] =>
           destruct (commit_proj x) as (wid & Ed & Ep & Eh & Ec & Em)
       end; exists wid; rewrite Ed, Ep, Eh, Ec, Em.
  all: split_all; reflexivity.
Qed.

(** *** Each handler against the operation of the machine *)

(** Destruct the state and identify each ref with the state it mirrors. *)
Ltac open_state s :=
  let Hv := fresh in let Hp := fresh in let Hl := fresh in let Hh := fresh in
  intros (Hv & Hp & Hl & Hh); destruct s; simpl in Hv, Hp, Hl, Hh; subst.

Lemma refine_orientation w e s pv g :
  refs_mirror s ->
  absOf (syncRefs (handleDeviceOrientation w e s)) pv g =
  Nav.updateHeading w e (absOf s pv g).
Proof.
  open_state s. unfold handleDeviceOrientation, Nav.updateHeading.
  destruct (orientationAngles e) as [[[al be] ga]|]; [|reflexivity].
  destruct compassFilterRef as [lv al0]. unfold lowPass, raiseCalibrating; simpl.
  destruct lv; simpl; destruct (interference _ _); reflexivity.
Qed.

(** The abstraction reads only the two traces of [PathVisualizer]. *)
Lemma absOf_project s p gl pv g :
  absOf s (projectEffect p gl pv) g =
  absOf s (PV.mk (projectPath p gl) (PV.gpsPathCoords pv) (PV.mapCenter pv)
                 (PV.initialCenter pv)) g.
Proof.
  unfold absOf. destruct (projectEffect_coords p gl pv) as [-> ->]. reflexivity.
Qed.

Lemma refine_motion pn e s pv g :
  refs_mirror s ->
  absOf (syncRefs (handleDeviceMotion pn e s))
        (projectEffect (path (handleDeviceMotion pn e s))
                       (gpsLocation (handleDeviceMotion pn e s)) pv) g =
  Nav.updateMotion pn e (absOf s pv g).
Proof.
  rewrite absOf_project. open_state s.
  unfold handleDeviceMotion, Nav.updateMotion, Nav.updateMotionState, displaySensors.
  destruct (MotionEvent.accelerationIncludingGravity e), (MotionEvent.rotationRate e),
    (MotionEvent.acceleration e) as [acc|]; simpl; try reflexivity;
  destruct lastTimestampRef as [last|]; simpl; try reflexivity;
  destruct (rejectDelta _); simpl; try reflexivity;
  unfold acceptSample, Nav.advance, holdStationary, integrateSample;
  cbn -[Nat.leb countStationary];
  destruct (_ <=? _)%nat; reflexivity.
Qed.

Lemma refine_reset s pv g :
  absOf (syncRefs (clearPath s))
        (projectEffect (path (clearPath s)) (gpsLocation (clearPath s)) pv) g =
  Nav.reset (absOf s pv g).
Proof. rewrite absOf_project. reflexivity. Qed.

Lemma refine_expire s pv g :
  refs_mirror s ->
  absOf (syncRefs (calibrationTimeout s)) pv g = Nav.expire (absOf s pv g).
Proof. open_state s. reflexivity. Qed.

(** The [try] block of [startMonitoring] by its outcome. *)
Lemma requestAndListen_outcome m o s :
  requestAndListen m o s =
  match Nav.requestOutcome m o with
  | None => setIsMonitoring true (set_orientationListener true (set_motionListener true s))
  | Some message => setError (Some message) s
  end.
Proof.
  unfold requestAndListen, Nav.requestOutcome, grants, permissionGranted.
  destruct m, o; try reflexivity; repeat (destruct (String.eqb _ _)); reflexivity.
Qed.

Lemma refine_toggle m o s pv g :
  refs_mirror s ->
  absOf (syncRefs (toggleMonitoring (isMonitoring s) m o s)) pv g =
  Nav.toggle m o (absOf s pv g).
Proof.
  unfold toggleMonitoring, Nav.toggle, startMonitoring.
  rewrite requestAndListen_outcome. open_state s. simpl.
  destruct isMonitoring; [reflexivity|].
  destruct (Nav.requestOutcome m o); reflexivity.
Qed.

Lemma refine_fix p s pv g :
  refs_mirror s ->
  absOf (syncRefs (successCallback p s))
        (trackEffect (gpsLocation (successCallback p s))
           (projectEffect (path (successCallback p s))
              (gpsLocation (successCallback p s)) pv)) g =
  Nav.fixArrives p (absOf s pv g).
Proof.
  unfold absOf at 1.
  destruct (trackEffect_coords (gpsLocation (successCallback p s))
              (projectEffect (path (successCallback p s))
                 (gpsLocation (successCallback p s)) pv)) as [-> ->].
  destruct (projectEffect_coords (path (successCallback p s))
              (gpsLocation (successCallback p s)) pv) as [-> ->].
  open_state s. reflexivity.
Qed.

Lemma refine_fix_error code s pv g :
  refs_mirror s ->
  absOf (syncRefs (errorCallback code s)) pv g = Nav.fixFails code (absOf s pv g).
Proof. open_state s. reflexivity. Qed.

(** *** The schedule is a path of the event loop *)
Lemma handle_mounted ev a :
  ev <> Unmount -> App.mounted (handle ev a) = App.mounted a.
Proof.
  destruct ev; try reflexivity; [|congruence].
  intros _. apply commit_committed.
Qed.

Lemma run_effects evs a :
  App.mounted a = true ->
  Forall (fun ev => ev = Commit \/ ev = ProjectEffect \/ ev = TrackEffect) evs ->
  run evs a = Some (fold_left (fun a e => handle e a) evs a).
Proof.
  intros Hm H. revert a Hm. induction H as [|ev evs Hev Hevs IH]; intros a Hm; [reflexivity|].
  cbn [run fold_left].
  assert (He : enabled a ev = true) by (destruct Hev as [-> | [-> | ->]]; exact Hm).
  rewrite He. apply IH. rewrite handle_mounted; [exact Hm|].
  destruct Hev as [-> | [-> | ->]]; discriminate.
Qed.

Lemma effectsAfter_internal (ev : Event (num:=num)) :
  Forall (fun ev => ev = Commit \/ ev = ProjectEffect \/ ev = TrackEffect)
         (effectsAfter ev).
Proof. destruct ev; cbn; repeat (constructor; [tauto|]); constructor. Qed.

Lemma turn_run ev a i :
  App.mounted a = true -> absEvent ev = Some i -> enabled a ev = true ->
  run (ev :: effectsAfter ev) a = Some (turn ev a).
Proof.
  intros Hm Hi He. cbn [run]. rewrite He. unfold turn.
  apply run_effects; [|apply effectsAfter_internal].
  rewrite handle_mounted; [exact Hm|]. intros ->; discriminate.
Qed.

(** The invariant of the event loop holds along every path. *)
Lemma session_ok_path a a' : reachable step a a' -> session_ok a -> session_ok a'.
Proof.
  intros Hr Hok. revert a' Hr. apply reachable_invariant; [exact Hok|].
  intros x y Hx Hs. inv Hs. now apply handle_ok.
Qed.

(** *** The turn keeps the projected trace current *)

(** A handler whose turn runs no effect of [PathVisualizer] leaves the path
    and the fix alone. *)
Lemma handler_frame r ev s :
  effectsAfter ev = [Commit] ->
  path (handlerOf r ev s) = path s /\
  gpsLocation (handlerOf r ev s) = gpsLocation s.
Proof.
  destruct ev; cbn; intros H; try discriminate; try (split; reflexivity).
  - apply (conj (proj1 (orientation_paths w e s))).
    unfold handleDeviceOrientation, raiseCalibrating. repeat break_match; reflexivity.
  - unfold toggleMonitoring, startMonitoring. rewrite requestAndListen_outcome.
    repeat break_match; split; reflexivity.
Qed.

Lemma turn_projection r ev s pv :
  PV.drPathCoords pv = projectPath (path s) (gpsLocation s) ->
  PV.drPathCoords (pvAfter ev (handlerOf r ev s) pv) =
  projectPath (path (handlerOf r ev s)) (gpsLocation (handlerOf r ev s)).
Proof.
  intros H.
  destruct ev; cbv beta iota delta [pvAfter];
    rewrite ?(proj1 (trackEffect_coords _ _));
    try apply projectEffect_coords;
    match goal with
    | |- context [handlerOf _ ?ev _] =>
        destruct (handler_frame r ev s eq_refl) as [-> ->]; exact H
    | _ => exact H
    end.
Qed.

Lemma refine_step ev i s pv g :
  absEvent ev = Some i -> refs_mirror s ->
  let s' := handlerOf (isMonitoring s) ev s in
  absOf (syncRefs s') (pvAfter ev s' pv) g = Nav.step i (absOf s pv g).
Proof.
  intros Hi Hm s'. unfold s'.
  destruct ev; inv Hi; cbv beta iota delta [handlerOf pvAfter Nav.step];
    auto using refine_orientation, refine_motion, refine_reset, refine_expire,
      refine_toggle, refine_fix, refine_fix_error.
Qed.

Lemma absOf_watch id s pv g : absOf (set_watchIdRef id s) pv g = absOf s pv g.
Proof. reflexivity. Qed.

(** *** The simulation *)

(** In a settled state an enabled event is an input the machine accepts. *)
Lemma settled_accepts ev i a :
  settled a -> absEvent ev = Some i -> enabled a ev = true ->
  Nav.accepts (abs a) i = true.
Proof.
  intros (Hm & _ & Hc & _ & (Hl1 & _ & Hl3) & (Hw1 & Hw2) & _) Hi He.
  specialize (Hl3 Hm).
  destruct ev; inv Hi; cbn in *; auto; try congruence.
  all: rewrite Hw1 in He; unfold watching in Hw2;
    destruct (watchIdRef (App.dr a)); [|discriminate];
    rewrite Hc, Hm, andb_true_r in Hw2; now rewrite <- Hw2.
Qed.

Lemma turn_abs ev i a :
  absEvent ev = Some i -> refs_mirror (App.dr a) ->
  App.committedMonitoring a = isMonitoring (App.dr a) ->
  abs (turn ev a) = Nav.step i (abs a).
Proof.
  intros Hi Hm Hc. destruct (turn_eq ev a i Hi) as (id & Ed & Ep & Eh & _).
  unfold abs. rewrite Ed, Ep, Eh, absOf_watch, Hc. now apply refine_step.
Qed.

Lemma turn_settled ev i a :
  settled a -> absEvent ev = Some i -> enabled a ev = true -> settled (turn ev a).
Proof.
  intros (Hm & Hr & Hc & Hp & Hok) Hi He.
  destruct (turn_eq ev a i Hi) as (id & Ed & Ep & Eh & Ec & Em).
  unfold settled. rewrite Ed, Ep, Em. rewrite Ed in Ec. split_all; auto.
  - repeat split.
  - now apply turn_projection.
  - apply (session_ok_path a); [|exact Hok].
    eapply run_reachable, turn_run; eauto.
Qed.

Lemma mount_settled h : watches h = [] -> settled (mount h).
Proof.
  intros Hw. pose proof (mount_ok (num:=num) h Hw) as Hok. revert Hok.
  unfold mount, gpsEffectBody, settled. cbn. intros Hok.
  split; [reflexivity|]. split; [apply syncRefs_mirror|]. auto.
Qed.

(** Only the success callback of the watch writes the fix. *)
Lemma handler_gpsLocation r ev s :
  (forall id p, ev <> GpsSuccess id p) ->
  gpsLocation (handlerOf r ev s) = gpsLocation s.
Proof.
  destruct ev; cbn; intros H; try reflexivity.
  - apply (handler_frame r (DeviceOrientation w e)). reflexivity.
  - unfold handleDeviceMotion, acceptSample, holdStationary, integrateSample,
      displaySensors. cbv zeta. repeat break_match; reflexivity.
  - apply (handler_frame r (ClickToggle motionApi orientationApi)). reflexivity.
  - now elim (H id position).
Qed.

(** An invariant of the settled states: it holds after every sequence of
    turns when every turn keeps it. *)
Lemma runTurns_invariant (P : App.t num -> Prop) :
  (forall a ev i, settled a -> P a -> absEvent ev = Some i ->
                  enabled a ev = true -> P (turn ev a)) ->
  forall evs a a',
    settled a -> P a -> Forall (fun ev => absEvent ev <> None) evs ->
    runTurns evs a = Some a' -> settled a' /\ P a'.
Proof.
  intros Hstep. induction evs as [|ev evs IH]; intros a a' Hs Hp Hf Hr.
  - inv Hr. auto.
  - inv Hf. cbn [runTurns] in Hr. destruct (enabled a ev) eqn:He; [|discriminate].
    destruct (absEvent ev) as [i|] eqn:Hi; [|congruence].
    apply (IH (turn ev a)); eauto using turn_settled.
Qed.

(** Claim C5. One turn refines one step of the machine: from a settled
    state, an enabled browser event followed by the effects React runs and
    the commit is a path of the event loop; the machine accepts the input
    the event stands for; the abstraction of the state after the turn is
    the machine's step on the abstraction of the state before; and the
    state after the turn is settled again. *)
Theorem turn_refines ev i a :
  settled a -> absEvent ev = Some i -> enabled a ev = true ->
  run (ev :: effectsAfter ev) a = Some (turn ev a) /\
  Nav.accepts (abs a) i = true /\
  abs (turn ev a) = Nav.step i (abs a) /\
  settled (turn ev a).
Proof.
  intros Hs Hi He. split_all.
  - apply (turn_run ev a i); auto. apply Hs.
  - now apply (settled_accepts ev).
  - apply turn_abs; auto; apply Hs.
  - now apply (turn_settled ev i).
Qed.

(** *** Between two commits *)

(** The acceleration callback neither reads nor writes what a setter of the
    compass pipeline writes. *)
Ltac commute_motion s e :=
  destruct s as [? ? ? ? ? ? ? ? ? ? ? ? ? ? ? ? last ? ? ? ? ? ?];
  unfold handleDeviceMotion, displaySensors, raiseCalibrating;
  destruct (MotionEvent.accelerationIncludingGravity e),
    (MotionEvent.rotationRate e), (MotionEvent.acceleration e);
    simpl; try reflexivity;
  destruct last; simpl; try reflexivity;
  destruct (rejectDelta _); simpl; try reflexivity;
  unfold acceptSample, holdStationary, integrateSample;
  cbn -[Nat.leb countStationary];
  destruct (_ <=? _)%nat; reflexivity.

Lemma motion_setHeading pn e h s :
  handleDeviceMotion pn e (setHeading h s) = setHeading h (handleDeviceMotion pn e s).
Proof. commute_motion s e. Qed.

Lemma motion_set_compassFilterRef pn e f s :
  handleDeviceMotion pn e (set_compassFilterRef f s) =
  set_compassFilterRef f (handleDeviceMotion pn e s).
Proof. commute_motion s e. Qed.

Lemma motion_raiseCalibrating pn e s :
  handleDeviceMotion pn e (raiseCalibrating s) =
  raiseCalibrating (handleDeviceMotion pn e s).
Proof. commute_motion s e. Qed.

(** The two sensor callbacks commute: the compass callback publishes the
    heading with [setHeading] and leaves [headingRef] to the next commit,
    and [headingRef] is all the acceleration callback reads of it. *)
Lemma sensor_callbacks_commute w o pn e s :
  handleDeviceMotion pn e (handleDeviceOrientation w o s) =
  handleDeviceOrientation w o (handleDeviceMotion pn e s).
Proof.
  destruct (orientationAngles o) as [[[a b] g]|] eqn:E.
  - rewrite !(handleDeviceOrientation_valid _ _ _ _ _ _ E). cbv zeta.
    pose proof (motion_frame pn e s) as Hf. unfold compass in Hf.
    injection Hf as _ Hr Hc _ _. rewrite Hr, Hc, motion_setHeading.
    destruct (interference _ _);
      now rewrite ?motion_raiseCalibrating, motion_set_compassFilterRef.
  - now rewrite !handleDeviceOrientation_invalid.
Qed.

(** Claim C6. A heading is visible to the integrator only after a commit.  Delivered
    with no commit between them, a compass event and an acceleration event
    give the same state in either order, and the estimate is the one the
    acceleration event alone gives: the integrator rotated the sample with
    the heading of the last commit.  With the commit of a turn between
    them, the integrator reads the heading the compass event published. *)
Theorem heading_invisible_before_commit w o pn e a :
  run [DeviceOrientation w o; DeviceMotion pn e] a =
  run [DeviceMotion pn e; DeviceOrientation w o] a /\
  estimate (handleDeviceMotion pn e (handleDeviceOrientation w o (App.dr a))) =
  estimate (handleDeviceMotion pn e (App.dr a)) /\
  headingRef (handleDeviceOrientation w o (App.dr a)) = headingRef (App.dr a) /\
  headingRef (App.dr (turn (DeviceOrientation w o) a)) =
  heading (handleDeviceOrientation w o (App.dr a)).
Proof.
  split_all; [| |apply orientation_frame|
    destruct (turn_eq (DeviceOrientation w o) a _ eq_refl) as (id & -> & _);
    reflexivity].
  - cbn [run enabled handle]. unfold withDr.
    cbn [App.dr App.host App.committedMonitoring App.pv App.mounted].
    pose proof (motion_controls pn e (App.dr a)) as Hm.
    pose proof (orientation_controls w o (App.dr a)) as Ho.
    unfold controls in Hm, Ho.
    replace (orientationListener (handleDeviceMotion pn e (App.dr a)))
      with (orientationListener (App.dr a)) by congruence.
    replace (motionListener (handleDeviceOrientation w o (App.dr a)))
      with (motionListener (App.dr a)) by congruence.
    rewrite sensor_callbacks_commute. clear Hm Ho.
    destruct (orientationListener (App.dr a)), (motionListener (App.dr a));
      reflexivity.
  - rewrite sensor_callbacks_commute. unfold estimate.
    destruct (orientation_frame w o (handleDeviceMotion pn e (App.dr a)))
      as (_ & -> & -> & -> & -> & -> & -> & _).
    reflexivity.
Qed.

(** *** The effects reach a fixed point *)
Lemma projectEffect_again p gl pv :
  projectEffect p gl (projectEffect p gl pv) = projectEffect p gl pv.
Proof.
  unfold projectEffect. destruct gl as [fix_|]; [|reflexivity].
  destruct (List.length p <? 2)%nat eqn:E; [reflexivity|].
  cbv zeta. cbn [PV.initialCenter PV.drPathCoords PV.gpsPathCoords PV.mapCenter].
  destruct (PV.initialCenter pv); [reflexivity|].
  destruct (projectPath p (Some fix_)); reflexivity.
Qed.

(** The tracking effect writes neither the projected trace nor the
    initial centre, so it leaves the projection effect nothing to redo. *)
Lemma projectEffect_tracked p gl pv :
  projectEffect p gl (trackEffect gl (projectEffect p gl pv)) =
  trackEffect gl (projectEffect p gl pv).
Proof.
  unfold projectEffect, trackEffect. destruct gl as [fix_|]; [|reflexivity].
  destruct (List.length p <? 2)%nat eqn:E; [reflexivity|].
  cbv zeta. cbn [PV.initialCenter PV.drPathCoords PV.gpsPathCoords PV.mapCenter].
  destruct (PV.initialCenter pv); [reflexivity|].
  destruct (projectPath p (Some fix_)); reflexivity.
Qed.

Lemma project_quiet a :
  projectEffect (path (App.dr a)) (gpsLocation (App.dr a)) (App.pv a) = App.pv a ->
  handle ProjectEffect a = a.
Proof.
  destruct a as [dr h c pv m]; intros H; cbn [App.dr App.pv] in H.
  cbn [handle]; unfold withPv.
  cbn [App.dr App.pv App.host App.committedMonitoring App.mounted].
  now rewrite H.
Qed.

Lemma project_quiet_inv a :
  handle ProjectEffect a = a ->
  projectEffect (path (App.dr a)) (gpsLocation (App.dr a)) (App.pv a) = App.pv a.
Proof. intros H. now rewrite <- H at 4. Qed.

Lemma settled_commit a : settled a -> handle Commit a = a.
Proof.
  intros (_ & Hr & Hc & _). cbn [handle]. unfold commit.
  rewrite (syncRefs_fixpoint _ Hr), Hc, Bool.eqb_reflx.
  destruct a; cbn in *; now subst.
Qed.

Lemma turn_project_quiet ev i a :
  handle ProjectEffect a = a -> absEvent ev = Some i ->
  handle ProjectEffect (turn ev a) = turn ev a.
Proof.
  intros Hq Hi. apply project_quiet_inv in Hq. apply project_quiet.
  destruct (turn_eq ev a i Hi) as (id & Ed & Ep & _). rewrite Ed, Ep.
  change (path (set_watchIdRef id (syncRefs ?x))) with (path x).
  change (gpsLocation (set_watchIdRef id (syncRefs ?x))) with (gpsLocation x).
  destruct ev; try discriminate; cbv beta iota delta [pvAfter];
    auto using projectEffect_again, projectEffect_tracked;
    match goal with
    | |- context [handlerOf ?r ?ev _] =>
        destruct (handler_frame r ev (App.dr a) eq_refl) as [-> ->]; exact Hq
    end.
Qed.

(** The turn runs the projection effect after every motion sample, also
    after one that appended no point (a first, a rejected or a display-only
    sample), where React finds the dependencies unchanged and skips it:
    from a state in which the effect is at rest the two agree. *)
Lemma turn_skipped_effect performanceNow e a :
  handle ProjectEffect a = a ->
  let ev := DeviceMotion performanceNow e in
  path (handlerOf (App.committedMonitoring a) ev (App.dr a)) = path (App.dr a) ->
  App.pv (turn ev a) = App.pv a.
Proof.
  intros Hq ev Hp. subst ev. apply project_quiet_inv in Hq.
  destruct (turn_eq (DeviceMotion performanceNow e) a _ eq_refl)
    as (id & _ & Ep & _). rewrite Ep.
  cbv beta iota delta [pvAfter]. rewrite Hp.
  rewrite (handler_gpsLocation _ (DeviceMotion performanceNow e)) by discriminate.
  exact Hq.
Qed.

(** *** Invariants of the machine *)
Lemma nav_ok_initial r : nav_ok (Nav.initial (num:=num) r).
Proof. unfold nav_ok; cbn. split_all; auto; discriminate. Qed.

Lemma updateMotionState_position h pn e (m : Nav.MotionState num) :
  match snd (Nav.updateMotionState h pn e m) with
  | Some p => Nav.position (fst (Nav.updateMotionState h pn e m)) = p
  | None => Nav.position (fst (Nav.updateMotionState h pn e m)) = Nav.position m
  end.
Proof.
  unfold Nav.updateMotionState, Nav.advance.
  destruct (MotionEvent.acceleration e); [|reflexivity].
  destruct (Nav.lastSampleTimestamp m); [|reflexivity].
  destruct (rejectDelta _); [reflexivity|].
  destruct (_ <=? _)%nat; reflexivity.
Qed.

Lemma nav_ok_motion pn e n : nav_ok n -> nav_ok (Nav.updateMotion pn e n).
Proof.
  intros (Hp & Hl & Hj & Hc). unfold Nav.updateMotion.
  pose proof (updateMotionState_position
    (Nav.filteredHeading (Nav.headingState n)) pn e (Nav.motionState n)) as H.
  destruct (Nav.updateMotionState _ _ _ _) as [m [p|]]; cbn in H;
    unfold nav_ok; cbn; rewrite ?last_snoc; split_all;
    auto using snoc_not_nil; congruence.
Qed.

Lemma nav_ok_heading w e n : nav_ok n -> nav_ok (Nav.updateHeading w e n).
Proof.
  intros (Hp & Hl & Hj & Hc). unfold Nav.updateHeading.
  destruct (orientationAngles e) as [[[al be] ga]|]; [|now split_all].
  destruct (lowPass _ _) as [f filtered].
  unfold nav_ok; cbn. destruct (interference _ _); split_all; auto.
  intros _. apply Nat.lt_0_succ.
Qed.

Lemma nav_ok_step i n : nav_ok n -> nav_ok (Nav.step i n).
Proof.
  destruct i; cbn [Nav.step]; auto using nav_ok_motion, nav_ok_heading;
    intros (Hp & Hl & Hj & Hc); unfold Nav.expire, Nav.toggle, Nav.reset,
      Nav.fixArrives, Nav.fixFails, nav_ok;
    repeat break_match; cbn; split_all; auto; discriminate.
Qed.

Lemma nav_ok_run inputs : forall n n',
  nav_ok n -> Nav.run inputs n = Some n' -> nav_ok n'.
Proof.
  induction inputs as [|i rest IH]; intros n n' Hok Hr; cbn [Nav.run] in Hr.
  - now inv Hr.
  - destruct (Nav.accepts n i); [|discriminate]. eauto using nav_ok_step.
Qed.

(** Claim C18. Any sequence of turns from a settled state is a run of the
    machine on the corresponding inputs, and ends in a settled state whose
    abstraction is the machine's final state. *)
Theorem runTurns_refines evs : forall inputs a a',
  settled a -> Forall2 (fun ev i => absEvent ev = Some i) evs inputs ->
  runTurns evs a = Some a' ->
  Nav.run inputs (abs a) = Some (abs a') /\ settled a'.
Proof.
  induction evs as [|ev evs IH]; intros inputs a a' Hs Hf Hr; inv Hf.
  - inv Hr. auto.
  - cbn [runTurns] in Hr. destruct (enabled a ev) eqn:He; [|discriminate].
    cbn [Nav.run].
    rewrite (settled_accepts ev y a), <- (turn_abs ev y a); auto; try apply Hs.
    apply IH; auto. now apply (turn_settled ev y).
Qed.

(** The simulation along a path of the event loop: the events of a
    sequence of turns, run by [run] from a settled state, are a run of the
    machine on the corresponding inputs. *)
Lemma schedule_refines evs : forall inputs a a',
  settled a -> Forall2 (fun ev i => absEvent ev = Some i) evs inputs ->
  run (schedule evs) a = Some a' ->
  Nav.run inputs (abs a) = Some (abs a') /\ settled a'.
Proof.
  induction evs as [|ev evs IH]; intros inputs a a' Hs Hf Hr; inv Hf.
  - inv Hr. auto.
  - unfold schedule in Hr. cbn [flat_map] in Hr. fold (schedule evs) in Hr.
    change (run ((ev :: effectsAfter ev) ++ schedule evs) a = Some a') in Hr.
    rewrite run_app in Hr.
    destruct (enabled a ev) eqn:He; [|cbn [run] in Hr; now rewrite He in Hr].
    rewrite (turn_run ev a y) in Hr by (auto; apply Hs).
    cbn [Nav.run].
    rewrite (settled_accepts ev y a), <- (turn_abs ev y a); auto; try apply Hs.
    apply IH; auto. now apply (turn_settled ev y).
Qed.

(** Claim C40. What the machine keeps true holds of the code: after any
    sequence of turns from the mount, the path the integrator reads is not
    empty and ends at the position it reads, the projected trace on the map
    is the projection of that path around the held fix, and a raised
    calibrating flag has a pending timer.  The invariant is proved on the
    machine and carried to the code by the refinement. *)
Theorem estimator_invariant h evs a :
  watches h = [] -> Forall (fun ev => absEvent (num:=num) ev <> None) evs ->
  runTurns evs (mount h) = Some a ->
  nav_ok (abs a).
Proof.
  intros Hw Hf Hr.
  apply (runTurns_invariant (fun a => nav_ok (abs a))) in Hr;
    auto using mount_settled; [tauto| |apply nav_ok_initial].
  intros x ev i Hs Hok Hi _. rewrite (turn_abs ev i x Hi); try apply Hs.
  now apply nav_ok_step.
Qed.

(** Claim C21. The render loop comes to rest: after any sequence of turns from the
    mount no effect is left to run.  A further commit finds the mirrors
    exact and the dependency of the GPS effect unchanged, and the pass of
    the projection effect that its own write of [initialCenter] schedules
    (line 80) changes nothing.  One pass of effects per event is therefore
    all that React runs. *)
Theorem render_loop_settles h evs a :
  watches h = [] -> Forall (fun ev => absEvent (num:=num) ev <> None) evs ->
  runTurns evs (mount h) = Some a ->
  quiescent a.
Proof.
  intros Hw Hf Hr.
  apply (runTurns_invariant (fun a => handle ProjectEffect a = a)) in Hr;
    auto using mount_settled.
  - destruct Hr as [Hs Hq]. split; [now apply settled_commit|exact Hq].
  - intros x ev i _ Hq Hi _. now apply (turn_project_quiet ev i).
Qed.

(** Mounting the component on a host that holds no watch gives a
    settled state whose abstraction is the machine's initial state. *)
Theorem mount_refines_initial h :
  watches h = [] ->
  settled (mount (num:=num) h) /\ abs (mount h) = Nav.initial (geolocation h).
Proof. intros Hw. split; [now apply mount_settled|reflexivity]. Qed.
End RefineFacts.

(** ** Effects that run without need *)

Section SpuriousEffects.

Lemma commit_again {num : Type} {N : JsNumber num} {M : JsMath num}
  (a : App.t num) : commit (commit a) = commit a.
Proof.
  destruct a as [s [geo ws next] c pv m].
  destruct s as [? ? ? ? ? ? ? ? watch monitoring ? ? ? ? ? ? ? ? ? ? ? ? ?].
  destruct watch, monitoring, geo, c; reflexivity.
Qed.

Lemma trackEffect_again (gl : option (GpsFix.t R)) (pv : PV.State R) :
  trackEffect gl (trackEffect gl pv) = trackEffect gl pv.
Proof.
  destruct gl as [g|]; [|reflexivity]. unfold trackEffect.
  cbn [PV.drPathCoords PV.gpsPathCoords PV.mapCenter PV.initialCenter].
  now rewrite ingest_idempotent.
Qed.

(** The event loop lets a commit and the effects of [PathVisualizer] run
    at any step, also when none of their dependencies has changed and React
    would skip them.  On real numbers that freedom adds nothing: each of
    them, run a second time in a row, changes nothing. *)
Theorem internal_events_idempotent (a : App.t R) ev :
  In ev [Commit; ProjectEffect; TrackEffect] ->
  handle ev (handle ev a) = handle ev a.
Proof.
  intros [<-|[<-|[<-|[]]]]; cbn [handle].
  - apply commit_again.
  - unfold withPv. cbn [App.dr App.pv App.host App.committedMonitoring App.mounted].
    now rewrite projectEffect_again.
  - unfold withPv. cbn [App.dr App.pv App.host App.committedMonitoring App.mounted].
    now rewrite trackEffect_again.
Qed.

End SpuriousEffects.

(** ** Witnesses *)

Section RefineWitnesses.

(** The start click on a fresh component, then the reset. *)
Lemma enabled_start : enabled (mount host0) click_start = true.
Proof. vm_compute; reflexivity. Qed.

Lemma turn_refines_witness :
  abs (turn click_start (mount host0)) =
  Nav.step (Nav.Toggle NoRequestPermission NoRequestPermission)
           (abs (mount host0)).
Proof.
  exact (proj1 (proj2 (proj2 (turn_refines click_start
           (Nav.Toggle NoRequestPermission NoRequestPermission) (mount host0)
           (mount_settled host0 eq_refl) eq_refl enabled_start)))).
Defined.

Lemma run_start_reset :
  runTurns [click_start; ClickReset] (mount host0) =
  Some (turn ClickReset (turn click_start (mount host0))).
Proof. vm_compute; reflexivity. Qed.

Lemma inputs_start_reset :
  Forall2 (fun ev i => absEvent (num:=R) ev = Some i) [click_start; ClickReset]
    [Nav.Toggle NoRequestPermission NoRequestPermission; Nav.Reset].
Proof. repeat constructor. Qed.

Lemma events_start_reset :
  Forall (fun ev => absEvent (num:=R) ev <> None) [click_start; ClickReset].
Proof. repeat constructor; discriminate. Qed.

Lemma runTurns_refines_witness :
  Nav.run [Nav.Toggle NoRequestPermission NoRequestPermission; Nav.Reset]
          (abs (mount host0)) =
  Some (abs (turn ClickReset (turn click_start (mount host0)))).
Proof.
  exact (proj1 (runTurns_refines [click_start; ClickReset]
           [Nav.Toggle NoRequestPermission NoRequestPermission; Nav.Reset]
           (mount host0) (turn ClickReset (turn click_start (mount host0)))
           (mount_settled host0 eq_refl)
           inputs_start_reset
           run_start_reset)).
Defined.

Lemma estimator_invariant_witness :
  nav_ok (abs (turn ClickReset (turn click_start (mount host0)))).
Proof.
  exact (estimator_invariant host0 _ _ host0_fresh events_start_reset
           run_start_reset).
Defined.

Lemma render_loop_settles_witness :
  quiescent (turn ClickReset (turn click_start (mount host0))).
Proof.
  exact (render_loop_settles host0 _ _ host0_fresh events_start_reset
           run_start_reset).
Defined.

Lemma mount_refines_initial_witness :
  abs (mount (num:=R) host0) = Nav.initial true.
Proof. exact (proj2 (mount_refines_initial host0 eq_refl)). Defined.

End RefineWitnesses.
