(* ===== verification/Views.v ===== *)
(** * Views: what the two components render

    The [return] of [DRModule] (src/src/components/DRModule.jsx, lines
    336-557) and of [PathVisualizer]
    (src/src/components/PathVisualizer.jsx, lines 111-235) is markup whose
    content depends on the state through a handful of conditions.  A view is
    the record of those choices: which handler the toggle button runs, which
    label and badges are shown, which of the alternatives of the GPS panel
    and of the map area is rendered, and which values are handed to the
    formatters and to the child component.  The static markup, the class
    names and the formatting of numbers ([toFixed], [format2DData],
    [formatSensorData], which are not part of the sources) are left out.

    [render] is the view of [DRModule], [pvRender] the view of
    [PathVisualizer].  The theorems relate what is displayed to the state of
    the session: the status badge and the listeners, the GPS badge and the
    position watch, the alternatives of the GPS panel and the last callback,
    the map and the two traces, and the bounds [MapBoundsHandler] fits to
    the motion samples that extend the path. *)

From Stdlib Require Import List Bool Arith Lia String Reals Lra.
From S2P Require Import Prelude JsNum RealNum DRState Heading Motion Geo Session Refine.
Import ListNotations.

(** ** The view of DRModule *)

(** The handler bound to the toggle button (line 368). *)
Inductive ToggleHandler : Type := RunStopMonitoring | RunStartMonitoring.

(** The three alternatives of the GPS panel (lines 481-503). *)
Inductive GpsPanel (num : Type) : Type :=
| GpsPanelError (message : string)
| GpsPanelFix (latitude longitude accuracy : num)
| GpsPanelHint (text : string).
Arguments GpsPanelError {num} message.
Arguments GpsPanelFix {num} latitude longitude accuracy.
Arguments GpsPanelHint {num} text.

(** The header controls and badges (lines 366-413). *)
Module Header.
Record t : Type := mk {
  toggleOnClick : ToggleHandler;
  toggleLabel : string;
  statusBadge : string;
  gpsLockedBadge : bool;
  calibratingBadge : bool;
  errorBanner : option string;
  startHint : bool
}.
End Header.

(** The strip of four statistics (lines 417-451): the values handed to the
    formatters, and the GPS word. *)
Module StatStrip.
Record t (num : Type) : Type := mk {
  velocityStat : Vec2.t num;
  positionStat : Vec2.t num;
  headingStat : num;
  gpsStat : string
}.
Arguments mk {num} velocityStat positionStat headingStat gpsStat.
Arguments velocityStat {num} t.
Arguments positionStat {num} t.
Arguments headingStat {num} t.
Arguments gpsStat {num} t.
End StatStrip.

(** The cards of the right column (lines 507-546): the values handed to
    [SensorCard]. *)
Module Cards.
Record t (num : Type) : Type := mk {
  posePosition : Vec2.t num;
  poseVelocity : Vec2.t num;
  accelerometerCard : option (Vec3.t (jsval num));
  gyroscopeCard : option (Rot3.t num);
  orientationCard : num
}.
Arguments mk {num} posePosition poseVelocity accelerometerCard gyroscopeCard
  orientationCard.
Arguments posePosition {num} t.
Arguments poseVelocity {num} t.
Arguments accelerometerCard {num} t.
Arguments gyroscopeCard {num} t.
Arguments orientationCard {num} t.
End Cards.

(** The whole output (lines 336-557), with the props of [PathVisualizer]
    (line 471). *)
Module DRView.
Record t (num : Type) : Type := mk {
  header : Header.t;
  stats : StatStrip.t num;
  visualizerPath : list (Vec2.t num);
  visualizerFix : option (GpsFix.t num);
  gpsPanel : GpsPanel num;
  cards : Cards.t num
}.
Arguments mk {num} header stats visualizerPath visualizerFix gpsPanel cards.
Arguments header {num} t.
Arguments stats {num} t.
Arguments visualizerPath {num} t.
Arguments visualizerFix {num} t.
Arguments gpsPanel {num} t.
Arguments cards {num} t.
End DRView.

(** ** The view of PathVisualizer *)

(** A polyline with its start and current markers (lines 142-175 and
    178-212): drawn only for two points or more. *)
Module Trace.
Record t (num : Type) : Type := mk {
  positions : list (LatLng num);
  start : option (LatLng num);
  current : option (LatLng num)
}.
Arguments mk {num} positions start current.
Arguments positions {num} t.
Arguments start {num} t.
Arguments current {num} t.
End Trace.

(** The map area: the map with its centre, the bounds request and the two
    traces, or a placeholder text (lines 124-222). *)
Inductive MapArea (num : Type) : Type :=
| MapShown (center : LatLng num) (bounds : option (list (LatLng num)))
           (gpsTrace drTrace : option (Trace.t num))
| MapPlaceholder (text : string).
Arguments MapShown {num} center bounds gpsTrace drTrace.
Arguments MapPlaceholder {num} text.

Section Views.
Context {num : Type} {N : JsNumber num} {M : JsMath num}.
Local Open Scope string_scope.

(** The truth value of a state that holds a string or null, as [&&] and
    [?:] test it: null and the empty string are false. *)
Definition truthyString (o : option string) : bool :=
  match o with
  | Some s => negb (String.eqb s EmptyString)
  | None => false
  end.

(** Line 368. *)
Definition toggleHandler (s : State num) : ToggleHandler :=
  if isMonitoring s then RunStopMonitoring else RunStartMonitoring.

(** Line 374. *)
Definition toggleText (s : State num) : string :=
  if isMonitoring s then "Stop Sensors" else "Start Sensors".

(** Line 390. *)
Definition statusText (s : State num) : string :=
  if isMonitoring s then "Live" else "Idle".

(** Lines 403-407: the banner shows the error when it is truthy. *)
Definition errorBannerOf (s : State num) : option string :=
  if truthyString (error s) then error s else None.

(** Line 408. *)
Definition startHintOf (s : State num) : bool :=
  negb (isMonitoring s) && negb (truthyString (error s)).

(** Line 448. *)
Definition gpsStatText (s : State num) : string :=
  match gpsLocation s with Some _ => "Active" | None => "Pending" end.

(** Lines 481-503: the error first, then the fix, then a hint that depends
    on the session. *)
Definition gpsPanelOf (s : State num) : GpsPanel num :=
  if truthyString (gpsError s) then
    GpsPanelError (match gpsError s with Some m => m | None => EmptyString end)
  else
    match gpsLocation s with
    | Some g =>
        GpsPanelFix (GpsFix.latitude g) (GpsFix.longitude g) (GpsFix.accuracy g)
    | None =>
        GpsPanelHint (if isMonitoring s then "Acquiring GPS signal..."
                      else "Start sensors to enable GPS")
    end.

(** Lines 366-413. *)
Definition headerOf (s : State num) : Header.t :=
  Header.mk (toggleHandler s) (toggleText s) (statusText s)
    (match gpsLocation s with Some _ => true | None => false end)
    (isCalibrating s) (errorBannerOf s) (startHintOf s).

(** Lines 417-451; [heading ?? 0] is [heading], which is never null. *)
Definition statStripOf (s : State num) : StatStrip.t num :=
  StatStrip.mk (velocity s) (position s) (heading s) (gpsStatText s).

(** Lines 507-546. *)
Definition cardsOf (s : State num) : Cards.t num :=
  Cards.mk (position s) (velocity s) (accelerometerData s) (gyroscopeData s)
           (heading s).

(** Lines 336-557. *)
Definition render (s : State num) : DRView.t num :=
  DRView.mk (headerOf s) (statStripOf s) (path s) (gpsLocation s)
            (gpsPanelOf s) (cardsOf s).

(** Lines 142-175 and 178-212: a trace of two points or more, with its first
    and its last point. *)
Definition traceOf (coords : list (LatLng num)) : option (Trace.t num) :=
  if (1 <? List.length coords)%nat then
    Some (Trace.mk coords (nth_error coords 0)
                   (nth_error coords (List.length coords - 1)))
  else None.

(** Lines 217-219. *)
Definition placeholderText (gpsLocation : option (GpsFix.t num)) : string :=
  match gpsLocation with
  | Some _ => "Waiting for movement data..."
  | None => "Waiting for GPS signal..."
  end.

(** Lines 124-125: the condition of the map. *)
Definition mapVisible (gpsLocation : option (GpsFix.t num)) (st : PV.State num)
  : bool :=
  match gpsLocation with
  | Some _ =>
      (0 <? List.length (PV.drPathCoords st))%nat ||
      (0 <? List.length (PV.gpsPathCoords st))%nat
  | None => false
  end.

(** Lines 111-235. *)
Definition pvRender (gpsLocation : option (GpsFix.t num)) (st : PV.State num)
  : MapArea num :=
  if mapVisible gpsLocation st then
    MapShown (PV.mapCenter st)
             (fitBoundsRequest (PV.drPathCoords st) (PV.gpsPathCoords st))
             (traceOf (PV.gpsPathCoords st))
             (traceOf (PV.drPathCoords st))
  else MapPlaceholder (placeholderText gpsLocation).

(** What the user sees of a mounted application: the view of [DRModule]
    and, inside it, the view of [PathVisualizer] with the props of line
    471. *)
Definition screen (a : App.t num) : DRView.t num * MapArea num :=
  let v := render (App.dr a) in
  (v, pvRender (DRView.visualizerFix v) (App.pv a)).

(** ** Specification vocabulary *)

(** Once a fix is held, the ground-truth trace holds a point. *)
Definition trace_seeded (a : App.t num) : Prop :=
  gpsLocation (App.dr a) <> None -> PV.gpsPathCoords (App.pv a) <> [].

End Views.

(** *** Concrete inputs for the examples *)

Section ViewInputs.
(** The session started on a fresh component, and then a first fix. *)
Definition app_started : App.t R := turn click_start (mount host0).
Definition app_fixed : App.t R := turn (GpsSuccess 0 pos_origin) app_started.

(** A monitoring session that holds a fix at the origin, with the motion
    baseline at 1000 ms. *)
Definition fix_origin : GpsFix.t R := GpsFix.mk 0%R 0%R 5%R 0%R.
Definition s_moving : State R :=
  setGpsLocation (Some fix_origin)
    (setIsMonitoring true
      (set_orientationListener true
        (set_motionListener true
          (set_watchIdRef (Some 0%nat) s_running)))).
Definition app_moving : App.t R :=
  App.mk s_moving (mkHost true [0%nat] 1) true
         (PV.mk [] [(0%R, 0%R)] (0%R, 0%R) None) true.
End ViewInputs.

(** ** What is displayed, against the state of the session *)

Section ViewFacts.
Context {num : Type} {N : JsNumber num} {M : JsMath num}.
Implicit Types (s : State num) (a : App.t num) (pv : PV.State num).
Local Open Scope string_scope.

(** The tracker never returns an empty trace. *)
Lemma ingestGroundTruth_nonempty (p : LatLng num) prev :
  ingestGroundTruth p prev <> [].
Proof.
  unfold ingestGroundTruth, isDuplicate.
  destruct prev; simpl; [discriminate|]. break_match; discriminate.
Qed.

(** Every turn keeps the trace seeded: only a fix sets [gpsLocation], and its
    turn runs the tracking effect. *)
Lemma turn_trace_seeded a ev i :
  trace_seeded a -> absEvent ev = Some i -> trace_seeded (turn ev a).
Proof.
  intros Hp Hi. destruct (turn_eq ev a i Hi) as (id & Ed & Ep & _).
  unfold trace_seeded. rewrite Ed, Ep.
  change (gpsLocation (set_watchIdRef id (syncRefs ?x))) with (gpsLocation x).
  destruct ev; try discriminate; cbv beta iota delta [pvAfter];
    rewrite ?(proj2 (projectEffect_coords _ _ _));
    try (rewrite handler_gpsLocation by discriminate; exact Hp).
  intros _. rewrite (proj2 (trackEffect_coords _ _)).
  apply ingestGroundTruth_nonempty.
Qed.

(** A fix sets the centre handed to the map: after the turn of a success
    callback the map is rendered, whatever the traces were, with the fix as
    its [center] prop (what Leaflet makes of a changed prop is not
    modelled).
    The projection effect runs before the tracking effect, so its own
    choice of a centre (line 78) never survives the arrival of a fix. *)
Theorem fix_recentres_map a id p :
  exists bounds gpsTrace drTrace,
    snd (screen (turn (GpsSuccess id p) a)) =
    MapShown (GeoPosition.coords_latitude p, GeoPosition.coords_longitude p)
             bounds gpsTrace drTrace.
Proof.
  destruct (turn_eq (GpsSuccess id p) a _ eq_refl) as (wid & Ed & Ep & _).
  unfold screen, pvRender, mapVisible. rewrite Ed, Ep.
  cbn [render DRView.visualizerFix snd pvAfter handlerOf].
  change (gpsLocation (set_watchIdRef wid (syncRefs ?x))) with (gpsLocation x).
  set (gl := gpsLocation (successCallback p (App.dr a))).
  assert (Hg : gl = Some (GpsFix.mk (GeoPosition.coords_latitude p)
                 (GeoPosition.coords_longitude p) (GeoPosition.coords_accuracy p)
                 (GeoPosition.timestamp p))) by reflexivity.
  rewrite Hg. rewrite (proj2 (trackEffect_coords _ _)).
  destruct (ingestGroundTruth _ _) eqn:E; [now apply ingestGroundTruth_nonempty in E|].
  cbn [List.length Nat.ltb Nat.leb orb]. rewrite orb_true_r. eauto.
Qed.

(** Every message of [errorCallback] is a non-empty string. *)
Lemma truthy_gpsErrorMessage code : truthyString (Some (gpsErrorMessage code)) = true.
Proof. unfold gpsErrorMessage. repeat break_match; reflexivity. Qed.

Lemma statusBadge_live s :
  Header.statusBadge (headerOf s) = "Live" <-> isMonitoring s = true.
Proof. unfold headerOf, statusText; simpl. destruct (isMonitoring s); split; congruence. Qed.

(** In every reachable state of a mounted component the status
    badge reads Live exactly when motion events are delivered, and the
    toggle button is bound to [stopMonitoring] exactly when orientation
    events are delivered: what the header shows is what the listeners do. *)
Theorem live_badge_means_listening h a pn e w e' :
  watches h = [] -> reachable step (mount h) a -> App.mounted a = true ->
  (Header.statusBadge (headerOf (App.dr a)) = "Live" <->
   enabled a (DeviceMotion pn e) = true) /\
  (Header.toggleOnClick (headerOf (App.dr a)) = RunStopMonitoring <->
   enabled a (DeviceOrientation w e') = true).
Proof.
  intros Hw Hr Hm.
  destruct (session_ok_reachable h a Hw Hr) as ((Hl1 & _ & Hl3) & _).
  specialize (Hl3 Hm). cbn [enabled]. rewrite <- Hl1, Hl3, statusBadge_live.
  split; [tauto|]. unfold headerOf, toggleHandler; simpl.
  destruct (isMonitoring (App.dr a)); split; congruence.
Qed.

(** Stopping a session that holds a fix clears the position watch
    and removes the listeners, and the header then reads Idle, but the GPS
    badge stays and the GPS statistic still reads Active: the fix is never
    cleared, so the display claims a lock that no watch maintains. *)
Theorem gps_badge_outlives_watch a m o g pn e :
  settled a -> isMonitoring (App.dr a) = true -> gpsLocation (App.dr a) = Some g ->
  let a' := turn (ClickToggle m o) a in
  watches (App.host a') = [] /\
  enabled a' (DeviceMotion pn e) = false /\
  Header.statusBadge (headerOf (App.dr a')) = "Idle" /\
  Header.gpsLockedBadge (headerOf (App.dr a')) = true /\
  StatStrip.gpsStat (statStripOf (App.dr a')) = "Active".
Proof.
  intros Hs Hon Hg a'.
  assert (He : enabled a (ClickToggle m o) = true) by apply Hs.
  pose proof (turn_settled (ClickToggle m o) _ a Hs eq_refl He) as Hs'.
  destruct (turn_eq (ClickToggle m o) a _ eq_refl) as (id & Ed & _).
  fold a' in Hs', Ed.
  assert (Hoff : isMonitoring (App.dr a') = false /\ gpsLocation (App.dr a') = Some g).
  { rewrite Ed. cbn [handlerOf]. unfold toggleMonitoring.
    rewrite (proj1 (proj2 (proj2 Hs))), Hon.
    split; [reflexivity|exact Hg]. }
  destruct Hoff as [Hoff Hg'].
  destruct Hs' as (Hm' & _ & Hc' & _ & (_ & _ & Hl3) & (Hw1 & Hw2) & _).
  rewrite Hc', Hoff in Hw2. unfold watching in Hw2.
  destruct (watchIdRef (App.dr a')); [discriminate|].
  cbn [enabled]. rewrite (Hl3 Hm'), Hoff.
  unfold headerOf, statStripOf, statusText, gpsStatText; simpl. rewrite Hoff, Hg'. auto.
Qed.

(** After any sequence of turns from the mount, the map area
    never shows the text that waits for movement data: once a fix is held
    the ground-truth trace holds a point, so the map is shown.  The text of
    line 218 appears only in the render between the arrival of the first fix
    and the run of the tracking effect. *)
Theorem movement_placeholder_unreachable h evs a :
  watches h = [] -> Forall (fun ev => absEvent (num:=num) ev <> None) evs ->
  runTurns evs (mount h) = Some a ->
  snd (screen a) <> MapPlaceholder "Waiting for movement data...".
Proof.
  intros Hw Hf Hr.
  destruct (runTurns_invariant trace_seeded) with (evs := evs) (a := mount h) (a' := a)
    as [_ Hp]; auto using mount_settled.
  - intros; eapply turn_trace_seeded; eauto.
  - intros H. now elim H.
  - unfold screen, pvRender, mapVisible, placeholderText; simpl.
    unfold trace_seeded in Hp.
    destruct (gpsLocation (App.dr a)); [|discriminate].
    destruct (PV.gpsPathCoords (App.pv a)); [now elim Hp|].
    simpl. rewrite orb_true_r. discriminate.
Qed.

(** In a settled state the dead-reckoning polyline is drawn
    exactly when a fix is held and the path has two points or more. *)
Theorem dr_polyline_iff a :
  settled a ->
  (traceOf (PV.drPathCoords (App.pv a)) <> None <->
   gpsLocation (App.dr a) <> None /\ (2 <= List.length (path (App.dr a)))%nat).
Proof.
  intros (_ & _ & _ & Hp & _). rewrite Hp. unfold traceOf, projectPath.
  destruct (gpsLocation (App.dr a)); simpl; [|intuition congruence].
  destruct (Nat.ltb_spec (List.length (path (App.dr a))) 2); simpl.
  - intuition (try congruence; lia).
  - rewrite length_map. destruct (Nat.ltb_spec 1 (List.length (path (App.dr a)))); [|lia].
    intuition congruence.
Qed.

(** When the watch reports an error while a fix is held, the GPS
    panel shows the error message in place of the coordinates, while the
    header badge, the GPS statistic and the props of the map still carry the
    old fix. *)
Theorem gps_error_hides_fix_not_badge code s g :
  gpsLocation s = Some g ->
  let v := render (errorCallback code s) in
  DRView.gpsPanel v = GpsPanelError (gpsErrorMessage code) /\
  Header.gpsLockedBadge (DRView.header v) = true /\
  StatStrip.gpsStat (DRView.stats v) = "Active" /\
  DRView.visualizerFix v = Some g.
Proof.
  intros Hg v. unfold v, render, headerOf, statStripOf, gpsPanelOf, gpsStatText,
    errorCallback.
  cbn [DRView.gpsPanel DRView.header DRView.stats DRView.visualizerFix
       Header.gpsLockedBadge StatStrip.gpsStat gpsError gpsLocation setGpsError].
  rewrite Hg, truthy_gpsErrorMessage. auto.
Qed.
Lemma projectPath_length (p : list (Vec2.t num)) (g : GpsFix.t num) :
  (2 <= List.length p)%nat ->
  List.length (projectPath p (Some g)) = List.length p.
Proof.
  intros H. unfold projectPath.
  destruct (Nat.ltb_spec (List.length p) 2); [lia|]. apply length_map.
Qed.

Lemma projectPath_length_le (p : list (Vec2.t num)) gl :
  (List.length (projectPath p gl) <= List.length p)%nat.
Proof.
  unfold projectPath. destruct gl; [|cbn; lia].
  destruct (_ <? _)%nat; [cbn; lia|]. now rewrite length_map.
Qed.

(** Every integrated sample refits the map.  With a fix held, a motion
    sample that appends a point to the path changes the projected trace,
    which is a dependency of the effect of [MapBoundsHandler] (line 32):
    the map is shown and the effect asks it to fit all the points of both
    traces again, whatever view the user had chosen. *)
Theorem integrated_sample_refits pn e a g :
  settled a -> gpsLocation (App.dr a) = Some g ->
  let a' := turn (DeviceMotion pn e) a in
  List.length (path (App.dr a')) = S (List.length (path (App.dr a))) ->
  PV.drPathCoords (App.pv a') <> PV.drPathCoords (App.pv a) /\
  exists center gpsTrace drTrace,
    snd (screen a') =
    MapShown center
      (Some (projectPath (path (App.dr a')) (Some g) ++
             PV.gpsPathCoords (App.pv a))%list)
      gpsTrace drTrace.
Proof.
  intros Hs Hg a' Hl. pose proof Hs as (_ & _ & _ & Hp & _ & _ & _ & Hpath & _).
  destruct (turn_eq (DeviceMotion pn e) a _ eq_refl) as (id & Ed & Ep & _).
  fold a' in Ed, Ep. cbv beta iota delta [pvAfter] in Ep.
  assert (Hg' : gpsLocation (App.dr a') = Some g).
  { rewrite Ed.
    change (gpsLocation (set_watchIdRef id (syncRefs ?x))) with (gpsLocation x).
    now rewrite (handler_gpsLocation _ (DeviceMotion pn e)) by discriminate. }
  assert (Hpe : path (handlerOf (App.committedMonitoring a) (DeviceMotion pn e)
                        (App.dr a)) = path (App.dr a')) by now rewrite Ed.
  assert (Hge : gpsLocation (handlerOf (App.committedMonitoring a)
                   (DeviceMotion pn e) (App.dr a)) = Some g)
    by (rewrite Ed in Hg'; exact Hg').
  rewrite Hpe, Hge in Ep.
  destruct (projectEffect_coords (path (App.dr a')) (Some g) (App.pv a)) as [Ec Et].
  rewrite <- Ep in Ec, Et.
  assert (Hn : (1 <= List.length (path (App.dr a)))%nat)
    by (destruct (path (App.dr a)); [contradiction|cbn; lia]).
  assert (Hlen : List.length (PV.drPathCoords (App.pv a')) =
                 S (List.length (path (App.dr a))))
    by (rewrite Ec, projectPath_length; lia).
  split.
  - intros E. rewrite E, Hp in Hlen.
    pose proof (projectPath_length_le (path (App.dr a)) (gpsLocation (App.dr a))). lia.
  - unfold screen, pvRender, mapVisible, fitBoundsRequest.
    cbn [render DRView.visualizerFix snd]. rewrite Hg', Et, <- Ec.
    rewrite length_app.
    destruct (PV.drPathCoords (App.pv a')); [discriminate|].
    cbn [List.length Nat.ltb Nat.leb orb Nat.add]. eauto.
Qed.

End ViewFacts.

(** ** Witnesses *)

Section ViewWitnesses.
Local Open Scope string_scope.

Lemma started_settled : settled app_started.
Proof.
  apply (turn_settled click_start (Nav.Toggle NoRequestPermission NoRequestPermission));
    [apply mount_settled; reflexivity|reflexivity|vm_compute; reflexivity].
Qed.

Lemma fixed_settled : settled app_fixed.
Proof.
  apply (turn_settled (GpsSuccess 0 pos_origin) (Nav.Fix pos_origin));
    [apply started_settled|reflexivity|vm_compute; reflexivity].
Qed.

Lemma fixed_monitoring : isMonitoring (App.dr app_fixed) = true.
Proof. vm_compute; reflexivity. Qed.

Lemma fixed_fix :
  gpsLocation (App.dr app_fixed) = Some (GpsFix.mk 0%R 0%R 5%R 0%R).
Proof. vm_compute; reflexivity. Qed.

Lemma app_on_mounted : App.mounted app_on = true.
Proof. vm_compute; reflexivity. Qed.

Lemma live_badge_means_listening_witness :
  (Header.statusBadge (headerOf (App.dr app_on)) = "Live" <->
   enabled app_on (DeviceMotion 0%R (ev_quiet 0%R)) = true) /\
  (Header.toggleOnClick (headerOf (App.dr app_on)) = RunStopMonitoring <->
   enabled app_on (DeviceOrientation w_plain ev_35) = true).
Proof.
  exact (live_badge_means_listening host0 app_on 0%R (ev_quiet 0%R) w_plain ev_35
           host0_fresh reach_on app_on_mounted).
Defined.

Lemma gps_badge_outlives_watch_witness :
  watches (App.host (turn click_start app_fixed)) = [] /\
  enabled (turn click_start app_fixed) (DeviceMotion 0%R (ev_quiet 0%R)) = false /\
  Header.statusBadge (headerOf (App.dr (turn click_start app_fixed))) = "Idle" /\
  Header.gpsLockedBadge (headerOf (App.dr (turn click_start app_fixed))) = true /\
  StatStrip.gpsStat (statStripOf (App.dr (turn click_start app_fixed))) = "Active".
Proof.
  exact (gps_badge_outlives_watch app_fixed NoRequestPermission NoRequestPermission
           _ 0%R (ev_quiet 0%R) fixed_settled fixed_monitoring fixed_fix).
Defined.

Lemma run_fixed :
  runTurns [click_start; GpsSuccess 0 pos_origin] (mount host0) = Some app_fixed.
Proof. vm_compute; reflexivity. Qed.

Lemma events_fixed :
  Forall (fun ev => absEvent (num:=R) ev <> None) [click_start; GpsSuccess 0 pos_origin].
Proof. repeat constructor; discriminate. Qed.

Lemma movement_placeholder_unreachable_witness :
  snd (screen app_fixed) <> MapPlaceholder "Waiting for movement data...".
Proof.
  exact (movement_placeholder_unreachable host0 _ app_fixed host0_fresh
           events_fixed run_fixed).
Defined.

Lemma dr_polyline_iff_witness :
  traceOf (PV.drPathCoords (App.pv app_fixed)) <> None <->
  gpsLocation (App.dr app_fixed) <> None /\
  (2 <= List.length (path (App.dr app_fixed)))%nat.
Proof. exact (dr_polyline_iff app_fixed fixed_settled). Defined.

Lemma gps_error_hides_fix_not_badge_witness :
  DRView.gpsPanel (render (errorCallback TIMEOUT (App.dr app_fixed))) =
  GpsPanelError "GPS error: Request timeout".
Proof.
  exact (proj1 (gps_error_hides_fix_not_badge TIMEOUT (App.dr app_fixed) _ fixed_fix)).
Defined.
Lemma moving_settled : settled app_moving.
Proof.
  unfold settled, session_ok, listeners_ok, watch_ok, flag_ok, path_ok, refs_mirror.
  cbn. repeat split; try discriminate; auto.
Qed.

Lemma moving_grows :
  List.length (path (App.dr (turn (DeviceMotion 0%R (ev_push 1016)) app_moving))) =
  S (List.length (path (App.dr app_moving))).
Proof.
  destruct (turn_eq (DeviceMotion 0%R (ev_push 1016)) app_moving _ eq_refl)
    as (id & -> & _).
  change (path (set_watchIdRef id (syncRefs ?x))) with (path x).
  cbv beta iota delta [handlerOf].
  change (App.dr app_moving) with s_moving.
  rewrite (handleDeviceMotion_accepted 0%R (ev_push 1016) s_moving acc_push 1000%R
             eq_refl eq_refl)
    by (apply rejectDelta_false_R;
        cbv [eventTime ev_push MotionEvent.timeStamp]; lra).
  destruct (acceptSample_integrated (eventTime 0%R (ev_push 1016))
              (deltaTimeOf (eventTime 0%R (ev_push 1016)) 1000%R) acc_push
              (displaySensors (ev_push 1016) s_moving))
    as (_ & _ & _ & _ & _ & -> & _).
  - rewrite nextCount_display, (nextCount_loud _ _ acc_push_loud). reflexivity.
  - rewrite displaySensors_pathRef, length_app. cbn. lia.
Qed.

Lemma integrated_sample_refits_witness :
  PV.drPathCoords (App.pv (turn (DeviceMotion 0%R (ev_push 1016)) app_moving)) <>
  PV.drPathCoords (App.pv app_moving).
Proof.
  exact (proj1 (integrated_sample_refits 0%R (ev_push 1016) app_moving fix_origin
                  moving_settled eq_refl moving_grows)).
Defined.

End ViewWitnesses.
