(* ===== verification/Shell.v ===== *)
(** * Shell: the application shell

    [App] (src/src/components/DRModule.jsx, lines 567-752, the text of
    App.jsx) holds one state, [activeModule]: null on the landing page,
    ["dr"] or ["slam"] once a card's button was clicked (lines 655 and 705),
    null again after the back button (line 732).  With no active module it
    renders the landing page (lines 571-724); otherwise the module view
    (lines 727-751), in which [DRModule] is rendered exactly when
    [activeModule === "dr"] (line 747).

    React mounts [DRModule] at the commit in which it first appears in the
    output and unmounts it at the commit in which it disappears; [Session]
    models both ([mount], [unmount]).  [Shell.t] is the state of [App], the
    value of [activeModule] the last commit rendered, and the instance of
    [DRModule].  The events of the shell are the three clicks, the commit of
    [App] and the events of the instance.

    The theorems show that the instance is mounted exactly while the module
    view of the dead-reckoning module is displayed, that leaving the module
    releases the position watch and both listeners, and that coming back
    starts from the initial estimate. *)

From Stdlib Require Import List Bool Arith Lia String Reals.
From S2P Require Import Prelude JsNum RealNum DRState Heading Motion Geo Session Refine Views.
Import ListNotations.

(** ** The state of App *)

Module Shell.
Record t (num : Type) : Type := mk {
  activeModule : option string;
  shown : option string;
  drModule : App.t num
}.
Arguments mk {num} activeModule shown drModule.
Arguments activeModule {num} t.
Arguments shown {num} t.
Arguments drModule {num} t.
End Shell.

(** What [App] renders: the landing page, or the module view with its title
    and the modules inside it. *)
Inductive AppView (num : Type) : Type :=
| Landing
| ModuleView (title : string) (dr : option (DRView.t num * MapArea num))
             (slam : bool).
Arguments Landing {num}.
Arguments ModuleView {num} title dr slam.

(** The events of the shell. *)
Inductive ShellEvent (num : Type) : Type :=
| ClickExploreDR
| ClickExploreSLAM
| ClickBack
| ShellCommit
| Inner (ev : Event (num:=num)).
Arguments ClickExploreDR {num}.
Arguments ClickExploreSLAM {num}.
Arguments ClickBack {num}.
Arguments ShellCommit {num}.
Arguments Inner {num} ev.

Section Shell.
Context {num : Type} {N : JsNumber num} {M : JsMath num}.
Local Open Scope string_scope.

(** Line 568: no active module, and no instance of [DRModule] yet. *)
Definition shellInitial (h : Host) : Shell.t num :=
  Shell.mk None None (App.mk initialState h false pvInitial false).

(** [activeModule === name]. *)
Definition isModule (name : string) (activeModule : option string) : bool :=
  match activeModule with
  | Some m => String.eqb m name
  | None => false
  end.

(** Line 655. *)
Definition exploreDR (sh : Shell.t num) : Shell.t num :=
  Shell.mk (Some "dr") (Shell.shown sh) (Shell.drModule sh).

(** Line 705. *)
Definition exploreSLAM (sh : Shell.t num) : Shell.t num :=
  Shell.mk (Some "slam") (Shell.shown sh) (Shell.drModule sh).

(** Line 732. *)
Definition backToHome (sh : Shell.t num) : Shell.t num :=
  Shell.mk None (Shell.shown sh) (Shell.drModule sh).

(** Lines 726-751: the module view, with its title (lines 738-742) and the
    two conditional children (lines 747-748). *)
Definition moduleViewOf (activeModule : option string) (a : App.t num)
  : AppView num :=
  ModuleView
    (if isModule "dr" activeModule then "Dead Reckoning Module"
     else "Visual SLAM Module")
    (if isModule "dr" activeModule then Some (screen a) else None)
    (isModule "slam" activeModule).

(** Lines 567-752: the landing page when [activeModule] is falsy (line
    571), the module view otherwise. *)
Definition appRender (activeModule : option string) (a : App.t num)
  : AppView num :=
  if negb (truthyString activeModule) then Landing
  else moduleViewOf activeModule a.

(** A commit of [App]: the output is computed from the current
    [activeModule]; [DRModule] is mounted when line 747 renders it for the
    first time and unmounted when it no longer does. *)
Definition shellCommit (sh : Shell.t num) : Shell.t num :=
  let was := isModule "dr" (Shell.shown sh) in
  let now := isModule "dr" (Shell.activeModule sh) in
  let a := Shell.drModule sh in
  Shell.mk (Shell.activeModule sh) (Shell.activeModule sh)
    (if now && negb was then mount (App.host a)
     else if was && negb now then unmount a
     else a).

(** What is on the screen. *)
Definition shellView (sh : Shell.t num) : AppView num :=
  appRender (Shell.shown sh) (Shell.drModule sh).

(** The buttons of a page can be clicked while the page is displayed; the
    instance receives its own events, and is unmounted only by the shell. *)
Definition shellEnabled (sh : Shell.t num) (ev : ShellEvent num) : bool :=
  match ev with
  | ClickExploreDR | ClickExploreSLAM => negb (truthyString (Shell.shown sh))
  | ClickBack => truthyString (Shell.shown sh)
  | ShellCommit => true
  | Inner Unmount => false
  | Inner ev => enabled (Shell.drModule sh) ev
  end.

Definition shellHandle (ev : ShellEvent num) (sh : Shell.t num) : Shell.t num :=
  match ev with
  | ClickExploreDR => exploreDR sh
  | ClickExploreSLAM => exploreSLAM sh
  | ClickBack => backToHome sh
  | ShellCommit => shellCommit sh
  | Inner ev =>
      Shell.mk (Shell.activeModule sh) (Shell.shown sh)
               (handle ev (Shell.drModule sh))
  end.

Inductive shellStep : Shell.t num -> Shell.t num -> Prop :=
| shellStep_event sh ev :
    shellEnabled sh ev = true -> shellStep sh (shellHandle ev sh).

Fixpoint shellRun (evs : list (ShellEvent num)) (sh : Shell.t num)
  : option (Shell.t num) :=
  match evs with
  | [] => Some sh
  | ev :: rest =>
      if shellEnabled sh ev then shellRun rest (shellHandle ev sh) else None
  end.

(** ** Specification vocabulary *)

(** The instance is silent: no listener, no watch. *)
Definition released (a : App.t num) : Prop :=
  motionListener (App.dr a) = false /\
  orientationListener (App.dr a) = false /\
  watches (App.host a) = [].

(** The invariant of the shell: the instance is mounted exactly when the
    last commit rendered the dead-reckoning module, it satisfies the
    invariant of its event loop, and an unmounted instance is silent. *)
Definition shell_ok (sh : Shell.t num) : Prop :=
  App.mounted (Shell.drModule sh) = isModule "dr" (Shell.shown sh) /\
  session_ok (Shell.drModule sh) /\
  (App.mounted (Shell.drModule sh) = false -> released (Shell.drModule sh)).

End Shell.

(** *** Concrete inputs for the examples *)

Section ShellInputs.
(** The dead-reckoning module opened from the landing page. *)
Definition visit_events : list (ShellEvent R) := [ClickExploreDR; ShellCommit].
Definition shell_dr : Shell.t R :=
  fold_left (fun sh ev => shellHandle ev sh) visit_events (shellInitial host0).

End ShellInputs.

(** ** Theorems *)

Section ShellFacts.
Context {num : Type} {N : JsNumber num} {M : JsMath num}.
Implicit Types (sh : Shell.t num) (a : App.t num).
Local Open Scope string_scope.

(** An unmounted instance holds no watch. *)
Lemma session_ok_unmounted_watch a :
  session_ok a -> App.mounted a = false -> watches (App.host a) = [].
Proof.
  intros (_ & (Hw1 & Hw2) & _) Hm. unfold watching in Hw2.
  rewrite Hm, andb_false_r in Hw2.
  destruct (watchIdRef (App.dr a)); [discriminate|exact Hw1].
Qed.

Lemma shellInitial_ok h : watches h = [] -> shell_ok (shellInitial h).
Proof.
  intros Hw. unfold shell_ok, shellInitial, session_ok, listeners_ok, watch_ok,
    flag_ok, path_ok, released; cbn. rewrite Hw.
  split_all; auto; try discriminate.
Qed.

(** Unmounting releases the listeners and the watch. *)
Lemma unmount_released a : session_ok a -> released (unmount a).
Proof.
  intros Hok. pose proof (unmount_ok a Hok) as Hok'.
  destruct (unmount_off a) as [Hl Hm].
  pose proof Hok' as ((Hl1 & _) & _).
  unfold released. rewrite <- Hl1, Hl.
  split_all; auto using session_ok_unmounted_watch.
Qed.

(** *** The invariant of the shell *)
Lemma shellCommit_ok sh : shell_ok sh -> shell_ok (shellCommit sh).
Proof.
  intros (Hm & Hok & Hrel). unfold shell_ok, shellCommit. cbv zeta.
  cbn [Shell.drModule Shell.shown Shell.activeModule].
  destruct (isModule "dr" (Shell.activeModule sh)) eqn:Enow,
           (isModule "dr" (Shell.shown sh)) eqn:Ewas; cbn [andb negb].
  - auto.
  - assert (Hw : watches (App.host (Shell.drModule sh)) = []) by now apply Hrel.
    pose proof (mount_ok (num:=num) _ Hw) as Hok'.
    assert (Hmm : App.mounted (mount (num:=num) (App.host (Shell.drModule sh))) = true).
    { unfold mount, gpsEffectBody. cbn. reflexivity. }
    rewrite Hmm. split_all; auto. discriminate.
  - destruct (unmount_off (Shell.drModule sh)) as [_ Hu].
    split_all; auto using unmount_ok, unmount_released.
  - auto.
Qed.

(** The only event an unmounted, silent instance can receive is a timer, and
    a timer registers nothing. *)
Lemma inner_released a ev :
  enabled a ev = true -> ev <> Unmount ->
  App.mounted a = false -> released a -> released (handle ev a).
Proof.
  intros He Hne Hm (Hl1 & Hl2 & Hw).
  destruct ev; cbn in He; rewrite ?Hl1, ?Hl2, ?Hw, ?Hm in He;
    try discriminate; try congruence.
  unfold released; cbn. auto.
Qed.

Lemma shellHandle_ok sh ev :
  shellEnabled sh ev = true -> shell_ok sh -> shell_ok (shellHandle ev sh).
Proof.
  intros He Hok. destruct ev; try exact Hok; [now apply shellCommit_ok|].
  destruct Hok as (Hm & Hok & Hrel).
  assert (Hne : ev <> Unmount) by (intros ->; discriminate).
  assert (He' : enabled (Shell.drModule sh) ev = true) by (destruct ev; auto).
  unfold shell_ok. cbn [shellHandle Shell.drModule Shell.shown].
  rewrite handle_mounted by exact Hne.
  split_all; auto using handle_ok, inner_released.
Qed.

(** Every run of the shell is a path of its step relation. *)
Lemma shellRun_reachable (evs : list (ShellEvent num)) : forall sh sh',
  shellRun evs sh = Some sh' -> reachable shellStep sh sh'.
Proof.
  induction evs as [|ev evs IH]; intros sh sh' H; cbn [shellRun] in H.
  - inv H. apply reachable_refl.
  - destruct (shellEnabled sh ev) eqn:He; [|discriminate].
    eapply reachable_trans; [|apply IH; exact H].
    eapply reachable_step; [apply reachable_refl|]. now constructor.
Qed.

Lemma shell_ok_reachable h sh :
  watches h = [] -> reachable shellStep (shellInitial h) sh -> shell_ok sh.
Proof.
  intros Hw. apply reachable_invariant; [now apply shellInitial_ok|].
  intros x y Hx Hs. inv Hs. now apply shellHandle_ok.
Qed.

(** In every reachable state of the shell, started on a host
    that holds no watch, the instance of [DRModule] is mounted exactly when
    the screen is the module view with the dead-reckoning dashboard inside,
    and the instance satisfies the invariant of its event loop. *)
Theorem module_mounted_iff_shown h sh :
  watches h = [] -> reachable shellStep (shellInitial h) sh ->
  (App.mounted (Shell.drModule sh) = true <->
   exists title slam,
     shellView sh = ModuleView title (Some (screen (Shell.drModule sh))) slam) /\
  session_ok (Shell.drModule sh).
Proof.
  intros Hw Hr. destruct (shell_ok_reachable h sh Hw Hr) as (Hm & Hok & _).
  split; [|exact Hok]. rewrite Hm. unfold shellView, appRender, moduleViewOf, isModule, truthyString.
  destruct (Shell.shown sh) as [m|]; cbn.
  - destruct (String.eqb_spec m "dr") as [->|Hne]; cbn.
    + split; eauto.
    + destruct (String.eqb m EmptyString); cbn;
        split; try discriminate; intros (t & sl & E); discriminate.
  - split; try discriminate. intros (t & sl & E); discriminate.
Qed.


(** From the displayed dead-reckoning module, going back to the
    landing page and opening the module again always succeeds and yields a
    freshly mounted instance on the host the old one left: velocity,
    position, path, bias and traces of the old instance are gone. *)
Theorem back_discards_estimate sh :
  isModule "dr" (Shell.shown sh) = true ->
  shellRun [ClickBack; ShellCommit; ClickExploreDR; ShellCommit] sh =
  Some (Shell.mk (Some "dr") (Some "dr")
          (mount (App.host (unmount (Shell.drModule sh))))).
Proof.
  intros Hs. unfold isModule in Hs. destruct sh as [am [m|] a]; [|discriminate].
  cbn in Hs. apply String.eqb_eq in Hs. subst m. reflexivity.
Qed.
End ShellFacts.

(** ** Witnesses *)

Section ShellWitnesses.
Local Open Scope string_scope.

Lemma reach_shell_dr : reachable shellStep (shellInitial host0) shell_dr.
Proof. apply (shellRun_reachable visit_events). vm_compute; reflexivity. Qed.



Lemma shell_dr_shown : isModule "dr" (Shell.shown shell_dr) = true.
Proof. vm_compute; reflexivity. Qed.

Lemma module_mounted_iff_shown_witness : session_ok (Shell.drModule shell_dr).
Proof.
  exact (proj2 (module_mounted_iff_shown host0 shell_dr host0_fresh reach_shell_dr)).
Defined.


Lemma back_discards_estimate_witness :
  shellRun [ClickBack; ShellCommit; ClickExploreDR; ShellCommit] shell_dr =
  Some (Shell.mk (Some "dr") (Some "dr")
          (mount (App.host (unmount (Shell.drModule shell_dr))))).
Proof. exact (back_discards_estimate shell_dr shell_dr_shown). Defined.
End ShellWitnesses.
