(* ===== verification/Async.v ===== *)
(** * Async: the start of a session as the asynchronous function it is

    [startMonitoring] (src/src/components/DRModule.jsx, lines 215-252) is an
    [async] function with two [await]s (lines 223 and 233).  A call runs
    until its first [await] inside the click that starts it; what follows
    the [await] runs later, when the promise has settled, and the browser
    may deliver other events in between.  [Session] resolves the two
    [await]s inside the click.  This file models the call as it runs and
    shows what that simplification is worth.

    A suspended call is a value of [Suspended]: the [await] it waits at,
    what the promise will settle to, and what the rest of the call still
    needs.  [beginStart] is the call up to its first [await], [resume] the
    continuation of an [await] up to the next one.  [Async.t] is the
    application of [Session] together with the calls in flight, and
    [ahandle] its event loop: the events of [Session], with the click on
    the start button running [beginStart], and the settlement of a promise.

    The theorems show that a call that is not interrupted is the atomic
    [startMonitoring] of [Session]; that under the discipline of a modal
    permission prompt (no click on the toggle and no unmount while a call
    is suspended) every run is a run of the atomic event loop in which the
    click is delivered when the call completes, so the invariants of
    [Session] hold of the asynchronous program; and that without that
    discipline they do not: a component unmounted while a call is
    suspended gets its listeners registered after its cleanup has run, and
    nothing removes them. *)

From Stdlib Require Import List Bool Arith Lia String Reals.
From S2P Require Import Prelude JsNum RealNum DRState Heading Motion Geo Session Refine.
Import ListNotations.

(** ** Suspended calls *)

(** What a permission promise settles to: fulfilled with a string, or
    rejected with an error. *)
Inductive Settlement : Type :=
| Fulfils (answer : string)
| Fails (message : string).

(** A call of [startMonitoring] suspended at an [await]: at line 223, with
    the orientation API still to be asked, or at line 233, with the answer
    to the motion request in [motionGranted]. *)
Inductive Suspended : Type :=
| AwaitMotion (fate : Settlement) (orientationApi : PermissionAPI)
| AwaitOrientation (motionGranted : bool) (fate : Settlement).

(** The events of the asynchronous program: an event of the browser, or the
    settlement of the promise that the [k]-th suspended call awaits. *)
Inductive AEvent {num : Type} : Type :=
| Browser (ev : Event (num:=num))
| Settles (k : nat).
Arguments AEvent : clear implicits.

Module Async.
Record t (num : Type) : Type := mk {
  app : App.t num;
  calls : list Suspended
}.
Arguments mk {num} app calls.
Arguments app {num} t.
Arguments calls {num} t.
End Async.

Section Async.
Context {num : Type} {N : JsNumber num} {M : JsMath num}.
Local Open Scope string_scope.

(** Lines 222 and 231: [typeof requestPermission === "function"], and the
    promise the call returns when it is. *)
Definition promiseOf (api : PermissionAPI) : option Settlement :=
  match api with
  | NoRequestPermission => None
  | Resolves answer => Some (Fulfils answer)
  | Rejects message => Some (Fails message)
  end.

(** Lines 216-217. *)
Definition startPrefix (s : State num) : State num :=
  set_lastTimestampRef None (setError None s).

(** Lines 241-247. *)
Definition finishStart (motionGranted orientationGranted : bool)
  (s : State num) : State num :=
  if motionGranted && orientationGranted then
    setIsMonitoring true
      (set_orientationListener true
        (set_motionListener true s))
  else setError (Some "Permission to access one or more sensors was denied.") s.

(** Lines 248-251. *)
Definition catchStart (message : string) (s : State num) : State num :=
  setError (Some ("Error starting sensor monitoring: " ++ message)) s.

(** Lines 231-247: the orientation request, up to its [await] or, when
    there is nothing to request, to the end of the call. *)
Definition askOrientation (motionGranted : bool) (orientationApi : PermissionAPI)
  (s : State num) : State num * option Suspended :=
  match promiseOf orientationApi with
  | Some fate => (s, Some (AwaitOrientation motionGranted fate))
  | None => (finishStart motionGranted true s, None)
  end.

(** Lines 215-229: the call up to its first [await]. *)
Definition beginStart (motionApi orientationApi : PermissionAPI)
  (s : State num) : State num * option Suspended :=
  let s := startPrefix s in
  match promiseOf motionApi with
  | Some fate => (s, Some (AwaitMotion fate orientationApi))
  | None => askOrientation true orientationApi s
  end.

(** The continuation of an [await]: lines 224-247 after the first, lines
    234-247 after the second, line 249 when the promise rejects. *)
Definition resume (c : Suspended) (s : State num)
  : State num * option Suspended :=
  match c with
  | AwaitMotion (Fulfils answer) orientationApi =>
      askOrientation (String.eqb answer "granted") orientationApi s
  | AwaitOrientation motionGranted (Fulfils answer) =>
      (finishStart motionGranted (String.eqb answer "granted") s, None)
  | AwaitMotion (Fails message) _ | AwaitOrientation _ (Fails message) =>
      (catchStart message s, None)
  end.

(** *** The event loop with calls in flight *)

(** What a call that ran to an [await], or to its end, leaves in flight. *)
Definition inFlight (c : option Suspended) : list Suspended :=
  match c with Some c => [c] | None => [] end.

Definition setDr (s : State num) (a : App.t num) : App.t num :=
  withDr (fun _ => s) a.

(** No call in flight. *)
Definition idle (a : App.t num) : Async.t num := Async.mk a [].

(** The click on the toggle (line 368): [stopMonitoring] runs to its end,
    [startMonitoring] to its first [await]. *)
Definition clickToggle (motionApi orientationApi : PermissionAPI)
  (x : Async.t num) : Async.t num :=
  let a := Async.app x in
  if App.committedMonitoring a then
    Async.mk (withDr stopMonitoring a) (Async.calls x)
  else
    let (s, c) := beginStart motionApi orientationApi (App.dr a) in
    Async.mk (setDr s a) (Async.calls x ++ inFlight c).

(** The promise of the [k]-th call settles: its continuation runs to the
    next [await] or to the end. *)
Definition settle (k : nat) (x : Async.t num) : Async.t num :=
  match nth_error (Async.calls x) k with
  | Some c =>
      let (s, next) := resume c (App.dr (Async.app x)) in
      Async.mk (setDr s (Async.app x))
               (firstn k (Async.calls x) ++ inFlight next ++
                skipn (S k) (Async.calls x))
  | None => x
  end.

(** A continuation runs whether or not the component is still mounted. *)
Definition aenabled (x : Async.t num) (e : AEvent num) : bool :=
  match e with
  | Browser ev => enabled (Async.app x) ev
  | Settles k => (k <? List.length (Async.calls x))%nat
  end.

Definition ahandle (e : AEvent num) (x : Async.t num) : Async.t num :=
  match e with
  | Browser (ClickToggle motionApi orientationApi) =>
      clickToggle motionApi orientationApi x
  | Browser ev => Async.mk (handle ev (Async.app x)) (Async.calls x)
  | Settles k => settle k x
  end.

Inductive astep : Async.t num -> Async.t num -> Prop :=
| astep_event x e : aenabled x e = true -> astep x (ahandle e x).

Fixpoint arun (tr : list (AEvent num)) (x : Async.t num)
  : option (Async.t num) :=
  match tr with
  | [] => Some x
  | e :: tr => if aenabled x e then arun tr (ahandle e x) else None
  end.

End Async.

(** ** Specification vocabulary *)

Section AsyncSpec.
Context {num : Type} {N : JsNumber num} {M : JsMath num}.

(** The number of [await]s a call goes through: none where there is
    nothing to request, and a rejected motion request skips the
    orientation request. *)
Definition awaits (motionApi orientationApi : PermissionAPI) : nat :=
  let second := match promiseOf orientationApi with Some _ => 1 | None => 0 end in
  match promiseOf motionApi with
  | Some (Fails _) => 1
  | Some (Fulfils _) => S second
  | None => second
  end.

(** The [await]s a suspended call still has to go through. *)
Definition remaining (c : Suspended) : nat :=
  match c with
  | AwaitMotion (Fulfils _) orientationApi =>
      S (match promiseOf orientationApi with Some _ => 1 | None => 0 end)
  | AwaitMotion (Fails _) _ | AwaitOrientation _ _ => 1
  end.

(** The discipline of a modal prompt: while it is open the user reaches
    neither the toggle nor the navigation of the shell. *)
Definition modal (e : AEvent num) : bool :=
  match e with
  | Browser (ClickToggle _ _) | Browser Unmount => false
  | _ => true
  end.

(** The events of the browser in a trace. *)
Fixpoint browsers (tr : list (AEvent num)) : list (Event (num:=num)) :=
  match tr with
  | [] => []
  | Browser ev :: tr => ev :: browsers tr
  | Settles _ :: tr => browsers tr
  end.

(** A session that is off, as the last render saw it, on a mounted
    component. *)
Definition off (a : App.t num) : Prop :=
  isMonitoring (App.dr a) = false /\
  App.committedMonitoring a = false /\
  motionListener (App.dr a) = false /\
  App.mounted a = true.

(** The suspended call [c] belongs to a start on the APIs [motionApi] and
    [orientationApi]. *)
Definition continues (motionApi orientationApi : PermissionAPI)
  (c : Suspended) : Prop :=
  match c with
  | AwaitMotion fate o => promiseOf motionApi = Some fate /\ o = orientationApi
  | AwaitOrientation g fate =>
      promiseOf orientationApi = Some fate /\
      permissionGranted motionApi = Some g
  end.

(** The relation between the asynchronous program, started with a click
    on the toggle in the state [a0], and the atomic event loop of
    [Session]: while the call is suspended the asynchronous state is the
    atomic state before the click with the prefix of the call applied;
    when the call has completed it is the atomic state after the click. *)
Inductive reduces (motionApi orientationApi : PermissionAPI) (a0 : App.t num)
  : list (Event (num:=num)) -> Async.t num -> Prop :=
| reduces_suspended before a c :
    run before a0 = Some a -> off a ->
    continues motionApi orientationApi c ->
    reduces motionApi orientationApi a0 before
            (Async.mk (withDr startPrefix a) [c])
| reduces_completed before after a :
    run (before ++ ClickToggle motionApi orientationApi :: after) a0 = Some a ->
    reduces motionApi orientationApi a0 (before ++ after) (Async.mk a []).

(** The registrations that outlive the component. *)
Definition leaked (x : Async.t num) : Prop :=
  App.mounted (Async.app x) = false /\
  motionListener (App.dr (Async.app x)) = true /\
  orientationListener (App.dr (Async.app x)) = true.

End AsyncSpec.

(** *** Concrete inputs for the examples *)

Section AsyncInputs.
Local Open Scope string_scope.

(** A click on the start button of a browser that prompts for both
    permissions, both of which will be granted. *)
Definition click_prompted : Event (num:=R) :=
  ClickToggle (Resolves "granted") (Resolves "granted").

(** The click, a timer-free wait in which React commits, and the two
    answers. *)
Definition prompted_trace : list (AEvent R) :=
  [Settles 0; Browser Commit; Settles 0].

End AsyncInputs.

(** ** The prefix of the call moves to the right *)

Section AsyncFacts.
Context {num : Type} {N : JsNumber num} {M : JsMath num}.
Implicit Types (s : State num) (a : App.t num) (x : Async.t num).

Lemma prefix_enabled ev a : enabled (withDr startPrefix a) ev = enabled a ev.
Proof. destruct ev; reflexivity. Qed.

Lemma prefix_orientation w e s :
  handleDeviceOrientation w e (startPrefix s) =
  startPrefix (handleDeviceOrientation w e s).
Proof.
  destruct (orientationAngles e) as [[[al be] ga]|] eqn:E.
  - rewrite !(handleDeviceOrientation_valid _ _ _ _ _ _ E). cbv zeta.
    change (headingRef (startPrefix s)) with (headingRef s).
    change (compassFilterRef (startPrefix s)) with (compassFilterRef s).
    destruct (interference _ _); destruct s; reflexivity.
  - now rewrite !handleDeviceOrientation_invalid.
Qed.

(** The commit by cases on what the GPS effect reads. *)
Lemma prefix_commit a :
  commit (withDr startPrefix a) = withDr startPrefix (commit a).
Proof.
  destruct a as [s [geo ws next] c pv m].
  destruct s as [? ? ? ? ? ? ? ? watch monitoring ? ? ? ? ? ? ? ? ? ? ? ? ?].
  destruct watch, monitoring, geo, c; reflexivity.
Qed.

(** Every event of the browser other than a motion sample, a click on the
    toggle and an unmount commutes with the prefix of the call: none of
    them reads or writes [error], and the reset writes the same baseline. *)
Lemma prefix_mover ev a :
  modal (Browser ev) = true -> (forall pn e, ev <> DeviceMotion pn e) ->
  handle ev (withDr startPrefix a) = withDr startPrefix (handle ev a).
Proof.
  intros Hm Hd. destruct ev; try discriminate; cbn [handle].
  - unfold withDr; cbn. now rewrite prefix_orientation.
  - now elim (Hd performanceNow e).
  - unfold withDr; cbn. now destruct (App.dr a).
  - unfold withDr; cbn. now destruct (App.dr a).
  - apply prefix_commit.
  - unfold withDr; cbn. now destruct (App.dr a).
  - unfold withDr; cbn. now destruct (App.dr a).
  - reflexivity.
  - reflexivity.
Qed.

(** A session that is off stays off under the events a modal prompt lets
    through, and stays mounted. *)
Lemma modal_off ev a :
  modal (Browser ev) = true -> enabled a ev = true -> off a -> off (handle ev a).
Proof.
  intros Hm He (Hi & Hc & Hl & Hmt).
  destruct ev; try discriminate; cbn [handle]; unfold off.
  - pose proof (orientation_controls w e (App.dr a)) as H.
    unfold controls in H. cbn. split_all; congruence.
  - cbn in He. congruence.
  - cbn. auto.
  - cbn. auto.
  - destruct (commit_dr a) as (id & ->). unfold commit.
    destruct (Bool.eqb _ _) eqn:E; [cbn; auto|].
    rewrite Hc in E. change (isMonitoring (syncRefs ?s)) with (isMonitoring s) in E.
    rewrite Hi in E. discriminate.
  - cbn. auto.
  - cbn. auto.
  - cbn. auto.
  - cbn. auto.
Qed.

(** ** The continuation against the atomic call *)
Lemma startMonitoring_prefix m o s :
  startMonitoring m o s = requestAndListen m o (startPrefix s).
Proof. reflexivity. Qed.

(** The call up to its first [await]: suspended with the prefix applied, or
    completed as the atomic call. *)
Lemma beginStart_cases m o s :
  (exists c, beginStart m o s = (startPrefix s, Some c) /\ continues m o c) \/
  beginStart m o s = (startMonitoring m o s, None).
Proof.
  unfold beginStart, askOrientation.
  destruct m, o; cbn; try (right; reflexivity);
    left; eexists; (split; [reflexivity|cbn; auto]).
Qed.

(** The atomic call by the two answers. *)
Lemma requestAndListen_finish m o g1 g2 s :
  permissionGranted m = Some g1 -> permissionGranted o = Some g2 ->
  requestAndListen m o s = finishStart g1 g2 s.
Proof.
  unfold requestAndListen, finishStart.
  destruct m, o; cbn; intros H1 H2; try discriminate; inv H1; inv H2;
    try reflexivity; repeat (destruct (String.eqb _ _)); reflexivity.
Qed.

Lemma requestAndListen_catch m o message s :
  promiseOf m = Some (Fails message) \/
  (permissionGranted m <> None /\ promiseOf o = Some (Fails message)) ->
  requestAndListen m o s = catchStart message s.
Proof.
  unfold requestAndListen, catchStart.
  destruct m, o; cbn; intros [H|[H1 H2]]; try discriminate; try congruence.
Qed.

(** A continuation runs to the next [await] without touching the state, or
    completes the call as the atomic call does from the prefix on. *)
Lemma resume_cases m o c s :
  continues m o c ->
  (exists c', resume c s = (s, Some c') /\ continues m o c') \/
  resume c s = (requestAndListen m o s, None).
Proof.
  destruct c as [[answer|message] o'|g [answer|message]]; cbn [continues resume];
    intros [H1 H2]; subst.
  - assert (Hg : permissionGranted m = Some (String.eqb answer "granted"))
      by (destruct m; inv H1; reflexivity).
    unfold askOrientation. destruct (promiseOf o) as [fate|] eqn:Ho.
    + left. eexists. split; [reflexivity|]. now split.
    + right. f_equal. symmetry. apply requestAndListen_finish; [exact Hg|].
      destruct o; try discriminate. reflexivity.
  - right. f_equal. symmetry. apply requestAndListen_catch. now left.
  - right. f_equal. symmetry. apply requestAndListen_finish; [exact H2|].
    destruct o; inv H1. reflexivity.
  - right. f_equal. symmetry. apply requestAndListen_catch. right.
    split; [congruence|exact H1].
Qed.

(** ** The reduction *)
Lemma setDr_prefix a : setDr (startPrefix (App.dr a)) a = withDr startPrefix a.
Proof. reflexivity. Qed.

Lemma setDr_withDr s (f : State num -> State num) a :
  setDr s (withDr f a) = setDr s a.
Proof. reflexivity. Qed.

(** The atomic click on a session that the last render saw off. *)
Lemma handle_start m o a :
  App.committedMonitoring a = false ->
  handle (ClickToggle m o) a = setDr (startMonitoring m o (App.dr a)) a.
Proof.
  intros H. cbn [handle]. unfold setDr, withDr, toggleMonitoring.
  now rewrite H.
Qed.

(** An event of the browser other than the click on the toggle runs its
    handler and leaves the calls in flight alone. *)
Lemma ahandle_browser ev x :
  modal (Browser ev) = true ->
  ahandle (Browser ev) x = Async.mk (handle ev (Async.app x)) (Async.calls x).
Proof. destruct ev; try discriminate; reflexivity. Qed.

(** The click: the call is suspended, or has completed as the atomic call. *)
Lemma click_reduces m o a :
  off a -> reduces m o a [] (clickToggle m o (idle a)).
Proof.
  intros Hoff. pose proof Hoff as (_ & Hc & _ & Hm).
  unfold clickToggle, idle. cbn [Async.app Async.calls]. rewrite Hc.
  destruct (beginStart_cases m o (App.dr a)) as [(c & -> & Hk)| ->]; cbn [inFlight app].
  - rewrite setDr_prefix. now apply (reduces_suspended m o a [] a c).
  - rewrite <- (handle_start m o a Hc).
    apply (reduces_completed m o a [] [] (handle (ClickToggle m o) a)).
    cbn. now rewrite Hm.
Qed.

(** One event under the modal discipline keeps the relation. *)
Lemma reduces_step m o a0 evs x e :
  reduces m o a0 evs x -> modal e = true -> aenabled x e = true ->
  reduces m o a0 (evs ++ browsers [e]) (ahandle e x).
Proof.
  intros [before a c Hr Hoff Hk|before after a Hr] Hm He.
  - destruct e as [ev|k]; cbn [browsers].
    + cbn [aenabled Async.app] in He. rewrite prefix_enabled in He.
      rewrite ahandle_browser by assumption. cbn [Async.app Async.calls].
      rewrite prefix_mover; [|assumption|].
      * apply reduces_suspended; auto using modal_off.
        now rewrite run_snoc, Hr, He.
      * intros pn e ->. cbn in He. destruct Hoff as (_ & _ & Hl & _). congruence.
    + cbn in He. destruct k; [|discriminate]. rewrite app_nil_r.
      cbn [ahandle]. unfold settle. cbn [Async.app Async.calls nth_error firstn skipn].
      destruct (resume_cases m o c (App.dr (withDr startPrefix a)) Hk)
        as [(c' & -> & Hk')| ->]; cbn [inFlight app]; rewrite setDr_withDr.
      * now apply reduces_suspended.
      * destruct Hoff as (_ & Hc & _ & Hmt).
        change (App.dr (withDr startPrefix a)) with (startPrefix (App.dr a)).
        rewrite <- startMonitoring_prefix, <- (handle_start m o a Hc).
        rewrite <- (app_nil_r before) at 1. apply reduces_completed.
        rewrite run_snoc, Hr. cbn. now rewrite Hmt.
  - destruct e as [ev|k]; [|discriminate]. cbn [browsers].
    rewrite ahandle_browser by assumption. cbn [Async.app Async.calls aenabled] in *.
    rewrite <- app_assoc. apply reduces_completed.
    change (before ++ ClickToggle m o :: after ++ [ev])
      with (before ++ (ClickToggle m o :: after) ++ [ev]).
    now rewrite app_assoc, run_snoc, Hr, He.
Qed.

Lemma browsers_app (tr1 tr2 : list (AEvent num)) :
  browsers (tr1 ++ tr2) = browsers tr1 ++ browsers tr2.
Proof.
  induction tr1 as [|[ev|k] tr1 IH]; cbn; [reflexivity| |exact IH].
  now rewrite IH.
Qed.

Lemma reduces_run m o a0 tr : forall evs x x',
  reduces m o a0 evs x -> Forall (fun e => modal e = true) tr ->
  arun tr x = Some x' -> reduces m o a0 (evs ++ browsers tr) x'.
Proof.
  induction tr as [|e tr IH]; intros evs x x' Hx Hf Hr; cbn [arun] in Hr.
  - inv Hr. cbn. now rewrite app_nil_r.
  - inv Hf. destruct (aenabled x e) eqn:He; [|discriminate].
    change (e :: tr) with ([e] ++ tr). rewrite browsers_app, app_assoc.
    eapply IH; eauto using reduces_step.
Qed.

(** The invariant of the event loop does not mention what the prefix
    writes. *)
Lemma prefix_ok a : session_ok a -> session_ok (withDr startPrefix a).
Proof. intros H. apply session_ok_withDr; try apply H; reflexivity. Qed.

Lemma run_ok evs : forall a a', run evs a = Some a' -> session_ok a -> session_ok a'.
Proof.
  induction evs as [|ev evs IH]; cbn [run]; intros a a' Hr Hok.
  - now inv Hr.
  - destruct (enabled a ev) eqn:He; [|discriminate]. eauto using handle_ok.
Qed.

(** ** The theorems *)

(** A call that nothing interrupts is the atomic call: the click followed
    at once by the settlement of each promise the call awaits leaves the
    state the click of [Session] leaves, with no call in flight. *)
Theorem async_start_uninterrupted m o a :
  App.mounted a = true -> App.committedMonitoring a = false ->
  arun (Browser (ClickToggle m o) :: repeat (Settles 0) (awaits m o)) (idle a) =
  Some (idle (handle (ClickToggle m o) a)).
Proof.
  intros Hm Hc. rewrite (handle_start m o a Hc).
  cbn [arun aenabled Async.app idle enabled]. rewrite Hm.
  cbn [ahandle]. unfold clickToggle. cbn [Async.app Async.calls idle]. rewrite Hc.
  destruct m as [|am|mm], o as [|ao|mo]; cbn; try reflexivity;
    unfold settle; cbn; unfold setDr, withDr, idle; cbn;
    repeat (destruct (String.eqb _ _)); reflexivity.
Qed.

(** Claim C19. Under the discipline of a modal prompt the asynchronous start is the
    atomic one, delivered when the call completes.  From a session that is
    off, a click on the start button followed by any events other than a
    click on the toggle and an unmount, among them the settlements of the
    promises, ends, once the call has completed, in the state that the
    atomic event loop reaches on the same events of the browser with the
    click moved to where the call completed. *)
Theorem async_start_reduces m o tr a x :
  off a -> Forall (fun e => modal e = true) tr ->
  arun (Browser (ClickToggle m o) :: tr) (idle a) = Some x ->
  Async.calls x = [] ->
  exists before after,
    browsers tr = before ++ after /\
    run (before ++ ClickToggle m o :: after) a = Some (Async.app x).
Proof.
  intros Hoff Hf Hr Hc. cbn [arun] in Hr.
  destruct (aenabled (idle a) _); [|discriminate].
  pose proof (reduces_run m o a tr [] _ x (click_reduces m o a Hoff) Hf Hr) as H.
  cbn [app] in H. inversion H as [? ? c ? ? ? E1 E2|before after a' Hrun E1 E2].
  - subst x. discriminate.
  - subst x. exists before, after. split; [now symmetry|exact Hrun].
Qed.

(** Claim C24. Under the same discipline the invariant of [Session] holds of the
    asynchronous program at every moment, and no listener is registered
    while the call is suspended. *)
Theorem async_start_keeps_invariant m o tr a x :
  off a -> session_ok a -> Forall (fun e => modal e = true) tr ->
  arun (Browser (ClickToggle m o) :: tr) (idle a) = Some x ->
  session_ok (Async.app x) /\
  (Async.calls x <> [] -> motionListener (App.dr (Async.app x)) = false).
Proof.
  intros Hoff Hok Hf Hr. cbn [arun] in Hr.
  destruct (aenabled (idle a) _); [|discriminate].
  pose proof (reduces_run m o a tr [] _ x (click_reduces m o a Hoff) Hf Hr) as H.
  destruct H as [before a' c Hrun Hoff' _|before after a' Hrun]; cbn [Async.app Async.calls].
  - split; [eauto using prefix_ok, run_ok|]. intros _. apply Hoff'.
  - split; [eauto using run_ok|]. now intros [].
Qed.

(** Once the component is gone and no call is in flight, nothing removes a
    registered listener: the events that still reach the handlers leave
    the registrations alone, and the controls that would remove them need
    a mounted component. *)
Lemma leaked_stable x e :
  Async.calls x = [] -> leaked x -> aenabled x e = true ->
  Async.calls (ahandle e x) = [] /\ leaked (ahandle e x).
Proof.
  intros Hc (Hm & Hl1 & Hl2) He. destruct e as [ev|k].
  - cbn [aenabled] in He.
    destruct ev; cbn [enabled] in He; try congruence;
      cbn [ahandle Async.app Async.calls handle]; (split; [exact Hc|]);
      unfold leaked; cbn [Async.app]; unfold withDr; cbn [App.dr App.mounted].
    + pose proof (orientation_controls w e (App.dr (Async.app x))) as H.
      unfold controls in H. split_all; congruence.
    + pose proof (motion_controls performanceNow e (App.dr (Async.app x))) as H.
      unfold controls in H. split_all; congruence.
    + auto.
    + auto.
    + auto.
  - cbn in He. rewrite Hc in He. discriminate.
Qed.

Lemma leaked_forever tr : forall x x',
  Async.calls x = [] -> leaked x -> arun tr x = Some x' -> leaked x'.
Proof.
  induction tr as [|e tr IH]; intros x x' Hc Hl Hr; cbn [arun] in Hr.
  - now inv Hr.
  - destruct (aenabled x e) eqn:He; [|discriminate].
    destruct (leaked_stable x e Hc Hl He). eauto.
Qed.

(** *** A call that is left to complete *)
Lemma arun_cons e tr x :
  aenabled x e = true -> arun (e :: tr) x = arun tr (ahandle e x).
Proof. intros H. cbn [arun]. now rewrite H. Qed.

(** A call that suspends has [awaits] settlements to wait for. *)
Lemma beginStart_suspends m o s :
  (0 < awaits m o)%nat ->
  exists c, beginStart m o s = (startPrefix s, Some c) /\ continues m o c /\
            remaining c = awaits m o.
Proof.
  unfold beginStart, askOrientation, awaits.
  destruct m, o; cbn; try lia; intros _;
    eexists; (split; [reflexivity|]); split; cbn; auto.
Qed.

(** The settlement of the one call in flight. *)
Lemma settle_head a c tr :
  arun (Settles 0 :: tr) (Async.mk a [c]) =
  arun tr (Async.mk (setDr (fst (resume c (App.dr a))) a)
                    (inFlight (snd (resume c (App.dr a))))).
Proof.
  rewrite arun_cons by reflexivity. cbn [ahandle]. unfold settle.
  cbn [Async.app Async.calls nth_error firstn skipn app].
  destruct (resume c (App.dr a)) as [s next]. now rewrite app_nil_r.
Qed.

Lemma setDr_same a : setDr (App.dr a) a = a.
Proof. now destruct a. Qed.

(** The one call in flight, settled until it completes: the state is the
    one the atomic [try] block leaves. *)
Lemma run_to_completion m o c a :
  continues m o c ->
  arun (repeat (Settles 0) (remaining c)) (Async.mk a [c]) =
  Some (idle (setDr (requestAndListen m o (App.dr a)) a)).
Proof.
  intros Hk.
  assert (Hlast : forall g fate, continues m o (AwaitOrientation g fate) ->
            arun [Settles 0] (Async.mk a [AwaitOrientation g fate]) =
            Some (idle (setDr (requestAndListen m o (App.dr a)) a))).
  { intros g fate Hk'. rewrite settle_head.
    destruct (resume_cases m o _ (App.dr a) Hk') as [(c' & E & _)|E].
    - destruct fate; discriminate.
    - now rewrite E. }
  destruct c as [[answer|message] o'|g fate]; cbn [remaining repeat];
    [| |now apply Hlast].
  - rewrite settle_head.
    destruct (resume_cases m o _ (App.dr a) Hk) as [(c' & E & Hk')|E];
      rewrite E; cbn [fst snd inFlight];
      cbn [resume] in E; unfold askOrientation in E;
      destruct (promiseOf o') eqn:Ho; inv E; [|reflexivity].
    rewrite setDr_same. now apply Hlast.
  - rewrite settle_head.
    destruct (resume_cases m o _ (App.dr a) Hk) as [(c' & E & _)|E];
      [discriminate|]. now rewrite E.
Qed.

Lemma grants_granted m : grants m = true -> permissionGranted m = Some true.
Proof. destruct m; cbn; intros H; try discriminate; now rewrite ?H. Qed.

Lemma unmount_mounted a : App.mounted (unmount a) = false.
Proof. unfold unmount. now destruct (gpsEffectCleanup _). Qed.

(** *** Where the click lands *)
Lemma arun_app tr1 tr2 : forall x,
  arun (tr1 ++ tr2) x =
  match arun tr1 x with Some x' => arun tr2 x' | None => None end.
Proof.
  induction tr1 as [|e tr1 IH]; intros x; cbn [arun app]; [reflexivity|].
  destruct (aenabled x e); [apply IH|reflexivity].
Qed.

(** Events of the browser other than the click on the toggle run as in
    [Session] and leave the calls in flight alone. *)
Lemma arun_browsers evs : forall x,
  Forall (fun ev => modal (Browser ev) = true) evs ->
  arun (map Browser evs) x =
  option_map (fun a => Async.mk a (Async.calls x)) (run evs (Async.app x)).
Proof.
  induction evs as [|ev evs IH]; intros x Hf; cbn [map arun run]; inv Hf.
  - now destruct x.
  - cbn [aenabled]. destruct (enabled (Async.app x) ev); [|reflexivity].
    rewrite ahandle_browser by assumption. now rewrite IH.
Qed.

(** The prefix moves to the right of a whole sequence of events. *)
Lemma prefix_run evs : forall a,
  off a -> Forall (fun ev => modal (Browser ev) = true) evs ->
  run evs (withDr startPrefix a) = option_map (withDr startPrefix) (run evs a) /\
  forall a', run evs a = Some a' -> off a'.
Proof.
  induction evs as [|ev evs IH]; intros a Hoff Hf; cbn [run]; inv Hf.
  - split; [reflexivity|]. intros a' E. now inv E.
  - rewrite prefix_enabled. destruct (enabled a ev) eqn:He;
      [|split; [reflexivity|discriminate]].
    rewrite prefix_mover; [apply IH; auto using modal_off|assumption|].
    intros pn e ->. cbn in He. destruct Hoff as (_ & _ & Hl & _). congruence.
Qed.

(** With the settlements delivered together, the asynchronous start is the
    atomic event loop with the click delivered where they are. *)
Lemma async_start_at_completion m o evs1 evs2 a x :
  off a -> (0 < awaits m o)%nat ->
  Forall (fun ev => modal (Browser ev) = true) evs1 ->
  Forall (fun ev => modal (Browser ev) = true) evs2 ->
  arun (Browser (ClickToggle m o) :: map Browser evs1 ++
        repeat (Settles 0) (awaits m o) ++ map Browser evs2) (idle a) = Some x ->
  run (evs1 ++ ClickToggle m o :: evs2) a = Some (Async.app x) /\
  Async.calls x = [].
Proof.
  intros Hoff Hn Hf1 Hf2 Hr. pose proof Hoff as (_ & Hc & _ & Hm).
  destruct (beginStart_suspends m o (App.dr a) Hn) as (c & E & Hk & En).
  rewrite arun_cons in Hr by exact Hm.
  cbn [ahandle] in Hr. unfold clickToggle in Hr.
  cbn [Async.app Async.calls idle app] in Hr.
  rewrite Hc, E, setDr_prefix in Hr. cbn [inFlight] in Hr.
  rewrite arun_app, arun_browsers in Hr by assumption. cbn [Async.app Async.calls] in Hr.
  destruct (prefix_run evs1 a Hoff Hf1) as [Ep Hoff1]. rewrite Ep in Hr.
  rewrite run_app. destruct (run evs1 a) as [a1|]; [|discriminate].
  specialize (Hoff1 a1 eq_refl). destruct Hoff1 as (_ & Hc1 & _ & Hm1).
  cbn [option_map] in Hr. rewrite arun_app, <- En, (run_to_completion m o c _ Hk) in Hr.
  change (App.dr (withDr startPrefix a1)) with (startPrefix (App.dr a1)) in Hr.
  rewrite <- startMonitoring_prefix, setDr_withDr, <- (handle_start m o a1 Hc1) in Hr.
  rewrite arun_browsers in Hr by assumption. cbn [idle Async.app Async.calls] in Hr.
  cbn [run enabled]. rewrite Hm1.
  destruct (run evs2 _) as [a2|]; inv Hr. auto.
Qed.

(** *** Down to the abstract machine *)
Lemma settled_off a : settled a -> isMonitoring (App.dr a) = false -> off a.
Proof.
  intros (Hm & _ & Hc & _ & (_ & _ & Hl) & _) Hi. unfold off.
  rewrite Hc, (Hl Hm). auto.
Qed.

Lemma schedule_modal (evs : list (Event (num:=num))) :
  Forall (fun ev => modal (Browser ev) = true) evs ->
  Forall (fun ev => modal (Browser ev) = true) (schedule evs).
Proof.
  induction 1 as [|ev evs Hev _ IH]; cbn; [constructor|].
  constructor; [exact Hev|]. apply Forall_app. split; [|exact IH].
  eapply Forall_impl; [|apply effectsAfter_internal].
  now intros e [->|[->| ->]].
Qed.

(** Claim C20. The asynchronous program refines the abstract machine.  From a settled
    state with the session off, a click on the start button, then any
    turns of events that a modal prompt lets through, then the settlement
    of the promises and the commit that follows, is a run of the machine
    [Nav] on the inputs of those events followed by the toggle: the
    machine sees the start when the permissions have been answered. *)
Theorem async_refines_machine m o evs inputs a x :
  settled a -> isMonitoring (App.dr a) = false -> (0 < awaits m o)%nat ->
  Forall2 (fun ev i => absEvent ev = Some i) evs inputs ->
  Forall (fun ev => modal (Browser ev) = true) evs ->
  arun (Browser (ClickToggle m o) :: map Browser (schedule evs) ++
        repeat (Settles 0) (awaits m o) ++ [Browser Commit]) (idle a) = Some x ->
  Nav.run (inputs ++ [Nav.Toggle m o]) (abs a) = Some (abs (Async.app x)) /\
  settled (Async.app x).
Proof.
  intros Hs Hi Hn Hin Hf Hr.
  destruct (async_start_at_completion m o (schedule evs) [Commit] a x) as [Hrun _];
    auto using settled_off, schedule_modal.
  apply (schedule_refines (evs ++ [ClickToggle m o])); auto.
  - apply Forall2_app; [exact Hin|]. now repeat constructor.
  - unfold schedule in *. now rewrite flat_map_app.
Qed.

(** Claim C23. Without the discipline the invariants fail.  When the component is
    unmounted while a call that will be granted is suspended, the call
    completes after the cleanup of lines 271-279 has run: it registers the
    two listeners on a component that is gone, and no later event removes
    them. *)
Theorem unmount_while_suspended_leaks m o a :
  App.mounted a = true -> App.committedMonitoring a = false ->
  grants m = true -> grants o = true -> (0 < awaits m o)%nat ->
  exists x,
    arun (Browser (ClickToggle m o) :: Browser Unmount ::
          repeat (Settles 0) (awaits m o)) (idle a) = Some x /\
    leaked x /\
    forall tr x', arun tr x = Some x' -> leaked x'.
Proof.
  intros Hm Hc Gm Go Hn.
  destruct (beginStart_suspends m o (App.dr a) Hn) as (c & E & Hk & <-).
  rewrite arun_cons by exact Hm.
  cbn [ahandle]. unfold clickToggle. cbn [Async.app Async.calls idle app].
  rewrite Hc, E. cbn [inFlight]. rewrite arun_cons by exact Hm.
  cbn [ahandle Async.app Async.calls]. rewrite (run_to_completion m o c _ Hk).
  rewrite (requestAndListen_finish m o true true) by now apply grants_granted.
  eexists. split; [reflexivity|].
  assert (Hl : leaked (idle (setDr (finishStart true true
            (App.dr (handle Unmount (setDr (startPrefix (App.dr a)) a))))
            (handle Unmount (setDr (startPrefix (App.dr a)) a))))).
  { unfold leaked. cbn [idle Async.app]. split; [|split; reflexivity].
    apply unmount_mounted. }
  split; [exact Hl|]. intros tr x'. now apply leaked_forever.
Qed.

End AsyncFacts.

(** ** Witnesses *)

Section AsyncWitnesses.
Local Open Scope string_scope.

Lemma mount_off : off (mount (num:=R) host0).
Proof. repeat split. Qed.

Lemma prompted_modal : Forall (fun e => modal e = true) prompted_trace.
Proof. repeat constructor. Qed.

Lemma prompted_run :
  arun (Browser click_prompted :: prompted_trace) (idle (mount host0)) =
  Some (idle (handle click_prompted (handle Commit (mount host0)))).
Proof. vm_compute. reflexivity. Qed.

Lemma async_start_uninterrupted_witness :
  arun [Browser click_prompted; Settles 0; Settles 0] (idle (mount host0)) =
  Some (idle (handle click_prompted (mount host0))).
Proof.
  exact (async_start_uninterrupted (Resolves "granted") (Resolves "granted")
           (mount host0) eq_refl eq_refl).
Defined.

Lemma async_start_reduces_witness :
  exists before after,
    [Commit] = (before ++ after)%list /\
    run (before ++ click_prompted :: after)%list (mount host0) =
    Some (handle click_prompted (handle Commit (mount host0))).
Proof.
  exact (async_start_reduces (Resolves "granted") (Resolves "granted")
           prompted_trace (mount host0) _ mount_off prompted_modal
           prompted_run eq_refl).
Defined.

Lemma async_start_keeps_invariant_witness :
  session_ok (handle click_prompted (handle Commit (mount (num:=R) host0))).
Proof.
  exact (proj1 (async_start_keeps_invariant (Resolves "granted")
           (Resolves "granted") prompted_trace (mount host0) _ mount_off
           (mount_ok host0 eq_refl) prompted_modal prompted_run)).
Defined.

Lemma prompted_schedule_run :
  arun (Browser click_prompted :: map Browser (schedule [ClickReset]) ++
        repeat (Settles 0) (awaits (Resolves "granted") (Resolves "granted")) ++
        [Browser Commit])%list (idle (mount host0)) =
  Some (idle (turn click_prompted (turn ClickReset (mount host0)))).
Proof. vm_compute. reflexivity. Qed.

Lemma mount_monitoring : isMonitoring (App.dr (mount (num:=R) host0)) = false.
Proof. reflexivity. Qed.

Lemma reset_inputs :
  Forall2 (fun ev i => absEvent (num:=R) ev = Some i) [ClickReset] [Nav.Reset].
Proof. repeat constructor. Qed.

Lemma reset_modal :
  Forall (fun ev => modal (num:=R) (Browser ev) = true) [ClickReset].
Proof. repeat constructor. Qed.

Lemma async_refines_machine_witness :
  Nav.run ([Nav.Reset] ++
           [Nav.Toggle (Resolves "granted") (Resolves "granted")])%list
          (abs (mount host0)) =
  Some (abs (Async.app
               (idle (turn click_prompted (turn ClickReset (mount host0)))))).
Proof.
  exact (proj1 (async_refines_machine (Resolves "granted") (Resolves "granted")
           [ClickReset] [Nav.Reset] (mount host0)
           (idle (turn click_prompted (turn ClickReset (mount host0))))
           (mount_settled host0 eq_refl) mount_monitoring (Nat.lt_0_succ _)
           reset_inputs reset_modal prompted_schedule_run)).
Defined.

Lemma unmount_while_suspended_leaks_witness :
  exists x,
    arun [Browser click_prompted; Browser Unmount; Settles 0; Settles 0]
         (idle (mount host0)) = Some x /\
    leaked x.
Proof.
  destruct (unmount_while_suspended_leaks (Resolves "granted") (Resolves "granted")
              (mount (num:=R) host0) eq_refl eq_refl eq_refl eq_refl)
    as (x & Hr & Hl & _); [cbn; lia|].
  exists x. split; [exact Hr|exact Hl].
Defined.

End AsyncWitnesses.
