(* ===== verification/Rounded.v ===== *)
(** * Rounded: the handlers under the standard model of rounding

    The numeric theorems of [Heading], [Motion] and [Geo] read the sources
    on real numbers.  JavaScript computes on binary64: every [+ - * /] and
    every literal is rounded to a representable number.  This file reads
    the same definitions at a third instance of the number interface, the
    real numbers with a rounding operator [rnd] applied after every
    operation, and proves what survives rounding.

    - [Rounding rnd]: what the range theorems need of the operator; it is
      monotone and it leaves the integers below 2^53 alone.  Both hold of
      every rounding mode of IEEE 754.
    - [Accurate rnd u eta]: the standard model of a rounded operation,
      [rnd x = x (1 + delta) + epsilon] with [|delta| <= u] and
      [|epsilon| <= eta], in the form [|rnd x - x| <= u |x| + eta].  For
      binary64 with rounding to nearest, [u] is 2^-53 and [eta] 2^-1075,
      as long as no operation overflows.
    - [MathLib lib]: what the theorems need of the host's Math library,
      which ECMAScript leaves implementation-approximated.
    - [Fl_JsNumber], [Fl_JsMath]: the instance.  The remainder [%], the
      unary minus, [Math.abs] and the comparisons are exact in IEEE 754
      and are not rounded.

    Two operators satisfy the laws here: exact arithmetic ([id]) and
    fixed-point arithmetic with [k] fractional bits ([grid k]).  No theorem
    of this file is about infinities or NaN, which this instance does not
    have: those are the subject of [Robust]. *)

From Stdlib Require Import Reals Lra Psatz QArith ZArith Bool List Lia.
From S2P Require Import Prelude JsNum RealNum DRState Heading Motion Geo.
Import ListNotations.
Local Open Scope R_scope.

(** ** Rounding operators *)

Class Rounding (rnd : R -> R) : Prop := {
  rnd_mono : forall x y, x <= y -> rnd x <= rnd y;
  rnd_Z : forall n : Z, (Z.abs n <= 2 ^ 53)%Z -> rnd (IZR n) = IZR n
}.

Class Accurate (rnd : R -> R) (u eta : R) : Prop := {
  unit_roundoff_nonneg : 0 <= u;
  underflow_nonneg : 0 <= eta;
  rnd_error : forall x, Rabs (rnd x - x) <= u * Rabs x + eta
}.

(** Rounding to the nearest multiple of [2^-k], halves upward. *)
Definition grid (k : nat) (x : R) : R := IZR (Zfloor (x * 2 ^ k + / 2)) / 2 ^ k.

(** ** The Math library *)

Class MathLib (lib : JsMath R) : Prop := {
  (** [Math.atan2] returns an angle: the exact result is within pi. *)
  lib_atan2_range : forall y x, Rabs (matan2 (JsMath := lib) y x) <= 4;
  (** [Math.cos(+0)] is 1 (ECMAScript 21.3.2.12). *)
  lib_cos_0 : mcos (JsMath := lib) 0 = 1
}.

(** ** The instance *)

Section Instance.
Variable rnd : R -> R.
Variable lib : JsMath R.

Definition Fl_JsNumber : JsNumber R := {|
  nlit q := rnd (IZR (Qnum q) / IZR (Zpos (Qden q)));
  nadd x y := rnd (x + y);
  nsub x y := rnd (x - y);
  nmul x y := rnd (x * y);
  ndiv x y := rnd (x / y);
  nmod := Rrem;
  nneg := Ropp;
  nlt := Rltb;
  nle := Rleb;
  nisNaN := fun _ => false;
  ntruthy := Rnonzero
|}.

Definition Fl_JsMath : JsMath R := {|
  mPI := rnd PI;
  mabs := Rabs;
  msqrt := msqrt (JsMath := lib);
  mcos := mcos (JsMath := lib);
  msin := msin (JsMath := lib);
  mexp := mexp (JsMath := lib);
  matan2 := matan2 (JsMath := lib);
  mhypot := mhypot (JsMath := lib);
  mpow := mpow (JsMath := lib)
|}.

End Instance.

(** Unfold the interface at the rounded instance. *)
Ltac js_fl :=
  unfold num_or, val_or, Vec2.zero in *;
  cbn [nlit nadd nsub nmul ndiv nmod nneg nlt nle nisNaN ntruthy
       mPI mabs msqrt mcos msin mexp matan2 mhypot mpow
       Fl_JsNumber Fl_JsMath Qnum Qden] in *;
  rewrite ?Rdiv_1_r in *.

(** ** Specification vocabulary *)

(** One turn with both ends: the range a rounded heading stays in. *)
Definition closed_turn (h : R) : Prop := 0 <= h <= 360.

(** The filter holds a coefficient in [[0, 1]] and a value in
    [[0, 360]]. *)
Definition fl_filter_ok (f : CompassFilter.t R) : Prop :=
  0 <= CompassFilter.alpha f <= 1 /\
  match CompassFilter.lastValue f with
  | Some v => closed_turn v
  | None => True
  end.

(** The azimuth that enters the filter: recomputed by the tilt branch, or
    a raw azimuth in [[0, 360]]. *)
Definition fl_azimuth_ok (alpha beta gamma : R) : Prop :=
  tilted beta gamma \/ closed_turn alpha.

(** The filtered heading for a reading [c] over a stored value [v], with
    coefficient [a]: line 96-98 at the rounded instance. *)
Definition smooth (rnd : R -> R) (a c v : R) : R :=
  snd (lowPass (N := Fl_JsNumber rnd) (CompassFilter.mk (Some v) a) c).

(** The coefficient and the arithmetic keep the top of the range: smoothing
    360 over 360 does not exceed 360.  It holds of exact arithmetic for
    every coefficient, and of binary64 with the coefficient 0.2, where both
    products and the sum are exact. *)
Definition keeps_top (rnd : R -> R) (a : R) : Prop := smooth rnd a 360 360 <= 360.

(** A sequence of compass events delivered to the callback, each with the
    window of its moment. *)
Fixpoint feedCompass (rnd : R -> R) (lib : JsMath R)
  (events : list (Window R * OrientationEvent.t R)) (s : State R) : State R :=
  match events with
  | [] => s
  | (w, e) :: rest =>
      feedCompass rnd lib rest
        (handleDeviceOrientation (N := Fl_JsNumber rnd) (M := Fl_JsMath rnd lib) w e s)
  end.

(** A compass event the range theorems cover: its three angles are
    numbers, the azimuth is recomputed by the tilt branch or lies in
    [[0, 360]], and the window reports no negative rotation. *)
Definition compass_ok (rnd : R -> R) (we : Window R * OrientationEvent.t R) : Prop :=
  0 <= screenAngle (fst we) /\
  exists a b g,
    orientationAngles (N := Fl_JsNumber rnd) (snd we) = Some (a, b, g) /\
    fl_azimuth_ok a b g.

(** The positions a sequence of integrated samples runs through: each
    step is the velocity the sample left and its time step (lines
    200-201). *)
Definition track (N : JsNumber R) (pos : Vec2.t R) (steps : list (Vec2.t R * R))
  : Vec2.t R :=
  fold_left (fun p st => integratePosition (N := N) p (fst st) (snd st)) steps pos.

(** Every step moves by at most [D] along x, and the rounded track stays
    within [P] of the origin along x. *)
Definition steps_within (D : R) (steps : list (Vec2.t R * R)) : Prop :=
  Forall (fun st => Rabs (Vec2.x (fst st) * snd st) <= D) steps.

Definition track_within (rnd : R -> R) (P : R) (pos : Vec2.t R)
  (steps : list (Vec2.t R * R)) : Prop :=
  forall k, Rabs (Vec2.x (track (Fl_JsNumber rnd) pos (firstn k steps))) <= P.

(** *** Concrete inputs for the examples *)

(** Fixed-point arithmetic with four fractional bits, and the coefficient
    the literal 0.2 denotes there. *)
Definition rnd16 : R -> R := grid 4.
Definition alpha16 : R := 3 / 16.

(** Two steps of a third of a metre per second over a tenth of a second. *)
Definition steps_east : list (Vec2.t R * R) :=
  [(Vec2.mk (1 / 3) 0, 1 / 10); (Vec2.mk (1 / 3) 0, 1 / 10)].

(** ** The two operators *)

Section Operators.

Lemma Rabs_le_inv x a : Rabs x <= a -> - a <= x <= a.
Proof.
  intros H. pose proof (Rle_abs x). pose proof (Rle_abs (- x)) as H'.
  rewrite Rabs_Ropp in H'. lra.
Qed.

#[export] Instance exact_rounding : Rounding (fun x => x).
Proof. split; auto. Qed.

#[export] Instance exact_accurate : Accurate (fun x => x) 0 0.
Proof.
  split; try lra. intros x. rewrite Rminus_diag, Rabs_R0. lra.
Qed.

Lemma pow2_pos k : 0 < 2 ^ k.
Proof. apply pow_lt; lra. Qed.

Lemma grid_bounds k x :
  x * 2 ^ k - / 2 < grid k x * 2 ^ k <= x * 2 ^ k + / 2.
Proof.
  pose proof (pow2_pos k) as Hk. unfold grid.
  replace (IZR (Zfloor (x * 2 ^ k + / 2)) / 2 ^ k * 2 ^ k)
    with (IZR (Zfloor (x * 2 ^ k + / 2))) by (field; lra).
  pose proof (Zfloor_bound (x * 2 ^ k + / 2)). lra.
Qed.

Lemma grid_Z k (n : Z) : grid k (IZR n) = IZR n.
Proof.
  pose proof (pow2_pos k) as Hk. unfold grid.
  replace (2 ^ k) with (IZR (2 ^ Z.of_nat k)) at 1
    by (rewrite <- pow_IZR; reflexivity).
  rewrite <- mult_IZR.
  rewrite (Zfloor_eq (n * 2 ^ Z.of_nat k)).
  - rewrite mult_IZR, <- pow_IZR. field. lra.
  - lra.
Qed.

#[export] Instance grid_rounding k : Rounding (grid k).
Proof.
  pose proof (pow2_pos k) as Hk. split.
  - intros x y Hxy. unfold grid.
    apply Rmult_le_compat_r; [left; now apply Rinv_0_lt_compat|].
    apply IZR_le, Zfloor_le. nra.
  - intros n _. apply grid_Z.
Qed.

#[export] Instance grid_accurate k : Accurate (grid k) 0 (/ 2 / 2 ^ k).
Proof.
  pose proof (pow2_pos k) as Hk.
  assert (Hh : 0 < / 2 / 2 ^ k) by (apply Rdiv_lt_0_compat; lra).
  split; try lra. intros x.
  pose proof (grid_bounds k x) as [H1 H2].
  assert (E : grid k x - x = (grid k x * 2 ^ k - x * 2 ^ k) / 2 ^ k) by (field; lra).
  rewrite E, Rmult_0_l, Rplus_0_l.
  unfold Rdiv at 1. rewrite Rabs_mult, (Rabs_pos_eq (/ 2 ^ k)).
  2: left; now apply Rinv_0_lt_compat.
  apply Rmult_le_compat_r; [left; now apply Rinv_0_lt_compat|].
  apply Rabs_le. lra.
Qed.

(** With the rounding that changes nothing, the instance is the real
    instance: what is proved for every rounding holds of ideal
    arithmetic. *)
Lemma exact_rounding_is_real :
  Fl_JsNumber (fun x => x) = R_JsNumber /\
  Fl_JsMath (fun x => x) R_JsMath = R_JsMath.
Proof. split; reflexivity. Qed.

#[export] Instance R_MathLib : MathLib R_JsMath.
Proof.
  split.
  - intros y x. cbn. pose proof (Ratan2_bound y x). pose proof PI_4.
    apply Rabs_le. lra.
  - cbn. apply cos_0.
Qed.

End Operators.

(** ** Monotone rounding: ranges *)

Section Ranges.
Context {rnd : R -> R} {HR : Rounding rnd}.
Context {lib : JsMath R} {HL : MathLib lib}.
Local Abbreviation Fl := (Fl_JsNumber rnd).
Local Abbreviation FlM := (Fl_JsMath rnd lib).

Lemma rnd_small (n : Z) : (Z.abs n <=? 2 ^ 53)%Z = true -> rnd (IZR n) = IZR n.
Proof. intros H. apply rnd_Z. now apply Z.leb_le. Qed.

Lemma rnd_le_Z x (n : Z) :
  (Z.abs n <=? 2 ^ 53)%Z = true -> x <= IZR n -> rnd x <= IZR n.
Proof. intros Hn Hx. rewrite <- (rnd_small n Hn). now apply rnd_mono. Qed.

Lemma rnd_ge_Z x (n : Z) :
  (Z.abs n <=? 2 ^ 53)%Z = true -> IZR n <= x -> IZR n <= rnd x.
Proof. intros Hn Hx. rewrite <- (rnd_small n Hn). now apply rnd_mono. Qed.

Lemma rnd_nonneg x : 0 <= x -> 0 <= rnd x.
Proof. now apply rnd_ge_Z. Qed.

(** [Math.PI] and the factor [180 / Math.PI] of line 86, after rounding. *)
Lemma rnd_PI_bounds : 3 <= rnd PI <= 4.
Proof.
  pose proof PI_4. pose proof PI2_3_2. unfold PI2 in *.
  split; [apply rnd_ge_Z|apply rnd_le_Z]; try reflexivity; lra.
Qed.

Lemma degrees_factor_bounds : 45 <= rnd (180 / rnd PI) <= 60.
Proof.
  destruct rnd_PI_bounds as [H3 H4].
  assert (Hi : / 4 <= / rnd PI <= / 3).
  { split; apply Rinv_le_contravar; lra. }
  split; [apply rnd_ge_Z|apply rnd_le_Z]; try reflexivity;
    unfold Rdiv; lra.
Qed.

(** *** Tilt compensation *)

(** The tilt branch ends in [% 360] of a number that is not negative,
    whatever the library returned for the trigonometric functions. *)
Lemma tiltCompensate_fl_tilted a b g :
  tilted b g -> in_turn (tiltCompensate (N := Fl) (M := FlM) a b g).
Proof.
  intros Ht. unfold tiltCompensate. js_fl.
  rewrite !rnd_small by reflexivity.
  replace (Rltb 5 (Rabs b) || Rltb 5 (Rabs g))%bool with true.
  2: { symmetry. apply orb_true_iff. rewrite !Rltb_true. exact Ht. }
  apply Rrem_range; [|lra]. apply rnd_nonneg.
  match goal with |- context [matan2 ?y ?x] =>
    pose proof (lib_atan2_range y x) as Hat; set (t := matan2 y x) in *
  end.
  apply Rabs_le_inv in Hat. destruct degrees_factor_bounds as [H45 H60].
  enough (-360 <= rnd (t * rnd (180 / rnd PI))) by lra.
  apply rnd_ge_Z; [reflexivity|]. nra.
Qed.

Lemma tiltCompensate_fl_level a b g :
  ~ tilted b g -> tiltCompensate (N := Fl) (M := FlM) a b g = a.
Proof.
  intros Ht. unfold tiltCompensate. js_fl.
  rewrite !rnd_small by reflexivity.
  replace (Rltb 5 (Rabs b) || Rltb 5 (Rabs g))%bool with false; [reflexivity|].
  symmetry. apply orb_false_iff. rewrite !Rltb_false.
  unfold tilted in Ht. lra.
Qed.

Lemma tiltCompensate_fl_ok a b g :
  fl_azimuth_ok a b g -> closed_turn (tiltCompensate (N := Fl) (M := FlM) a b g).
Proof.
  intros [Ht|Ha].
  - pose proof (tiltCompensate_fl_tilted a b g Ht) as H.
    unfold in_turn, closed_turn in *. lra.
  - destruct (tilted_dec b g) as [Ht|Ht].
    + pose proof (tiltCompensate_fl_tilted a b g Ht) as H.
      unfold in_turn, closed_turn in *. lra.
    + now rewrite tiltCompensate_fl_level.
Qed.

(** *** The low-pass filter *)
Lemma smooth_eq a c v :
  smooth rnd a c v = rnd (rnd (a * c) + rnd (rnd (1 - a) * v)).
Proof.
  unfold smooth, lowPass. js_fl. now rewrite !rnd_small by reflexivity.
Qed.

Lemma lowPass_fl_next f c v :
  CompassFilter.lastValue f = Some v ->
  lowPass (N := Fl) f c =
    (CompassFilter.mk (Some (smooth rnd (CompassFilter.alpha f) c v))
                      (CompassFilter.alpha f),
     smooth rnd (CompassFilter.alpha f) c v).
Proof. intros H. unfold smooth, lowPass. cbn. now rewrite H. Qed.

(** With a coefficient in [[0, 1]] the rounded filter is monotone in the
    reading and in the stored value. *)
Lemma smooth_mono a c v c' v' :
  0 <= a <= 1 -> c <= c' -> v <= v' -> smooth rnd a c v <= smooth rnd a c' v'.
Proof.
  intros Ha Hc Hv. rewrite !smooth_eq.
  assert (H1 : 0 <= rnd (1 - a)) by (apply rnd_nonneg; lra).
  apply rnd_mono, Rplus_le_compat; apply rnd_mono; nra.
Qed.

Lemma smooth_0 a : smooth rnd a 0 0 = 0.
Proof.
  rewrite smooth_eq, !Rmult_0_r, (rnd_small 0), Rplus_0_r by reflexivity.
  now apply rnd_small.
Qed.

(** The filter keeps [[0, 360]] when the arithmetic keeps the top of the
    range. *)
Lemma lowPass_fl_range f c :
  fl_filter_ok f -> keeps_top rnd (CompassFilter.alpha f) -> closed_turn c ->
  fl_filter_ok (fst (lowPass (N := Fl) f c)) /\
  closed_turn (snd (lowPass (N := Fl) f c)).
Proof.
  intros [Ha Hv] Htop Hc. unfold fl_filter_ok, closed_turn, keeps_top in *.
  destruct (CompassFilter.lastValue f) as [v|] eqn:E.
  - rewrite (lowPass_fl_next f c v E). cbn [fst snd].
    assert (H : 0 <= smooth rnd (CompassFilter.alpha f) c v <= 360).
    { split.
      - rewrite <- (smooth_0 (CompassFilter.alpha f)). apply smooth_mono; lra.
      - etransitivity; [apply (smooth_mono _ c v 360 360); lra|exact Htop]. }
    repeat split; cbn [CompassFilter.alpha CompassFilter.lastValue]; lra.
  - rewrite lowPass_first by assumption.
    repeat split; cbn [fst snd CompassFilter.alpha CompassFilter.lastValue]; lra.
Qed.

(** *** The platform correction *)
Lemma val_or_fl angle :
  val_or (N := Fl) angle (nlit (JsNumber := Fl) 0) = val_or (N := R_JsNumber) angle (nlit 0).
Proof.
  destruct angle as [| |n]; js_fl; js_real; rewrite ?(rnd_small 0) by reflexivity;
    try reflexivity.
Qed.

Lemma platformHeading_fl_range w e c :
  0 <= screenAngle w -> closed_turn c ->
  closed_turn (platformHeading (N := Fl) w e c).
Proof.
  intros Hw Hc. unfold closed_turn, platformHeading, screenAngle in *.
  destruct (is_defined _).
  - js_fl. rewrite (rnd_small 360) by reflexivity.
    split; [apply rnd_nonneg|apply rnd_le_Z]; try reflexivity; lra.
  - destruct (screenOrientation w) as [angle|]; [|exact Hc].
    rewrite val_or_fl. cbn [nmod nadd nlit Fl_JsNumber Qnum Qden].
    rewrite Rdiv_1_r, (rnd_small 360) by reflexivity.
    assert (H : 0 <= Rrem (rnd (c + val_or angle (nlit 0))) 360 < 360).
    { apply Rrem_range; [apply rnd_nonneg|]; lra. }
    lra.
Qed.

(** *** The callback *)

(** Heading bound under rounding: for every monotone rounding that is
    exact on small integers and every Math library whose [atan2] returns an
    angle, if the filter holds a value in [[0, 360]], the arithmetic keeps
    the top of the range, the azimuth entering the filter is in one turn
    (tilt branch, or a raw azimuth in [[0, 360]]) and the screen rotation
    is not negative, then after the callback the filter still holds a value
    in [[0, 360]] and the published heading is in [[0, 360]]. *)
Theorem heading_bounded_rounded w e s a b g :
  fl_filter_ok (compassFilterRef s) ->
  keeps_top rnd (CompassFilter.alpha (compassFilterRef s)) ->
  orientationAngles (N := Fl) e = Some (a, b, g) ->
  fl_azimuth_ok a b g ->
  0 <= screenAngle w ->
  let s' := handleDeviceOrientation (N := Fl) (M := FlM) w e s in
  fl_filter_ok (compassFilterRef s') /\ closed_turn (heading s').
Proof.
  intros Hf Htop He Ha Hw. cbv zeta.
  rewrite (orientation_heading w e s a b g He), (orientation_filter w e s a b g He).
  destruct (lowPass_fl_range _ _ Hf Htop (tiltCompensate_fl_ok _ _ _ Ha)) as [Hf' Hc].
  split; [exact Hf'|]. now apply platformHeading_fl_range.
Qed.

(** *** Sequences of compass events *)

(** The coefficient is written once, by the initial state. *)
Lemma orientation_keeps_alpha w e s :
  CompassFilter.alpha (compassFilterRef (handleDeviceOrientation (N := Fl) (M := FlM) w e s))
  = CompassFilter.alpha (compassFilterRef s).
Proof.
  destruct (orientationAngles (N := Fl) e) as [[[a b] g]|] eqn:E.
  - rewrite (orientation_filter w e s a b g E). unfold lowPass.
    now destruct (CompassFilter.lastValue _).
  - now rewrite handleDeviceOrientation_invalid.
Qed.

(** The literal 0.2 is rounded to a coefficient in [[0, 1]]. *)
Lemma initial_fl_filter_ok :
  fl_filter_ok (compassFilterRef (initialState (N := Fl))).
Proof.
  split; [|exact I]. cbn.
  split; [apply rnd_ge_Z|apply rnd_le_Z]; try reflexivity; lra.
Qed.

Lemma feedCompass_range events : forall s,
  fl_filter_ok (compassFilterRef s) ->
  keeps_top rnd (CompassFilter.alpha (compassFilterRef s)) ->
  closed_turn (heading s) ->
  Forall (compass_ok rnd) events ->
  fl_filter_ok (compassFilterRef (feedCompass rnd lib events s)) /\
  closed_turn (heading (feedCompass rnd lib events s)).
Proof.
  induction events as [|[w e] rest IH]; intros s Hf Htop Hh Hev; [now split|].
  inversion Hev as [|? ? [Hw (a & b & g & He & Ha)] Hrest]; subst. cbn in *.
  destruct (heading_bounded_rounded w e s a b g Hf Htop He Ha Hw) as [Hf' Hh'].
  apply IH; auto. now rewrite orientation_keeps_alpha.
Qed.

(** Claim C15. Heading bound under rounding, over a session: for every monotone
    rounding that is exact on small integers and keeps the top of the range
    with the coefficient the literal 0.2 denotes, and every Math library
    whose [atan2] returns an angle, after any sequence of valid compass
    events from the initial state the filter holds a value in [[0, 360]]
    and the published heading is in [[0, 360]]. *)
Theorem heading_stays_bounded_rounded events :
  keeps_top rnd (nlit (JsNumber := Fl) 0.2) ->
  Forall (compass_ok rnd) events ->
  let s := feedCompass rnd lib events (initialState (N := Fl)) in
  fl_filter_ok (compassFilterRef s) /\ closed_turn (heading s).
Proof.
  intros Htop Hev. apply feedCompass_range; auto using initial_fl_filter_ok.
  unfold closed_turn. cbn. rewrite Rdiv_1_r, (rnd_small 0) by reflexivity. lra.
Qed.

(** *** The time-step guard *)

(** The guard of line 153 under rounding: a time step of one millisecond
    or more is accepted, provided the literal 0.001 does not underflow to
    zero, and a time step that is not positive is rejected.  Between the
    two the rounded quotient may reach the rounded literal, and the guard
    may accept a step shorter than one millisecond. *)
Theorem timestep_guard_rounded now last :
  0 < nlit (JsNumber := Fl) 0.001 ->
  (1 <= now - last -> rejectDelta (N := Fl) (deltaTimeOf (N := Fl) now last) = false) /\
  (now - last <= 0 -> rejectDelta (N := Fl) (deltaTimeOf (N := Fl) now last) = true).
Proof.
  unfold rejectDelta, deltaTimeOf. js_fl. rewrite (rnd_small 0) by reflexivity.
  replace (10000 / 10) with 1000 by field. rewrite (rnd_small 1000) by reflexivity.
  intros Hlit. split; intros H.
  - assert (H1 : 1 <= rnd (now - last)) by (now apply rnd_ge_Z).
    assert (H2 : rnd (1 / 1000) <= rnd (rnd (now - last) / 1000))
      by (apply rnd_mono; lra).
    apply orb_false_iff. rewrite Rleb_false, Rltb_false. lra.
  - assert (H1 : rnd (now - last) <= 0) by (now apply rnd_le_Z).
    assert (H2 : rnd (rnd (now - last) / 1000) <= 0)
      by (apply rnd_le_Z; [reflexivity|lra]).
    apply orb_true_iff. left. now apply Rleb_true.
Qed.

(** *** The projection *)

(** The projection example of the specification is exact under rounding:
    around the anchor (0, 0), the point 111320 m to the north is at
    latitude 1 and longitude 0. *)
Theorem projection_north_rounded :
  projectPoint (N := Fl) (M := FlM) 0 0 (Vec2.mk 0 111320) = (1, 0).
Proof.
  unfold projectPoint, metersPerLatDegree, metersPerLonDegree. js_fl.
  cbn [Vec2.x Vec2.y]. rewrite !Rmult_0_l. rewrite !rnd_small by reflexivity.
  replace (0 / 180) with 0 by (unfold Rdiv; ring).
  rewrite (rnd_small 0) by reflexivity. rewrite lib_cos_0, Rmult_1_r.
  rewrite !rnd_small by reflexivity.
  replace (111320 / 111320) with 1 by field.
  replace (0 / 111320) with 0 by (unfold Rdiv; ring).
  rewrite !rnd_small by reflexivity. rewrite !Rplus_0_l.
  now rewrite !rnd_small by reflexivity.
Qed.

End Ranges.

(** ** The standard model: forward error *)

Section Errors.
Context {rnd : R -> R} {u eta : R} {HA : Accurate rnd u eta}.
Local Abbreviation Fl := (Fl_JsNumber rnd).

Lemma rnd_close x : Rabs (rnd x - x) <= u * Rabs x + eta.
Proof. apply rnd_error. Qed.

(** A rounded sum with a rounded operand against the exact sum. *)
Lemma add_rounded_error p q :
  Rabs (rnd (p + rnd q) - (p + q)) <=
  u * (Rabs p + (2 + u) * Rabs q) + (2 + u) * eta.
Proof.
  pose proof unit_roundoff_nonneg as Hu. pose proof underflow_nonneg as He.
  pose proof (rnd_close q) as H1. pose proof (rnd_close (p + rnd q)) as H2.
  pose proof (Rabs_pos q) as Hq. pose proof (Rabs_pos p) as Hp.
  assert (H3 : Rabs (p + rnd q) <= Rabs p + Rabs q + (u * Rabs q + eta)).
  { replace (p + rnd q) with (p + q + (rnd q - q)) by ring.
    eapply Rle_trans; [apply Rabs_triang|].
    eapply Rle_trans; [apply Rplus_le_compat; [apply Rabs_triang|exact H1]|]. lra. }
  replace (rnd (p + rnd q) - (p + q))
    with ((rnd (p + rnd q) - (p + rnd q)) + (rnd q - q)) by ring.
  eapply Rle_trans; [apply Rabs_triang|]. nra.
Qed.

(** Local error of the position update (lines 200-201): the rounded
    position is within [u (|p| + (2 + u) |v dt|) + (2 + u) eta] of the
    exact one on each axis. *)
Lemma integratePosition_error pos vel dt :
  let fl := integratePosition (N := Fl) pos vel dt in
  let exact := integratePosition (N := R_JsNumber) pos vel dt in
  Rabs (Vec2.x fl - Vec2.x exact) <=
    u * (Rabs (Vec2.x pos) + (2 + u) * Rabs (Vec2.x vel * dt)) + (2 + u) * eta /\
  Rabs (Vec2.y fl - Vec2.y exact) <=
    u * (Rabs (Vec2.y pos) + (2 + u) * Rabs (Vec2.y vel * dt)) + (2 + u) * eta.
Proof.
  cbv zeta. unfold integratePosition. cbn. split; apply add_rounded_error.
Qed.

(** Local error of the projected latitude (line 68). *)
Lemma projectPoint_lat_error lat lon p :
  Rabs (fst (projectPoint (N := Fl) (M := R_JsMath) lat lon p) -
        fst (projectPoint (N := R_JsNumber) (M := R_JsMath) lat lon p)) <=
  u * (Rabs lat + (2 + u) * Rabs (Vec2.y p / rnd 111320)) + (2 + u) * eta +
  Rabs (Vec2.y p / rnd 111320 - Vec2.y p / 111320).
Proof.
  unfold projectPoint, metersPerLatDegree. js_fl. js_real. cbn [fst].
  replace (rnd (lat + rnd (Vec2.y p / rnd 111320)) - (lat + Vec2.y p / 111320))
    with ((rnd (lat + rnd (Vec2.y p / rnd 111320)) - (lat + Vec2.y p / rnd 111320))
          + (Vec2.y p / rnd 111320 - Vec2.y p / 111320)) by ring.
  eapply Rle_trans; [apply Rabs_triang|].
  apply Rplus_le_compat_r, add_rounded_error.
Qed.

(** One step of two tracks that start [E] apart. *)
Lemma advance_error pf pe vel dt E P D :
  Rabs (Vec2.x pf - Vec2.x pe) <= E ->
  Rabs (Vec2.x pf) <= P -> Rabs (Vec2.x vel * dt) <= D ->
  Rabs (Vec2.x (integratePosition (N := Fl) pf vel dt) -
        Vec2.x (integratePosition (N := R_JsNumber) pe vel dt)) <=
  E + (u * (P + (2 + u) * D) + (2 + u) * eta).
Proof.
  intros HE HP HD.
  pose proof unit_roundoff_nonneg as Hu.
  pose proof (proj1 (integratePosition_error pf vel dt)) as H. cbv zeta in H.
  replace (Vec2.x (integratePosition (N := Fl) pf vel dt) -
           Vec2.x (integratePosition (N := R_JsNumber) pe vel dt))
    with ((Vec2.x (integratePosition (N := Fl) pf vel dt) -
           Vec2.x (integratePosition (N := R_JsNumber) pf vel dt)) +
          (Vec2.x pf - Vec2.x pe))
    by (unfold integratePosition; cbn; ring).
  eapply Rle_trans; [apply Rabs_triang|]. nra.
Qed.

Lemma track_cons N pos st steps :
  track N pos (st :: steps) =
  track N (integratePosition (N := N) pos (fst st) (snd st)) steps.
Proof. reflexivity. Qed.

Lemma track_within_tail P pos st steps :
  track_within rnd P pos (st :: steps) ->
  Rabs (Vec2.x pos) <= P /\
  track_within rnd P (integratePosition (N := Fl) pos (fst st) (snd st)) steps.
Proof.
  intros H. split; [exact (H 0%nat)|]. intros k. exact (H (S k)).
Qed.

Lemma track_error P D steps : forall pf pe E,
  Rabs (Vec2.x pf - Vec2.x pe) <= E ->
  steps_within D steps -> track_within rnd P pf steps ->
  Rabs (Vec2.x (track Fl pf steps) - Vec2.x (track R_JsNumber pe steps)) <=
  E + INR (length steps) * (u * (P + (2 + u) * D) + (2 + u) * eta).
Proof.
  induction steps as [|[vel dt] rest IH]; intros pf pe E HE HD HP.
  - cbn. lra.
  - apply track_within_tail in HP as [HP0 HP]. inversion HD as [|? ? Hd HD']; subst.
    rewrite !track_cons. cbn [fst snd length] in *.
    pose proof (advance_error pf pe vel dt E P D HE HP0 Hd) as H1.
    pose proof (IH _ _ _ H1 HD' HP) as H2.
    rewrite S_INR. lra.
Qed.

(** Claim C16. Rounding drift of the position integrator: along a track whose
    rounded positions stay within [P] of the origin and whose steps move by
    at most [D], the rounded position after [n] samples is within
    [n (u (P + (2 + u) D) + (2 + u) eta)] of the position exact arithmetic
    computes from the same velocities and time steps.  The drift that
    rounding adds is linear in the number of samples. *)
Theorem position_drift_rounded P D pos steps :
  steps_within D steps -> track_within rnd P pos steps ->
  Rabs (Vec2.x (track Fl pos steps) - Vec2.x (track R_JsNumber pos steps)) <=
  INR (length steps) * (u * (P + (2 + u) * D) + (2 + u) * eta).
Proof.
  intros HD HP.
  pose proof (track_error P D steps pos pos 0) as H.
  rewrite Rminus_diag, Rabs_R0, Rplus_0_l in H. apply H; auto. lra.
Qed.

End Errors.

(** ** Witnesses *)

Section RoundedWitnesses.

Lemma rnd16_eval x (m : Z) :
  IZR m - / 2 <= x * 16 < IZR m + / 2 -> rnd16 x = IZR m / 16.
Proof.
  intros H. unfold rnd16, grid. replace (2 ^ 4) with 16 by (simpl; lra).
  now rewrite (Zfloor_eq m) by lra.
Qed.

Lemma literal_16 : nlit (JsNumber := Fl_JsNumber rnd16) 0.2 = alpha16.
Proof. cbn. rewrite (rnd16_eval _ 3); [reflexivity|lra]. Qed.

(** Exact arithmetic keeps the top of the range for every coefficient. *)
Lemma keeps_top_exact a : keeps_top (fun x => x) a.
Proof. unfold keeps_top. rewrite smooth_eq. lra. Qed.

(** So does fixed-point arithmetic with the coefficient 3/16. *)
Lemma keeps_top_16 : keeps_top rnd16 alpha16.
Proof.
  unfold keeps_top, alpha16. rewrite smooth_eq.
  rewrite (rnd16_eval (3 / 16 * 360) 1080) by lra.
  rewrite (rnd16_eval (1 - 3 / 16) 13) by lra.
  rewrite (rnd16_eval (13 / 16 * 360) 4680) by lra.
  rewrite (rnd16_eval _ 5760) by lra. lra.
Qed.

Lemma east_ok : compass_ok rnd16 (w_portrait, ev_east).
Proof.
  split.
  - unfold screenAngle, w_portrait. simpl. rewrite num_or_zero_R. lra.
  - exists 90, 0, 0. split; [reflexivity|]. right. unfold closed_turn. lra.
Qed.

Lemma heading_stays_bounded_rounded_witness :
  let s := feedCompass rnd16 R_JsMath [(w_portrait, ev_east); (w_portrait, ev_east)]
             (initialState (N := Fl_JsNumber rnd16)) in
  fl_filter_ok (compassFilterRef s) /\ closed_turn (heading s).
Proof.
  apply (heading_stays_bounded_rounded (rnd := rnd16) (lib := R_JsMath)).
  - rewrite literal_16. exact keeps_top_16.
  - repeat (apply Forall_cons; [exact east_ok|]). apply Forall_nil.
Defined.

Lemma timestep_guard_rounded_witness :
  rejectDelta (N := Fl_JsNumber (fun x => x))
    (deltaTimeOf (N := Fl_JsNumber (fun x => x)) 1016 1000) = false.
Proof.
  apply (proj1 (timestep_guard_rounded (rnd := fun x => x) 1016 1000 ltac:(cbn; lra))).
  lra.
Defined.

Lemma rnd16_third : rnd16 (1 / 3 * (1 / 10)) = 1 / 16.
Proof. rewrite (rnd16_eval _ 1) by lra. reflexivity. Qed.

Lemma steps_east_track k :
  Vec2.x (track (Fl_JsNumber rnd16) (Vec2.mk 1 0) (firstn k steps_east)) <= 2 /\
  0 <= Vec2.x (track (Fl_JsNumber rnd16) (Vec2.mk 1 0) (firstn k steps_east)).
Proof.
  destruct k as [|[|k]]; unfold steps_east; cbn [firstn];
    rewrite ?firstn_nil; cbn; rewrite ?rnd16_third;
    rewrite ?(rnd16_eval (1 + 1 / 16) 17) by lra;
    rewrite ?(rnd16_eval (17 / 16 + 1 / 16) 18) by lra; split; lra.
Qed.

Lemma position_drift_rounded_witness :
  Rabs (Vec2.x (track (Fl_JsNumber rnd16) (Vec2.mk 1 0) steps_east) -
        Vec2.x (track R_JsNumber (Vec2.mk 1 0) steps_east)) <=
  INR (length steps_east) * (0 * (2 + (2 + 0) * 1) + (2 + 0) * (/ 2 / 2 ^ 4)).
Proof.
  apply (position_drift_rounded (HA := grid_accurate 4) 2 1 (Vec2.mk 1 0) steps_east).
  - repeat (apply Forall_cons; [cbn; apply Rabs_le; lra|]). apply Forall_nil.
  - intros k. apply Rabs_le. pose proof (steps_east_track k) as H.
    unfold rnd16 in H. lra.
Defined.

End RoundedWitnesses.
