(* ===== verification/Robust.v ===== *)
(** * Robust: non-finite inputs on binary64

    The handlers at the binary64 instance of the number interface
    ([FloatNum]).  The guards of the sources reject values that are not
    numbers and NaN; they let the infinities through, and the motion
    callback accepts any time stamp.  The theorems of this file follow such
    a value through the arithmetic of the handler, for every Math library
    that has the special values ECMAScript fixes ([JsMathLaws]):

    - a NaN time stamp is not rejected by the time-step test of line 153 and
      turns velocity and position into NaN;
    - an infinite acceleration component turns them into non-finite values,
      and the position stays non-finite for every later sample;
    - an infinite azimuth passes the guard of lines 61-68 and leaves a
      non-finite value in the compass filter for every later sample;
    - the inputs need not be infinite: a finite acceleration whose product
      with the time step overflows leaves a non-finite velocity and
      position.

    The last section evaluates the handlers on concrete binary64 inputs with
    the library of [FloatNum]. *)

From Stdlib Require Import Floats ZArith QArith Bool List Lia.
From S2P Require Import Prelude JsNum FloatNum DRState Heading Motion Geo.
Import ListNotations.
Local Open Scope float_scope.
Set Warnings "-inexact-float".

(** ** Specification vocabulary *)

Section RobustSpec.
Context {M : JsMath float}.

(** Plus or minus infinity. *)
Definition infinite (x : float) : Prop := x = infinity \/ x = neg_infinity.

(** A point with a non-finite abscissa. *)
Definition poisoned (p : Vec2.t float) : Prop := nonfinite (Vec2.x p) = true.

(** A point whose two coordinates are NaN. *)
Definition all_nan (p : Vec2.t float) : Prop :=
  isNaN (Vec2.x p) /\ isNaN (Vec2.y p).

(** The filter holds a non-finite heading. *)
Definition filter_poisoned (f : CompassFilter.t float) : Prop :=
  exists v, CompassFilter.lastValue f = Some v /\ nonfinite v = true.

(** Feeding a sequence of compass samples. *)
Fixpoint feedOrientation (events : list (Window float * OrientationEvent.t float))
  (s : State float) : State float :=
  match events with
  | [] => s
  | (w, e) :: rest => feedOrientation rest (handleDeviceOrientation w e s)
  end.

End RobustSpec.

(** *** Concrete inputs for the examples *)

Section RobustInputs.

(** A quiet reading and a push along x, stamped [t]. *)
Definition facc_quiet : Vec3.t (jsval float) := Vec3.mk (JNum 0.01) (JNum 0.02) JNull.
Definition fev_quiet (t : float) : MotionEvent.t float :=
  MotionEvent.mk None None (Some facc_quiet) (JNum t).
Definition facc_push : Vec3.t (jsval float) := Vec3.mk (JNum 1) (JNum 0) JNull.
Definition fev_push (t : float) : MotionEvent.t float :=
  MotionEvent.mk None None (Some facc_push) (JNum t).

(** A reading with an infinite x component. *)
Definition facc_inf : Vec3.t (jsval float) := Vec3.mk (JNum infinity) (JNum 0) JNull.
Definition fev_inf (t : float) : MotionEvent.t float :=
  MotionEvent.mk None None (Some facc_inf) (JNum t).

(** A finite reading of 1e308 along x. *)
Definition facc_huge : Vec3.t (jsval float) := Vec3.mk (JNum 1e308) (JNum 0) JNull.
Definition fev_huge (t : float) : MotionEvent.t float :=
  MotionEvent.mk None None (Some facc_huge) (JNum t).

(** A session whose baseline is at 1000 ms. *)
Definition fs_running : State float := set_lastTimestampRef (Some 1000) initialState.

(** Six quiet samples, 16 ms apart. *)
Definition fsix_quiet : list (float * MotionEvent.t float) :=
  [(0, fev_quiet 1016); (0, fev_quiet 1032); (0, fev_quiet 1048);
   (0, fev_quiet 1064); (0, fev_quiet 1080); (0, fev_quiet 1096)].

(** Two pushes, then six quiet samples. *)
Definition fpush_then_quiet : list (float * MotionEvent.t float) :=
  [(0, fev_push 1016); (0, fev_push 1032);
   (0, fev_quiet 1048); (0, fev_quiet 1064); (0, fev_quiet 1080);
   (0, fev_quiet 1096); (0, fev_quiet 1112); (0, fev_quiet 1128)].

(** Compass samples: a level device, no screen rotation. *)
Definition fw_plain : Window float := mkWindow None.
Definition fev_level (alpha : float) : OrientationEvent.t float :=
  OrientationEvent.mk (JNum alpha) (JNum 0) (JNum 0) JUndefined.
Definition fev_ios_north : OrientationEvent.t float :=
  OrientationEvent.mk (JNum 0) (JNum 0) (JNum 0) (JNum 0).

End RobustInputs.

(** ** Propagation through the handlers *)

Section Robust.
Context {M : JsMath float} {L : JsMathLaws M}.
Implicit Types (s : State float).

Lemma rejectDelta_nan dt : isNaN dt -> rejectDelta dt = false.
Proof.
  intros H. unfold rejectDelta; simpl. now rewrite leb_nan_l, ltb_nan_l.
Qed.

Lemma deltaTimeOf_nan now last : isNaN now \/ isNaN last -> isNaN (deltaTimeOf now last).
Proof.
  intros [H|H]; unfold deltaTimeOf; simpl; apply div_nan_l;
    [now apply sub_nan_l|now apply sub_nan_r].
Qed.

Lemma integrateVelocity_nan v a dt :
  isNaN dt ->
  isNaN (Vec2.x (integrateVelocity v a dt)) /\ isNaN (Vec2.y (integrateVelocity v a dt)).
Proof.
  intros H. unfold integrateVelocity; simpl.
  split; apply mul_nan_r, mexp_nan, mul_nan_r, H.
Qed.

Lemma integratePosition_nan p v dt :
  isNaN dt ->
  isNaN (Vec2.x (integratePosition p v dt)) /\ isNaN (Vec2.y (integratePosition p v dt)).
Proof.
  intros H. unfold integratePosition; simpl. split; apply add_nan_r, mul_nan_r, H.
Qed.

(** Claim C29. A NaN time stamp, in the event or in the baseline, is not
    rejected by the time-step test; when the device is not declared
    stationary the sample is integrated with a NaN time step, and velocity
    and position become NaN in the refs and in the path. *)
Theorem nan_timestamp_poisons pn e s acc last :
  MotionEvent.acceleration e = Some acc ->
  lastTimestampRef s = Some last ->
  isNaN (eventTime pn e) \/ isNaN last ->
  (nextCount s acc < stationarySamplesRequired)%nat ->
  let s' := handleDeviceMotion pn e s in
  all_nan (velRef s') /\ all_nan (posRef s') /\
  path s' = pathRef s ++ [posRef s'] /\
  lastTimestampRef s' = Some (eventTime pn e).
Proof.
  intros Ha Hl Hn Hc. cbv zeta. unfold all_nan.
  pose proof (deltaTimeOf_nan _ _ Hn) as Hd.
  rewrite (handleDeviceMotion_accepted _ _ _ _ _ Ha Hl (rejectDelta_nan _ Hd)).
  apply Nat.leb_gt in Hc. rewrite <- (nextCount_display e) in Hc.
  destruct (acceptSample_integrated (eventTime pn e)
              (deltaTimeOf (eventTime pn e) last) acc _ Hc)
    as (Hv & _ & Hp & _ & _ & Hpath & _ & _ & Ht & _).
  rewrite Hv, Hp, Hpath, Ht. autorewrite with dr_simpl.
  destruct (integrateVelocity_nan (velRef s)
    (worldAcceleration (accelBiasRef s) (headingRef s) (rawX acc) (rawY acc)) _ Hd).
  destruct (integratePosition_nan (posRef s)
    (integrateVelocity (velRef s)
      (worldAcceleration (accelBiasRef s) (headingRef s) (rawX acc) (rawY acc))
      (deltaTimeOf (eventTime pn e) last)) _ Hd).
  repeat split; assumption.
Qed.

Lemma infinite_nonfinite x : infinite x -> nonfinite x = true.
Proof. intros [->| ->]; reflexivity. Qed.

Lemma infinite_is_infinity x : infinite x -> PrimFloat.is_infinity x = true.
Proof. intros [->| ->]; reflexivity. Qed.

Lemma infinite_truthy x d : infinite x -> num_or x d = x.
Proof. intros [->| ->]; reflexivity. Qed.

(** An infinite reading minus a finite bias is the reading. *)
Lemma infinite_sub_finite x b :
  infinite x -> nonfinite b = false -> x - b = x.
Proof.
  intros Hx Hb. apply Prim2SF_inj. rewrite sub_spec. unfold nonfinite in Hb.
  destruct Hx as [->| ->]; destruct (Prim2SF b) as [[|]|[|]| |[|] ? ?];
    try discriminate; reflexivity.
Qed.

Lemma deadzoneOf_infinite x : infinite x -> deadzoneOf x = x.
Proof.
  intros Hx. unfold deadzoneOf, deadzone. simpl. rewrite mabs_abs.
  destruct Hx as [->| ->]; reflexivity.
Qed.

Lemma rotateToWorld_poisoned h ax ay :
  nonfinite ax = true ->
  nonfinite (Vec2.x (rotateToWorld h ax ay)) = true /\
  nonfinite (Vec2.y (rotateToWorld h ax ay)) = true.
Proof.
  intros H. unfold rotateToWorld; simpl. split.
  - now apply add_nonfinite_l, mul_nonfinite_l.
  - now apply add_nonfinite_l, mul_nonfinite_l, opp_nonfinite.
Qed.

Lemma integrateVelocity_poisoned v a dt :
  nonfinite (Vec2.x a) = true -> nonfinite (Vec2.y a) = true ->
  nonfinite (Vec2.x (integrateVelocity v a dt)) = true /\
  nonfinite (Vec2.y (integrateVelocity v a dt)) = true.
Proof.
  intros Hx Hy. unfold integrateVelocity; simpl.
  split; now apply mul_nonfinite_l, add_nonfinite_r, mul_nonfinite_l.
Qed.

Lemma integratePosition_poisoned_vel p v dt :
  nonfinite (Vec2.x v) = true -> nonfinite (Vec2.y v) = true ->
  nonfinite (Vec2.x (integratePosition p v dt)) = true /\
  nonfinite (Vec2.y (integratePosition p v dt)) = true.
Proof.
  intros Hx Hy. unfold integratePosition; simpl.
  split; now apply add_nonfinite_r, mul_nonfinite_l.
Qed.

Lemma integratePosition_poisoned p v dt :
  poisoned p -> poisoned (integratePosition p v dt).
Proof. intros H. unfold poisoned, integratePosition; simpl. now apply add_nonfinite_l. Qed.

Lemma nextCount_infinite s acc x :
  Vec3.x acc = JNum x -> infinite x -> nextCount s acc = 0%nat.
Proof.
  intros Hx Hi. unfold nextCount, countStationary, rawX. rewrite Hx. simpl.
  rewrite (infinite_truthy x _ Hi), mhypot_infinite
    by (left; now apply infinite_is_infinity).
  reflexivity.
Qed.

(** Claim C25. An accepted sample whose x acceleration is infinite, with a
    finite bias, is never counted as quiet and is integrated: both
    components of velocity and position become non-finite, are published,
    and the point is appended to the path. *)
Theorem infinite_acceleration_poisons pn e s acc last x :
  MotionEvent.acceleration e = Some acc ->
  lastTimestampRef s = Some last ->
  rejectDelta (deltaTimeOf (eventTime pn e) last) = false ->
  Vec3.x acc = JNum x -> infinite x ->
  nonfinite (Vec2.x (accelBiasRef s)) = false ->
  let s' := handleDeviceMotion pn e s in
  nonfinite (Vec2.x (velRef s')) = true /\ nonfinite (Vec2.y (velRef s')) = true /\
  nonfinite (Vec2.x (posRef s')) = true /\ nonfinite (Vec2.y (posRef s')) = true /\
  velocity s' = velRef s' /\ position s' = posRef s' /\
  path s' = pathRef s ++ [posRef s'].
Proof.
  intros Ha Hl Hr Hx Hi Hb. cbv zeta.
  rewrite (handleDeviceMotion_accepted _ _ _ _ _ Ha Hl Hr).
  assert (Hc : (stationarySamplesRequired <=? nextCount (displaySensors e s) acc)%nat = false)
    by now rewrite (nextCount_infinite _ acc x Hx Hi).
  destruct (acceptSample_integrated (eventTime pn e)
              (deltaTimeOf (eventTime pn e) last) acc _ Hc)
    as (Hv & Hv' & Hp & Hp' & _ & Hpath & _).
  rewrite Hv, Hv', Hp, Hp', Hpath. autorewrite with dr_simpl.
  set (wa := worldAcceleration _ _ _ _).
  assert (Hwa : nonfinite (Vec2.x wa) = true /\ nonfinite (Vec2.y wa) = true).
  { apply rotateToWorld_poisoned. unfold rawX. rewrite Hx. simpl.
    rewrite (infinite_truthy x _ Hi), (infinite_sub_finite x _ Hi Hb),
      (deadzoneOf_infinite x Hi).
    now apply infinite_nonfinite. }
  destruct Hwa as [Hwx Hwy].
  destruct (integrateVelocity_poisoned (velRef s) wa
              (deltaTimeOf (eventTime pn e) last) Hwx Hwy) as [Hvx Hvy].
  destruct (integratePosition_poisoned_vel (posRef s) _
              (deltaTimeOf (eventTime pn e) last) Hvx Hvy).
  repeat split; assumption.
Qed.

Lemma motion_keeps_poisoned pn e s :
  poisoned (posRef s) -> poisoned (posRef (handleDeviceMotion pn e s)).
Proof.
  intros H. apply handleDeviceMotion_cases; intros;
    try (unfold poisoned in *; cbn; autorewrite with dr_simpl; assumption).
  apply acceptSample_cases; intros Hn.
  - destruct (acceptSample_stationary (eventTime pn e)
      (deltaTimeOf (eventTime pn e) last) acc _ Hn) as (_ & _ & -> & _).
    now autorewrite with dr_simpl.
  - destruct (acceptSample_integrated (eventTime pn e)
      (deltaTimeOf (eventTime pn e) last) acc _ Hn) as (_ & _ & -> & _).
    apply integratePosition_poisoned. now autorewrite with dr_simpl.
Qed.

(** Claim C27. A non-finite position is never repaired by the motion
    callback: after any sequence of samples it is still non-finite. *)
Theorem poisoned_position_stays samples : forall s,
  poisoned (posRef s) -> poisoned (posRef (feed samples s)).
Proof.
  induction samples as [|[pn e] rest IH]; intros s H; simpl; auto.
  apply IH, motion_keeps_poisoned, H.
Qed.

(** Claim C26. Overflow: the inputs need not be infinite.  When the product of the
    world-frame acceleration and the time step overflows, an integrated
    sample leaves a non-finite velocity and a non-finite position, and the
    point is appended to the path. *)
Theorem finite_overflow_poisons pn e s acc last :
  MotionEvent.acceleration e = Some acc ->
  lastTimestampRef s = Some last ->
  let dt := deltaTimeOf (eventTime pn e) last in
  let wa := worldAcceleration (accelBiasRef s) (headingRef s)
              (rawX acc) (rawY acc) in
  rejectDelta dt = false ->
  (stationarySamplesRequired <=? nextCount (displaySensors e s) acc)%nat = false ->
  nonfinite (Vec2.x wa * dt) = true ->
  let s' := handleDeviceMotion pn e s in
  poisoned (velRef s') /\ poisoned (posRef s') /\
  path s' = pathRef s ++ [posRef s'].
Proof.
  intros Ha Hl dt wa Hr Hc Ho. cbv zeta.
  rewrite (handleDeviceMotion_accepted _ _ _ _ _ Ha Hl Hr).
  destruct (acceptSample_integrated (eventTime pn e) dt acc _ Hc)
    as (Hv & _ & Hp & _ & _ & Hpath & _).
  unfold poisoned. fold dt. rewrite Hv, Hp, Hpath. autorewrite with dr_simpl.
  fold wa. clearbody wa dt.
  assert (Hvx : nonfinite (Vec2.x (integrateVelocity (velRef s) wa dt)) = true).
  { unfold integrateVelocity; simpl. now apply mul_nonfinite_l, add_nonfinite_r. }
  repeat split; auto.
  unfold integratePosition; simpl. now apply add_nonfinite_r, mul_nonfinite_l.
Qed.

Lemma tiltCompensate_poisoned a b g :
  nonfinite a = true -> nonfinite (tiltCompensate a b g) = true.
Proof.
  intros H. unfold tiltCompensate.
  destruct (_ || _); [|exact H]. cbv zeta. simpl.
  assert (Hc : isNaN (mcos (a * mPI / Flit 180))).
  { now apply mcos_nonfinite, div_nonfinite_l, mul_nonfinite_l. }
  apply isNaN_nonfinite, Frem_nonfinite, isNaN_nonfinite, add_nan_l, mul_nan_l,
    matan2_nan. right. now apply mul_nan_r.
Qed.

Lemma lowPass_poisons f c :
  nonfinite c = true ->
  filter_poisoned (fst (lowPass f c)) /\ nonfinite (snd (lowPass f c)) = true.
Proof.
  intros H. unfold lowPass, filter_poisoned.
  destruct (CompassFilter.lastValue f) as [v|]; simpl.
  - assert (nonfinite (CompassFilter.alpha f * c + (Flit 1 - CompassFilter.alpha f) * v) = true)
      by now apply add_nonfinite_l, mul_nonfinite_r.
    eauto.
  - eauto.
Qed.

Lemma lowPass_stays_poisoned f c :
  filter_poisoned f ->
  filter_poisoned (fst (lowPass f c)) /\ nonfinite (snd (lowPass f c)) = true.
Proof.
  intros (v & Hv & Hn). unfold lowPass, filter_poisoned. rewrite Hv. simpl.
  assert (nonfinite (CompassFilter.alpha f * c + (Flit 1 - CompassFilter.alpha f) * v) = true)
    by now apply add_nonfinite_r, mul_nonfinite_r.
  eauto.
Qed.

Lemma platformHeading_poisoned w e c :
  nonfinite c = true -> nonfinite (platformHeading w e c) = true.
Proof.
  intros H. unfold platformHeading.
  destruct (is_defined _); simpl; [now apply sub_nonfinite_r|].
  destruct (screenOrientation w); [|exact H].
  now apply isNaN_nonfinite, Frem_nonfinite, add_nonfinite_l.
Qed.

(** An infinite azimuth passes the guard. *)
Lemma orientationAngles_infinite a b g c :
  infinite a -> PrimFloat.is_nan b = false -> PrimFloat.is_nan g = false ->
  orientationAngles (OrientationEvent.mk (JNum a) (JNum b) (JNum g) c) =
  Some (a, b, g).
Proof.
  intros Ha Hb Hg. unfold orientationAngles; simpl. rewrite Hb, Hg.
  now destruct Ha as [->| ->].
Qed.

Lemma orientation_poisons w e s a b g :
  orientationAngles e = Some (a, b, g) ->
  nonfinite a = true \/ filter_poisoned (compassFilterRef s) ->
  filter_poisoned (compassFilterRef (handleDeviceOrientation w e s)) /\
  nonfinite (heading (handleDeviceOrientation w e s)) = true.
Proof.
  intros He H.
  rewrite (orientation_filter w e s a b g He), (orientation_heading w e s a b g He).
  unfold publishedHeading.
  assert (Hl : filter_poisoned (fst (lowPass (compassFilterRef s) (tiltCompensate a b g))) /\
               nonfinite (snd (lowPass (compassFilterRef s) (tiltCompensate a b g))) = true).
  { destruct H as [H|H];
      [now apply lowPass_poisons, tiltCompensate_poisoned|now apply lowPass_stays_poisoned]. }
  destruct Hl as [Hf Hs]. split; [exact Hf|now apply platformHeading_poisoned].
Qed.

Lemma orientation_keeps_poisoned w e s :
  filter_poisoned (compassFilterRef s) ->
  filter_poisoned (compassFilterRef (handleDeviceOrientation w e s)).
Proof.
  intros H. destruct (orientationAngles e) as [[[a b] g]|] eqn:E.
  - now apply (orientation_poisons w e s a b g E); right.
  - now rewrite handleDeviceOrientation_invalid.
Qed.

(** Claim C28. An infinite azimuth passes the guard of the compass callback;
    the heading it publishes is not finite, and the filter holds a
    non-finite value after it and after every later sequence of samples. *)
Theorem infinite_azimuth_poisons_filter w a b g c s events :
  infinite a -> PrimFloat.is_nan b = false -> PrimFloat.is_nan g = false ->
  let e := OrientationEvent.mk (JNum a) (JNum b) (JNum g) c in
  let s1 := handleDeviceOrientation w e s in
  nonfinite (heading s1) = true /\
  filter_poisoned (compassFilterRef (feedOrientation events s1)).
Proof.
  intros Ha Hb Hg. cbv zeta.
  pose proof (orientationAngles_infinite a b g c Ha Hb Hg) as He.
  destruct (orientation_poisons w _ s a b g He) as [Hf Hh];
    [left; now apply infinite_nonfinite|].
  split; [exact Hh|].
  revert Hf. generalize (handleDeviceOrientation w
    (OrientationEvent.mk (JNum a) (JNum b) (JNum g) c) s).
  induction events as [|[w' e'] rest IH]; intros s1 Hf; simpl; auto.
  now apply IH, orientation_keeps_poisoned.
Qed.

(** Once the filter holds a non-finite value, every valid sample publishes a
    non-finite heading. *)
Theorem poisoned_filter_publishes w e s a b g :
  orientationAngles e = Some (a, b, g) ->
  filter_poisoned (compassFilterRef s) ->
  nonfinite (heading (handleDeviceOrientation w e s)) = true.
Proof. intros He H. now apply (orientation_poisons w e s a b g He); right. Qed.

End Robust.

(** ** Evaluation on binary64 *)

Section FloatExamples.

(** The handlers evaluated on binary64 with the library of
    [FloatNum]: two pushes followed by six quiet samples end with a velocity
    of exactly zero and a position that the last sample did not move; the
    projection and the deduplication examples of the specification give the
    exact values; a level iPhone pointing north publishes 360; with filter
    and rendered heading at 10, a reading of 35 does not raise the
    calibrating flag. *)
Theorem binary64_examples :
  velRef (feed fpush_then_quiet fs_running) = Vec2.zero /\
  posRef (feed fpush_then_quiet fs_running) =
    posRef (feed (firstn 7 fpush_then_quiet) fs_running) /\
  length (pathRef (feed fpush_then_quiet fs_running)) = 8%nat /\
  projectPath [Vec2.mk 0 0; Vec2.mk 0 111320] (Some (GpsFix.mk 0 0 5 0)) =
    [(0, 0); (1, 0)] /\
  ingestAll [(0, 0); (0.4 / 111320, 0); (1 / 111320, 0)] [] =
    [(0, 0); (1 / 111320, 0)] /\
  heading (handleDeviceOrientation fw_plain fev_ios_north initialState) = 360 /\
  isCalibrating
    (handleDeviceOrientation fw_plain (fev_level 35)
       (set_compassFilterRef (CompassFilter.mk (Some 10) 0.2)
          (set_headingRef 10 initialState))) = false.
Proof. split_all; vm_compute; reflexivity. Qed.

(** The low-pass filter at the top of the range, on binary64 with the
    coefficient 0.2: smoothing 360 over 360 gives 360, and smoothing the
    largest number below 360 over itself gives that number.  With the
    monotonicity of IEEE rounding, this is the condition under which
    [Rounded] keeps the filter in [[0, 360]]. *)
Theorem binary64_keeps_top :
  snd (lowPass (CompassFilter.mk (Some 360) 0.2) 360) = 360 /\
  snd (lowPass (CompassFilter.mk (Some (next_down 360)) 0.2) (next_down 360))
    = next_down 360 /\
  (next_down 360 <? 360)%float = true.
Proof. split_all; vm_compute; reflexivity. Qed.

End FloatExamples.

(** ** Witnesses *)

Section RobustWitnesses.

Lemma nan_timestamp_poisons_witness :
  let s' := handleDeviceMotion 0 (fev_quiet nan) fs_running in
  all_nan (velRef s') /\ all_nan (posRef s') /\
  path s' = pathRef fs_running ++ [posRef s'] /\
  lastTimestampRef s' = Some (eventTime 0 (fev_quiet nan)).
Proof.
  apply (nan_timestamp_poisons 0 (fev_quiet nan) fs_running facc_quiet 1000);
    [reflexivity|reflexivity|left; reflexivity|].
  apply Nat.ltb_lt. vm_compute. reflexivity.
Defined.

Lemma infinite_acceleration_poisons_witness :
  let s' := handleDeviceMotion 0 (fev_inf 1016) fs_running in
  nonfinite (Vec2.x (velRef s')) = true /\ nonfinite (Vec2.y (velRef s')) = true /\
  nonfinite (Vec2.x (posRef s')) = true /\ nonfinite (Vec2.y (posRef s')) = true /\
  velocity s' = velRef s' /\ position s' = posRef s' /\
  path s' = pathRef fs_running ++ [posRef s'].
Proof.
  apply (infinite_acceleration_poisons 0 (fev_inf 1016) fs_running facc_inf 1000
           infinity);
    [reflexivity|reflexivity|vm_compute; reflexivity|reflexivity
    |left; reflexivity|vm_compute; reflexivity].
Defined.

Lemma poisoned_position_stays_witness :
  poisoned (posRef (feed fsix_quiet (handleDeviceMotion 0 (fev_inf 1008) fs_running))).
Proof.
  apply (poisoned_position_stays fsix_quiet). vm_compute. reflexivity.
Defined.

Lemma infinite_azimuth_poisons_filter_witness :
  let s1 := handleDeviceOrientation fw_plain
              (OrientationEvent.mk (JNum infinity) (JNum 0) (JNum 0) JUndefined)
              initialState in
  nonfinite (heading s1) = true /\
  filter_poisoned (compassFilterRef (feedOrientation [(fw_plain, fev_level 90)] s1)).
Proof.
  apply (infinite_azimuth_poisons_filter fw_plain infinity 0 0 JUndefined
           initialState [(fw_plain, fev_level 90)]);
    [left; reflexivity|reflexivity|reflexivity].
Defined.

Lemma finite_overflow_poisons_witness :
  let s' := handleDeviceMotion 0 (fev_huge 3000) fs_running in
  poisoned (velRef s') /\ poisoned (posRef s') /\
  path s' = pathRef fs_running ++ [posRef s'].
Proof.
  apply (finite_overflow_poisons 0 (fev_huge 3000) fs_running facc_huge 1000);
    vm_compute; reflexivity.
Defined.

End RobustWitnesses.
